(** * OpenVax backend server: a shallow embedding of [server.js] and of the
    account tools, with the properties of its passcode store, signed email
    change tokens, identity reconciliation and archive cascade, and of its
    other routes: email change, account creation and deletion, the
    middleware, the cross-origin policy and the mail transport.

    Conventions of the embedding.
    - A JavaScript string is represented by the bytes of its UTF-8 encoding
      (Rocq's [string]); its length is counted in UTF-16 code units
      ([JS.length]), and white space is the class [\s] of the language, of
      one, two or three bytes ([JS.after_ws]). Bytes that are not well-formed
      UTF-8 ([JS.well_formed]) stand for no string: where the code makes a
      string of received bytes ([Buffer.toString]), the statements are about
      bytes that are well formed. [toLowerCase] is given on the ASCII
      letters, and the statements that depend on its result are about ASCII
      text.
    - A value of a request body or of a JSON text is a [JSON.value] (what the
      server writes, its numbers being integers) or a [JSON.data] (what
      [JSON.parse] reads, with any number); an absent property is [None].
    - [Date.now()] is a parameter [now : Z] (milliseconds) of each request.
    - A number is a rational, [Infinity] or [NaN]; an integer is exact, and
      an operation whose result is no double is rounded to the nearest
      double ([Double.round]).
    - [Math.random()] is a parameter [r] of the request that draws it; the
      value drawn is the double of [0, 1) nearest to [r] ([Double.unit]).
    - The identity provider (Firebase Auth), the document store (Firestore)
      and the mail transport are explicit components of the server state or
      explicit outcomes handed to the handler. The provider keeps an email
      in lower case and finds it in whatever case it is asked for; it
      refuses an email that is not of the form [local@domain] and a password
      of fewer than six characters ([Auth.valid_email],
      [Auth.valid_password]); what else it refuses of new credentials is
      the [policy] of its state.
    - A JavaScript exception is the [Throw] constructor of [result].
    - A collection of the document store is a finite map from document ids
      to documents; an id is a text that the store takes as one path segment
      (no [/]), and the store itself does not fail. *)

From Stdlib Require Import ZArith String Ascii List Bool Lia QArith Qround Lqa Qpower.
From stdpp Require Import gmap strings list.

Local Open Scope Z_scope.
Local Open Scope string_scope.

Set Warnings "-register-all".

(* ===================================================================== *)
(** ** Exceptions *)
(* ===================================================================== *)

(** The errors the modelled code throws or catches; an error of the
    identity provider is represented by its [code]. *)
Inductive js_error : Type :=
  | ReferenceError (name : string)
  | TypeError (msg : string)
  | SyntaxError
  | AuthError (code : string).

Inductive result (A : Type) : Type :=
  | Ok (a : A)
  | Throw (e : js_error).
Arguments Ok {A} & a.
Arguments Throw {A} e.
Arguments Some {A} & a.

Definition bind {A B} (r : result A) (k : A -> result B) : result B :=
  match r with
  | Ok a => k a
  | Throw e => Throw e
  end.

(** [try { r } catch (e) { h e }] *)
Definition try_catch {A} (r : result A) (h : js_error -> result A) : result A :=
  match r with
  | Ok a => Ok a
  | Throw e => h e
  end.

Notation "'let*' x ':=' r 'in' k" := (bind r (fun x => k))
  (at level 10, x pattern, r at level 100, k at level 200).

(** [err.message] *)
Definition error_message (e : js_error) : string :=
  match e with
  | ReferenceError name => name ++ " is not defined"
  | TypeError msg => msg
  | SyntaxError => "Unexpected token in JSON"
  | AuthError code => code
  end.

(* ===================================================================== *)
(** ** JavaScript string primitives used by the server *)
(* ===================================================================== *)

Module JS.

(** Truthiness of a string value: the empty string is falsy. *)
Definition truthy (s : string) : bool :=
  match s with
  | EmptyString => false
  | String _ _ => true
  end.

(** Truthiness of a possibly absent string field ([undefined] is falsy). *)
Definition truthy_opt (o : option string) : bool :=
  match o with
  | Some s => truthy s
  | None => false
  end.

(** [a || b] on strings. *)
Definition or_else (a b : string) : string := if truthy a then a else b.

(** White space, the characters of the class [\s] that [trim] removes:
    U+0009 to U+000D, U+0020, U+00A0, U+1680, U+2000 to U+200A, U+2028,
    U+2029, U+202F, U+205F, U+3000 and U+FEFF. In UTF-8 the first six are
    one byte ([is_ws]: TAB, LF, VT, FF, CR and SPACE), U+00A0 is two bytes
    ([is_ws2]) and the others are three ([is_ws3]). *)
Definition is_ws (c : ascii) : bool :=
  let n := nat_of_ascii c in
  ((9 <=? n)%nat && (n <=? 13)%nat) || (n =? 32)%nat.

Definition byte (c : ascii) : N := N_of_ascii c.

Definition is_ws2 (c d : ascii) : bool := ((byte c =? 194) && (byte d =? 160))%N.

Definition is_ws3 (c d e : ascii) : bool :=
  ((byte c =? 225) && (byte d =? 154) && (byte e =? 128)
   || (byte c =? 226) && (byte d =? 128)
      && ((128 <=? byte e) && (byte e <=? 138)
          || (byte e =? 168) || (byte e =? 169) || (byte e =? 175))
   || (byte c =? 226) && (byte d =? 129) && (byte e =? 159)
   || (byte c =? 227) && (byte d =? 128) && (byte e =? 128)
   || (byte c =? 239) && (byte d =? 187) && (byte e =? 191))%N.

(** Every character of the text is an ASCII character. *)
Fixpoint ascii_only (s : string) : bool :=
  match s with
  | EmptyString => true
  | String c r => (byte c <? 128)%N && ascii_only r
  end.

(** U+00A0, the no-break space. *)
Definition NBSP : string := String "194"%char (String "160"%char EmptyString).

(** What follows the white space character [s] starts with, if it starts
    with one. *)
Definition after_ws (s : string) : option string :=
  match s with
  | EmptyString => None
  | String c r =>
      if is_ws c then Some r
      else
        match r with
        | EmptyString => None
        | String d r2 =>
            if is_ws2 c d then Some r2
            else
              match r2 with
              | EmptyString => None
              | String e r3 => if is_ws3 c d e then Some r3 else None
              end
        end
  end.

(** [s.trimStart()] *)
Fixpoint trimStart (s : string) : string :=
  match s with
  | EmptyString => s
  | String c r =>
      if is_ws c then trimStart r
      else
        match r with
        | EmptyString => s
        | String d r2 =>
            if is_ws2 c d then trimStart r2
            else
              match r2 with
              | EmptyString => s
              | String e r3 => if is_ws3 c d e then trimStart r3 else s
              end
        end
  end.

(** [s.trimEnd()]: the text up to the point from which only white space
    follows. *)
Fixpoint trimEnd (s : string) : string :=
  match s with
  | EmptyString => EmptyString
  | String c r => if truthy (trimStart s) then String c (trimEnd r) else EmptyString
  end.

(** [s.trim()] *)
Definition trim (s : string) : string := trimEnd (trimStart s).

Definition lower_ascii (c : ascii) : ascii :=
  let n := nat_of_ascii c in
  if ((65 <=? n)%nat && (n <=? 90)%nat)%bool then ascii_of_nat (n + 32) else c.

(** [s.toLowerCase()], on the ASCII letters. *)
Fixpoint toLowerCase (s : string) : string :=
  match s with
  | EmptyString => EmptyString
  | String c r => String (lower_ascii c) (toLowerCase r)
  end.

(** [s.length], the number of UTF-16 code units: one for a character of
    one, two or three bytes, two for a character of four bytes (the bytes
    10xxxxxx continue a character). *)
Fixpoint length (s : string) : nat :=
  match s with
  | EmptyString => O
  | String c r =>
      let n := nat_of_ascii c in
      ((if (n <? 128)%nat then 1 else if (n <? 192)%nat then 0
        else if (n <? 240)%nat then 1 else 2) + length r)%nat
  end.

(** A byte that continues a character. *)
Definition continuation (c : ascii) : bool := ((128 <=? byte c) && (byte c <=? 191))%N.

(** The bytes are the UTF-8 encoding of a text: every character is one byte
    below 128, or a leading byte with its continuation bytes, in the ranges
    of the Unicode standard (no overlong form, no surrogate, nothing above
    U+10FFFF). [Buffer.toString("utf8")] hands such bytes on as they are,
    and replaces what is not of this form. *)
Fixpoint well_formed (s : string) : bool :=
  match s with
  | EmptyString => true
  | String a r =>
      if (byte a <? 128)%N then well_formed r
      else
        match r with
        | EmptyString => false
        | String b r2 =>
            if ((194 <=? byte a) && (byte a <=? 223))%N
            then continuation b && well_formed r2
            else
              match r2 with
              | EmptyString => false
              | String c r3 =>
                  if ((224 <=? byte a) && (byte a <=? 239))%N then
                    (if (byte a =? 224)%N then ((160 <=? byte b) && (byte b <=? 191))%N
                     else if (byte a =? 237)%N then ((128 <=? byte b) && (byte b <=? 159))%N
                     else continuation b)
                    && continuation c && well_formed r3
                  else
                    match r3 with
                    | EmptyString => false
                    | String d r4 =>
                        ((240 <=? byte a) && (byte a <=? 244))%N
                        && (if (byte a =? 240)%N
                            then ((144 <=? byte b) && (byte b <=? 191))%N
                            else if (byte a =? 244)%N
                                 then ((128 <=? byte b) && (byte b <=? 143))%N
                                 else continuation b)
                        && continuation c && continuation d && well_formed r4
                    end
              end
        end
  end.

(** [s.includes(c)] for a one-character needle. *)
Fixpoint includes (c : ascii) (s : string) : bool :=
  match s with
  | EmptyString => false
  | String d r => if Ascii.eqb c d then true else includes c r
  end.

(** [s.split(c)] for a one-character separator; [cur] is the piece being
    read. *)
Fixpoint split_on (c : ascii) (s : string) (cur : string) : list string :=
  match s with
  | EmptyString => [cur]
  | String d r =>
      if Ascii.eqb c d then cur :: split_on c r EmptyString
      else split_on c r (cur ++ String d EmptyString)
  end.

Definition split (c : ascii) (s : string) : list string := split_on c s EmptyString.

(** [s.split(/\s+/)]: a maximal run of white space is one separator;
    [insep] tells that the previous character belonged to a separator. *)
Fixpoint split_ws_from (s : string) (cur : string) (insep : bool) : list string :=
  match s with
  | EmptyString => [cur]
  | String c r =>
      if is_ws c then
        if insep then split_ws_from r cur true
        else cur :: split_ws_from r EmptyString true
      else
        match r with
        | EmptyString => split_ws_from r (cur ++ String c EmptyString) false
        | String d r2 =>
            if is_ws2 c d then
              if insep then split_ws_from r2 cur true
              else cur :: split_ws_from r2 EmptyString true
            else
              match r2 with
              | EmptyString => split_ws_from r (cur ++ String c EmptyString) false
              | String e r3 =>
                  if is_ws3 c d e then
                    if insep then split_ws_from r3 cur true
                    else cur :: split_ws_from r3 EmptyString true
                  else split_ws_from r (cur ++ String c EmptyString) false
              end
        end
  end.

Definition split_ws (s : string) : list string := split_ws_from s EmptyString false.

(** [arr.filter(Boolean)] on an array of strings. *)
Definition filter_Boolean (l : list string) : list string := List.filter truthy l.

(** [arr.join(sep)] *)
Fixpoint join (sep : string) (l : list string) : string :=
  match l with
  | [] => EmptyString
  | [x] => x
  | x :: r => x ++ sep ++ join sep r
  end.

(** [arr.slice(1)] and [arr.slice(1, -1)] *)
Definition slice1 (l : list string) : list string := List.tl l.
Definition slice1_m1 (l : list string) : list string := List.removelast (List.tl l).

(** [arr[arr.length - 1]] *)
Definition last_elt (l : list string) : string := List.last l EmptyString.

Definition hex_digit (n : nat) : ascii :=
  if (n <? 10)%nat then ascii_of_nat (48 + n) else ascii_of_nat (55 + n).

(** The characters [encodeURIComponent] leaves alone:
    [A-Z a-z 0-9 - _ . ! ~ * ' ( )]. *)
Definition uri_unreserved (c : ascii) : bool :=
  let n := nat_of_ascii c in
  ((65 <=? n)%nat && (n <=? 90)%nat) || ((97 <=? n)%nat && (n <=? 122)%nat)
  || ((48 <=? n)%nat && (n <=? 57)%nat)
  || (n =? 45)%nat || (n =? 95)%nat || (n =? 46)%nat || (n =? 33)%nat
  || (n =? 126)%nat || (n =? 42)%nat || (n =? 39)%nat || (n =? 40)%nat
  || (n =? 41)%nat.

(** [encodeURIComponent(s)]: every other byte of the UTF-8 encoding becomes
    [%XX] with upper-case hexadecimal digits. *)
Fixpoint encodeURIComponent (s : string) : string :=
  match s with
  | EmptyString => EmptyString
  | String c r =>
      if uri_unreserved c then String c (encodeURIComponent r)
      else
        let n := nat_of_ascii c in
        String "%" (String (hex_digit (n / 16)) (String (hex_digit (n mod 16))
          (encodeURIComponent r)))
  end.

(** A number: a rational, an infinity or [NaN]. *)
Inductive number : Type :=
  | Finite (q : Q)
  | Infinity (negative : bool)
  | NaN.

(** [-x] *)
Definition negate (x : number) : number :=
  match x with
  | Finite q => Finite (- q)
  | Infinity negative => Infinity (negb negative)
  | NaN => NaN
  end.

(** Truthiness of a number: 0 and [NaN] are falsy. *)
Definition number_truthy (x : number) : bool :=
  match x with
  | Finite q => negb (Qeq_bool q 0)
  | Infinity _ => true
  | NaN => false
  end.

(** [n > x] for an integer [n]; a comparison with [NaN] is false. *)
Definition exceeds (n : Z) (x : number) : bool :=
  match x with
  | Finite q => negb (Qle_bool (inject_Z n) q)
  | Infinity negative => negative
  | NaN => false
  end.

Definition digit_char (d : Z) : ascii := ascii_of_nat (48 + Z.to_nat d).

(** Decimal digits of a non-negative integer, most significant first;
    [fuel] bounds the number of digits. *)
Fixpoint digits (fuel : nat) (n : Z) (acc : string) : string :=
  match fuel with
  | O => acc
  | S f =>
      if (n <? 10)%Z then String (digit_char n) acc
      else digits f (n / 10) (String (digit_char (n mod 10)) acc)
  end.

(** [n.toString()] for an integer-valued number (below 10^21, where
    JavaScript still prints every digit). *)
Definition toString (n : Z) : string :=
  if (n <? 0)%Z then String "-" (digits (S (Z.to_nat (Z.log2 (- n)))) (- n) EmptyString)
  else digits (S (Z.to_nat (Z.log2 n))) n EmptyString.

End JS.

(* ===================================================================== *)
(** ** JavaScript numbers: IEEE-754 doubles *)
(* ===================================================================== *)

(** A finite number of the code is a rational; an operation whose exact
    result is no double is followed by [round], the rounding to the nearest
    double with ties to the even one; a result beyond the greatest double
    is an infinity, which is decided where it can occur ([JSON.decimal]). *)
Module Double.

Definition pow2 (e : Z) : Q := (2 ^ e)%Q.

(** The exponent [k] of a positive number: 2^k <= x < 2^(k+1). *)
Definition floor_log2 (x : Q) : Z :=
  let k := (Z.log2 (Qnum x) - Z.log2 (Zpos (Qden x)))%Z in
  if Qle_bool (pow2 k) x then k else (k - 1)%Z.

(** The nearest integer, a tie going to the even one. *)
Definition round_even (y : Q) : Z :=
  let f := Qfloor y in
  match (y - inject_Z f ?= 1 # 2)%Q with
  | Lt => f
  | Eq => if Z.even f then f else (f + 1)%Z
  | Gt => (f + 1)%Z
  end.

(** The exponent of the unit in the last place of the 53-bit significand,
    bounded below by that of the subnormal numbers. *)
Definition ulp_exp (x : Q) : Z := Z.max (floor_log2 x - 52) (-1074).

Definition round_pos (x : Q) : Q :=
  (inject_Z (round_even (x / pow2 (ulp_exp x))) * pow2 (ulp_exp x))%Q.

Definition round (x : Q) : Q :=
  match Qnum x with
  | Z0 => 0%Q
  | Zpos _ => round_pos x
  | Zneg _ => (- round_pos (- x))%Q
  end.

(** A non-negative double: a significand below 2^53 at an exponent of at
    least -1074. *)
Definition representable (g : Q) : Prop :=
  exists K j : Z, 0 <= K < 2 ^ 53 /\ -1074 <= j /\ (g == inject_Z K * pow2 j)%Q.

(** The greatest double below 1. *)
Definition top : Q := (1 - pow2 (-53))%Q.

(** The value [Math.random()] returns for the draw [r]: a double of
    [0, 1), the one nearest to [r] within these bounds. A draw that is a
    double of [0, 1) is returned as it is. *)
Definition unit (r : Q) : Q :=
  let x := round r in
  if Qle_bool x 0 then 0%Q
  else if Qle_bool top x then top
  else x.

End Double.

(* ===================================================================== *)
(** ** The identity provider (Firebase Auth), as the server uses it.
       An external service: its operations follow the capability contract
       of the specification (section 6). *)
(* ===================================================================== *)

Module Auth.

Record user : Type := mkUser {
  uid : string;
  email : string;
  password : string;
  emailVerified : bool;
  disabled : bool
}.

(** Properties passed to [updateUser]; an absent property is [None]. *)
Record props : Type := mkProps {
  set_password : option string;
  set_emailVerified : option bool;
  set_disabled : option bool
}.

(** What [verifyIdToken] decodes from a bearer token. *)
Record decoded : Type := mkDecoded {
  d_uid : string;
  d_email : option string
}.

(** The provider: its accounts in creation order, the counter its next uid
    is drawn from, the bearer tokens it recognises and the credentials its
    service lets through at account creation (its failure [OTHER]). *)
Record state : Type := mkState {
  accounts : list user;
  next_uid : Z;
  tokens : gmap string decoded;
  policy : string -> string -> bool
}.

(** The checks the provider makes on every call: a password has at least
    six characters, an address is of the form [/^[^@]+@[^@]+$/]. *)
Definition valid_password (pw : string) : bool := (6 <=? JS.length pw)%nat.

Definition valid_email (e : string) : bool :=
  match JS.split "@"%char e with
  | [a; b] => JS.truthy a && JS.truthy b
  | _ => false
  end.

(** The credentials the provider accepts at account creation. *)
Definition accepts (st : state) (e pw : string) : bool :=
  valid_email e && valid_password pw && policy st e pw.

Definition has_uid (i : string) (u : user) : bool := String.eqb (uid u) i.

(** The account is registered under the address [e]: the provider keeps
    addresses in lower case and compares them without regard to case, and
    only a well-formed address is one of an account. *)
Definition has_email (e : string) (u : user) : bool :=
  valid_email e && String.eqb (JS.toLowerCase (email u)) (JS.toLowerCase e).

Definition with_accounts (st : state) (l : list user) : state :=
  mkState l (next_uid st) (tokens st) (policy st).

Definition getUser (st : state) (i : string) : result user :=
  match List.find (has_uid i) (accounts st) with
  | Some u => Ok u
  | None => Throw (AuthError "auth/user-not-found")
  end.

(** [getUserByEmail] refuses an ill-formed address before it looks anything
    up. *)
Definition getUserByEmail (st : state) (e : string) : result user :=
  if negb (valid_email e) then Throw (AuthError "auth/invalid-email")
  else
    match List.find (has_email e) (accounts st) with
    | Some u => Ok u
    | None => Throw (AuthError "auth/user-not-found")
    end.

Definition apply_props (p : props) (u : user) : user :=
  mkUser (uid u) (email u)
    (match set_password p with Some x => x | None => password u end)
    (match set_emailVerified p with Some x => x | None => emailVerified u end)
    (match set_disabled p with Some x => x | None => disabled u end).

(** [updateUser] refuses a password of fewer than six characters before it
    looks for the account. *)
Definition updateUser (st : state) (i : string) (p : props) : result state :=
  if negb (match set_password p with Some pw => valid_password pw | None => true end) then
    Throw (AuthError "auth/invalid-password")
  else if List.existsb (has_uid i) (accounts st) then
    Ok (with_accounts st
          (List.map (fun u => if has_uid i u then apply_props p u else u) (accounts st)))
  else Throw (AuthError "auth/user-not-found").

Definition createUser (st : state) (e pw : string) (verified dis : bool)
  : result (user * state) :=
  if negb (valid_email e) then Throw (AuthError "auth/invalid-email")
  else if negb (valid_password pw) then Throw (AuthError "auth/invalid-password")
  else if negb (policy st e pw) then Throw (AuthError "auth/invalid-argument")
  else if List.existsb (has_email e) (accounts st) then
    Throw (AuthError "auth/email-already-exists")
  else
    let u := mkUser ("uid" ++ JS.toString (next_uid st)) (JS.toLowerCase e) pw verified dis in
    Ok (u, mkState (accounts st ++ [u])%list (next_uid st + 1) (tokens st) (policy st)).

Definition verifyIdToken (st : state) (t : string) : result decoded :=
  match tokens st !! t with
  | Some d => Ok d
  | None => Throw (AuthError "auth/argument-error")
  end.

Definition password_only (pw : string) : props := mkProps (Some pw) None None.
Definition disabled_only (b : bool) : props := mkProps None None (Some b).
Definition reset_props (pw : string) : props := mkProps (Some pw) (Some true) (Some false).

(** Number of accounts registered under an email. *)
Definition count_email (st : state) (e : string) : nat :=
  List.length (List.filter (has_email e) (accounts st)).

End Auth.

(* ===================================================================== *)
(** ** The document store (Firestore): the three collections the server
       reads and writes *)
(* ===================================================================== *)

(** [otps/{encodeURIComponent(email)}], written by [/send-otp] only. *)
Module OtpDoc.
Record t : Type := mk {
  otp : string;
  createdAt : Z;
  expiresAt : Z
}.
End OtpDoc.

(** [users/{uid}]: the fields the modelled handlers read or write. *)
Module UserDoc.
Record t : Type := mk {
  email : option string;
  role : option string;
  isEmailVerified : option bool;
  isActive : option bool;
  createdAt : option Z;
  updatedAt : option Z
}.
Definition empty : t := mk None None None None None None.
End UserDoc.

(** [vaccineStock/{id}]: the fields of the archive cascade. *)
Module StockDoc.
Record t : Type := mk {
  createdBy_email : option string;
  isArchived : bool;
  archivedAt : option Z;
  archivedBy : option string
}.
End StockDoc.

Record state : Type := mkState {
  auth : Auth.state;
  users : gmap string UserDoc.t;
  otps : gmap string OtpDoc.t;
  vaccineStock : gmap string StockDoc.t
}.

Definition with_auth (st : state) (a : Auth.state) : state :=
  mkState a (users st) (otps st) (vaccineStock st).
Definition with_users (st : state) (u : gmap string UserDoc.t) : state :=
  mkState (auth st) u (otps st) (vaccineStock st).
Definition with_otps (st : state) (o : gmap string OtpDoc.t) : state :=
  mkState (auth st) (users st) o (vaccineStock st).
Definition with_vaccineStock (st : state) (v : gmap string StockDoc.t) : state :=
  mkState (auth st) (users st) (otps st) v.

(** The mail transport of a request: [ensureTransporter()] returns [null],
    or [sendMail] rejects, or it delivers. *)
Inductive mail_env : Type :=
  | MailNotConfigured
  | MailFails (msg : string)
  | MailOk.

(* ===================================================================== *)
(** ** HTTP responses *)
(* ===================================================================== *)

Inductive body : Type :=
  | SuccessMessage (success : bool) (message : string)   (* { success, message } *)
  | SuccessOnly                                          (* { success: true } *)
  | SuccessUid (uid : string)                            (* { success: true, uid } *)
  | ErrorOnly (error : string).                          (* { error } *)

Record response : Type := mkResponse {
  status : Z;
  payload : body
}.

(** The outcomes of [verify], named as in the specification, are the
    responses of [/verify-otp]. *)
Definition OK : response := mkResponse 200 (SuccessMessage true "OTP verified successfully").
Definition NOT_FOUND : response := mkResponse 400 (SuccessMessage false "No OTP found for this email").
Definition EXPIRED : response := mkResponse 400 (SuccessMessage false "OTP expired").
Definition MISMATCH : response := mkResponse 400 (SuccessMessage false "Invalid OTP").

(* ===================================================================== *)
(** ** Passcodes: [/send-otp], [/verify-otp], [/api/force-password-change] *)
(* ===================================================================== *)

(** [Math.floor(100000 + Math.random() * 900000)] for the draw [r]: the
    product and the sum are each rounded to a double. *)
Definition otp_number (r : Q) : Z :=
  Qfloor (Double.round (100000 + Double.round (Double.unit r * 900000))).

(** The same number in exact arithmetic. *)
Definition exact_code (r : Q) : Z := Qfloor (100000 + Double.unit r * 900000).

(** [Math.floor(100000 + Math.random() * 900000).toString()] *)
Definition generate_otp (r : Q) : string := JS.toString (otp_number r).

(** [5 * 60 * 1000] *)
Definition OTP_TTL : Z := 5 * 60 * 1000.

(** The best-effort block of [/send-otp]: set the account's password to the
    passcode; any failure is logged and swallowed. *)
Definition sync_password (a : Auth.state) (email otp : string) : Auth.state :=
  match
    (let* userRecord := Auth.getUserByEmail a email in
     Auth.updateUser a (Auth.uid userRecord) (Auth.password_only otp))
  with
  | Ok a' => a'
  | Throw _ => a
  end.

(** [app.post("/send-otp", ...)] *)
Definition send_otp (now : Z) (r : Q) (mail : mail_env)
    (email : option string) (st : state) : response * state :=
  match email with
  | Some email =>
      if negb (JS.truthy email) then
        (mkResponse 400 (SuccessMessage false "Email is required"), st)
      else
        let otp := generate_otp r in
        let expiresAt := now + OTP_TTL in
        let emailKey := JS.encodeURIComponent email in
        let st1 := with_auth st (sync_password (auth st) email otp) in
        let st2 := with_otps st1 (<[emailKey := OtpDoc.mk otp now expiresAt]> (otps st1)) in
        match mail with
        | MailNotConfigured =>
            (mkResponse 500 (SuccessMessage false "Email sending not configured on server"), st2)
        | MailFails msg =>
            (mkResponse 500 (SuccessMessage false (JS.or_else msg "Failed to send OTP")), st2)
        | MailOk => (mkResponse 200 (SuccessMessage true "OTP sent to email"), st2)
        end
  | None => (mkResponse 400 (SuccessMessage false "Email is required"), st)
  end.

(** [app.post("/verify-otp", ...)] *)
Definition verify_otp (now : Z) (email otp : option string) (st : state)
    : response * state :=
  match email, otp with
  | Some email, Some otp =>
      if negb (JS.truthy email) || negb (JS.truthy otp) then
        (mkResponse 400 (SuccessMessage false "Email and OTP are required"), st)
      else
        let emailKey := JS.encodeURIComponent email in
        match otps st !! emailKey with
        | None => (NOT_FOUND, st)
        | Some data =>
            if negb (OtpDoc.expiresAt data =? 0)%Z && (now >? OtpDoc.expiresAt data)%Z then
              (EXPIRED, with_otps st (delete emailKey (otps st)))
            else if String.eqb (OtpDoc.otp data) otp then
              (OK, with_otps st (delete emailKey (otps st)))
            else (MISMATCH, st)
        end
  | _, _ => (mkResponse 400 (SuccessMessage false "Email and OTP are required"), st)
  end.

(** [app.post('/api/force-password-change', ...)] *)
Definition force_password_change (email otp : option string) (st : state)
    : response * state :=
  match email, otp with
  | Some email, Some otp =>
      if negb (JS.truthy email) || negb (JS.truthy otp) then
        (mkResponse 400 (ErrorOnly "Email and OTP are required."), st)
      else
        match
          (let* userRecord := Auth.getUserByEmail (auth st) email in
           Auth.updateUser (auth st) (Auth.uid userRecord) (Auth.password_only otp))
        with
        | Ok a => (mkResponse 200 SuccessOnly, with_auth st a)
        | Throw err => (mkResponse 500 (ErrorOnly (error_message err)), st)
        end
  | _, _ => (mkResponse 400 (ErrorOnly "Email and OTP are required."), st)
  end.

(* ===================================================================== *)
(** ** Middleware: [requireAuth] and [requireRole] *)
(* ===================================================================== *)

(** [authHeader.startsWith('Bearer ') ? authHeader.slice(7) : null] *)
Definition bearer_token (authorization : option string) : option string :=
  match authorization with
  | Some h =>
      if String.prefix "Bearer " h then Some (String.substring 7 (String.length h - 7) h)
      else None
  | None => None
  end.

(** [getUserRole(uid)]: [doc.exists ? (doc.data().role || null) : null] *)
Definition getUserRole (st : state) (uid : string) : option string :=
  match users st !! uid with
  | Some d =>
      match UserDoc.role d with
      | Some r => if JS.truthy r then Some r else None
      | None => None
      end
  | None => None
  end.

(** [req.auth] *)
Record req_auth : Type := mkReqAuth {
  auth_uid : string;
  auth_email : option string;
  auth_role : option string
}.

(** [requireAuth]: the rejection, or the [req.auth] it installs. *)
Definition requireAuth (authorization : option string) (st : state)
    : response + req_auth :=
  match bearer_token authorization with
  | Some token =>
      if negb (JS.truthy token) then
        inl (mkResponse 401 (SuccessMessage false "Missing Authorization token"))
      else
        match Auth.verifyIdToken (auth st) token with
        | Ok decoded =>
            inr (mkReqAuth (Auth.d_uid decoded) (Auth.d_email decoded)
                   (getUserRole st (Auth.d_uid decoded)))
        | Throw _ => inl (mkResponse 401 (SuccessMessage false "Invalid Authorization token"))
        end
  | None => inl (mkResponse 401 (SuccessMessage false "Missing Authorization token"))
  end.

(** [requireRole(role)]: [true] when the request goes on. *)
Definition requireRole (role : string) (a : req_auth) : bool :=
  match auth_role a with
  | Some r => String.eqb r role
  | None => false
  end.

(** A route declared as [app.post(path, requireAuth, requireRole('admin'),
    handler)]. *)
Definition admin_route (authorization : option string)
    (handler : state -> response * state) (st : state) : response * state :=
  match requireAuth authorization st with
  | inl rejection => (rejection, st)
  | inr a =>
      if requireRole "admin" a then handler st
      else (mkResponse 403 (SuccessMessage false "Forbidden"), st)
  end.

(* ===================================================================== *)
(** ** Identity reconciliation: [/admin/ensure-auth-user] and the tool
       [createUser.js] *)
(* ===================================================================== *)

(** [err?.code] *)
Definition error_code (e : js_error) : option string :=
  match e with
  | AuthError code => Some code
  | _ => None
  end.

Definition is_email_already_exists (e : js_error) : bool :=
  match error_code e with
  | Some c => String.eqb c "auth/email-already-exists"
  | None => false
  end.

(** [String(n).padStart(2, '0')] *)
Definition pad2 (n : Z) : string :=
  let s := JS.toString n in
  if (String.length s <? 2)%nat then "0" ++ s else s.

(** What the handler asks of the clock library and of the random source when
    it derives a password: [new Date(b)] as (month index, day of month, year)
    in local time, [None] for an invalid date; and
    [Math.random().toString(36).slice(-10)]. *)
Record password_env : Type := mkPasswordEnv {
  parse_date : string -> option (Z * Z * Z);
  random_tail : string
}.

(** The [passwordRaw] of [/admin/ensure-auth-user] and [/admin/create-admin] *)
Definition passwordRaw (env : password_env) (password birthday : option string) : string :=
  let p := match password with Some x => x | None => "" end in
  if JS.truthy p then p
  else
    let b := match birthday with Some x => x | None => "" end in
    let fallback := random_tail env ++ "Aa1!" in
    if JS.truthy b then
      match parse_date env b with
      | Some (month, day, year) => pad2 (month + 1) ++ pad2 day ++ JS.toString year
      | None => fallback
      end
    else fallback.

(** [app.post('/admin/ensure-auth-user', ...)], the handler after the
    middleware. *)
Definition ensure_auth_user (env : password_env)
    (email password birthday : option string) (st : state) : response * state :=
  match email with
  | Some email =>
      if negb (JS.truthy email) then
        (mkResponse 400 (SuccessMessage false "Email is required"), st)
      else
        let emailLower := JS.toLowerCase email in
        let pw := passwordRaw env password birthday in
        let failed (error : js_error) (a : Auth.state) :=
          (mkResponse 500
             (SuccessMessage false (JS.or_else (error_message error) "Failed to ensure auth user")),
           with_auth st a) in
        let finish (uid : string) (a : Auth.state) :=
          match Auth.getUser a uid with
          | Ok _ => (mkResponse 200 (SuccessUid uid), with_auth st a)
          | Throw error => failed error a
          end in
        match Auth.createUser (auth st) emailLower pw true false with
        | Ok (created, a) => finish (Auth.uid created) a
        | Throw err =>
            if is_email_already_exists err then
              match Auth.getUserByEmail (auth st) emailLower with
              | Ok existing =>
                  match Auth.updateUser (auth st) (Auth.uid existing) (Auth.reset_props pw) with
                  | Ok a => finish (Auth.uid existing) a
                  | Throw error => failed error (auth st)
                  end
              | Throw error => failed error (auth st)
              end
            else failed err (auth st)
        end
  | None => (mkResponse 400 (SuccessMessage false "Email is required"), st)
  end.

Definition ensure_auth_user_route (env : password_env) (authorization : option string)
    (email password birthday : option string) : state -> response * state :=
  admin_route authorization (ensure_auth_user env email password birthday).

(** [db.collection('users').doc(uid).set(fields, { merge: true })]: the
    fields given replace the stored ones, the others stay. *)
Definition merge_user (fields old : UserDoc.t) : UserDoc.t :=
  let pick {A} (n o : option A) := match n with Some x => Some x | None => o end in
  UserDoc.mk
    (pick (UserDoc.email fields) (UserDoc.email old))
    (pick (UserDoc.role fields) (UserDoc.role old))
    (pick (UserDoc.isEmailVerified fields) (UserDoc.isEmailVerified old))
    (pick (UserDoc.isActive fields) (UserDoc.isActive old))
    (pick (UserDoc.createdAt fields) (UserDoc.createdAt old))
    (pick (UserDoc.updatedAt fields) (UserDoc.updatedAt old)).

Definition set_merge (uid : string) (fields : UserDoc.t) (m : gmap string UserDoc.t)
    : gmap string UserDoc.t :=
  <[uid := merge_user fields (default UserDoc.empty (m !! uid))]> m.

(** The result of [ensureUser] in [createUser.js] *)
Record ensured : Type := mkEnsured {
  created : bool;
  uid : string;
  passwordReset : option bool
}.

(** [ensureUser(email, password)] of [createUser.js]; [role] is the module
    level constant read from the command line. *)
Definition ensureUser (role : string) (now : Z) (email password : string) (st : state)
    : result (ensured * state) :=
  match Auth.createUser (auth st) email password true false with
  | Ok (newUser, a) =>
      let doc := UserDoc.mk (Some email) (Some role) (Some true) None (Some now) None in
      Ok (mkEnsured true (Auth.uid newUser) None,
          with_users (with_auth st a) (set_merge (Auth.uid newUser) doc (users st)))
  | Throw err =>
      if is_email_already_exists err then
        let* existing := Auth.getUserByEmail (auth st) email in
        let* a := Auth.updateUser (auth st) (Auth.uid existing) (Auth.reset_props password) in
        let doc := UserDoc.mk (Some email) (Some role) (Some true) None None (Some now) in
        Ok (mkEnsured false (Auth.uid existing) (Some true),
            with_users (with_auth st a) (set_merge (Auth.uid existing) doc (users st)))
      else Throw err
  end.

(** The body of [createUser.js]: [role] defaults to ['admin'], the email is
    lower-cased before [ensureUser]; [None] stands for the usage error
    ([process.exit(1)]). *)
Definition createUser_js (now : Z) (argv_email argv_password argv_role : option string)
    (st : state) : option (result (ensured * state)) :=
  let role := JS.trim (JS.or_else (default "" argv_role) "admin") in
  if negb (JS.truthy_opt argv_email) || negb (JS.truthy_opt argv_password) then None
  else Some (ensureUser role now (JS.toLowerCase (default "" argv_email))
               (default "" argv_password) st).

(* ===================================================================== *)
(** ** Name decomposition of [/admin/create-admin] *)
(* ===================================================================== *)

Record name_parts : Type := mkName {
  lastName : string;
  firstName : string;
  middleName : string
}.

(** [const trim = (s) => (s || "").trim()] *)
Definition trim_field (s : option string) : string :=
  JS.trim (match s with Some x => x | None => "" end).

(** The block that computes [parsed] from the fields [fullName], [lastName],
    [firstName] and [middleName] of [req.body]. *)
Definition parse_name (req_fullName req_lastName req_firstName req_middleName : option string)
    : result name_parts :=
  let provided := mkName (trim_field req_lastName) (trim_field req_firstName) (trim_field req_middleName) in
  if (negb (JS.truthy (provided.(lastName))) || negb (JS.truthy (provided.(firstName))))
     && JS.truthy_opt req_fullName && JS.truthy (trim_field req_fullName)
  then
    let f := trim_field req_fullName in
    if JS.includes "," f then
      match List.map JS.trim (JS.split "," f) with
      | ln :: restRaw :: _ =>
          let rest := JS.filter_Boolean (JS.split_ws restRaw) in
          Ok (mkName
                (JS.or_else (provided.(lastName)) ln)
                (JS.or_else (provided.(firstName)) (JS.or_else (List.hd "" rest) ""))
                (JS.or_else (provided.(middleName))
                   (JS.or_else (JS.join " " (JS.slice1 rest)) "")))
      | _ => Throw (TypeError "Cannot read properties of undefined (reading 'split')")
      end
    else
      let parts := JS.filter_Boolean (JS.split_ws f) in
      let ln := if (0 <? List.length parts)%nat then JS.last_elt parts else "" in
      let fn := if (0 <? List.length parts)%nat then List.hd "" parts else "" in
      let mn := if (2 <? List.length parts)%nat then JS.join " " (JS.slice1_m1 parts)
                else if (List.length parts =? 2)%nat then "" else "" in
      Ok (mkName
            (JS.or_else (provided.(lastName)) ln)
            (JS.or_else (provided.(firstName)) fn)
            (JS.or_else (provided.(middleName)) mn))
  else Ok provided.

(** [composedFullName] *)
Definition composedFullName (req_fullName : option string) (parsed : name_parts) : string :=
  JS.or_else (trim_field req_fullName)
    (if JS.truthy (parsed.(lastName)) && JS.truthy (parsed.(firstName)) then
       parsed.(lastName) ++ ", " ++ parsed.(firstName)
       ++ (if JS.truthy (parsed.(middleName)) then " " ++ parsed.(middleName) else "")
     else "").

(* ===================================================================== *)
(** ** Archive and its cascade: [/admin/archive-admin] *)
(* ===================================================================== *)

(** The two objects the handler passes to [batch.update]. *)
Inductive stock_write : Type :=
  | WriteArchived (archivedAt : Z) (archivedBy : string)
      (* { isArchived: true, archivedAt: timestamp, archivedBy } *)
  | WriteUnarchived.
      (* { isArchived: false, archivedAt: delete(), archivedBy: delete() } *)

Definition apply_write (w : stock_write) (d : StockDoc.t) : StockDoc.t :=
  match w with
  | WriteArchived ts who => StockDoc.mk (StockDoc.createdBy_email d) true (Some ts) (Some who)
  | WriteUnarchived => StockDoc.mk (StockDoc.createdBy_email d) false None None
  end.

(** [batch.commit()]: every queued update is applied. *)
Definition commit (batch : list (string * stock_write)) (m : gmap string StockDoc.t)
    : gmap string StockDoc.t :=
  List.fold_left (fun acc '(id, w) => alter (apply_write w) id acc) batch m.

(** [db.collection('vaccineStock').where('createdBy.email', '==', e).get()] *)
Definition where_createdBy_email (e : string) (m : gmap string StockDoc.t)
    : list (string * StockDoc.t) :=
  map_to_list (filter (fun kv => StockDoc.createdBy_email kv.2 = Some e) m).

(** The identifier [requesterEmail] of the archiving branch. No [const],
    [let], parameter or module-level declaration binds it anywhere in
    [server.js], so evaluating it throws. *)
Definition requesterEmail : result string := Throw (ReferenceError "requesterEmail").

(** [vaccineStockDocs.forEach((doc) => { ... batch.update(docRef, ...) })] *)
Fixpoint queue_updates (disable : bool) (timestamp : Z)
    (docs : list (string * StockDoc.t)) (batch : list (string * stock_write))
    : result (list (string * stock_write)) :=
  match docs with
  | [] => Ok batch
  | (id, _) :: rest =>
      if disable then
        let* who := requesterEmail in
        queue_updates disable timestamp rest (batch ++ [(id, WriteArchived timestamp who)])%list
      else
        queue_updates disable timestamp rest (batch ++ [(id, WriteUnarchived)])%list
  end.

(** The [if (userEmail) { try { ... } catch (vsError) { } }] block. *)
Definition cascade (now : Z) (disable : bool) (userEmail : option string)
    (m : gmap string StockDoc.t) : gmap string StockDoc.t :=
  if JS.truthy_opt userEmail then
    let vaccineStockDocs := where_createdBy_email (default "" userEmail) m in
    match vaccineStockDocs with
    | [] => m
    | _ =>
        match queue_updates disable now vaccineStockDocs [] with
        | Ok batch => commit batch m
        | Throw _ => m
        end
    end
  else m.

(** The first block of the handler: disable or enable the account in the
    identity provider, falling back to the email stored in the user's
    document; every failure is logged and swallowed. *)
Definition archive_in_auth (disable : bool) (uid : string) (st : state) : Auth.state :=
  match Auth.updateUser (auth st) uid (Auth.disabled_only disable) with
  | Ok a => a
  | Throw _ =>
      match users st !! uid with
      | Some maybeUserDoc =>
          match UserDoc.email maybeUserDoc with
          | Some maybeEmail =>
              if JS.truthy maybeEmail then
                match
                  (let* userRec := Auth.getUserByEmail (auth st) maybeEmail in
                   Auth.updateUser (auth st) (Auth.uid userRec) (Auth.disabled_only disable))
                with
                | Ok a => a
                | Throw _ => auth st
                end
              else auth st
          | None => auth st
          end
      | None => auth st
      end
  end.

(** [app.post('/admin/archive-admin', ...)], the handler after the
    middleware. *)
Definition archive_admin (now : Z) (uid : option string) (disable : option bool)
    (st : state) : response * state :=
  match uid, disable with
  | Some uid, Some disable =>
      if negb (JS.truthy uid) then
        (mkResponse 400 (SuccessMessage false "Missing uid or disable flag"), st)
      else
        let st1 := with_auth st (archive_in_auth disable uid st) in
        let userEmail :=
          match users st1 !! uid with
          | Some d => UserDoc.email d
          | None => None
          end in
        let isActive := UserDoc.mk None None None (Some (negb disable)) None None in
        let st2 := with_users st1 (set_merge uid isActive (users st1)) in
        let st3 := with_vaccineStock st2 (cascade now disable userEmail (vaccineStock st2)) in
        (mkResponse 200
           (SuccessMessage true (if disable then "Admin archived" else "Admin unarchived")),
         st3)
  | _, _ => (mkResponse 400 (SuccessMessage false "Missing uid or disable flag"), st)
  end.

Definition archive_admin_route (now : Z) (authorization : option string)
    (uid : option string) (disable : option bool) : state -> response * state :=
  admin_route authorization (archive_admin now uid disable).

(* ===================================================================== *)
(** ** Bytes, hexadecimal and [base64url] *)
(* ===================================================================== *)

Module Bytes.

Definition of_ascii (c : ascii) : Z := Z.of_N (N_of_ascii c).
Definition to_ascii (b : Z) : ascii := ascii_of_N (Z.to_N b).

(** The bytes of a string, and back. *)
Definition of_string (s : string) : list Z := List.map of_ascii (list_ascii_of_string s).
Definition to_string (l : list Z) : string := string_of_list_ascii (List.map to_ascii l).

(** Lower-case hexadecimal digit, as [digest("hex")] prints it. *)
Definition hex_lower (n : Z) : ascii :=
  if (n <? 10)%Z then to_ascii (48 + n) else to_ascii (87 + n).

(** [buf.toString("hex")] *)
Fixpoint hex (l : list Z) : string :=
  match l with
  | [] => EmptyString
  | b :: r => String (hex_lower (b / 16)) (String (hex_lower (b mod 16)) (hex r))
  end.

End Bytes.

Module Base64url.

(** The alphabet of RFC 4648, section 5. *)
Definition char_of (v : Z) : ascii :=
  if (v <? 26)%Z then Bytes.to_ascii (65 + v)
  else if (v <? 52)%Z then Bytes.to_ascii (97 + (v - 26))
  else if (v <? 62)%Z then Bytes.to_ascii (48 + (v - 52))
  else if (v =? 62)%Z then "-"%char
  else "_"%char.

(** The value of a character; the decoder of [Buffer.from(s, "base64url")]
    reads the standard alphabet ([+] and [/]) as well. *)
Definition value_of (c : ascii) : option Z :=
  let n := Bytes.of_ascii c in
  if ((65 <=? n) && (n <=? 90))%Z then Some (n - 65)
  else if ((97 <=? n) && (n <=? 122))%Z then Some (n - 97 + 26)
  else if ((48 <=? n) && (n <=? 57))%Z then Some (n - 48 + 52)
  else if ((n =? 45) || (n =? 43))%Z then Some 62
  else if ((n =? 95) || (n =? 47))%Z then Some 63
  else None.

(** Three bytes make four 6-bit groups; one or two trailing bytes make two
    or three groups, and no padding is written. *)
Fixpoint sextets_of_bytes (l : list Z) : list Z :=
  match l with
  | [] => []
  | [b0] => [b0 / 4; (b0 mod 4) * 16]
  | [b0; b1] => [b0 / 4; (b0 mod 4) * 16 + b1 / 16; (b1 mod 16) * 4]
  | b0 :: b1 :: b2 :: r =>
      b0 / 4 :: (b0 mod 4) * 16 + b1 / 16 :: (b1 mod 16) * 4 + b2 / 64 :: b2 mod 64
      :: sextets_of_bytes r
  end.

(** [Buffer.from(s).toString("base64url")] *)
Definition encode (s : string) : string :=
  string_of_list_ascii (List.map char_of (sextets_of_bytes (Bytes.of_string s))).

(** The 6-bit groups the decoder reads: it stops at the first [=] and
    skips any other character outside the alphabets; it never throws. *)
Fixpoint sextets_of_string (s : string) : list Z :=
  match s with
  | EmptyString => []
  | String c r =>
      if Ascii.eqb c "="%char then []
      else
        match value_of c with
        | Some v => v :: sextets_of_string r
        | None => sextets_of_string r
        end
  end.

Fixpoint bytes_of_sextets (l : list Z) : list Z :=
  match l with
  | s0 :: s1 :: s2 :: s3 :: r =>
      s0 * 4 + s1 / 16 :: (s1 mod 16) * 16 + s2 / 4 :: (s2 mod 4) * 64 + s3
      :: bytes_of_sextets r
  | [s0; s1; s2] => [s0 * 4 + s1 / 16; (s1 mod 16) * 16 + s2 / 4]
  | [s0; s1] => [s0 * 4 + s1 / 16]
  | _ => []
  end.

(** [Buffer.from(s, "base64url").toString("utf8")]. Text is represented by
    its UTF-8 bytes, so the conversion to text keeps the bytes. *)
Definition decode (s : string) : string :=
  Bytes.to_string (bytes_of_sextets (sextets_of_string s)).

End Base64url.

(* ===================================================================== *)
(** ** [crypto.createHmac("sha256", secret).update(body).digest("hex")]:
       SHA-256 (FIPS 180-4) and HMAC (RFC 2104) *)
(* ===================================================================== *)

Module SHA256.

Definition mask32 (x : Z) : Z := Z.land x 4294967295.
Definition add32 (x y : Z) : Z := mask32 (x + y).
Definition rotr (n x : Z) : Z := mask32 (Z.lor (Z.shiftr x n) (Z.shiftl x (32 - n))).
Definition shr (n x : Z) : Z := Z.shiftr x n.
Definition not32 (x : Z) : Z := Z.lxor x 4294967295.

Definition Ch (x y z : Z) : Z := Z.lxor (Z.land x y) (Z.land (not32 x) z).
Definition Maj (x y z : Z) : Z := Z.lxor (Z.lxor (Z.land x y) (Z.land x z)) (Z.land y z).
Definition Sigma0 (x : Z) : Z := Z.lxor (Z.lxor (rotr 2 x) (rotr 13 x)) (rotr 22 x).
Definition Sigma1 (x : Z) : Z := Z.lxor (Z.lxor (rotr 6 x) (rotr 11 x)) (rotr 25 x).
Definition sigma0 (x : Z) : Z := Z.lxor (Z.lxor (rotr 7 x) (rotr 18 x)) (shr 3 x).
Definition sigma1 (x : Z) : Z := Z.lxor (Z.lxor (rotr 17 x) (rotr 19 x)) (shr 10 x).

(** [n] has no divisor among [d], [d + 1], ... below its square root;
    [fuel] bounds the search. *)
Fixpoint no_divisor_from (fuel : nat) (d n : Z) : bool :=
  match fuel with
  | O => true
  | S f =>
      if (n <? d * d)%Z then true
      else if (n mod d =? 0)%Z then false
      else no_divisor_from f (d + 1) n
  end.

Definition is_prime (n : Z) : bool := (2 <=? n)%Z && no_divisor_from (Z.to_nat n) 2 n.

(** The first [count] primes from [n] on. *)
Fixpoint primes_from (fuel count : nat) (n : Z) : list Z :=
  match fuel, count with
  | S f, S c =>
      if is_prime n then n :: primes_from f c (n + 1) else primes_from f (S c) (n + 1)
  | _, _ => []
  end.

Definition primes (count : nat) : list Z := primes_from 400 count 2.

(** The integer cube root, one bit at a time from bit [bits - 1] down. *)
Fixpoint cube_root_bits (bits : nat) (r n : Z) : Z :=
  match bits with
  | O => r
  | S b =>
      let r' := r + 2 ^ Z.of_nat b in
      cube_root_bits b (if (r' * r' * r' <=? n)%Z then r' else r) n
  end.

Definition cube_root (n : Z) : Z := cube_root_bits 40 0 n.

(** The round constants: the first 32 bits of the fractional parts of the
    cube roots of the first 64 primes. *)
Definition K : list Z := List.map (fun p => mask32 (cube_root (p * 2 ^ 96))) (primes 64).

(** The initial hash value: the first 32 bits of the fractional parts of the
    square roots of the first 8 primes. *)
Definition H0 : list Z := List.map (fun p => mask32 (Z.sqrt (p * 2 ^ 64))) (primes 8).

(** Big-endian bytes of a word, [n] of them. *)
Fixpoint be_bytes (n : nat) (x : Z) : list Z :=
  match n with
  | O => []
  | S m => (be_bytes m (x / 256) ++ [x mod 256])%list
  end.

(** The message followed by the bit [1], zeros, and its length in bits on
    eight bytes: a multiple of 64 bytes. *)
Definition pad (msg : list Z) : list Z :=
  let len := Z.of_nat (List.length msg) in
  let zeros := Z.to_nat ((55 - len) mod 64) in
  (msg ++ [128] ++ List.repeat 0 zeros ++ be_bytes 8 (len * 8))%list.

(** Big-endian words of a byte sequence; [fuel] bounds their number. *)
Fixpoint words (fuel : nat) (l : list Z) : list Z :=
  match fuel, l with
  | S f, b0 :: b1 :: b2 :: b3 :: r =>
      ((b0 * 256 + b1) * 256 + b2) * 256 + b3 :: words f r
  | _, _ => []
  end.

(** The message schedule, newest word first: [w] holds W(t-1) ... W(0). *)
Fixpoint schedule (n : nat) (w : list Z) : list Z :=
  match n with
  | O => w
  | S m =>
      let wt := add32 (add32 (sigma1 (List.nth 1 w 0)) (List.nth 6 w 0))
                      (add32 (sigma0 (List.nth 14 w 0)) (List.nth 15 w 0)) in
      schedule m (wt :: w)
  end.

Record regs : Type := mkRegs { ra : Z; rb : Z; rc : Z; rd : Z; re : Z; rf : Z; rg : Z; rh : Z }.

Definition round (r : regs) (kw : Z * Z) : regs :=
  let '(k, w) := kw in
  let t1 := add32 (add32 (add32 (rh r) (Sigma1 (re r))) (add32 (Ch (re r) (rf r) (rg r)) k)) w in
  let t2 := add32 (Sigma0 (ra r)) (Maj (ra r) (rb r) (rc r)) in
  mkRegs (add32 t1 t2) (ra r) (rb r) (rc r) (add32 (rd r) t1) (re r) (rf r) (rg r).

Definition regs_of (h : list Z) : regs :=
  mkRegs (List.nth 0 h 0) (List.nth 1 h 0) (List.nth 2 h 0) (List.nth 3 h 0)
         (List.nth 4 h 0) (List.nth 5 h 0) (List.nth 6 h 0) (List.nth 7 h 0).

Definition list_of (r : regs) : list Z :=
  [ra r; rb r; rc r; rd r; re r; rf r; rg r; rh r].

(** One 64-byte block. *)
Definition compress (h : list Z) (block : list Z) : list Z :=
  let w := List.rev (schedule 48 (List.rev (words 16 block))) in
  let r := List.fold_left round (List.combine K w) (regs_of h) in
  List.map (fun p => add32 (fst p) (snd p)) (List.combine h (list_of r)).

Fixpoint blocks (fuel : nat) (h : list Z) (l : list Z) : list Z :=
  match fuel, l with
  | S f, _ :: _ => blocks f (compress h (List.firstn 64 l)) (List.skipn 64 l)
  | _, _ => h
  end.

(** The 32 bytes of the digest. *)
Definition digest (msg : list Z) : list Z :=
  let p := pad msg in
  List.concat (List.map (be_bytes 4) (blocks (List.length p) H0 p)).

End SHA256.

Module HMAC.

Definition block_size : nat := 64.

(** A key longer than a block is hashed; a shorter one is filled with zero
    bytes up to the block size. *)
Definition block_key (key : list Z) : list Z :=
  let k := if (block_size <? List.length key)%nat then SHA256.digest key else key in
  (k ++ List.repeat 0 (block_size - List.length k))%list.

Definition xor_with (c : Z) (l : list Z) : list Z := List.map (Z.lxor c) l.

Definition hmac (key msg : list Z) : list Z :=
  let k := block_key key in
  SHA256.digest (xor_with 0x5c k ++ SHA256.digest (xor_with 0x36 k ++ msg))%list.

(** [crypto.createHmac("sha256", secret).update(body).digest("hex")] *)
Definition hmac_sha256_hex (secret body : string) : string :=
  Bytes.hex (hmac (Bytes.of_string secret) (Bytes.of_string body)).

End HMAC.

(* ===================================================================== *)
(** ** [JSON.stringify] and [JSON.parse] *)
(* ===================================================================== *)

Module JSON.

(** The values [JSON.stringify] is given. Numbers are the integers (time
    stamps, counters); an object lists its own properties in insertion
    order, each key once. *)
Inductive value : Type :=
  | JNull
  | JBool (b : bool)
  | JNumber (n : Z)
  | JString (s : string)
  | JArray (l : list value)
  | JObject (fields : list (string * value)).

(** The values [JSON.parse] returns, as the code holds them: a number is any
    number a JSON text denotes. *)
Inductive data : Type :=
  | DNull
  | DBool (b : bool)
  | DNumber (x : JS.number)
  | DString (s : string)
  | DArray (l : list data)
  | DObject (fields : list (string * data)).

(** A value as the code holds it; an integer is held as it is. *)
Fixpoint of_value (v : value) : data :=
  match v with
  | JNull => DNull
  | JBool b => DBool b
  | JNumber n => DNumber (JS.Finite (inject_Z n))
  | JString s => DString s
  | JArray l =>
      DArray ((fix each (l : list value) : list data :=
                 match l with
                 | [] => []
                 | x :: r => of_value x :: each r
                 end) l)
  | JObject fields =>
      DObject ((fix each (l : list (string * value)) : list (string * data) :=
                  match l with
                  | [] => []
                  | (k, x) :: r => (k, of_value x) :: each r
                  end) fields)
  end.

Coercion of_value : value >-> data.

(** [obj[k]] on the own properties. *)
Fixpoint get {A : Type} (k : string) (fields : list (string * A)) : option A :=
  match fields with
  | [] => None
  | (k', v) :: r => if String.eqb k' k then Some v else get k r
  end.

(** [obj[k] = v]: an existing property keeps its place, a new one comes
    last. *)
Fixpoint set {A : Type} (k : string) (v : A) (fields : list (string * A))
    : list (string * A) :=
  match fields with
  | [] => [(k, v)]
  | (k', v') :: r => if String.eqb k' k then (k', v) :: r else (k', v') :: set k v r
  end.

Definition dquote : ascii := "034"%char.
Definition backslash : ascii := "092"%char.

Definition hex2 (n : Z) : string :=
  String (Bytes.hex_lower (n / 16)) (String (Bytes.hex_lower (n mod 16)) EmptyString).

(** How [JSON.stringify] writes one character of a string. *)
Definition escape_char (c : ascii) : string :=
  let n := Bytes.of_ascii c in
  if (n =? 34)%Z then String backslash (String dquote EmptyString)
  else if (n =? 92)%Z then String backslash (String backslash EmptyString)
  else if (n =? 8)%Z then "\b"
  else if (n =? 9)%Z then "\t"
  else if (n =? 10)%Z then "\n"
  else if (n =? 12)%Z then "\f"
  else if (n =? 13)%Z then "\r"
  else if (n <? 32)%Z then "\u00" ++ hex2 n
  else String c EmptyString.

Fixpoint escape (s : string) : string :=
  match s with
  | EmptyString => EmptyString
  | String c r => escape_char c ++ escape r
  end.

Definition quote (s : string) : string :=
  String dquote (escape s ++ String dquote EmptyString).

(** [JSON.stringify(v)] *)
Fixpoint stringify (v : value) : string :=
  match v with
  | JNull => "null"
  | JBool true => "true"
  | JBool false => "false"
  | JNumber n => JS.toString n
  | JString s => quote s
  | JArray l =>
      "[" ++ (fix elements (l : list value) : string :=
                match l with
                | [] => EmptyString
                | [x] => stringify x
                | x :: r => stringify x ++ "," ++ elements r
                end) l ++ "]"
  | JObject fields =>
      "{" ++ (fix members (l : list (string * value)) : string :=
                match l with
                | [] => EmptyString
                | [(k, x)] => quote k ++ ":" ++ stringify x
                | (k, x) :: r => quote k ++ ":" ++ stringify x ++ "," ++ members r
                end) fields ++ "}"
  end.

(** JSON white space: space, TAB, LF, CR. *)
Definition is_ws (c : ascii) : bool :=
  let n := Bytes.of_ascii c in
  ((n =? 32) || (n =? 9) || (n =? 10) || (n =? 13))%Z.

Fixpoint skip_ws (s : string) : string :=
  match s with
  | EmptyString => EmptyString
  | String c r => if is_ws c then skip_ws r else s
  end.

Definition digit_value (c : ascii) : option Z :=
  let n := Bytes.of_ascii c in
  if ((48 <=? n) && (n <=? 57))%Z then Some (n - 48) else None.

Definition hex_value (c : ascii) : option Z :=
  let n := Bytes.of_ascii c in
  if ((48 <=? n) && (n <=? 57))%Z then Some (n - 48)
  else if ((97 <=? n) && (n <=? 102))%Z then Some (n - 87)
  else if ((65 <=? n) && (n <=? 70))%Z then Some (n - 55)
  else None.

Definition hex4 (a b c d : ascii) : option Z :=
  match hex_value a, hex_value b, hex_value c, hex_value d with
  | Some x, Some y, Some z, Some w => Some (((x * 16 + y) * 16 + z) * 16 + w)
  | _, _, _, _ => None
  end.

(** The UTF-8 bytes of a code point; a lone surrogate is written on three
    bytes like any other code point below 65536. *)
Definition utf8 (cp : Z) : string :=
  Bytes.to_string
    (if (cp <? 128)%Z then [cp]
     else if (cp <? 2048)%Z then [192 + cp / 64; 128 + cp mod 64]
     else if (cp <? 65536)%Z then [224 + cp / 4096; 128 + (cp / 64) mod 64; 128 + cp mod 64]
     else [240 + cp / 262144; 128 + (cp / 4096) mod 64; 128 + (cp / 64) mod 64;
           128 + cp mod 64]).

Definition is_high_surrogate (u : Z) : bool := ((55296 <=? u) && (u <=? 56319))%Z.
Definition is_low_surrogate (u : Z) : bool := ((56320 <=? u) && (u <=? 57343))%Z.

(** The low surrogate escape, if [s] starts with one. *)
Definition low_surrogate_escape (s : string) : option Z :=
  match s with
  | String b (String u (String g1 (String g2 (String g3 (String g4 _))))) =>
      if Ascii.eqb b backslash && Ascii.eqb u "u"%char then
        match hex4 g1 g2 g3 g4 with
        | Some lo => if is_low_surrogate lo then Some lo else None
        | None => None
        end
      else None
  | _ => None
  end.

(** The characters of a string literal after its opening quote, up to the
    closing quote; [acc] is the text read so far. *)
Fixpoint read_string (s : string) (acc : string) : option (string * string) :=
  match s with
  | EmptyString => None
  | String c r =>
      if Ascii.eqb c dquote then Some (acc, r)
      else if Ascii.eqb c backslash then
        match r with
        | EmptyString => None
        | String e r1 =>
            let n := Bytes.of_ascii e in
            if (n =? 34)%Z then read_string r1 (acc ++ String dquote EmptyString)
            else if (n =? 92)%Z then read_string r1 (acc ++ String backslash EmptyString)
            else if (n =? 47)%Z then read_string r1 (acc ++ "/")
            else if (n =? 98)%Z then read_string r1 (acc ++ String "008"%char EmptyString)
            else if (n =? 102)%Z then read_string r1 (acc ++ String "012"%char EmptyString)
            else if (n =? 110)%Z then read_string r1 (acc ++ String "010"%char EmptyString)
            else if (n =? 114)%Z then read_string r1 (acc ++ String "013"%char EmptyString)
            else if (n =? 116)%Z then read_string r1 (acc ++ String "009"%char EmptyString)
            else if (n =? 117)%Z then
              match r1 with
              | String h1 (String h2 (String h3 (String h4 r2))) =>
                  match hex4 h1 h2 h3 h4 with
                  | Some u =>
                      match
                        (if is_high_surrogate u then low_surrogate_escape r2 else None), r2
                      with
                      | Some lo, String _ (String _ (String _ (String _ (String _ (String _ r3))))) =>
                          read_string r3
                            (acc ++ utf8 (65536 + (u - 55296) * 1024 + (lo - 56320)))
                      | _, _ => read_string r2 (acc ++ utf8 u)
                      end
                  | None => None
                  end
              | _ => None
              end
            else None
        end
      else if (Bytes.of_ascii c <? 32)%Z then None
      else read_string r (acc ++ String c EmptyString)
  end.

(** A maximal run of decimal digits, read into [acc]. *)
Fixpoint read_digits (s : string) (acc : Z) : Z * string :=
  match s with
  | EmptyString => (acc, s)
  | String c r =>
      match digit_value c with
      | Some d => read_digits r (acc * 10 + d)
      | None => (acc, s)
      end
  end.

(** The same, counting the digits read. *)
Fixpoint read_digits_count (s : string) (acc : Z) (count : Z) : Z * Z * string :=
  match s with
  | EmptyString => (acc, count, s)
  | String c r =>
      match digit_value c with
      | Some d => read_digits_count r (acc * 10 + d) (count + 1)
      | None => (acc, count, s)
      end
  end.

(** The integer part of a number literal: [0] or a digit sequence without a
    leading zero. *)
Definition read_natural (s : string) : option (Z * string) :=
  match s with
  | EmptyString => None
  | String c r =>
      match digit_value c with
      | None => None
      | Some d => Some (if (d =? 0)%Z then (0, r) else read_digits r d)
      end
  end.

(** The number of decimal digits of a positive integer. *)
Definition decimal_length (m : Z) : Z := Z.of_nat (String.length (JS.toString m)).

(** The double nearest to [mant * 10 ^ ex], for [mant >= 0]: beyond the
    greatest double it is [Infinity], and the powers of ten that cannot
    matter are not computed. *)
Definition decimal (mant ex : Z) : JS.number :=
  if (mant =? 0)%Z then JS.Finite 0
  else if (309 <=? decimal_length mant - 1 + ex)%Z then JS.Infinity false
  else if (decimal_length mant + ex <=? -324)%Z then JS.Finite 0
  else
    let x := Double.round (inject_Z mant * 10 ^ ex)%Q in
    if Qle_bool (Double.pow2 1024) x then JS.Infinity false else JS.Finite (Qred x).

(** [.digits], if the text goes on with a fraction: the digits as an
    integer, their number, and what follows; [None] when no digit follows
    the point. *)
Definition read_fraction (s : string) : option (Z * Z * string) :=
  match s with
  | String c r =>
      if Ascii.eqb c "."%char then
        match read_digits_count r 0 0 with
        | (m, k, rest) => if (k =? 0)%Z then None else Some (m, k, rest)
        end
      else Some (0, 0, s)
  | EmptyString => Some (0, 0, s)
  end.

(** [e], [e+] or [e-] and digits, if the text goes on with an exponent;
    [None] when no digit follows. *)
Definition read_exponent (s : string) : option (Z * string) :=
  match s with
  | String c r =>
      if Ascii.eqb c "e"%char || Ascii.eqb c "E"%char then
        let '(negative, ds) :=
          match r with
          | String sign r' =>
              if Ascii.eqb sign "-"%char then (true, r')
              else if Ascii.eqb sign "+"%char then (false, r') else (false, r)
          | EmptyString => (false, r)
          end in
        match read_digits_count ds 0 0 with
        | (e, k, rest) =>
            if (k =? 0)%Z then None else Some (if negative then - e else e, rest)
        end
      else Some (0, s)
  | EmptyString => Some (0, s)
  end.

Definition starts_fraction_or_exponent (s : string) : bool :=
  match s with
  | String c _ => Ascii.eqb c "."%char || Ascii.eqb c "e"%char || Ascii.eqb c "E"%char
  | EmptyString => false
  end.

(** A number literal without its sign: an integer part, then a fraction
    and an exponent if there are any. An integer written in digits only is
    held as it is; any other literal is the double nearest to what it
    denotes. *)
Definition read_number (s : string) : option (JS.number * string) :=
  match read_natural s with
  | None => None
  | Some (n, rest) =>
      if negb (starts_fraction_or_exponent rest) then Some (JS.Finite (inject_Z n), rest)
      else
        match read_fraction rest with
        | None => None
        | Some (m, k, rest1) =>
            match read_exponent rest1 with
            | None => None
            | Some (e, rest2) => Some (decimal (n * 10 ^ k + m) (e - k), rest2)
            end
        end
  end.

Definition expect (word : string) (v : data) (s : string) : option (data * string) :=
  if String.prefix word s
  then Some (v, String.substring (String.length word) (String.length s - String.length word) s)
  else None.

(** A value, then what follows it; [None] is the [SyntaxError]. *)
Fixpoint parse_value (fuel : nat) (s : string) : option (data * string) :=
  match fuel with
  | O => None
  | S f =>
      match skip_ws s with
      | EmptyString => None
      | String c r =>
          let n := Bytes.of_ascii c in
          if (n =? 123)%Z then
            match skip_ws r with
            | String c' r' =>
                if (Bytes.of_ascii c' =? 125)%Z then Some (DObject [], r')
                else parse_members f r []
            | EmptyString => None
            end
          else if (n =? 91)%Z then
            match skip_ws r with
            | String c' r' =>
                if (Bytes.of_ascii c' =? 93)%Z then Some (DArray [], r')
                else parse_elements f r []
            | EmptyString => None
            end
          else if (n =? 34)%Z then
            match read_string r EmptyString with
            | Some (str, r') => Some (DString str, r')
            | None => None
            end
          else if (n =? 116)%Z then expect "true" (DBool true) (String c r)
          else if (n =? 102)%Z then expect "false" (DBool false) (String c r)
          else if (n =? 110)%Z then expect "null" DNull (String c r)
          else if (n =? 45)%Z then
            match read_number r with
            | Some (m, r') => Some (DNumber (JS.negate m), r')
            | None => None
            end
          else
            match read_number (String c r) with
            | Some (m, r') => Some (DNumber m, r')
            | None => None
            end
      end
  end

with parse_elements (fuel : nat) (s : string) (acc : list data)
    : option (data * string) :=
  match fuel with
  | O => None
  | S f =>
      match parse_value f s with
      | Some (v, r) =>
          match skip_ws r with
          | String c r' =>
              if (Bytes.of_ascii c =? 44)%Z then parse_elements f r' (acc ++ [v])%list
              else if (Bytes.of_ascii c =? 93)%Z then Some (DArray (acc ++ [v])%list, r')
              else None
          | EmptyString => None
          end
      | None => None
      end
  end

with parse_members (fuel : nat) (s : string) (acc : list (string * data))
    : option (data * string) :=
  match fuel with
  | O => None
  | S f =>
      match skip_ws s with
      | String q r =>
          if (Bytes.of_ascii q =? 34)%Z then
            match read_string r EmptyString with
            | Some (k, r1) =>
                match skip_ws r1 with
                | String colon r2 =>
                    if (Bytes.of_ascii colon =? 58)%Z then
                      match parse_value f r2 with
                      | Some (v, r3) =>
                          match skip_ws r3 with
                          | String c r4 =>
                              if (Bytes.of_ascii c =? 44)%Z then parse_members f r4 (set k v acc)
                              else if (Bytes.of_ascii c =? 125)%Z
                              then Some (DObject (set k v acc), r4)
                              else None
                          | EmptyString => None
                          end
                      | None => None
                      end
                    else None
                | EmptyString => None
                end
            | None => None
            end
          else None
      | EmptyString => None
      end
  end.

(** [JSON.parse(text)]; [Throw SyntaxError] when the text is not JSON. *)
Definition parse (text : string) : result data :=
  match parse_value (S (String.length text)) text with
  | Some (v, rest) =>
      match skip_ws rest with
      | EmptyString => Ok v
      | String _ _ => Throw SyntaxError
      end
  | None => Throw SyntaxError
  end.

(** Truthiness of a value. *)
Definition truthy (v : data) : bool :=
  match v with
  | DNull => false
  | DBool b => b
  | DNumber x => JS.number_truthy x
  | DString s => JS.truthy s
  | DArray _ | DObject _ => true
  end.

(** An own property named [toString] hides the method every object has:
    the object cannot be made a string. *)
Definition hides_toString {A : Type} (fields : list (string * A)) : bool :=
  match get "toString" fields with
  | Some _ => true
  | None => false
  end.

Definition not_a_function (what : string) : js_error :=
  TypeError (what ++ " is not a function").

Definition no_primitive : js_error := TypeError "Cannot convert object to primitive value".

(** [v.toString()] for a value of a request body: an array joins its
    elements with commas, [null] counting as the empty text. *)
Fixpoint to_string (v : value) : result string :=
  match v with
  | JNull => Ok "null"
  | JBool true => Ok "true"
  | JBool false => Ok "false"
  | JNumber n => Ok (JS.toString n)
  | JString s => Ok s
  | JArray l =>
      (fix joined (l : list value) : result string :=
         match l with
         | [] => Ok EmptyString
         | [x] => match x with JNull => Ok EmptyString | _ => to_string x end
         | x :: r =>
             let* a := match x with JNull => Ok EmptyString | _ => to_string x end in
             let* b := joined r in
             Ok (a ++ "," ++ b)
         end) l
  | JObject fields =>
      if hides_toString fields then Throw no_primitive else Ok "[object Object]"
  end.

(** The digits of [s] in the given radix, all of them, as an integer. *)
Fixpoint read_radix (radix : Z) (s : string) (acc : Z) : option Z :=
  match s with
  | EmptyString => Some acc
  | String c r =>
      match hex_value c with
      | Some d => if (d <? radix)%Z then read_radix radix r (acc * radix + d) else None
      | None => None
      end
  end.

(** An unsigned decimal literal of [Number]: digits, a point and digits,
    an exponent; at least one digit before the exponent, nothing after the
    literal. Digits alone are the integer they write. *)
Definition unsigned_decimal (s : string) : JS.number :=
  match read_digits_count s 0 0 with
  | (n, k1, rest) =>
      let plain := negb (starts_fraction_or_exponent rest) in
      let fraction :=
        match rest with
        | String c r =>
            if Ascii.eqb c "."%char then read_digits_count r 0 0 else (0, 0, rest)
        | EmptyString => (0, 0, rest)
        end in
      match fraction with
      | (m, k2, rest1) =>
          if (k1 + k2 =? 0)%Z then JS.NaN
          else
            match read_exponent rest1 with
            | Some (e, EmptyString) =>
                if plain then JS.Finite (inject_Z n)
                else decimal (n * 10 ^ k2 + m) (e - k2)
            | _ => JS.NaN
            end
      end
  end.

(** [Number(s)] for a string: white space around is dropped; the empty
    text is 0; then a binary, octal or hexadecimal integer, or an optional
    sign and [Infinity] or a decimal literal; anything else is [NaN]. *)
Definition string_to_number (s : string) : JS.number :=
  let t := JS.trim s in
  match t with
  | EmptyString => JS.Finite 0
  | String c r =>
      let radix_of (x : ascii) : option Z :=
        if Ascii.eqb x "x"%char || Ascii.eqb x "X"%char then Some 16
        else if Ascii.eqb x "o"%char || Ascii.eqb x "O"%char then Some 8
        else if Ascii.eqb x "b"%char || Ascii.eqb x "B"%char then Some 2
        else None in
      match (if Ascii.eqb c "0"%char then
               match r with
               | String x ds => match radix_of x with Some b => Some (b, ds) | None => None end
               | EmptyString => None
               end
             else None)
      with
      | Some (radix, ds) =>
          match ds with
          | EmptyString => JS.NaN
          | String _ _ =>
              match read_radix radix ds 0 with
              | Some n => JS.Finite (inject_Z n)
              | None => JS.NaN
              end
          end
      | None =>
          let '(negative, u) :=
            if Ascii.eqb c "-"%char then (true, r)
            else if Ascii.eqb c "+"%char then (false, r) else (false, t) in
          let x := if String.eqb u "Infinity" then JS.Infinity false else unsigned_decimal u in
          if negative then JS.negate x else x
      end
  end.

(** [Number(v)] for an array: the number of the text it joins to. Two
    elements or more join with a comma, which no number has. *)
Fixpoint array_to_number (v : data) : JS.number :=
  match v with
  | DArray [] => JS.Finite 0
  | DArray [x] =>
      match x with
      | DNull => JS.Finite 0
      | DBool _ => JS.NaN
      | DNumber n => n
      | DString s => string_to_number s
      | DArray _ => array_to_number x
      | DObject _ => JS.NaN
      end
  | _ => JS.NaN
  end.

(** Making the value a string throws: it is, or as an array it holds, an
    object whose own [toString] hides the method. *)
Fixpoint unprintable (v : data) : bool :=
  match v with
  | DArray l =>
      (fix some (l : list data) : bool :=
         match l with
         | [] => false
         | x :: r => unprintable x || some r
         end) l
  | DObject fields => hides_toString fields
  | _ => false
  end.

(** [Number(v)] *)
Definition to_number (v : data) : result JS.number :=
  match v with
  | DNull => Ok (JS.Finite 0)
  | DBool b => Ok (JS.Finite (if b then 1 else 0))
  | DNumber x => Ok x
  | DString s => Ok (string_to_number s)
  | DArray _ => if unprintable v then Throw no_primitive else Ok (array_to_number v)
  | DObject _ => if unprintable v then Throw no_primitive else Ok JS.NaN
  end.

(** [v[k]] for any value: reading a property of [null] throws, and only an
    object has own properties named by a JSON key other than the built-in
    ones. *)
Definition property (v : data) (k : string) : result (option data) :=
  match v with
  | DNull => Throw (TypeError "Cannot read properties of null")
  | DObject fields => Ok (get k fields)
  | _ => Ok None
  end.

End JSON.

Coercion JSON.of_value : JSON.value >-> JSON.data.

(* ===================================================================== *)
(** ** Signed email change tokens *)
(* ===================================================================== *)

(** [function createEmailChangeToken(payload, secret, ttlMs = 24 * 60 * 60 * 1000)];
    [ttlMs = None] is the omitted argument. *)
Definition createEmailChangeToken (now : Z) (payload : list (string * JSON.value))
    (secret : string) (ttlMs : option Z) : string :=
  let ttlMs := default (24 * 60 * 60 * 1000) ttlMs in
  let issuedAt := now in
  let expiresAt := issuedAt + ttlMs in
  let body :=
    JSON.stringify
      (JSON.JObject
         (JSON.set "exp" (JSON.JNumber expiresAt)
            (JSON.set "iat" (JSON.JNumber issuedAt) payload))) in
  let signature := HMAC.hmac_sha256_hex secret body in
  Base64url.encode body ++ "." ++ signature.

(** [data.exp || 0] *)
Definition exp_or_zero (e : option JSON.data) : JSON.data :=
  match e with
  | Some x => if JSON.truthy x then x else JSON.DNumber (JS.Finite 0)
  | None => JSON.DNumber (JS.Finite 0)
  end.

(** [Date.now() > Number(x)]; [Number] throws for a value that cannot be
    made a string. *)
Definition now_after (now : Z) (x : JSON.data) : result bool :=
  let* n := JSON.to_number x in
  Ok (JS.exceeds now n).

(** The [try] block of [verifyEmailChangeToken]; [signature] is [None] when
    the destructuring finds no second piece. *)
Definition verify_signed_body (now : Z) (bodyB64 : string) (signature : option string)
    (secret : string) : result (option JSON.data) :=
  let bodyJson := Base64url.decode bodyB64 in
  let expected := HMAC.hmac_sha256_hex secret bodyJson in
  if negb (match signature with Some s => String.eqb expected s | None => false end)
  then Ok None
  else
    let* data := JSON.parse bodyJson in
    let* e := JSON.property data "exp" in
    let* late := now_after now (exp_or_zero e) in
    if late then Ok None else Ok (Some data).

(** [function verifyEmailChangeToken(token, secret)]; the result [None] is
    [null], and [token = None] is a missing query parameter. *)
Definition verifyEmailChangeToken (now : Z) (token : option string) (secret : string)
    : result (option JSON.data) :=
  match token with
  | None => Ok None
  | Some token =>
      if negb (JS.truthy token) || negb (JS.includes "." token) then Ok None
      else
        match JS.split "." token with
        | bodyB64 :: rest =>
            try_catch (verify_signed_body now bodyB64 (List.head rest) secret)
                      (fun _ => Ok None)
        | [] => Ok None
        end
  end.

(** [EMAIL_CHANGE_SECRET] when the environment does not set it. *)
Definition EMAIL_CHANGE_SECRET : string := "openvax-dev-secret".

(* ===================================================================== *)
(** ** The cross-origin policy and the mail transport of [server.js] *)
(* ===================================================================== *)

(** [process.env.NAME || ''] *)
Definition env_text (v : option string) : string := JS.or_else (default "" v) "".

(** [allowedOriginsRaw.split(',').map((s) => s.trim()).filter(Boolean)] *)
Definition allowedOrigins (CORS_ORIGINS : option string) : list string :=
  JS.filter_Boolean (List.map JS.trim (JS.split "," (env_text CORS_ORIGINS))).

(** The [origin] function handed to [cors]: [true] stands for
    [callback(null, true)], [false] for
    [callback(new Error('Not allowed by CORS'))]. *)
Definition cors_origin (CORS_ALLOW_ALL CORS_ORIGINS origin : option string) : bool :=
  if negb (JS.truthy_opt origin) then true
  else if match CORS_ALLOW_ALL with Some v => String.eqb v "true" | None => false end then true
  else if (List.length (allowedOrigins CORS_ORIGINS) =? 0)%nat then true
  else List.existsb (String.eqb (default "" origin)) (allowedOrigins CORS_ORIGINS).

(** The variables of the environment that configure the mail transport. *)
Record mail_settings : Type := mkMailSettings {
  EMAIL_HOST : option string;
  EMAIL_USER : option string;
  EMAIL_PASS : option string;
  EMAIL_PORT : option string;
  EMAIL_SECURE : option string;
  EMAIL_SERVICE : option string
}.

(** The options handed to [nodemailer.createTransport]. *)
Inductive transport : Type :=
  | HostTransport (host : string) (port : JS.number) (secure : bool) (user pass : string)
      (* { host, port, secure, auth: { user, pass } } *)
  | ServiceTransport (service user pass : string).
      (* { service, auth: { user, pass } } *)

(** The [try] block of [ensureTransporter], which is also the one that runs
    when the module is loaded: the transport the environment describes, or
    [None] when [transporter] stays [null]. *)
Definition configure_transport (env : mail_settings) : option transport :=
  let host := EMAIL_HOST env in
  let user := JS.trim (env_text (EMAIL_USER env)) in
  let pass := JS.trim (env_text (EMAIL_PASS env)) in
  let port :=
    if JS.truthy_opt (EMAIL_PORT env)
    then Some (JSON.string_to_number (default "" (EMAIL_PORT env))) else None in
  let secure :=
    if JS.truthy_opt (EMAIL_SECURE env)
    then Some (String.eqb (default "" (EMAIL_SECURE env)) "true") else None in
  if JS.truthy_opt host && JS.truthy user && JS.truthy pass then
    Some (HostTransport (default "" host)
            (match port with
             | Some p => if JS.number_truthy p then p else JS.Finite 587
             | None => JS.Finite 587
             end)
            (default false secure) user pass)
  else if JS.truthy_opt (EMAIL_SERVICE env) && JS.truthy user && JS.truthy pass then
    Some (ServiceTransport (default "" (EMAIL_SERVICE env)) user pass)
  else if JS.truthy user && JS.truthy pass then
    Some (HostTransport "smtp.gmail.com" (JS.Finite 465) true user pass)
  else None.

(** [function ensureTransporter()]; [transporter] is the module-level
    variable, and the result is both its new value and what is returned. *)
Definition ensureTransporter (env : mail_settings) (transporter : option transport)
    : option transport :=
  match transporter with
  | Some t => Some t
  | None => configure_transport env
  end.

(* ===================================================================== *)
(** ** Email change: [/employee/request-email-change] and
       [/employee/verify-email-change] *)
(* ===================================================================== *)

(** [48 * 60 * 60 * 1000], the validity of an email change link. *)
Definition EMAIL_CHANGE_TTL : Z := 48 * 60 * 60 * 1000.

(** What [/employee/request-email-change] hands to [sendMail]: the recipient
    and the address behind the button of the message. *)
Record change_mail : Type := mkChangeMail {
  mail_to : string;
  mail_verifyUrl : string
}.

(** [{ uid: decoded.uid, newEmail }] *)
Definition change_payload (uid newEmail : string) : list (string * JSON.value) :=
  [("uid", JSON.JString uid); ("newEmail", JSON.JString newEmail)].

(** [app.post("/employee/request-email-change", ...)]; [protocol] and [host]
    are [req.protocol] and [req.get("host")] as the link prints them. The
    handler writes nothing: its result is the response and the message it
    sent, if any. *)
Definition request_email_change (now : Z) (secret : string) (mail : mail_env)
    (protocol host : string) (authorization newEmail : option string) (st : state)
    : response * option change_mail :=
  match bearer_token authorization with
  | Some token =>
      if negb (JS.truthy token) then
        (mkResponse 401 (SuccessMessage false "Missing Authorization token"), None)
      else
        match Auth.verifyIdToken (auth st) token with
        | Ok decoded =>
            if negb (JS.truthy_opt newEmail) then
              (mkResponse 400 (SuccessMessage false "New email is required"), None)
            else
              let newEmail := default "" newEmail in
              let changeToken :=
                createEmailChangeToken now (change_payload (Auth.d_uid decoded) newEmail)
                  secret (Some EMAIL_CHANGE_TTL) in
              let verifyUrl :=
                protocol ++ "://" ++ host ++ "/employee/verify-email-change?token="
                ++ JS.encodeURIComponent changeToken in
              match mail with
              | MailNotConfigured =>
                  (mkResponse 500
                     (SuccessMessage false "Email sending not configured on server"), None)
              | MailFails msg =>
                  (mkResponse 500
                     (SuccessMessage false (JS.or_else msg "Failed to send verification email")),
                   None)
              | MailOk =>
                  (mkResponse 200 (SuccessMessage true "Verification email sent"),
                   Some (mkChangeMail newEmail verifyUrl))
              end
        | Throw err =>
            (mkResponse 500
               (SuccessMessage false
                  (JS.or_else (error_message err) "Failed to send verification email")),
             None)
        end
  | None => (mkResponse 401 (SuccessMessage false "Missing Authorization token"), None)
  end.

(** The account [u] once its email is [e] and verified; the provider keeps
    the address in lower case. *)
Definition set_email (e : string) (u : Auth.user) : Auth.user :=
  Auth.mkUser (Auth.uid u) (JS.toLowerCase e) (Auth.password u) true (Auth.disabled u).

(** Another account than [uid] is registered under [e], in whatever case. *)
Definition email_taken (a : Auth.state) (uid e : string) : bool :=
  List.existsb (fun u => Auth.has_email e u && negb (Auth.has_uid uid u)) (Auth.accounts a).

(** [admin.auth().updateUser(uid, { email, emailVerified: true })] of the
    identity provider: it refuses an ill-formed address, and fails for an
    unknown uid and for an email that belongs to another account. *)
Definition updateUser_email (a : Auth.state) (uid e : string) : result Auth.state :=
  if negb (Auth.valid_email e) then Throw (AuthError "auth/invalid-email")
  else if negb (List.existsb (Auth.has_uid uid) (Auth.accounts a)) then
    Throw (AuthError "auth/user-not-found")
  else if email_taken a uid e then Throw (AuthError "auth/email-already-exists")
  else
    Ok (Auth.with_accounts a
          (List.map (fun u => if Auth.has_uid uid u then set_email e u else u)
             (Auth.accounts a))).

(** The same call on the values read from a token, which need not be
    strings: the provider refuses a uid that is not a non-empty string and
    an email that is not one, and leaves the email alone when the property is
    [undefined]. *)
Definition change_email_in_auth (a : Auth.state) (uid newEmail : option JSON.data)
    : result Auth.state :=
  match uid with
  | Some (JSON.DString i) =>
      if negb (JS.truthy i) then Throw (AuthError "auth/invalid-uid")
      else
        match newEmail with
        | None => Auth.updateUser a i (Auth.mkProps None (Some true) None)
        | Some (JSON.DString e) =>
            if negb (JS.truthy e) then Throw (AuthError "auth/invalid-email")
            else updateUser_email a i e
        | Some _ => Throw (AuthError "auth/invalid-email")
        end
  | _ => Throw (AuthError "auth/invalid-uid")
  end.

(** The pages [/employee/verify-email-change] answers with. *)
Inductive page : Type :=
  | InvalidLink                                   (* Invalid or expired link *)
  | EmailAlreadyInUse (newEmail : option JSON.data)   (* Email Already In Use *)
  | UnableToComplete (code : string)              (* Unable to Complete *)
  | EmailChangeVerified (newEmail : string)       (* Email Change Verified *)
  | SomethingWentWrong.          (* Something went wrong completing email change *)

Record html_response : Type := mkHtml {
  html_status : Z;
  html_page : page
}.

(** [app.get("/employee/verify-email-change", ...)]; [token] is
    [req.query.token]. *)
Definition verify_email_change (now : Z) (secret : string) (token : option string)
    (st : state) : html_response * state :=
  match verifyEmailChangeToken now token secret with
  | Ok (Some data) =>
      if negb (JSON.truthy data) then (mkHtml 400 InvalidLink, st)
      else
        match JSON.property data "uid", JSON.property data "newEmail" with
        | Ok uid, Ok newEmail =>
            match change_email_in_auth (auth st) uid newEmail with
            | Ok a =>
                match uid, newEmail with
                | Some (JSON.DString i), Some (JSON.DString e) =>
                    let fields := UserDoc.mk (Some e) None (Some true) None None (Some now) in
                    (mkHtml 200 (EmailChangeVerified e),
                     with_users (with_auth st a) (set_merge i fields (users st)))
                | _, _ =>
                    (* Firestore refuses the value [undefined] *)
                    (mkHtml 500 SomethingWentWrong, with_auth st a)
                end
            | Throw err =>
                let code := JS.or_else (default "" (error_code err)) "unknown" in
                if String.eqb code "auth/email-already-exists"
                then (mkHtml 409 (EmailAlreadyInUse newEmail), st)
                else (mkHtml 500 (UnableToComplete code), st)
            end
        | _, _ => (mkHtml 500 SomethingWentWrong, st)
        end
  | Ok None => (mkHtml 400 InvalidLink, st)
  | Throw _ => (mkHtml 500 SomethingWentWrong, st)
  end.

(* ===================================================================== *)
(** ** Deleting an account: [/admin/delete-admin] *)
(* ===================================================================== *)

(** [admin.auth().deleteUser(uid)] of the identity provider. *)
Definition deleteUser (a : Auth.state) (uid : string) : result Auth.state :=
  if List.existsb (Auth.has_uid uid) (Auth.accounts a) then
    Ok (Auth.with_accounts a
          (List.filter (fun u => negb (Auth.has_uid uid u)) (Auth.accounts a)))
  else Throw (AuthError "auth/user-not-found").

(** The first block of the handler: delete the account, falling back to the
    account of the email stored in the user's document; every failure is
    logged and swallowed. *)
Definition delete_in_auth (uid : string) (st : state) : Auth.state :=
  match deleteUser (auth st) uid with
  | Ok a => a
  | Throw _ =>
      match users st !! uid with
      | Some userDocSnap =>
          match UserDoc.email userDocSnap with
          | Some userEmail =>
              if JS.truthy userEmail then
                match
                  (let* userRecord := Auth.getUserByEmail (auth st) userEmail in
                   deleteUser (auth st) (Auth.uid userRecord))
                with
                | Ok a => a
                | Throw _ => auth st
                end
              else auth st
          | None => auth st
          end
      | None => auth st
      end
  end.

(** [app.post('/admin/delete-admin', ...)], the handler after the
    middleware. *)
Definition delete_admin (uid : option string) (st : state) : response * state :=
  match uid with
  | Some uid =>
      if negb (JS.truthy uid) then
        (mkResponse 400 (SuccessMessage false "Missing uid to delete"), st)
      else
        let st1 := with_auth st (delete_in_auth uid st) in
        (mkResponse 200 (SuccessMessage true "Admin account deleted"),
         with_users st1 (delete uid (users st1)))
  | None => (mkResponse 400 (SuccessMessage false "Missing uid to delete"), st)
  end.

Definition delete_admin_route (authorization : option string) (uid : option string)
    : state -> response * state :=
  admin_route authorization (delete_admin uid).

(* ===================================================================== *)
(** ** The tools [resetPassword.js] and [setUserRole.js] *)
(* ===================================================================== *)

(** The body of [resetPassword.js]: [None] stands for the usage error
    ([process.exit(1)]), [Throw] for the failure ([process.exit(2)]); on
    success the tool prints the uid. *)
Definition resetPassword_js (argv_email argv_newPassword : option string) (st : state)
    : option (result (string * state)) :=
  if negb (JS.truthy_opt argv_email) || negb (JS.truthy_opt argv_newPassword) then None
  else
    Some (let* user := Auth.getUserByEmail (auth st) (default "" argv_email) in
          let* a := Auth.updateUser (auth st) (Auth.uid user)
                      (Auth.password_only (default "" argv_newPassword)) in
          Ok (Auth.uid user, with_auth st a)).

(** [resolveUid(idOrEmail)] of [setUserRole.js] *)
Definition resolveUid (a : Auth.state) (idOrEmail : string) : result string :=
  if JS.includes "@" idOrEmail then
    let* user := Auth.getUserByEmail a idOrEmail in
    Ok (Auth.uid user)
  else Ok idOrEmail.

(** The body of [setUserRole.js]: [role] defaults to ['superadmin']; on
    success the tool prints the uid. *)
Definition setUserRole_js (argv_identifier argv_role : option string) (st : state)
    : option (result (string * state)) :=
  let role := JS.trim (JS.or_else (default "" argv_role) "superadmin") in
  if negb (JS.truthy_opt argv_identifier) || negb (JS.truthy role) then None
  else
    Some (let* uid := resolveUid (auth st) (default "" argv_identifier) in
          let fields := UserDoc.mk None (Some role) None None None None in
          Ok (uid, with_users st (set_merge uid fields (users st)))).

(* ===================================================================== *)
(** ** Creating an account: [/admin/create-admin] *)
(* ===================================================================== *)

(** The body of the request, [req.body || {}], is the finite map of its own
    properties. *)

(** [(name || "")], as the error message of the engine writes it. *)
Definition or_empty (name : string) : string :=
  "(" ++ name ++ " || " ++ String JSON.dquote (String JSON.dquote EmptyString) ++ ")".

(** [(v || "")] where a method of strings is called next: the text of a
    string, the empty text for an absent or falsy value; a truthy value that
    is no string (a number, [true], an array, an object) has no such
    method. *)
Definition text_for (method : string) (v : option JSON.value) : result string :=
  match v with
  | None => Ok EmptyString
  | Some (JSON.JString s) => Ok s
  | Some x => if JSON.truthy x then Throw (JSON.not_a_function method) else Ok EmptyString
  end.




(** [provided], [parsed] and [composedFullName] on the values of the body.
    [trim(fullName)] is called in the condition of the decomposition or, when
    that is not reached, for [composedFullName]: nothing happens in between,
    and it is called here once. *)
Definition body_names (body : gmap string JSON.value) : result (name_parts * string) :=
  let trim := text_for (or_empty "s" ++ ".trim") in
  let* ln := trim (body !! "lastName") in
  let* fn := trim (body !! "firstName") in
  let* mn := trim (body !! "middleName") in
  let* full := trim (body !! "fullName") in
  let* parsed := parse_name (Some full) (Some ln) (Some fn) (Some mn) in
  Ok (parsed, composedFullName (Some full) parsed).

Definition reservedKeys : list string :=
  ["email"; "password"; "fullName"; "lastName"; "firstName"; "middleName";
   "role"; "isEmailVerified"; "createdAt"; "uid"].

(** [for (const key of reservedKeys) delete additionalFieldsRaw[key]] *)
Definition additionalFieldsRaw (body : gmap string JSON.value) : gmap string JSON.value :=
  List.fold_left (fun acc key => delete key acc) reservedKeys body.


(** The document the handler stores under [users/{uid}]; [createdAt] is the
    time of the write. *)
Definition create_admin_profile (body : gmap string JSON.value) (parsed : name_parts)
    (fullName emailLower role : string) (createdAt : Z) : gmap string JSON.value :=
  <["createdAt" := JSON.JNumber createdAt]>
    (<["isActive" := JSON.JBool true]>
       (<["isEmailVerified" := JSON.JBool true]>
          (<["role" := JSON.JString role]>
             (<["email" := JSON.JString emailLower]>
                (<["fullName" := JSON.JString fullName]>
                   (<["middleName" := JSON.JString (JS.or_else (parsed.(middleName)) "")]>
                      (<["firstName" := JSON.JString (JS.or_else (parsed.(firstName)) "")]>
                         (<["lastName" := JSON.JString (JS.or_else (parsed.(lastName)) "")]>
                            (additionalFieldsRaw body))))))))).





(** The value is a string, or it is absent or falsy: [(v || "")] is a
    text. *)
Definition plain_field (v : option JSON.value) : bool :=
  match v with
  | None => true
  | Some (JSON.JString _) => true
  | Some x => negb (JSON.truthy x)
  end.

(* ===================================================================== *)
(** ** Auxiliary definitions of the statements *)
(* ===================================================================== *)

(** A provider without accounts that accepts every credential, and a server
    whose collections are empty. *)
Definition empty_auth : Auth.state := Auth.mkState [] 0 ∅ (fun _ _ => true).
Definition empty_state : state := mkState empty_auth ∅ ∅ ∅.

(** The requests of the modelled routes, each with what it reads from its
    environment (clock, random draw, mail transport). *)
Inductive request : Type :=
  | SendOtp (now : Z) (r : Q) (mail : mail_env) (email : option string)
  | VerifyOtp (now : Z) (email otp : option string)
  | ForcePasswordChange (email otp : option string)
  | EnsureAuthUser (env : password_env) (authorization : option string)
      (email password birthday : option string)
  | ArchiveAdmin (now : Z) (authorization : option string) (uid : option string)
      (disable : option bool).

Definition handle (q : request) (st : state) : response * state :=
  match q with
  | SendOtp now r mail email => send_otp now r mail email st
  | VerifyOtp now email otp => verify_otp now email otp st
  | ForcePasswordChange email otp => force_password_change email otp st
  | EnsureAuthUser env authorization email password birthday =>
      ensure_auth_user_route env authorization email password birthday st
  | ArchiveAdmin now authorization uid disable =>
      archive_admin_route now authorization uid disable st
  end.

(** The requests that issue a passcode. *)
Definition issues_passcode (q : request) : bool :=
  match q with
  | SendOtp _ _ _ _ => true
  | _ => false
  end.

(** The state after a run of requests. *)
Definition run (reqs : list request) (st : state) : state :=
  List.fold_left (fun s q => snd (handle q s)) reqs st.

(** Six characters, all of them decimal digits. *)
Definition is_digit (c : ascii) : bool :=
  let n := nat_of_ascii c in ((48 <=? n)%nat && (n <=? 57)%nat).

Fixpoint all_digits (s : string) : bool :=
  match s with
  | EmptyString => true
  | String c r => is_digit c && all_digits r
  end.

Definition six_digits (s : string) : bool :=
  (String.length s =? 6)%nat && all_digits s.

(** Every object of a value lists each key once: the representation
    invariant of JavaScript objects. *)
Fixpoint distinct_keys (v : JSON.value) : Prop :=
  match v with
  | JSON.JArray l =>
      (fix all (l : list JSON.value) : Prop :=
         match l with
         | [] => True
         | x :: r => distinct_keys x /\ all r
         end) l
  | JSON.JObject fields =>
      NoDup (List.map fst fields) /\
      (fix all (l : list (string * JSON.value)) : Prop :=
         match l with
         | [] => True
         | (_, x) :: r => distinct_keys x /\ all r
         end) fields
  | _ => True
  end.

(** A server with one account, [a@x.com], whose stored passcode is
    ["654321"]. *)
Definition one_account_state : state :=
  mkState
    (Auth.mkState [Auth.mkUser "uid0" "a@x.com" "old-password" true false] 1 ∅
       (fun _ _ => true))
    ∅ {[ "a%40x.com" := OtpDoc.mk "654321" 0 300000 ]} ∅.

(** A server with an administrator (bearer token ["tok-admin"]), an account
    ["u1"] whose stored email is ["a@x.com"], and two inventory records: one
    created by ["a@x.com"], one by somebody else. *)
Definition archive_example_state : state :=
  mkState
    (Auth.mkState
       [Auth.mkUser "admin1" "root@x.com" "secret" true false;
        Auth.mkUser "u1" "a@x.com" "secret" true false]
       2 {[ "tok-admin" := Auth.mkDecoded "admin1" (Some "root@x.com") ]}
       (fun _ _ => true))
    {[ "admin1" := UserDoc.mk (Some "root@x.com") (Some "admin") (Some true) (Some true) None None;
       "u1" := UserDoc.mk (Some "a@x.com") (Some "employee") (Some true) (Some true) None None ]}
    ∅
    {[ "s1" := StockDoc.mk (Some "a@x.com") false None None;
       "s2" := StockDoc.mk (Some "b@x.com") false None None ]}.

(** The same server after the records of ["a@x.com"] were archived. *)
Definition archived_example_state : state :=
  with_vaccineStock archive_example_state
    {[ "s1" := StockDoc.mk (Some "a@x.com") true (Some 500) (Some "root@x.com");
       "s2" := StockDoc.mk (Some "b@x.com") false None None ]}.

(** What a call of [ensureUser] reports: [created] and [uid]. *)
Definition reported (r : result (ensured * state)) : option (bool * string) :=
  match r with
  | Ok (e, _) => Some (created e, uid e)
  | Throw _ => None
  end.

(** The state a call of [ensureUser] leaves, the given one when it throws. *)
Definition state_after (r : result (ensured * state)) (st : state) : state :=
  match r with
  | Ok (_, st') => st'
  | Throw _ => st
  end.

(** The text between the brackets of an array and between the braces of an
    object, as [stringify] writes them. *)
Fixpoint elements_text (l : list JSON.value) : string :=
  match l with
  | [] => EmptyString
  | [x] => JSON.stringify x
  | x :: r => JSON.stringify x ++ "," ++ elements_text r
  end.

Fixpoint members_text (l : list (string * JSON.value)) : string :=
  match l with
  | [] => EmptyString
  | [(k, x)] => JSON.quote k ++ ":" ++ JSON.stringify x
  | (k, x) :: r => JSON.quote k ++ ":" ++ JSON.stringify x ++ "," ++ members_text r
  end.

(** What may follow a value inside a JSON text: nothing, or one of [,], []]
    and [}]. *)
Definition follows (rest : string) : Prop :=
  match rest with
  | EmptyString => True
  | String c _ => c = ","%char \/ c = "]"%char \/ c = "}"%char
  end.

(** The first character of a value written by [stringify]: no white space,
    no closing bracket, no closing brace. *)
Definition opens_value (c : ascii) : Prop :=
  JSON.is_ws c = false /\ (Bytes.of_ascii c =? 93)%Z = false /\
  (Bytes.of_ascii c =? 125)%Z = false.

(** The parser, given enough fuel, reads back the text of [v] and stops at
    what follows it. *)
Definition reads_back (v : JSON.value) : Prop :=
  forall (fuel : nat) (rest : string),
    (String.length (JSON.stringify v) <= fuel)%nat -> follows rest ->
    JSON.parse_value fuel (JSON.stringify v ++ rest) = Some (JSON.of_value v, rest).

(** The object [{ ...payload, iat: issuedAt, exp: expiresAt }] that
    [createEmailChangeToken] signs. *)
Definition stamped (now : Z) (payload : list (string * JSON.value)) (ttlMs : option Z)
    : list (string * JSON.value) :=
  JSON.set "exp" (JSON.JNumber (now + default (24 * 60 * 60 * 1000) ttlMs))
    (JSON.set "iat" (JSON.JNumber now) payload).

(** The payload of the email change request of [/employee/request-email-change]
    for the account ["u1"] and the new address ["a@x.com"]. *)
Definition example_payload : list (string * JSON.value) :=
  [("uid", JSON.JString "u1"); ("newEmail", JSON.JString "a@x.com")].

(** The secret followed by one NUL character. *)
Definition nul_padded (secret : string) : string :=
  secret ++ String "000"%char EmptyString.

(** The values of a byte and of a 6-bit group. *)
Definition byte_range (b : Z) : Prop := 0 <= b < 256.
Definition sextet_range (s : Z) : Prop := 0 <= s < 64.

(** Bounds on a quotient by constants, after nested divisions are merged. *)
Ltac div_bound :=
  repeat (rewrite Z.div_div by lia);
  first [ lia | apply Z.div_le_lower_bound; lia | apply Z.div_lt_upper_bound; lia ].

(** The verify requests of a run of guesses [(time, code)] for an email. *)
Definition guess_requests (e : string) (guesses : list (Z * string)) : list request :=
  List.map (fun g => VerifyOtp (fst g) (Some e) (Some (snd g))) guesses.

(** Every character is one that [encodeURIComponent] leaves alone. *)
Fixpoint all_unreserved (s : string) : bool :=
  match s with
  | EmptyString => true
  | String c r => JS.uri_unreserved c && all_unreserved r
  end.

(** No white space character occurs in the string. *)
Fixpoint no_ws (s : string) : bool :=
  match s with
  | EmptyString => true
  | String c r => match JS.after_ws s with Some _ => false | None => true end && no_ws r
  end.

(** No white space character starts in [cur] when [s] follows it. *)
Fixpoint no_ws_before (cur s : string) : bool :=
  match cur with
  | EmptyString => true
  | String c r =>
      match JS.after_ws (cur ++ s) with Some _ => false | None => true end
      && no_ws_before r s
  end.

(** Every character is a comma or a one-byte white space character. *)
Fixpoint only_separators (s : string) : bool :=
  match s with
  | EmptyString => true
  | String c r => (Ascii.eqb c ","%char || JS.is_ws c) && only_separators r
  end.

(* ===================================================================== *)
(** * Properties *)
(* ===================================================================== *)

(** ** Strings *)

Lemma truthy_nonempty (s : string) : JS.truthy s = true <-> s <> EmptyString.
Proof. destruct s; simpl; split; intros; congruence. Qed.

Lemma digits_nonempty (fuel : nat) (n : Z) (acc : string) :
  acc <> EmptyString -> JS.digits fuel n acc <> EmptyString.
Proof.
  revert n acc. induction fuel as [|f IH]; intros n acc Hacc; simpl; [exact Hacc|].
  destruct (n <? 10)%Z; [discriminate|]. apply IH. discriminate.
Qed.

Lemma toString_truthy (n : Z) : JS.truthy (JS.toString n) = true.
Proof.
  apply truthy_nonempty. unfold JS.toString.
  destruct (n <? 0)%Z; [discriminate|].
  simpl. destruct (n <? 10)%Z; [discriminate|]. apply digits_nonempty. discriminate.
Qed.

Lemma hex_digit_inj (a b : nat) :
  (a < 16)%nat -> (b < 16)%nat -> JS.hex_digit a = JS.hex_digit b -> a = b.
Proof.
  intros Ha Hb H.
  assert (Hval : forall n, (n < 16)%nat ->
            nat_of_ascii (JS.hex_digit n) = if (n <? 10)%nat then (48 + n)%nat else (55 + n)%nat).
  { intros n Hn. do 16 (destruct n as [|n]; [reflexivity|]). lia. }
  apply (f_equal nat_of_ascii) in H. rewrite (Hval a Ha), (Hval b Hb) in H.
  destruct (Nat.ltb_spec a 10), (Nat.ltb_spec b 10); lia.
Qed.

Lemma nat_of_ascii_lt (c : ascii) : (nat_of_ascii c < 256)%nat.
Proof. apply nat_ascii_bounded. Qed.

Lemma nat_of_ascii_inj (c d : ascii) : nat_of_ascii c = nat_of_ascii d -> c = d.
Proof.
  intros H. rewrite <- (ascii_nat_embedding c), <- (ascii_nat_embedding d). congruence.
Qed.

Lemma hex_pair_inj (n m : nat) :
  (n < 256)%nat -> (m < 256)%nat ->
  JS.hex_digit (n / 16) = JS.hex_digit (m / 16) ->
  JS.hex_digit (n mod 16) = JS.hex_digit (m mod 16) -> n = m.
Proof.
  intros Hn Hm H1 H2.
  apply hex_digit_inj in H1; [|apply Nat.Div0.div_lt_upper_bound; lia ..].
  apply hex_digit_inj in H2; [|apply Nat.mod_upper_bound; lia ..].
  rewrite (Nat.div_mod_eq n 16), (Nat.div_mod_eq m 16). congruence.
Qed.

(** [encodeURIComponent] is injective: two emails share a storage key only
    when they are the same string. *)
Lemma encodeURIComponent_inj (s t : string) :
  JS.encodeURIComponent s = JS.encodeURIComponent t -> s = t.
Proof.
  revert t. induction s as [|c r IH]; intros [|d u]; simpl.
  - reflexivity.
  - destruct (JS.uri_unreserved d); discriminate.
  - destruct (JS.uri_unreserved c); discriminate.
  - destruct (JS.uri_unreserved c) eqn:Hc, (JS.uri_unreserved d) eqn:Hd; intros H.
    + injection H as -> H. f_equal. auto.
    + injection H as -> _. discriminate.
    + injection H as <- _. discriminate.
    + injection H as H1 H2 H3.
      f_equal; [|auto].
      apply nat_of_ascii_inj.
      exact (hex_pair_inj _ _ (nat_of_ascii_lt c) (nat_of_ascii_lt d) H1 H2).
Qed.

(** ** The passcode state machine *)

Lemma verify_otp_found (now : Z) (e c : string) (st : state) (data : OtpDoc.t) :
  JS.truthy e = true -> JS.truthy c = true ->
  otps st !! JS.encodeURIComponent e = Some data ->
  verify_otp now (Some e) (Some c) st =
    if negb (OtpDoc.expiresAt data =? 0)%Z && (now >? OtpDoc.expiresAt data)%Z
    then (EXPIRED, with_otps st (delete (JS.encodeURIComponent e) (otps st)))
    else if String.eqb (OtpDoc.otp data) c
    then (OK, with_otps st (delete (JS.encodeURIComponent e) (otps st)))
    else (MISMATCH, st).
Proof. intros He Hc Hk. unfold verify_otp. rewrite He, Hc, Hk. reflexivity. Qed.

Lemma verify_otp_absent (now : Z) (e c : string) (st : state) :
  JS.truthy e = true -> JS.truthy c = true ->
  otps st !! JS.encodeURIComponent e = None ->
  verify_otp now (Some e) (Some c) st = (NOT_FOUND, st).
Proof. intros He Hc Hk. unfold verify_otp. rewrite He, Hc, Hk. reflexivity. Qed.

(** A verification that answers [OK] came with an email and a code and
    deleted the record of that email. *)
Lemma verify_otp_OK_inv (now : Z) (email otp : option string) (st st' : state) :
  verify_otp now email otp st = (OK, st') ->
  exists e c, email = Some e /\ otp = Some c /\ JS.truthy e = true /\ JS.truthy c = true /\
    st' = with_otps st (delete (JS.encodeURIComponent e) (otps st)).
Proof.
  unfold verify_otp. intros H.
  destruct email as [e|]; [|discriminate]. destruct otp as [c|]; [|discriminate].
  destruct (JS.truthy e) eqn:He; [|discriminate].
  destruct (JS.truthy c) eqn:Hc; [|discriminate]. simpl in H.
  destruct (otps st !! JS.encodeURIComponent e) as [data|]; [|discriminate].
  destruct (negb (OtpDoc.expiresAt data =? 0)%Z && (now >? OtpDoc.expiresAt data)%Z);
    [discriminate|].
  destruct (String.eqb (OtpDoc.otp data) c); [|discriminate].
  injection H as <-. exists e, c. auto.
Qed.

(** Verification never stores a record. *)
Lemma verify_otp_keeps_absent (now : Z) (email otp : option string) (st : state) (k : string) :
  otps st !! k = None -> otps (snd (verify_otp now email otp st)) !! k = None.
Proof.
  intros Hk. unfold verify_otp.
  destruct email as [e|]; [|exact Hk]. destruct otp as [c|]; [|exact Hk].
  destruct (negb (JS.truthy e) || negb (JS.truthy c)); [exact Hk|].
  destruct (otps st !! JS.encodeURIComponent e) as [data|]; [|exact Hk].
  destruct (negb (OtpDoc.expiresAt data =? 0)%Z && (now >? OtpDoc.expiresAt data)%Z);
    [|destruct (String.eqb (OtpDoc.otp data) c)]; simpl; try exact Hk;
    rewrite lookup_delete; case_decide; auto.
Qed.

(** The other routes leave the passcode store as it is. *)
Lemma force_password_change_otps (email otp : option string) (st : state) :
  otps (snd (force_password_change email otp st)) = otps st.
Proof.
  unfold force_password_change.
  repeat match goal with
         | |- context [match ?x with _ => _ end] => destruct x
         end; reflexivity.
Qed.

Lemma admin_route_otps (authorization : option string)
    (handler : state -> response * state) (st : state) :
  (forall s, otps (snd (handler s)) = otps s) ->
  otps (snd (admin_route authorization handler st)) = otps st.
Proof.
  intros H. unfold admin_route.
  destruct (requireAuth authorization st) as [rejection|a]; [reflexivity|].
  destruct (requireRole "admin" a); [apply H | reflexivity].
Qed.

Lemma ensure_auth_user_otps (env : password_env) (email password birthday : option string)
    (st : state) :
  otps (snd (ensure_auth_user env email password birthday st)) = otps st.
Proof.
  unfold ensure_auth_user.
  repeat match goal with
         | |- context [match ?x with _ => _ end] => destruct x
         end; reflexivity.
Qed.

Lemma archive_admin_otps (now : Z) (uid : option string) (disable : option bool) (st : state) :
  otps (snd (archive_admin now uid disable st)) = otps st.
Proof.
  unfold archive_admin. destruct uid as [uid|], disable as [disable|]; try reflexivity.
  destruct (negb (JS.truthy uid)); reflexivity.
Qed.

(** No request other than an issuance stores a passcode record. *)
Lemma handle_keeps_absent (q : request) (st : state) (k : string) :
  issues_passcode q = false ->
  otps st !! k = None -> otps (snd (handle q st)) !! k = None.
Proof.
  intros Hq Hk. destruct q; cbn [handle]; [discriminate| | | |].
  - apply verify_otp_keeps_absent. exact Hk.
  - rewrite force_password_change_otps. exact Hk.
  - unfold ensure_auth_user_route.
    rewrite admin_route_otps by (intros s; apply ensure_auth_user_otps). exact Hk.
  - unfold archive_admin_route.
    rewrite admin_route_otps by (intros s; apply archive_admin_otps). exact Hk.
Qed.

Lemma run_keeps_absent (reqs : list request) (st : state) (k : string) :
  List.forallb (fun q => negb (issues_passcode q)) reqs = true ->
  otps st !! k = None -> otps (run reqs st) !! k = None.
Proof.
  revert st. induction reqs as [|q reqs IH]; intros st Hreqs Hk; [exact Hk|].
  cbn [List.forallb] in Hreqs. apply andb_prop in Hreqs as [Hq Hreqs].
  apply negb_true_iff in Hq. apply (IH _ Hreqs). apply handle_keeps_absent; assumption.
Qed.

(** The record [/send-otp] leaves in the store. *)
Lemma send_otp_otps (now : Z) (r : Q) (mail : mail_env) (e : string) (st : state) :
  JS.truthy e = true ->
  otps (snd (send_otp now r mail (Some e) st)) =
    <[JS.encodeURIComponent e := OtpDoc.mk (generate_otp r) now (now + OTP_TTL)]> (otps st).
Proof. intros He. unfold send_otp. rewrite He. destruct mail; reflexivity. Qed.

(** C3. When a verify call answers OK it has deleted the record; whatever
    requests follow, as long as none of them issues a passcode, a later
    verify call with the same email and the same code answers NOT_FOUND. *)
Theorem C3_verify_ok_at_most_once (now now' : Z) (email code : option string)
    (st st' : state) (reqs : list request) :
  verify_otp now email code st = (OK, st') ->
  List.forallb (fun q => negb (issues_passcode q)) reqs = true ->
  verify_otp now' email code (run reqs st') = (NOT_FOUND, run reqs st').
Proof.
  intros H Hreqs. apply verify_otp_OK_inv in H as (e & c & -> & -> & He & Hc & ->).
  apply verify_otp_absent; [exact He | exact Hc |].
  apply run_keeps_absent; [exact Hreqs|]. simpl. apply lookup_delete_eq.
Qed.

Lemma C3_witness :
  let st := snd (send_otp 0 0 MailOk (Some "a@x.com") empty_state) in
  let st' := snd (verify_otp 1 (Some "a@x.com") (Some "100000") st) in
  let reqs := [VerifyOtp 2 (Some "b@x.com") (Some "123456");
               ForcePasswordChange (Some "a@x.com") (Some "100000");
               VerifyOtp 3 (Some "a@x.com") (Some "999999")] in
  verify_otp 1 (Some "a@x.com") (Some "100000") st = (OK, st') /\
  List.forallb (fun q => negb (issues_passcode q)) reqs = true /\
  verify_otp 4 (Some "a@x.com") (Some "100000") (run reqs st') = (NOT_FOUND, run reqs st').
Proof.
  assert (H : verify_otp 1 (Some "a@x.com") (Some "100000")
                (snd (send_otp 0 0 MailOk (Some "a@x.com") empty_state)) =
              (OK, snd (verify_otp 1 (Some "a@x.com") (Some "100000")
                          (snd (send_otp 0 0 MailOk (Some "a@x.com") empty_state)))))
    by (vm_compute; reflexivity).
  split; [exact H|]. split; [reflexivity|].
  exact (C3_verify_ok_at_most_once 1 4 _ _ _ _
           [VerifyOtp 2 (Some "b@x.com") (Some "123456");
            ForcePasswordChange (Some "a@x.com") (Some "100000");
            VerifyOtp 3 (Some "a@x.com") (Some "999999")] H eq_refl).
Defined.

Lemma generate_otp_truthy (r : Q) : JS.truthy (generate_otp r) = true.
Proof. apply toString_truthy. Qed.

(** C4, as amended. Two issuances in succession leave one record under the
    email's key, the second one. Verifying the first code afterwards, no
    later than the second code's expiry and when the two codes differ,
    answers MISMATCH and keeps the record; the second code verifies. *)
Theorem C4_second_issuance_overwrites (st : state) (now1 now2 now3 : Z) (r1 r2 : Q)
    (mail1 mail2 : mail_env) (email : string) :
  JS.truthy email = true ->
  generate_otp r1 <> generate_otp r2 ->
  now3 <= now2 + OTP_TTL ->
  let key := JS.encodeURIComponent email in
  let st1 := snd (send_otp now1 r1 mail1 (Some email) st) in
  let st2 := snd (send_otp now2 r2 mail2 (Some email) st1) in
  otps st2 = <[key := OtpDoc.mk (generate_otp r2) now2 (now2 + OTP_TTL)]> (otps st) /\
  verify_otp now3 (Some email) (Some (generate_otp r1)) st2 = (MISMATCH, st2) /\
  verify_otp now3 (Some email) (Some (generate_otp r2)) st2 =
    (OK, with_otps st2 (delete key (otps st2))).
Proof.
  intros He Hne Hnow key st1 st2.
  assert (Hst2 : otps st2 = <[key := OtpDoc.mk (generate_otp r2) now2 (now2 + OTP_TTL)]> (otps st)).
  { unfold st2, st1. rewrite !send_otp_otps by exact He. apply insert_insert_eq. }
  assert (Hk : otps st2 !! key = Some (OtpDoc.mk (generate_otp r2) now2 (now2 + OTP_TTL))).
  { rewrite Hst2. apply lookup_insert_eq. }
  assert (Hfresh : (now3 >? now2 + OTP_TTL)%Z = false) by lia.
  split; [exact Hst2|]. split.
  - rewrite (verify_otp_found _ _ _ _ _ He (generate_otp_truthy r1) Hk). simpl.
    rewrite Hfresh, andb_false_r.
    destruct (String.eqb_spec (generate_otp r2) (generate_otp r1)) as [E|_]; [|reflexivity].
    congruence.
  - rewrite (verify_otp_found _ _ _ _ _ He (generate_otp_truthy r2) Hk). simpl.
    rewrite Hfresh, andb_false_r, String.eqb_refl. reflexivity.
Qed.

Lemma C4_witness :
  let st1 := snd (send_otp 0 0 MailOk (Some "a@x.com") empty_state) in
  let st2 := snd (send_otp 1000 (1 # 2) MailOk (Some "a@x.com") st1) in
  JS.truthy "a@x.com" = true /\
  generate_otp 0 <> generate_otp (1 # 2) /\
  2000 <= 1000 + OTP_TTL /\
  verify_otp 2000 (Some "a@x.com") (Some (generate_otp 0)) st2 = (MISMATCH, st2).
Proof.
  assert (H1 : JS.truthy "a@x.com" = true) by reflexivity.
  assert (H2 : generate_otp 0 <> generate_otp (1 # 2)) by (vm_compute; discriminate).
  assert (H3 : 2000 <= 1000 + OTP_TTL) by (vm_compute; discriminate).
  split; [exact H1|]. split; [exact H2|]. split; [exact H3|].
  exact (proj1 (proj2 (C4_second_issuance_overwrites empty_state 0 1000 2000 0 (1 # 2)
                         MailOk MailOk "a@x.com" H1 H2 H3))).
Defined.

(** C4 as stated fails twice over: after the second code has expired the
    first code is answered EXPIRED, and when the two draws give the same
    code the first code is answered OK. *)
Lemma C4_counterexample :
  let st1 := snd (send_otp 0 0 MailOk (Some "a@x.com") empty_state) in
  let st2 := snd (send_otp 1000 (1 # 2) MailOk (Some "a@x.com") st1) in
  let st2' := snd (send_otp 1000 0 MailOk (Some "a@x.com") st1) in
  generate_otp 0 = "100000" /\ generate_otp (1 # 2) = "550000" /\
  fst (verify_otp 301001 (Some "a@x.com") (Some "100000") st2) = EXPIRED /\
  fst (verify_otp 2000 (Some "a@x.com") (Some "100000") st2') = OK /\
  EXPIRED <> MISMATCH /\ OK <> MISMATCH.
Proof. vm_compute. repeat split; discriminate. Qed.

(** The answer to a verify call for another email string is the same before
    and after an issuance: it never reads the record just stored. *)
Lemma verify_other_email_unaffected (st : state) (now now' : Z) (r : Q) (mail : mail_env)
    (e e' : string) (code : option string) :
  JS.truthy e = true -> e' <> e ->
  fst (verify_otp now' (Some e') code (snd (send_otp now r mail (Some e) st))) =
  fst (verify_otp now' (Some e') code st).
Proof.
  intros He Hne. unfold verify_otp. destruct code as [c|]; [|reflexivity].
  destruct (negb (JS.truthy e') || negb (JS.truthy c)); [reflexivity|].
  rewrite send_otp_otps by exact He.
  rewrite lookup_insert_ne by (intros E; apply encodeURIComponent_inj in E; congruence).
  destruct (otps st !! JS.encodeURIComponent e') as [data|]; [|reflexivity].
  destruct (negb (OtpDoc.expiresAt data =? 0)%Z && (now' >? OtpDoc.expiresAt data)%Z);
    [reflexivity|].
  destruct (String.eqb (OtpDoc.otp data) c); reflexivity.
Qed.

(** C10, as amended. The record of an issuance is stored under
    [encodeURIComponent] of the email exactly as supplied, and nothing else
    of the passcode store changes. A verify call with any other email
    string, in particular one that differs only in letter case or in
    surrounding white space, is answered as it was before the issuance: it
    never reads the issued record, and it answers NOT_FOUND when nothing is
    stored under its own key. *)
Theorem C10_storage_key_is_the_exact_email (st : state) (now now' : Z) (r : Q)
    (mail : mail_env) (e e' code : string) :
  JS.truthy e = true -> JS.truthy e' = true -> JS.truthy code = true ->
  e' <> e ->
  let st1 := snd (send_otp now r mail (Some e) st) in
  otps st1 =
    <[JS.encodeURIComponent e := OtpDoc.mk (generate_otp r) now (now + OTP_TTL)]> (otps st) /\
  fst (verify_otp now' (Some e') (Some code) st1) =
    fst (verify_otp now' (Some e') (Some code) st) /\
  (otps st !! JS.encodeURIComponent e' = None ->
   verify_otp now' (Some e') (Some code) st1 = (NOT_FOUND, st1)).
Proof.
  intros He He' Hc Hne st1.
  split; [apply send_otp_otps; exact He|].
  split; [apply verify_other_email_unaffected; assumption|].
  intros Hk. apply verify_otp_absent; [exact He' | exact Hc |].
  unfold st1. rewrite send_otp_otps by exact He.
  rewrite lookup_insert_ne by (intros E; apply encodeURIComponent_inj in E; congruence).
  exact Hk.
Qed.

Lemma C10_witness :
  let st1 := snd (send_otp 0 0 MailOk (Some "a@x.com") empty_state) in
  JS.truthy "a@x.com" = true /\ JS.truthy "A@x.com" = true /\ JS.truthy "100000" = true /\
  JS.toLowerCase "A@x.com" = JS.toLowerCase "a@x.com" /\
  otps empty_state !! JS.encodeURIComponent "A@x.com" = None /\
  verify_otp 1 (Some "A@x.com") (Some "100000") st1 = (NOT_FOUND, st1) /\
  JS.trim " a@x.com " = JS.trim "a@x.com" /\
  verify_otp 1 (Some " a@x.com ") (Some "100000") st1 = (NOT_FOUND, st1).
Proof.
  assert (H1 : JS.truthy "a@x.com" = true) by reflexivity.
  assert (H2 : JS.truthy "A@x.com" = true) by reflexivity.
  assert (H3 : JS.truthy "100000" = true) by reflexivity.
  assert (H4 : "A@x.com" <> "a@x.com") by discriminate.
  assert (H5 : otps empty_state !! JS.encodeURIComponent "A@x.com" = None) by reflexivity.
  assert (H6 : JS.truthy " a@x.com " = true) by reflexivity.
  assert (H7 : " a@x.com " <> "a@x.com") by discriminate.
  assert (H8 : otps empty_state !! JS.encodeURIComponent " a@x.com " = None) by reflexivity.
  split; [exact H1|]. split; [exact H2|]. split; [exact H3|].
  split; [reflexivity|]. split; [exact H5|].
  split; [exact (proj2 (proj2 (C10_storage_key_is_the_exact_email empty_state 0 1 0 MailOk
                          "a@x.com" "A@x.com" "100000" H1 H2 H3 H4)) H5)|].
  split; [reflexivity|].
  exact (proj2 (proj2 (C10_storage_key_is_the_exact_email empty_state 0 1 0 MailOk
                  "a@x.com" " a@x.com " "100000" H1 H6 H3 H7)) H8).
Defined.

(** C10 as stated fails when a passcode was issued to the other spelling as
    well: the verify call for ["A@x.com"] after the issuance to ["a@x.com"]
    finds the record of ["A@x.com"] and answers OK. *)
Lemma C10_counterexample :
  let st1 := snd (send_otp 0 0 MailOk (Some "A@x.com") empty_state) in
  let st2 := snd (send_otp 1000 (1 # 2) MailOk (Some "a@x.com") st1) in
  JS.toLowerCase "A@x.com" = JS.toLowerCase "a@x.com" /\
  otps st2 !! JS.encodeURIComponent "a@x.com" = Some (OtpDoc.mk "550000" 1000 301000) /\
  fst (verify_otp 2000 (Some "A@x.com") (Some "100000") st2) = OK /\
  OK <> NOT_FOUND.
Proof. vm_compute. repeat split; discriminate. Qed.

(** ** Forced password change *)

Lemma find_map_preserved {A : Type} (p : A -> bool) (f : A -> A) (l : list A) :
  (forall x, p (f x) = p x) ->
  List.find p (List.map f l) = option_map f (List.find p l).
Proof.
  intros Hp. induction l as [|x l IH]; simpl; [reflexivity|].
  rewrite Hp. destruct (p x); [reflexivity | exact IH].
Qed.

Lemma existsb_of_find {A : Type} (p q : A -> bool) (l : list A) (x : A) :
  List.find p l = Some x -> q x = true -> List.existsb q l = true.
Proof.
  intros Hf Hq. apply List.existsb_exists. exists x. split; [|exact Hq].
  apply List.find_some in Hf. tauto.
Qed.

Lemma has_uid_refl (u : Auth.user) : Auth.has_uid (Auth.uid u) u = true.
Proof. apply String.eqb_refl. Qed.

Lemma getUserByEmail_Ok (a : Auth.state) (e : string) (u : Auth.user) :
  Auth.getUserByEmail a e = Ok u <->
  Auth.valid_email e = true /\ List.find (Auth.has_email e) (Auth.accounts a) = Some u.
Proof.
  unfold Auth.getUserByEmail. destruct (Auth.valid_email e); cbn [negb].
  - destruct (List.find _ _); split; [intros H | intros [_ H] | intros H | intros [_ H]];
      try split; congruence.
  - split; [discriminate | intros [H _]; discriminate].
Qed.

Lemma accepts_inv (a : Auth.state) (e pw : string) :
  Auth.accepts a e pw = true ->
  Auth.valid_email e = true /\ Auth.valid_password pw = true /\ Auth.policy a e pw = true.
Proof.
  unfold Auth.accepts. intros H.
  apply andb_prop in H as [H H3]. apply andb_prop in H as [H1 H2]. auto.
Qed.

Lemma lower_ascii_idem (c : ascii) : JS.lower_ascii (JS.lower_ascii c) = JS.lower_ascii c.
Proof.
  destruct c as [[] [] [] [] [] [] [] []]; reflexivity.
Qed.

Lemma toLowerCase_idem (s : string) : JS.toLowerCase (JS.toLowerCase s) = JS.toLowerCase s.
Proof.
  induction s as [|c s IH]; [reflexivity|]. simpl. rewrite lower_ascii_idem, IH. reflexivity.
Qed.

Lemma valid_email_truthy (e : string) : Auth.valid_email e = true -> JS.truthy e = true.
Proof. destruct e; [discriminate | reflexivity]. Qed.

Lemma getUserByEmail_truthy (a : Auth.state) (e : string) (u : Auth.user) :
  Auth.getUserByEmail a e = Ok u -> JS.truthy e = true.
Proof. intros H. apply getUserByEmail_Ok in H as [H _]. exact (valid_email_truthy e H). Qed.

(** The properties the provider lets through: a password, if one is given,
    has six characters or more. *)
Lemma updateUser_found (a : Auth.state) (i : string) (p : Auth.props) :
  match Auth.set_password p with Some pw => Auth.valid_password pw | None => true end = true ->
  List.existsb (Auth.has_uid i) (Auth.accounts a) = true ->
  Auth.updateUser a i p =
    Ok (Auth.with_accounts a
          (List.map (fun u => if Auth.has_uid i u then Auth.apply_props p u else u)
             (Auth.accounts a))).
Proof. intros Hp Hex. unfold Auth.updateUser. rewrite Hp, Hex. reflexivity. Qed.

(** Updating the account an email resolves to succeeds, and the email then
    resolves to the updated account. *)
Lemma updateUser_of_found (a : Auth.state) (e : string) (u : Auth.user) (p : Auth.props) :
  match Auth.set_password p with Some pw => Auth.valid_password pw | None => true end = true ->
  Auth.getUserByEmail a e = Ok u ->
  exists a', Auth.updateUser a (Auth.uid u) p = Ok a' /\
    Auth.getUserByEmail a' e = Ok (Auth.apply_props p u) /\
    Auth.accounts a' =
      List.map (fun v => if Auth.has_uid (Auth.uid u) v then Auth.apply_props p v else v)
        (Auth.accounts a) /\
    Auth.accepts a' = Auth.accepts a.
Proof.
  intros Hp H. apply getUserByEmail_Ok in H as [He H].
  rewrite (updateUser_found a _ p Hp (existsb_of_find _ _ _ _ H (has_uid_refl u))).
  eexists. split; [reflexivity|]. split; [|split; reflexivity].
  apply getUserByEmail_Ok. split; [exact He|]. simpl. rewrite find_map_preserved.
  - rewrite H. simpl. rewrite has_uid_refl. reflexivity.
  - intros x. destruct (Auth.has_uid (Auth.uid u) x); reflexivity.
Qed.

(** The account [u] with the password [pw]. *)
Lemma apply_password_only (pw : string) (u : Auth.user) :
  Auth.apply_props (Auth.password_only pw) u =
  Auth.mkUser (Auth.uid u) (Auth.email u) pw (Auth.emailVerified u) (Auth.disabled u).
Proof. reflexivity. Qed.

(** C2, as amended. For an email that resolves to an account and a code of
    six characters or more, [/api/force-password-change] answers success
    and sets the password of that account to the code: the provider's
    accounts are the former ones with this one password replaced, and the
    email resolves to the account with the code as its password. The answer
    and the new state are the same whatever the passcode store holds, and
    the store, like the other collections, is left as it was. A non-empty
    code of fewer than six characters is refused by the provider: the answer
    is 500 and nothing is changed. *)
Theorem C2_force_password_change_ignores_passcodes (st : state) (email code : string)
    (u : Auth.user) :
  Auth.valid_password code = true ->
  Auth.getUserByEmail (auth st) email = Ok u ->
  let out := force_password_change (Some email) (Some code) st in
  fst out = mkResponse 200 SuccessOnly /\
  Auth.accounts (auth (snd out)) =
    List.map (fun v => if Auth.has_uid (Auth.uid u) v
                       then Auth.mkUser (Auth.uid v) (Auth.email v) code
                              (Auth.emailVerified v) (Auth.disabled v)
                       else v)
      (Auth.accounts (auth st)) /\
  Auth.getUserByEmail (auth (snd out)) email =
    Ok (Auth.mkUser (Auth.uid u) (Auth.email u) code (Auth.emailVerified u) (Auth.disabled u)) /\
  Auth.next_uid (auth (snd out)) = Auth.next_uid (auth st) /\
  Auth.tokens (auth (snd out)) = Auth.tokens (auth st) /\
  Auth.policy (auth (snd out)) = Auth.policy (auth st) /\
  users (snd out) = users st /\ otps (snd out) = otps st /\
  vaccineStock (snd out) = vaccineStock st /\
  (forall o : gmap string OtpDoc.t,
     force_password_change (Some email) (Some code) (with_otps st o) =
       (fst out, with_otps (snd out) o)) /\
  (forall short : string,
     JS.truthy short = true -> Auth.valid_password short = false ->
     force_password_change (Some email) (Some short) st =
       (mkResponse 500 (ErrorOnly "auth/invalid-password"), st)).
Proof.
  intros Hc Hu.
  assert (He : JS.truthy email = true) by exact (getUserByEmail_truthy _ _ _ Hu).
  assert (Ht : JS.truthy code = true) by (destruct code; [discriminate | reflexivity]).
  destruct (updateUser_of_found _ _ _ (Auth.password_only code) Hc Hu) as (a & Ha & Hg & Hacc & _).
  assert (Hout : force_password_change (Some email) (Some code) st =
                 (mkResponse 200 SuccessOnly, with_auth st a)).
  { unfold force_password_change. rewrite He, Ht, Hu. simpl. rewrite Ha. reflexivity. }
  assert (Hnt : Auth.next_uid a = Auth.next_uid (auth st) /\
                Auth.tokens a = Auth.tokens (auth st) /\ Auth.policy a = Auth.policy (auth st)).
  { rewrite (updateUser_found (auth st) (Auth.uid u) (Auth.password_only code) Hc) in Ha.
    - injection Ha as <-. repeat split; reflexivity.
    - apply getUserByEmail_Ok in Hu as [_ Hf].
      exact (existsb_of_find _ _ _ _ Hf (has_uid_refl u)). }
  destruct Hnt as (Hn & Hk & Hp).
  cbv zeta. rewrite Hout. cbn [fst snd auth users otps vaccineStock with_auth].
  split; [reflexivity|]. split; [exact Hacc|]. split; [exact Hg|].
  split; [exact Hn|]. split; [exact Hk|]. split; [exact Hp|].
  split; [reflexivity|]. split; [reflexivity|]. split; [reflexivity|].
  split.
  - intros o. unfold force_password_change. rewrite He, Ht. simpl. rewrite Hu. simpl.
    rewrite Ha. reflexivity.
  - intros short Hs Hv. unfold force_password_change. rewrite He, Hs. cbn [negb orb].
    rewrite Hu. cbn [bind]. unfold Auth.updateUser.
    cbn [Auth.set_password Auth.password_only]. rewrite Hv. reflexivity.
Qed.

Lemma C2_witness :
  Auth.valid_password "abc123" = true /\
  Auth.getUserByEmail (auth one_account_state) "A@x.com" =
    Ok (Auth.mkUser "uid0" "a@x.com" "old-password" true false) /\
  otps one_account_state !! JS.encodeURIComponent "a@x.com" =
    Some (OtpDoc.mk "654321" 0 300000) /\
  force_password_change (Some "A@x.com") (Some "abc123") one_account_state =
    (mkResponse 200 SuccessOnly,
     mkState
       (Auth.mkState [Auth.mkUser "uid0" "a@x.com" "abc123" true false] 1 ∅ (fun _ _ => true))
       ∅ {[ "a%40x.com" := OtpDoc.mk "654321" 0 300000 ]} ∅) /\
  Auth.getUserByEmail
    (auth (snd (force_password_change (Some "A@x.com") (Some "abc123") one_account_state)))
    "A@x.com" = Ok (Auth.mkUser "uid0" "a@x.com" "abc123" true false).
Proof.
  assert (H2 : Auth.valid_password "abc123" = true) by reflexivity.
  assert (H3 : Auth.getUserByEmail (auth one_account_state) "A@x.com" =
               Ok (Auth.mkUser "uid0" "a@x.com" "old-password" true false)) by reflexivity.
  split; [exact H2|]. split; [exact H3|]. split; [reflexivity|]. split; [reflexivity|].
  exact (proj1 (proj2 (proj2
    (C2_force_password_change_ignores_passcodes one_account_state "A@x.com" "abc123" _ H2 H3)))).
Defined.

(** C2 as stated fails for a short code: the provider refuses a password of
    fewer than six characters, so for the non-empty code ["1"] the request
    is answered 500 and the password stays as it was. *)
Lemma C2_counterexample :
  JS.truthy "1" = true /\
  Auth.getUserByEmail (auth one_account_state) "a@x.com" =
    Ok (Auth.mkUser "uid0" "a@x.com" "old-password" true false) /\
  force_password_change (Some "a@x.com") (Some "1") one_account_state =
    (mkResponse 500 (ErrorOnly "auth/invalid-password"), one_account_state).
Proof. repeat split; reflexivity. Qed.

(** ** Passcode generation *)

Lemma pow2_pos (e : Z) : (0 < Double.pow2 e)%Q.
Proof. apply Qpower_0_lt. reflexivity. Qed.

Lemma pow2_add (a b : Z) : (Double.pow2 (a + b) == Double.pow2 a * Double.pow2 b)%Q.
Proof. apply Qpower_plus. discriminate. Qed.

Lemma pow2_Z (e : Z) : 0 <= e -> (Double.pow2 e == inject_Z (2 ^ e))%Q.
Proof. intros H. unfold Double.pow2. rewrite Zpower_Qpower by exact H. reflexivity. Qed.

Lemma pow2_le (a b : Z) : a <= b -> (Double.pow2 a <= Double.pow2 b)%Q.
Proof.
  intros H. replace b with (a + (b - a)) by lia. rewrite pow2_add.
  assert (H1 : (1 <= Double.pow2 (b - a))%Q).
  { rewrite pow2_Z by lia. change 1%Q with (inject_Z 1). rewrite <- Zle_Qle.
    assert (0 < 2 ^ (b - a)) by (apply Z.pow_pos_nonneg; lia). lia. }
  pose proof (pow2_pos a). nra.
Qed.

Lemma log2_bounds (n : Z) : 0 < n ->
  (Double.pow2 (Z.log2 n) <= inject_Z n)%Q /\ (inject_Z n < Double.pow2 (Z.log2 n + 1))%Q.
Proof.
  intros Hn. pose proof (Z.log2_nonneg n) as H0.
  destruct (Z.log2_spec n Hn) as [H1 H2].
  rewrite !pow2_Z by lia. rewrite <- Zle_Qle, <- Zlt_Qlt.
  replace (Z.log2 n + 1) with (Z.succ (Z.log2 n)) by lia. auto.
Qed.

Lemma floor_log2_spec (x : Q) : (0 < x)%Q ->
  (Double.pow2 (Double.floor_log2 x) <= x)%Q /\ (x < Double.pow2 (Double.floor_log2 x + 1))%Q.
Proof.
  intros Hx. destruct x as [n d].
  assert (Hn : 0 < n) by (unfold Qlt in Hx; simpl in Hx; lia).
  destruct (log2_bounds n Hn) as [N1 N2].
  destruct (log2_bounds (Zpos d) eq_refl) as [D1 D2].
  assert (Ex : (n # d == inject_Z n / inject_Z (Zpos d))%Q) by apply Qmake_Qdiv.
  assert (Hd : (0 < inject_Z (Zpos d))%Q) by reflexivity.
  assert (Exd : ((n # d) * inject_Z (Zpos d) == inject_Z n)%Q).
  { rewrite Ex. field. intros E. rewrite E in Hd. discriminate. }
  unfold Double.floor_log2. cbn [Qnum Qden].
  set (ln := Z.log2 n) in *. set (ld := Z.log2 (Zpos d)) in *.
  set (x := (n # d)%Q) in *. set (D := inject_Z (Zpos d)) in *. set (N := inject_Z n) in *.
  destruct (Qle_bool (Double.pow2 (ln - ld)) x) eqn:Ht.
  - apply Qle_bool_iff in Ht. split; [exact Ht|].
    pose proof (pow2_add (ln - ld + 1) ld) as E.
    replace (ln - ld + 1 + ld) with (ln + 1) in E by lia.
    pose proof (pow2_pos (ln - ld + 1)). pose proof (pow2_pos ld).
    apply (Qmult_lt_r _ _ D Hd). rewrite Exd.
    eapply Qlt_le_trans; [exact N2|]. rewrite E.
    apply Qmult_le_l; assumption.
  - assert (Hlt : (x < Double.pow2 (ln - ld))%Q).
    { apply Qnot_le_lt. intros H. apply Qle_bool_iff in H. congruence. }
    replace (ln - ld - 1 + 1) with (ln - ld) by lia. split; [|exact Hlt].
    pose proof (pow2_add (ln - ld - 1) (ld + 1)) as E.
    replace (ln - ld - 1 + (ld + 1)) with ln in E by lia.
    pose proof (pow2_pos (ln - ld - 1)).
    apply (Qmult_le_r _ _ D Hd). rewrite Exd.
    eapply Qle_trans; [|exact N1]. rewrite E.
    apply Qmult_le_l; [assumption|]. apply Qlt_le_weak. exact D2.
Qed.

Lemma round_even_bounds (y : Q) : Qfloor y <= Double.round_even y <= Qfloor y + 1.
Proof.
  unfold Double.round_even. destruct (_ ?= _)%Q; [destruct (Z.even _)| |]; lia.
Qed.

Lemma round_even_ge (y : Q) (K : Z) : (inject_Z K <= y)%Q -> K <= Double.round_even y.
Proof.
  intros H. pose proof (round_even_bounds y).
  assert (K <= Qfloor y) by (rewrite <- (Qfloor_Z K); apply Qfloor_resp_le; exact H).
  lia.
Qed.

Lemma round_even_le (y : Q) (K : Z) : (y <= inject_Z K)%Q -> Double.round_even y <= K.
Proof.
  intros H. pose proof (round_even_bounds y) as B.
  assert (HK : Qfloor y <= K) by (rewrite <- (Qfloor_Z K); apply Qfloor_resp_le; exact H).
  destruct (Z.eq_dec (Qfloor y) K) as [E|Hne]; [|lia].
  unfold Double.round_even.
  assert (Hy : (y - inject_Z (Qfloor y) <= 0)%Q) by (rewrite E; lra).
  destruct (Qcompare_spec (y - inject_Z (Qfloor y)) (1 # 2)) as [H1|H1|H1]; try lra; lia.
Qed.

Lemma round_even_near (y : Q) (K : Z) :
  (inject_Z K - (1 # 2) < y)%Q -> (y < inject_Z K + (1 # 2))%Q -> Double.round_even y = K.
Proof.
  intros H1 H2. pose proof (Qfloor_le y) as F1. pose proof (Qlt_floor y) as F2.
  rewrite inject_Z_plus in F2. change (inject_Z 1) with 1%Q in F2.
  assert (HF : Qfloor y = K \/ Qfloor y = K - 1).
  { assert (A : (inject_Z (Qfloor y) < inject_Z (K + 1))%Q)
      by (rewrite inject_Z_plus; change (inject_Z 1) with 1%Q; lra).
    assert (B : (inject_Z (K - 2) < inject_Z (Qfloor y))%Q)
      by (unfold Z.sub; rewrite inject_Z_plus; change (inject_Z (- (2))) with (-2)%Q; lra).
    rewrite <- Zlt_Qlt in A, B. lia. }
  unfold Double.round_even. destruct HF as [E|E]; rewrite E in *.
  - destruct (Qcompare_spec (y - inject_Z K) (1 # 2)) as [C|C|C]; try lra; reflexivity.
  - unfold Z.sub in F1, F2. rewrite inject_Z_plus in F1, F2.
    change (inject_Z (- (1))) with (-1)%Q in F1, F2.
    destruct (Qcompare_spec (y - inject_Z (K - 1)) (1 # 2)) as [C|C|C];
      unfold Z.sub in C; rewrite inject_Z_plus in C;
      change (inject_Z (- (1))) with (-1)%Q in C; try lra; lia.
Qed.

(** Grid points of a number's own grid bound its rounding. *)
Lemma round_pos_grid_ge (x : Q) (G : Z) :
  (inject_Z G * Double.pow2 (Double.ulp_exp x) <= x)%Q -> (inject_Z G * Double.pow2 (Double.ulp_exp x) <= Double.round_pos x)%Q.
Proof.
  intros H. pose proof (pow2_pos (Double.ulp_exp x)) as Hp. unfold Double.round_pos.
  apply Qmult_le_compat_r; [|apply Qlt_le_weak; exact Hp].
  rewrite <- Zle_Qle. apply round_even_ge. apply Qle_shift_div_l; assumption.
Qed.

Lemma round_pos_grid_le (x : Q) (G : Z) :
  (x <= inject_Z G * Double.pow2 (Double.ulp_exp x))%Q -> (Double.round_pos x <= inject_Z G * Double.pow2 (Double.ulp_exp x))%Q.
Proof.
  intros H. pose proof (pow2_pos (Double.ulp_exp x)) as Hp. unfold Double.round_pos.
  apply Qmult_le_compat_r; [|apply Qlt_le_weak; exact Hp].
  rewrite <- Zle_Qle. apply round_even_le. apply Qle_shift_div_r; assumption.
Qed.

(** The numbers [K * 2^j] of at most 53 bits, [j] no less than -1074. *)
Lemma on_grid (K j e : Z) : e <= j ->
  (inject_Z K * Double.pow2 j == inject_Z (K * 2 ^ (j - e)) * Double.pow2 e)%Q.
Proof.
  intros H. replace j with (j - e + e) at 1 by lia.
  rewrite pow2_add, pow2_Z by lia. rewrite inject_Z_mult. ring.
Qed.

Lemma round_pos_lower (x : Q) :
  (0 < x)%Q -> Double.ulp_exp x <= Double.floor_log2 x -> (Double.pow2 (Double.floor_log2 x) <= Double.round_pos x)%Q.
Proof.
  intros Hx He. destruct (floor_log2_spec x Hx) as [L _].
  pose proof (on_grid 1 (Double.floor_log2 x) (Double.ulp_exp x) He) as E.
  change (inject_Z 1) with 1%Q in E. rewrite Qmult_1_l in E.
  rewrite E. apply round_pos_grid_ge. rewrite <- E. exact L.
Qed.

Lemma representable_below (K j : Z) (x : Q) :
  0 <= K < 2 ^ 53 -> j < Double.floor_log2 x - 52 -> (inject_Z K * Double.pow2 j < Double.pow2 (Double.floor_log2 x))%Q.
Proof.
  intros HK Hj.
  assert (H1 : (inject_Z K * Double.pow2 j < inject_Z (2 ^ 53) * Double.pow2 j)%Q).
  { apply Qmult_lt_compat_r; [apply pow2_pos|]. rewrite <- Zlt_Qlt. lia. }
  eapply Qlt_le_trans; [exact H1|].
  rewrite <- pow2_Z by lia. rewrite <- pow2_add. apply pow2_le. lia.
Qed.

Lemma round_pos_ge (x g : Q) :
  (0 < x)%Q -> Double.representable g -> (g <= x)%Q -> (g <= Double.round_pos x)%Q.
Proof.
  intros Hx (K & j & HK & Hj & Eg) Hg.
  destruct (Z_le_gt_dec (Double.ulp_exp x) j) as [He|He].
  - rewrite Eg, (on_grid K j (Double.ulp_exp x) He) in *. apply round_pos_grid_ge. exact Hg.
  - assert (Hj' : j < Double.floor_log2 x - 52) by (unfold Double.ulp_exp in He; lia).
    rewrite Eg. apply Qlt_le_weak. eapply Qlt_le_trans.
    + apply (representable_below K j x HK Hj').
    + apply round_pos_lower; [exact Hx | unfold Double.ulp_exp in *; lia].
Qed.

Lemma round_pos_le (x g : Q) :
  (0 < x)%Q -> Double.representable g -> (x <= g)%Q -> (Double.round_pos x <= g)%Q.
Proof.
  intros Hx (K & j & HK & Hj & Eg) Hg.
  destruct (Z_le_gt_dec (Double.ulp_exp x) j) as [He|He].
  - rewrite Eg, (on_grid K j (Double.ulp_exp x) He) in *. apply round_pos_grid_le. exact Hg.
  - assert (Hj' : j < Double.floor_log2 x - 52) by (unfold Double.ulp_exp in He; lia).
    exfalso. destruct (floor_log2_spec x Hx) as [L _].
    pose proof (representable_below K j x HK Hj') as H. rewrite <- Eg in H. lra.
Qed.

Lemma round_positive (x : Q) : (0 < x)%Q -> Double.round x = Double.round_pos x.
Proof.
  intros Hx. unfold Double.round. destruct x as [[|p|p] d]; try reflexivity;
    unfold Qlt in Hx; simpl in Hx; lia.
Qed.

Lemma round_zero (x : Q) : (x == 0)%Q -> Double.round x = 0%Q.
Proof.
  intros Hx. unfold Double.round. destruct x as [[|p|p] d]; try reflexivity;
    unfold Qeq in Hx; simpl in Hx; lia.
Qed.

Lemma representable_0 : Double.representable 0.
Proof. exists 0, 0. split; [lia|]. split; [lia|]. reflexivity. Qed.

(** Rounding keeps a non-negative number on its side of a Double.representable one. *)
Lemma round_ge (x g : Q) : (0 <= x)%Q -> Double.representable g -> (g <= x)%Q -> (g <= Double.round x)%Q.
Proof.
  intros Hx Hr Hg. destruct (Qlt_le_dec 0 x) as [Hp|Hz].
  - rewrite round_positive by exact Hp. apply round_pos_ge; assumption.
  - rewrite round_zero by lra. lra.
Qed.

Lemma round_le (x g : Q) : (0 <= x)%Q -> Double.representable g -> (x <= g)%Q -> (Double.round x <= g)%Q.
Proof.
  intros Hx Hr Hg. destruct (Qlt_le_dec 0 x) as [Hp|Hz].
  - rewrite round_positive by exact Hp. apply round_pos_le; assumption.
  - rewrite round_zero by lra. lra.
Qed.

Lemma round_nonneg (x : Q) : (0 <= x)%Q -> (0 <= Double.round x)%Q.
Proof. intros Hx. apply round_ge; [exact Hx | apply representable_0 | exact Hx]. Qed.

Lemma round_representable (g : Q) : (0 <= g)%Q -> Double.representable g -> (Double.round g == g)%Q.
Proof.
  intros H0 Hr. apply Qle_antisym; [apply round_le | apply round_ge]; try assumption; lra.
Qed.

Lemma representable_Z (n : Z) : 0 <= n < 2 ^ 53 -> Double.representable (inject_Z n).
Proof.
  intros Hn. exists n, 0. split; [exact Hn|]. split; [lia|].
  change (Double.pow2 0) with 1%Q. ring.
Qed.

Lemma Qfloor_spec (x : Q) (n : Z) :
  Qfloor x = n <-> (inject_Z n <= x /\ x < inject_Z (n + 1))%Q.
Proof.
  split.
  - intros <-. split; [apply Qfloor_le | apply Qlt_floor].
  - intros [Hlo Hhi].
    assert (H1 : (n <= Qfloor x)%Z).
    { rewrite <- (Qfloor_Z n). apply Qfloor_resp_le. exact Hlo. }
    assert (H2 : (Qfloor x < n + 1)%Z).
    { rewrite Zlt_Qlt. eapply Qle_lt_trans; [apply Qfloor_le | exact Hhi]. }
    lia.
Qed.

Lemma floor_log2_unique (x : Q) (k : Z) :
  (Double.pow2 k <= x)%Q -> (x < Double.pow2 (k + 1))%Q -> Double.floor_log2 x = k.
Proof.
  intros H1 H2.
  assert (Hx : (0 < x)%Q) by (pose proof (pow2_pos k); lra).
  destruct (floor_log2_spec x Hx) as [L U].
  destruct (Z.lt_trichotomy (Double.floor_log2 x) k) as [H|[H|H]]; [|exact H|].
  - pose proof (pow2_le (Double.floor_log2 x + 1) k ltac:(lia)). lra.
  - pose proof (pow2_le (k + 1) (Double.floor_log2 x) ltac:(lia)). lra.
Qed.

Lemma unit_range (r : Q) : (0 <= Double.unit r)%Q /\ (Double.unit r <= Double.top)%Q.
Proof.
  unfold Double.unit, Double.top.
  destruct (Qle_bool (Double.round r) 0) eqn:H0; [split; [lra | vm_compute; discriminate]|].
  destruct (Qle_bool (1 - Double.pow2 (-53)) (Double.round r)) eqn:H1; [split; [vm_compute; discriminate | lra]|].
  assert (A : ~ (Double.round r <= 0)%Q) by (rewrite <- Qle_bool_iff; congruence).
  assert (B : ~ (1 - Double.pow2 (-53) <= Double.round r)%Q) by (rewrite <- Qle_bool_iff; congruence).
  split; lra.
Qed.

(** A draw that is a double of [0, 1) is returned as it is. *)
Lemma unit_double (r : Q) :
  (0 <= r)%Q -> (r < 1)%Q -> (Double.round r == r)%Q -> (Double.unit r == r)%Q.
Proof.
  intros H0 H1 Hr.
  assert (Htop : (r <= Double.top)%Q).
  { destruct (Qlt_le_dec 0 r) as [Hp|Hz]; [|unfold Double.top; change (Double.pow2 (-53)) with (1 # 9007199254740992)%Q; lra].
    destruct (floor_log2_spec r Hp) as [L U].
    assert (Hneg : Double.floor_log2 r < 0).
    { destruct (Z_lt_le_dec (Double.floor_log2 r) 0) as [H|H]; [exact H|].
      pose proof (pow2_le 0 (Double.floor_log2 r) H) as P. change (Double.pow2 0) with 1%Q in P. lra. }
    destruct (Z.eq_dec (Double.floor_log2 r) (-1)) as [E|E].
    - assert (He : Double.ulp_exp r = -53) by (unfold Double.ulp_exp; rewrite E; reflexivity).
      rewrite round_positive in Hr by exact Hp. unfold Double.round_pos in Hr. rewrite He in Hr.
      set (K := Double.round_even (r / Double.pow2 (-53))) in *.
      change (Double.pow2 (-53)) with (1 # 9007199254740992)%Q in Hr.
      assert (HK : K < 9007199254740992).
      { rewrite Zlt_Qlt. change (inject_Z 9007199254740992) with (9007199254740992 # 1)%Q.
        set (q := inject_Z K) in *. lra. }
      assert (HK' : (inject_Z K <= inject_Z 9007199254740991)%Q) by (rewrite <- Zle_Qle; lia).
      unfold Double.top. change (Double.pow2 (-53)) with (1 # 9007199254740992)%Q.
      change (inject_Z 9007199254740991) with (9007199254740991 # 1)%Q in HK'. lra.
    - pose proof (pow2_le (Double.floor_log2 r + 1) (-1) ltac:(lia)) as P.
      change (Double.pow2 (-1)) with (1 # 2)%Q in P.
      unfold Double.top. change (Double.pow2 (-53)) with (1 # 9007199254740992)%Q. lra. }
  unfold Double.unit.
  destruct (Qle_bool (Double.round r) 0) eqn:A.
  - apply Qle_bool_iff in A. lra.
  - destruct (Qle_bool Double.top (Double.round r)) eqn:B; [|exact Hr].
    apply Qle_bool_iff in B. lra.
Qed.

Lemma Qfloor_shift (x : Q) (n : Z) : Qfloor (inject_Z n + x) = n + Qfloor x.
Proof.
  apply Qfloor_spec. pose proof (Qfloor_le x). pose proof (Qlt_floor x).
  rewrite !inject_Z_plus in *. lra.
Qed.

Lemma product_range (r : Q) :
  (0 <= Double.unit r * 900000)%Q /\ (Double.unit r * 900000 <= 900000 * Double.top)%Q.
Proof. destruct (unit_range r). split; lra. Qed.

Lemma representable_intro (K j : Z) (g : Q) :
  0 <= K < 2 ^ 53 -> -1074 <= j -> (g == inject_Z K * Double.pow2 j)%Q -> Double.representable g.
Proof. intros. exists K, j. auto. Qed.

(** The rounded product stays below 900000. *)
Lemma product_rounded (r : Q) :
  (0 <= Double.round (Double.unit r * 900000))%Q /\
  (Double.round (Double.unit r * 900000) <= 900000 - Double.pow2 (-33))%Q.
Proof.
  destruct (product_range r) as [H0 H1]. set (x := (Double.unit r * 900000)%Q) in *.
  split; [apply round_nonneg; exact H0|].
  assert (Hg : Double.representable (900000 - Double.pow2 (-33))).
  { apply (representable_intro (900000 * 2 ^ 33 - 1) (-33)); [lia | lia | vm_compute; reflexivity]. }
  destruct (Qlt_le_dec (900000 - Double.pow2 (-33)) x) as [Hbig|Hsmall];
    [|apply round_le; assumption].
  unfold Double.top in H1.
  change (Double.pow2 (-33)) with (1 # 8589934592)%Q in *.
  change (Double.pow2 (-53)) with (1 # 9007199254740992)%Q in *.
  assert (Hx : (0 < x)%Q) by lra.
  assert (Hl : Double.floor_log2 x = 19).
  { apply floor_log2_unique;
      [change (Double.pow2 19) with 524288%Q | change (Double.pow2 (19 + 1)) with 1048576%Q]; lra. }
  rewrite round_positive by exact Hx. unfold Double.round_pos, Double.ulp_exp. rewrite Hl.
  change (Z.max (19 - 52) (-1074)) with (-33).
  change (Double.pow2 (-33)) with (1 # 8589934592)%Q.
  rewrite (round_even_near _ (900000 * 2 ^ 33 - 1)).
  - vm_compute. discriminate.
  - change (inject_Z (900000 * 2 ^ 33 - 1)) with (7730941132799999 # 1)%Q.
    apply Qlt_shift_div_l; [reflexivity|]. lra.
  - change (inject_Z (900000 * 2 ^ 33 - 1)) with (7730941132799999 # 1)%Q.
    apply Qlt_shift_div_r; [reflexivity|]. lra.
Qed.

Lemma otp_number_range (r : Q) : 100000 <= otp_number r <= 999999.
Proof.
  destruct (product_rounded r) as [H0 H1]. unfold otp_number.
  set (p := Double.round (Double.unit r * 900000)) in *.
  change (Double.pow2 (-33)) with (1 # 8589934592)%Q in H1.
  assert (Hy : (0 <= 100000 + p)%Q) by lra.
  assert (Hlo : (inject_Z 100000 <= Double.round (100000 + p))%Q).
  { apply round_ge; [exact Hy | apply representable_Z; lia |].
    change (inject_Z 100000) with 100000%Q. lra. }
  assert (Hhi : (Double.round (100000 + p) <= 1000000 - Double.pow2 (-33))%Q).
  { apply round_le; [exact Hy| |change (Double.pow2 (-33)) with (1 # 8589934592)%Q; lra].
    apply (representable_intro (1000000 * 2 ^ 33 - 1) (-33)); [lia | lia | vm_compute; reflexivity]. }
  change (Double.pow2 (-33)) with (1 # 8589934592)%Q in Hhi.
  split.
  - rewrite <- (Qfloor_Z 100000). apply Qfloor_resp_le. exact Hlo.
  - assert (H : Qfloor (Double.round (100000 + p)) < 1000000).
    { rewrite Zlt_Qlt. eapply Qle_lt_trans; [apply Qfloor_le|].
      change (inject_Z 1000000) with 1000000%Q. lra. }
    lia.
Qed.

(** The code is the floor of the exact sum, or one more: the two roundings
    never lower it and raise it by less than one. *)
Lemma otp_number_exact (r : Q) :
  exact_code r <= otp_number r <= exact_code r + 1.
Proof.
  destruct (product_range r) as [H0 H1]. unfold exact_code, otp_number.
  set (x := (Double.unit r * 900000)%Q) in *.
  change 100000%Q with (inject_Z 100000). rewrite Qfloor_shift.
  set (M := Qfloor x).
  assert (HM0 : 0 <= M).
  { unfold M. rewrite <- (Qfloor_Z 0). apply Qfloor_resp_le. exact H0. }
  assert (HM1 : M < 900000).
  { unfold M. rewrite Zlt_Qlt. eapply Qle_lt_trans; [apply Qfloor_le|].
    eapply Qle_lt_trans; [exact H1|]. vm_compute. reflexivity. }
  pose proof (Qfloor_le x) as F1. pose proof (Qlt_floor x) as F2. fold M in F1, F2.
  assert (P1 : (inject_Z M <= Double.round x)%Q)
    by (apply round_ge; [exact H0 | apply representable_Z; lia | exact F1]).
  assert (P2 : (Double.round x <= inject_Z (M + 1))%Q)
    by (apply round_le; [exact H0 | apply representable_Z; lia | lra]).
  set (p := Double.round x) in *.
  assert (Hy : (0 <= inject_Z 100000 + p)%Q).
  { assert (0 <= inject_Z M)%Q by (change 0%Q with (inject_Z 0); rewrite <- Zle_Qle; lia).
    change (inject_Z 100000) with 100000%Q. lra. }
  assert (S1 : (inject_Z (100000 + M) <= Double.round (inject_Z 100000 + p))%Q).
  { apply round_ge; [exact Hy | apply representable_Z; lia |]. rewrite inject_Z_plus. lra. }
  assert (S2 : (Double.round (inject_Z 100000 + p) <= inject_Z (100000 + M + 1))%Q).
  { apply round_le; [exact Hy | apply representable_Z; lia |].
    rewrite !inject_Z_plus in *. lra. }
  split.
  - rewrite <- (Qfloor_Z (100000 + M)). apply Qfloor_resp_le. exact S1.
  - rewrite <- (Qfloor_Z (100000 + M + 1)). apply Qfloor_resp_le. exact S2.
Qed.

(** Every code from 100000 to 999999 has a draw, a double of [0, 1). *)
Lemma otp_number_onto (n : Z) :
  100000 <= n <= 999999 ->
  exists r : Q, (0 <= r)%Q /\ (r < 1)%Q /\ (Double.round r == r)%Q /\ otp_number r = n.
Proof.
  intros Hn. set (M := n - 100000).
  set (k := (M * 2 ^ 53 + 899999) / 900000).
  assert (Hk1 : M * 2 ^ 53 <= k * 900000).
  { unfold k. pose proof (Z.mod_pos_bound (M * 2 ^ 53 + 899999) 900000 ltac:(lia)).
    pose proof (Z.div_mod (M * 2 ^ 53 + 899999) 900000 ltac:(lia)). lia. }
  assert (Hk2 : k * 900000 <= M * 2 ^ 53 + 899999).
  { unfold k. pose proof (Z.mod_pos_bound (M * 2 ^ 53 + 899999) 900000 ltac:(lia)).
    pose proof (Z.div_mod (M * 2 ^ 53 + 899999) 900000 ltac:(lia)). lia. }
  assert (Hk0 : 0 <= k < 2 ^ 53) by (unfold M in *; lia).
  set (r := (inject_Z k * Double.pow2 (-53))%Q).
  assert (Hrep : Double.representable r) by (exists k, (-53); split; [exact Hk0|split; [lia|reflexivity]]).
  assert (R0 : (0 <= r)%Q).
  { unfold r. apply Qmult_le_0_compat; [|apply Qlt_le_weak, pow2_pos].
    change 0%Q with (inject_Z 0). rewrite <- Zle_Qle. lia. }
  assert (Ik : (inject_Z k <= inject_Z (2 ^ 53 - 1))%Q) by (rewrite <- Zle_Qle; lia).
  assert (R1 : (r < 1)%Q).
  { unfold r. change (Double.pow2 (-53)) with (1 # 9007199254740992)%Q.
    change (inject_Z (2 ^ 53 - 1)) with (9007199254740991 # 1)%Q in Ik. lra. }
  assert (Rr : (Double.round r == r)%Q) by (apply round_representable; assumption).
  exists r. split; [exact R0|]. split; [exact R1|]. split; [exact Rr|].
  pose proof (unit_double r R0 R1 Rr) as Hu.
  assert (I1 : (inject_Z (M * 2 ^ 53) <= inject_Z (k * 900000))%Q) by (rewrite <- Zle_Qle; exact Hk1).
  assert (I2 : (inject_Z (k * 900000) <= inject_Z (M * 2 ^ 53 + 899999))%Q)
    by (rewrite <- Zle_Qle; exact Hk2).
  rewrite inject_Z_plus, !inject_Z_mult in *.
  change (inject_Z (2 ^ 53)) with (9007199254740992 # 1)%Q in *.
  change (inject_Z 900000) with 900000%Q in *. change (inject_Z 899999) with 899999%Q in *.
  assert (X1 : (inject_Z M <= Double.unit r * 900000)%Q).
  { rewrite Hu. unfold r. change (Double.pow2 (-53)) with (1 # 9007199254740992)%Q. lra. }
  assert (X2 : (Double.unit r * 900000 <= inject_Z M + (1 # 2))%Q).
  { rewrite Hu. unfold r. change (Double.pow2 (-53)) with (1 # 9007199254740992)%Q. lra. }
  assert (HM : (0 <= inject_Z M)%Q) by (change 0%Q with (inject_Z 0); rewrite <- Zle_Qle; unfold M; lia).
  unfold otp_number. set (x := (Double.unit r * 900000)%Q) in *.
  assert (Hx : (0 <= x)%Q) by lra.
  assert (Half : forall m : Z, 0 <= m < 1000000 -> Double.representable (inject_Z m + (1 # 2))).
  { intros m Hm. apply (representable_intro (2 * m + 1) (-1)); [lia | lia |].
    rewrite inject_Z_plus, inject_Z_mult. change (Double.pow2 (-1)) with (1 # 2)%Q.
    change (inject_Z 2) with 2%Q. change (inject_Z 1) with 1%Q. field. }
  assert (P1 : (inject_Z M <= Double.round x)%Q)
    by (apply round_ge; [exact Hx | apply representable_Z; unfold M; lia | exact X1]).
  assert (P2 : (Double.round x <= inject_Z M + (1 # 2))%Q)
    by (apply round_le; [exact Hx | apply Half; unfold M; lia | exact X2]).
  set (p := Double.round x) in *.
  assert (Hy : (0 <= 100000 + p)%Q) by lra.
  assert (En : (inject_Z n == 100000 + inject_Z M)%Q).
  { unfold M, Z.sub. rewrite inject_Z_plus. change (inject_Z (- (100000))) with (-100000)%Q. ring. }
  assert (S1 : (inject_Z n <= Double.round (100000 + p))%Q).
  { apply round_ge; [exact Hy | apply representable_Z; lia | lra]. }
  assert (S2 : (Double.round (100000 + p) <= inject_Z n + (1 # 2))%Q).
  { apply round_le; [exact Hy | apply Half; lia | lra]. }
  apply Qfloor_spec. split; [exact S1|]. rewrite inject_Z_plus. change (inject_Z 1) with 1%Q. lra.
Qed.

Lemma round_even_half (y : Q) :
  (inject_Z (Double.round_even y) - y <= 1 # 2)%Q /\ (y - inject_Z (Double.round_even y) <= 1 # 2)%Q.
Proof.
  unfold Double.round_even. pose proof (Qfloor_le y) as L. pose proof (Qlt_floor y) as U.
  rewrite inject_Z_plus in U. change (inject_Z 1) with 1%Q in U.
  destruct (Qcompare_spec (y - inject_Z (Qfloor y)) (1 # 2)) as [E|E|E].
  - destruct (Z.even (Qfloor y)); [|rewrite inject_Z_plus; change (inject_Z 1) with 1%Q];
      split; lra.
  - split; lra.
  - rewrite inject_Z_plus. change (inject_Z 1) with 1%Q. split; lra.
Qed.

(** Below 2^20 a rounding moves a number by at most 2^-34. *)
Lemma round_error (x : Q) :
  (0 <= x)%Q -> (x < Double.pow2 20)%Q ->
  (Double.round x - x <= Double.pow2 (-34))%Q /\ (x - Double.round x <= Double.pow2 (-34))%Q.
Proof.
  intros H0 H1. destruct (Qlt_le_dec 0 x) as [Hp|Hz].
  - rewrite round_positive by exact Hp. unfold Double.round_pos.
    destruct (floor_log2_spec x Hp) as [L U].
    assert (Hl : Double.floor_log2 x <= 19).
    { destruct (Z_le_gt_dec (Double.floor_log2 x) 19) as [H|H]; [exact H|].
      pose proof (pow2_le 20 (Double.floor_log2 x) ltac:(lia)). lra. }
    assert (He : Double.ulp_exp x <= -33) by (unfold Double.ulp_exp; lia).
    set (e := Double.ulp_exp x) in *.
    pose proof (pow2_pos e) as Pe.
    pose proof (pow2_le e (-33) He) as Pe'.
    destruct (round_even_half (x / Double.pow2 e)) as [A B].
    set (K := inject_Z (Double.round_even (x / Double.pow2 e))) in *.
    assert (Ex : (x == x / Double.pow2 e * Double.pow2 e)%Q) by (field; lra).
    set (y := (x / Double.pow2 e)%Q) in *.
    change (Double.pow2 (-33)) with (1 # 8589934592)%Q in Pe'.
    change (Double.pow2 (-34)) with (1 # 17179869184)%Q.
    split; nra.
  - rewrite round_zero by lra. change (Double.pow2 (-34)) with (1 # 17179869184)%Q. split; lra.
Qed.

(** The computed sum is within 2^-33 of the exact one. *)
Lemma sum_error (r : Q) :
  let exact := (100000 + Double.unit r * 900000)%Q in
  let s := Double.round (100000 + Double.round (Double.unit r * 900000)) in
  (s - exact <= Double.pow2 (-33))%Q /\ (exact - s <= Double.pow2 (-33))%Q.
Proof.
  intros exact s. destruct (product_range r) as [H0 H1].
  destruct (product_rounded r) as [P0 P1].
  unfold Double.top in H1.
  assert (X1 : (Double.unit r * 900000 < Double.pow2 20)%Q).
  { change (Double.pow2 20) with 1048576%Q. change (Double.pow2 (-53)) with (1 # 9007199254740992)%Q in H1. lra. }
  destruct (round_error _ H0 X1) as [A B].
  assert (Y0 : (0 <= 100000 + Double.round (Double.unit r * 900000))%Q) by lra.
  assert (Y1 : (100000 + Double.round (Double.unit r * 900000) < Double.pow2 20)%Q).
  { change (Double.pow2 20) with 1048576%Q. change (Double.pow2 (-33)) with (1 # 8589934592)%Q in P1. lra. }
  destruct (round_error _ Y0 Y1) as [C D].
  unfold s, exact.
  change (Double.pow2 (-34)) with (1 # 17179869184)%Q in *.
  change (Double.pow2 (-33)) with (1 # 8589934592)%Q. split; lra.
Qed.

(** The draws of a code: those whose exact sum lies in [n, n + 1), up to
    the rounding margin of 2^-33 at the two ends. *)
Lemma otp_number_interval (r : Q) (n : Z) :
  ((inject_Z n + Double.pow2 (-33) <= 100000 + Double.unit r * 900000)%Q ->
   (100000 + Double.unit r * 900000 < inject_Z n + 1 - Double.pow2 (-33))%Q -> otp_number r = n) /\
  (otp_number r = n ->
   (inject_Z n - Double.pow2 (-33) <= 100000 + Double.unit r * 900000)%Q /\
   (100000 + Double.unit r * 900000 < inject_Z n + 1 + Double.pow2 (-33))%Q).
Proof.
  destruct (sum_error r) as [A B]. cbv zeta in A, B. unfold otp_number.
  set (s := Double.round (100000 + Double.round (Double.unit r * 900000))) in *.
  set (x := (100000 + Double.unit r * 900000)%Q) in *.
  split.
  - intros L U. apply Qfloor_spec. rewrite inject_Z_plus. change (inject_Z 1) with 1%Q.
    split; lra.
  - intros E. apply Qfloor_spec in E. rewrite inject_Z_plus in E.
    change (inject_Z 1) with 1%Q in E. split; lra.
Qed.

Lemma round_even_mono (a b : Q) : (a <= b)%Q -> Double.round_even a <= Double.round_even b.
Proof.
  intros H. pose proof (Qfloor_resp_le _ _ H) as F.
  destruct (Z.eq_dec (Qfloor a) (Qfloor b)) as [E|E].
  - unfold Double.round_even. rewrite E.
    destruct (Qcompare_spec (a - inject_Z (Qfloor b)) (1 # 2)) as [Ea|Ea|Ea];
      destruct (Qcompare_spec (b - inject_Z (Qfloor b)) (1 # 2)) as [Eb|Eb|Eb];
      try destruct (Z.even (Qfloor b)); try lia; lra.
  - pose proof (round_even_bounds a). pose proof (round_even_bounds b). lia.
Qed.

(** Rounding keeps the order. *)
Lemma round_mono (x y : Q) : (0 <= x)%Q -> (x <= y)%Q -> (Double.round x <= Double.round y)%Q.
Proof.
  intros H0 H. destruct (Qlt_le_dec 0 x) as [Hp|Hz].
  - assert (Hy : (0 < y)%Q) by lra.
    rewrite !round_positive by assumption.
    destruct (floor_log2_spec x Hp) as [Lx Ux]. destruct (floor_log2_spec y Hy) as [Ly Uy].
    assert (Hl : Double.floor_log2 x <= Double.floor_log2 y).
    { destruct (Z_le_gt_dec (Double.floor_log2 x) (Double.floor_log2 y)) as [G|G]; [exact G|].
      pose proof (pow2_le (Double.floor_log2 y + 1) (Double.floor_log2 x) ltac:(lia)). lra. }
    destruct (Z.eq_dec (Double.ulp_exp x) (Double.ulp_exp y)) as [E|E].
    + unfold Double.round_pos. rewrite E. pose proof (pow2_pos (Double.ulp_exp y)) as P.
      apply Qmult_le_compat_r; [|lra]. rewrite <- Zle_Qle. apply round_even_mono.
      apply Qmult_le_compat_r; [exact H|]. apply Qlt_le_weak, Qinv_lt_0_compat, P.
    + assert (Hlt : Double.floor_log2 x < Double.floor_log2 y) by (unfold Double.ulp_exp in E; lia).
      assert (Hj : -1074 <= Double.floor_log2 y) by (unfold Double.ulp_exp in E; lia).
      assert (Hg : Double.representable (Double.pow2 (Double.floor_log2 y))).
      { apply (representable_intro 1 (Double.floor_log2 y)); [lia | exact Hj |].
        change (inject_Z 1) with 1%Q. ring. }
      pose proof (pow2_le (Double.floor_log2 x + 1) (Double.floor_log2 y) ltac:(lia)) as Q1.
      apply Qle_trans with (Double.pow2 (Double.floor_log2 y)).
      * apply round_pos_le; [exact Hp | exact Hg | lra].
      * apply round_pos_ge; [exact Hy | exact Hg | exact Ly].
  - rewrite (round_zero x) by lra. apply round_nonneg. lra.
Qed.

Lemma unit_mono (r r' : Q) : (r <= r')%Q -> (Double.unit r <= Double.unit r')%Q.
Proof.
  intros H.
  assert (M : (Double.round r <= Double.round r')%Q).
  { destruct (Qlt_le_dec r 0) as [N|P].
    - destruct (Qlt_le_dec r' 0) as [N'|P'].
      + unfold Double.round. destruct r as [[|p|p] d], r' as [[|p'|p'] d']; simpl Qnum; cbv iota;
          try (exfalso; unfold Qlt in *; simpl in *; lia).
        apply Qopp_le_compat.
        change (Double.round_pos (- (Z.neg p' # d')) <= Double.round_pos (- (Z.neg p # d)))%Q.
        rewrite <- !round_positive by (unfold Qlt in *; simpl in *; lia).
        apply round_mono; [unfold Qle; simpl; lia|]. lra.
      + apply Qle_trans with 0%Q; [|apply round_nonneg; exact P'].
        unfold Double.round. destruct r as [[|p|p] d]; simpl Qnum; cbv iota;
          try (exfalso; unfold Qlt in *; simpl in *; lia).
        pose proof (round_nonneg (- (Z.neg p # d)) ltac:(unfold Qle; simpl; lia)) as R.
        rewrite round_positive in R by (unfold Qlt; simpl; lia). lra.
    - apply round_mono; assumption. }
  unfold Double.unit, Double.top.
  destruct (Qle_bool (Double.round r) 0) eqn:A; destruct (Qle_bool (Double.round r') 0) eqn:A';
    destruct (Qle_bool (1 - Double.pow2 (-53)) (Double.round r)) eqn:B;
    destruct (Qle_bool (1 - Double.pow2 (-53)) (Double.round r')) eqn:B';
    repeat match goal with
    | H : Qle_bool _ _ = true |- _ => apply Qle_bool_iff in H
    | H : Qle_bool ?a ?b = false |- _ =>
        assert (~ (a <= b)%Q) by (rewrite <- Qle_bool_iff; congruence); clear H
    end;
    change (Double.pow2 (-53)) with (1 # 9007199254740992)%Q in *; lra.
Qed.

(** A greater draw never gives a smaller code. *)
Lemma otp_number_mono (r r' : Q) : (r <= r')%Q -> otp_number r <= otp_number r'.
Proof.
  intros H. unfold otp_number. apply Qfloor_resp_le.
  pose proof (unit_mono r r' H) as U.
  destruct (unit_range r) as [U0 _].
  assert (P : (Double.round (Double.unit r * 900000) <= Double.round (Double.unit r' * 900000))%Q)
    by (apply round_mono; lra).
  pose proof (round_nonneg (Double.unit r * 900000) ltac:(lra)) as P0.
  apply round_mono; lra.
Qed.

Lemma digits_step (f : nat) (n : Z) (acc : string) :
  10 <= n -> JS.digits (S f) n acc = JS.digits f (n / 10) (String (JS.digit_char (n mod 10)) acc).
Proof. intros H. simpl. destruct (Z.ltb_spec n 10); [lia | reflexivity]. Qed.

Lemma digits_last (f : nat) (n : Z) (acc : string) :
  n < 10 -> JS.digits (S f) n acc = String (JS.digit_char n) acc.
Proof. intros H. simpl. destruct (Z.ltb_spec n 10); [reflexivity | lia]. Qed.

Lemma digit_char_is_digit (d : Z) : 0 <= d < 10 -> is_digit (JS.digit_char d) = true.
Proof.
  intros H.
  assert (E : d = 0 \/ d = 1 \/ d = 2 \/ d = 3 \/ d = 4 \/ d = 5 \/ d = 6 \/ d = 7 \/ d = 8 \/ d = 9)
    by lia.
  repeat (destruct E as [-> | E]; [reflexivity|]). subst d. reflexivity.
Qed.

Lemma digit_char_nonzero (d : Z) : 1 <= d < 10 -> JS.digit_char d <> "0"%char.
Proof.
  intros H.
  assert (E : d = 1 \/ d = 2 \/ d = 3 \/ d = 4 \/ d = 5 \/ d = 6 \/ d = 7 \/ d = 8 \/ d = 9)
    by lia.
  repeat (destruct E as [-> | E]; [discriminate|]). subst d. discriminate.
Qed.

(** The six characters of a number between 100000 and 999999. *)
Lemma toString_six (n : Z) :
  100000 <= n <= 999999 ->
  JS.toString n =
    String (JS.digit_char (n / 100000))
      (String (JS.digit_char (n / 10000 mod 10))
        (String (JS.digit_char (n / 1000 mod 10))
          (String (JS.digit_char (n / 100 mod 10))
            (String (JS.digit_char (n / 10 mod 10))
              (String (JS.digit_char (n mod 10)) EmptyString))))).
Proof.
  intros Hn. unfold JS.toString.
  destruct (Z.ltb_spec n 0); [lia|].
  assert (Hlog : 16 <= Z.log2 n).
  { change 16 with (Z.log2 65536). apply Z.log2_le_mono. lia. }
  destruct (Z.to_nat (Z.log2 n)) as [|[|[|[|[|f]]]]] eqn:Ef; try lia.
  do 5 (rewrite digits_step by div_bound).
  rewrite digits_last by div_bound.
  repeat (rewrite Z.div_div by lia). reflexivity.
Qed.

Lemma six_digits_intro (a b c d e f : ascii) :
  is_digit a = true -> is_digit b = true -> is_digit c = true ->
  is_digit d = true -> is_digit e = true -> is_digit f = true ->
  six_digits (String a (String b (String c (String d (String e (String f EmptyString))))))
  = true.
Proof. intros Ha Hb Hc Hd He Hf. unfold six_digits. simpl. rewrite Ha, Hb, Hc, Hd, He, Hf. reflexivity. Qed.

Lemma generate_otp_six_digits (r : Q) :
  six_digits (generate_otp r) = true /\ String.get 0 (generate_otp r) <> Some "0"%char.
Proof.
  pose proof (otp_number_range r) as Hn.
  unfold generate_otp. rewrite (toString_six _ Hn).
  split.
  - apply six_digits_intro; apply digit_char_is_digit;
      try (apply Z.mod_pos_bound; lia).
    split; [apply Z.div_pos; lia | apply Z.div_lt_upper_bound; lia].
  - change (String.get 0 (String ?a ?s)) with (Some a).
    intros E. injection E as E. revert E. apply digit_char_nonzero.
    split; [apply Z.div_le_lower_bound; lia | apply Z.div_lt_upper_bound; lia].
Qed.

Lemma all_digits_length (s : string) :
  all_digits s = true -> JS.length s = String.length s.
Proof.
  induction s as [|c s IH]; [reflexivity|]. cbn [all_digits JS.length String.length].
  intros H. apply andb_prop in H as [Hc Hs]. rewrite (IH Hs).
  unfold is_digit in Hc. apply andb_prop in Hc as [_ Hc]. apply Nat.leb_le in Hc.
  destruct (Nat.ltb_spec (nat_of_ascii c) 128) as [_|Hge]; [reflexivity | lia].
Qed.

(** A passcode is a password the provider takes. *)
Lemma generate_otp_valid_password (r : Q) : Auth.valid_password (generate_otp r) = true.
Proof.
  destruct (generate_otp_six_digits r) as [H _]. unfold six_digits in H.
  apply andb_prop in H as [Hl Hd]. apply Nat.eqb_eq in Hl.
  unfold Auth.valid_password. rewrite (all_digits_length _ Hd), Hl. reflexivity.
Qed.

(** C5, as amended. Every passcode is the decimal form of
    [Math.floor(100000 + Math.random() * 900000)], computed in doubles: six
    digits between 100000 and 999999, the first one never 0. The code [n]
    is drawn when the exact sum 100000 + r * 900000 lies in [n, n + 1), up
    to the rounding margin of 2^-33 at the two ends of this interval; a
    greater draw never gives a smaller code, and each of the 900000 codes
    is given by some double of [0, 1). The record stored with the code
    expires 5 minutes after the issuance. *)
Theorem C5_passcode_in_100000_999999 (r : Q) (now : Z) (mail : mail_env)
    (email : string) (st : state) :
  JS.truthy email = true ->
  100000 <= otp_number r <= 999999 /\
  generate_otp r = JS.toString (otp_number r) /\
  six_digits (generate_otp r) = true /\
  String.get 0 (generate_otp r) <> Some "0"%char /\
  (forall n : Z,
     ((inject_Z n + Double.pow2 (-33) <= 100000 + Double.unit r * 900000)%Q ->
      (100000 + Double.unit r * 900000 < inject_Z n + 1 - Double.pow2 (-33))%Q ->
      otp_number r = n) /\
     (otp_number r = n ->
      (inject_Z n - Double.pow2 (-33) <= 100000 + Double.unit r * 900000)%Q /\
      (100000 + Double.unit r * 900000 < inject_Z n + 1 + Double.pow2 (-33))%Q)) /\
  (forall r' : Q, (r <= r')%Q -> otp_number r <= otp_number r') /\
  (forall n : Z, 100000 <= n <= 999999 ->
     exists r' : Q,
       (0 <= r')%Q /\ (r' < 1)%Q /\ (Double.round r' == r')%Q /\ otp_number r' = n) /\
  ((0 <= r)%Q -> (r < 1)%Q -> (Double.round r == r)%Q -> (Double.unit r == r)%Q) /\
  otps (snd (send_otp now r mail (Some email) st)) !! JS.encodeURIComponent email =
    Some (OtpDoc.mk (generate_otp r) now (now + 5 * 60 * 1000)).
Proof.
  intros He.
  split; [apply otp_number_range|]. split; [reflexivity|].
  split; [apply generate_otp_six_digits|].
  split; [apply generate_otp_six_digits|].
  split; [intros n; apply otp_number_interval|].
  split; [intros r'; apply otp_number_mono|].
  split; [exact otp_number_onto|].
  split; [apply unit_double|].
  rewrite send_otp_otps by exact He. apply lookup_insert_eq.
Qed.

Lemma C5_witness :
  JS.truthy "a@x.com" = true /\
  generate_otp (1 # 4) = "325000" /\
  otps (snd (send_otp 1000 (1 # 4) MailOk (Some "a@x.com") empty_state))
    !! JS.encodeURIComponent "a@x.com" = Some (OtpDoc.mk (generate_otp (1 # 4)) 1000 301000).
Proof.
  assert (H2 : JS.truthy "a@x.com" = true) by reflexivity.
  split; [exact H2|]. split; [vm_compute; reflexivity|].
  exact (proj2 (proj2 (proj2 (proj2 (proj2 (proj2 (proj2 (proj2
    (C5_passcode_in_100000_999999 (1 # 4) 1000 MailOk "a@x.com" empty_state H2))))))))).
Defined.

(** C5 as stated fails: the smallest draw gives 100000, and no draw gives
    the code 000000 (nor any code with a leading zero). *)
Lemma C5_counterexample :
  generate_otp 0 = "100000" /\
  ~ (exists r : Q, generate_otp r = "000000").
Proof.
  split; [vm_compute; reflexivity|].
  intros (r & E).
  destruct (generate_otp_six_digits r) as [_ H]. apply H. rewrite E. reflexivity.
Qed.

(** ** Name decomposition *)

(** C9, as amended. Without a comma the first token is the first name, the
    last token the surname and the tokens between them the middle name:
    ["Juan Dela Cruz"] gives first ["Juan"], middle ["Dela"], last ["Cruz"];
    ["Dela Cruz, Juan Miguel"] gives last ["Dela Cruz"], first ["Juan"],
    middle ["Miguel"]. *)
Theorem C9_name_decomposition :
  parse_name (Some "Juan Dela Cruz") None None None =
    Ok {| lastName := "Cruz"; firstName := "Juan"; middleName := "Dela" |} /\
  parse_name (Some "Dela Cruz, Juan Miguel") None None None =
    Ok {| lastName := "Dela Cruz"; firstName := "Juan"; middleName := "Miguel" |}.
Proof. split; reflexivity. Qed.

(** C9 as stated fails on its first example: the middle name of
    ["Juan Dela Cruz"] is ["Dela"], not the empty string. *)
Lemma C9_counterexample :
  parse_name (Some "Juan Dela Cruz") None None None =
    Ok {| lastName := "Cruz"; firstName := "Juan"; middleName := "Dela" |} /\
  parse_name (Some "Juan Dela Cruz") None None None <>
    Ok {| lastName := "Cruz"; firstName := "Juan"; middleName := EmptyString |}.
Proof. split; [reflexivity | vm_compute; discriminate]. Qed.

(** ** The archive cascade *)

Lemma queue_updates_unarchive (ts : Z) (docs : list (string * StockDoc.t))
    (batch : list (string * stock_write)) :
  queue_updates false ts docs batch =
    Ok (batch ++ List.map (fun kv => (kv.1, WriteUnarchived)) docs)%list.
Proof.
  revert batch. induction docs as [|[id d] docs IH]; intros batch; simpl.
  - rewrite List.app_nil_r. reflexivity.
  - rewrite IH, <- List.app_assoc. reflexivity.
Qed.

(** Archiving throws at the first matching record, before anything is
    queued, let alone committed. *)
Lemma queue_updates_archive (ts : Z) (docs : list (string * StockDoc.t))
    (batch : list (string * stock_write)) :
  docs <> [] -> queue_updates true ts docs batch = Throw (ReferenceError "requesterEmail").
Proof. destruct docs as [|[id d] docs]; [congruence | reflexivity]. Qed.

Lemma cascade_archive (now : Z) (userEmail : option string) (m : gmap string StockDoc.t) :
  cascade now true userEmail m = m.
Proof.
  unfold cascade. destruct (JS.truthy_opt userEmail); [|reflexivity].
  destruct (where_createdBy_email _ m) as [|kv docs] eqn:E; [reflexivity|].
  rewrite queue_updates_archive by discriminate. reflexivity.
Qed.

Lemma commit_cons (id : string) (w : stock_write) (batch : list (string * stock_write))
    (m : gmap string StockDoc.t) :
  commit ((id, w) :: batch) m = commit batch (alter (apply_write w) id m).
Proof. reflexivity. Qed.

Lemma commit_unarchive_lookup (docs : list (string * StockDoc.t))
    (m : gmap string StockDoc.t) (id : string) :
  commit (List.map (fun kv => (kv.1, WriteUnarchived)) docs) m !! id =
    if decide (id ∈ docs.*1) then apply_write WriteUnarchived <$> m !! id else m !! id.
Proof.
  revert m. induction docs as [|[id0 d0] docs IH]; intros m; [reflexivity|].
  change (commit ((id0, WriteUnarchived)
                     :: List.map (fun kv => (kv.1, WriteUnarchived)) docs) m !! id =
          if decide (id ∈ id0 :: docs.*1)
          then apply_write WriteUnarchived <$> m !! id else m !! id).
  rewrite commit_cons, IH, lookup_alter.
  destruct (decide (id0 = id)) as [->|Hne].
  - rewrite (decide_True (P := id ∈ id :: docs.*1)) by apply list_elem_of_here.
    case_decide; [|reflexivity].
    destruct (m !! id); reflexivity.
  - case_decide as Hin.
    + rewrite decide_True by (apply list_elem_of_further; exact Hin). reflexivity.
    + rewrite decide_False; [reflexivity|].
      intros Hin'. apply elem_of_cons in Hin' as [->|Hin']; congruence.
Qed.

Lemma where_createdBy_email_ids (e : string) (m : gmap string StockDoc.t) (id : string) :
  id ∈ (where_createdBy_email e m).*1 <->
  exists d, m !! id = Some d /\ StockDoc.createdBy_email d = Some e.
Proof.
  unfold where_createdBy_email. rewrite list_elem_of_fmap. split.
  - intros ([id' d] & -> & Hin). apply elem_of_map_to_list in Hin.
    apply map_lookup_filter_Some in Hin as [Hm Hp]. eauto.
  - intros (d & Hm & Hp). exists (id, d). split; [reflexivity|].
    apply elem_of_map_to_list. apply map_lookup_filter_Some. auto.
Qed.

(** Unarchiving reaches every record created by the email, and only those. *)
Lemma cascade_unarchive_lookup (now : Z) (e : string) (m : gmap string StockDoc.t)
    (id : string) :
  JS.truthy e = true ->
  cascade now false (Some e) m !! id =
    (fun d => if decide (StockDoc.createdBy_email d = Some e)
              then StockDoc.mk (StockDoc.createdBy_email d) false None None else d)
      <$> m !! id.
Proof.
  intros He. unfold cascade. simpl. rewrite He.
  assert (Hnone : forall d, m !! id = Some d ->
            where_createdBy_email e m = [] -> StockDoc.createdBy_email d <> Some e).
  { intros d Hd Hnil Hp.
    assert (Hin : id ∈ (where_createdBy_email e m).*1)
      by (apply where_createdBy_email_ids; eauto).
    rewrite Hnil in Hin. apply elem_of_nil in Hin. exact Hin. }
  destruct (where_createdBy_email e m) as [|kv docs] eqn:E.
  - destruct (m !! id) as [d|] eqn:Hd; [|reflexivity]. simpl.
    rewrite decide_False by (apply (Hnone d); reflexivity). reflexivity.
  - rewrite queue_updates_unarchive, List.app_nil_l, commit_unarchive_lookup, <- E.
    destruct (m !! id) as [d|] eqn:Hd; simpl.
    + destruct (decide (StockDoc.createdBy_email d = Some e)) as [Hp|Hp].
      * rewrite decide_True by (apply where_createdBy_email_ids; eauto). reflexivity.
      * rewrite decide_False; [reflexivity|].
        intros Hin. apply where_createdBy_email_ids in Hin as (d' & Hd' & Hp'). congruence.
    + case_decide; reflexivity.
Qed.

(** Archiving an account never changes an inventory record. *)
Lemma archive_leaves_vaccineStock (now : Z) (uid : option string) (st : state) :
  vaccineStock (snd (archive_admin now uid (Some true) st)) = vaccineStock st.
Proof.
  unfold archive_admin. destruct uid as [uid|]; [|reflexivity].
  destruct (JS.truthy uid); [|reflexivity]. simpl. apply cascade_archive.
Qed.

(** Unarchiving an account whose stored email is [e] clears the archive
    fields of every inventory record created by [e] and of no other. *)
Lemma unarchive_cascades (now : Z) (uid e : string) (d : UserDoc.t) (st : state) (id : string) :
  JS.truthy uid = true -> users st !! uid = Some d -> UserDoc.email d = Some e ->
  JS.truthy e = true ->
  vaccineStock (snd (archive_admin now (Some uid) (Some false) st)) !! id =
    (fun r => if decide (StockDoc.createdBy_email r = Some e)
              then StockDoc.mk (StockDoc.createdBy_email r) false None None else r)
      <$> vaccineStock st !! id.
Proof.
  intros Hu Hd He Ht. unfold archive_admin. rewrite Hu. simpl. rewrite Hd, He.
  apply cascade_unarchive_lookup. exact Ht.
Qed.

(** C1. The administrator archives the account ["u1"], whose stored email is
    ["a@x.com"]: the request succeeds, the account is disabled and marked
    inactive, and the inventory record created by ["a@x.com"] is still not
    archived and carries no stamp. Unarchiving from the archived state does
    clear the record. *)
Theorem C1_archive_does_not_reach_inventory :
  let out := archive_admin_route 500 (Some "Bearer tok-admin") (Some "u1") (Some true)
               archive_example_state in
  let back := archive_admin_route 900 (Some "Bearer tok-admin") (Some "u1") (Some false)
                archived_example_state in
  fst out = mkResponse 200 (SuccessMessage true "Admin archived") /\
  Auth.getUser (auth (snd out)) "u1" = Ok (Auth.mkUser "u1" "a@x.com" "secret" true true) /\
  users (snd out) !! "u1" =
    Some (UserDoc.mk (Some "a@x.com") (Some "employee") (Some true) (Some false) None None) /\
  vaccineStock (snd out) !! "s1" = Some (StockDoc.mk (Some "a@x.com") false None None) /\
  vaccineStock (snd out) = vaccineStock archive_example_state /\
  fst back = mkResponse 200 (SuccessMessage true "Admin unarchived") /\
  vaccineStock (snd back) !! "s1" = Some (StockDoc.mk (Some "a@x.com") false None None) /\
  vaccineStock (snd back) !! "s2" = Some (StockDoc.mk (Some "b@x.com") false None None).
Proof. vm_compute. repeat split; reflexivity. Qed.

(** ** Identity reconciliation *)

Lemma existsb_find {A : Type} (p : A -> bool) (l : list A) :
  List.existsb p l = true -> exists x, List.find p l = Some x.
Proof.
  induction l as [|x l IH]; simpl; [discriminate|].
  destruct (p x); [eauto | exact IH].
Qed.

Lemma find_existsb {A : Type} (p : A -> bool) (l : list A) (x : A) :
  List.find p l = Some x -> List.existsb p l = true.
Proof. intros H. apply (existsb_of_find p p l x H). apply (List.find_some _ _ H). Qed.

Lemma count_zero_existsb (a : Auth.state) (e : string) :
  Auth.count_email a e = 0%nat <-> List.existsb (Auth.has_email e) (Auth.accounts a) = false.
Proof.
  unfold Auth.count_email. induction (Auth.accounts a) as [|x l IH]; simpl; [tauto|].
  destruct (Auth.has_email e x); simpl; [split; intros; discriminate | exact IH].
Qed.

Lemma filter_map_preserved {A : Type} (p : A -> bool) (f : A -> A) (l : list A) :
  (forall x, p (f x) = p x) ->
  List.length (List.filter p (List.map f l)) = List.length (List.filter p l).
Proof.
  intros Hp. induction l as [|x l IH]; simpl; [reflexivity|].
  rewrite Hp. destruct (p x); simpl; rewrite IH; reflexivity.
Qed.

Lemma getUser_of_email (a : Auth.state) (e : string) (u : Auth.user) :
  Auth.getUserByEmail a e = Ok u -> exists v, Auth.getUser a (Auth.uid u) = Ok v.
Proof.
  intros H. apply getUserByEmail_Ok in H as [_ H].
  pose proof (existsb_of_find _ _ _ _ H (has_uid_refl u)) as Hex.
  apply existsb_find in Hex as [v Hv]. exists v. unfold Auth.getUser. rewrite Hv. reflexivity.
Qed.

(** Creation for an email that has an account fails with
    [auth/email-already-exists]. *)
Lemma createUser_existing (a : Auth.state) (e pw : string) (u : Auth.user) :
  Auth.accepts a e pw = true -> Auth.getUserByEmail a e = Ok u ->
  Auth.createUser a e pw true false = Throw (AuthError "auth/email-already-exists").
Proof.
  intros Hacc Hu. apply getUserByEmail_Ok in Hu as [_ Hu]. apply find_existsb in Hu.
  apply accepts_inv in Hacc as (H1 & H2 & H3).
  unfold Auth.createUser. rewrite H1, H2, H3, Hu. reflexivity.
Qed.

(** Creation for an email without account adds exactly one account, and the
    email then resolves to it. *)
Lemma createUser_fresh (a : Auth.state) (e pw : string) :
  Auth.accepts a e pw = true -> Auth.count_email a e = 0%nat ->
  exists u a', Auth.createUser a e pw true false = Ok (u, a') /\
    Auth.getUserByEmail a' e = Ok u /\ Auth.count_email a' e = 1%nat /\
    Auth.accepts a' = Auth.accepts a.
Proof.
  intros Hacc Hzero. pose proof (proj1 (count_zero_existsb a e) Hzero) as Hex.
  apply accepts_inv in Hacc as (He & H2 & H3).
  unfold Auth.createUser. rewrite He, H2, H3, Hex. simpl.
  eexists _, _. split; [reflexivity|].
  assert (Hself : Auth.has_email e
            (Auth.mkUser ("uid" ++ JS.toString (Auth.next_uid a)) (JS.toLowerCase e) pw
               true false) = true)
    by (unfold Auth.has_email; cbn [Auth.email];
        rewrite He, toLowerCase_idem, String.eqb_refl; reflexivity).
  split; [|split; [|reflexivity]].
  - apply getUserByEmail_Ok. split; [exact He|]. simpl.
    revert Hex. induction (Auth.accounts a) as [|x l IH]; simpl; intros Hex.
    + rewrite Hself. reflexivity.
    + destruct (Auth.has_email e x); [discriminate | apply IH; exact Hex].
  - unfold Auth.count_email in *. simpl. rewrite List.filter_app, List.length_app, Hzero.
    simpl. rewrite Hself. reflexivity.
Qed.

(** Recovery: the account the email resolves to is updated in place. *)
Lemma recover_existing (a : Auth.state) (e pw : string) (u : Auth.user) :
  Auth.valid_password pw = true ->
  Auth.getUserByEmail a e = Ok u ->
  exists a', Auth.updateUser a (Auth.uid u) (Auth.reset_props pw) = Ok a' /\
    Auth.getUserByEmail a' e = Ok (Auth.apply_props (Auth.reset_props pw) u) /\
    Auth.count_email a' e = Auth.count_email a e /\
    Auth.accepts a' = Auth.accepts a.
Proof.
  intros Hpw Hu.
  destruct (updateUser_of_found a e u (Auth.reset_props pw) Hpw Hu)
    as (a' & Hup & Hget & Hacc & Hpol).
  exists a'. split; [exact Hup|]. split; [exact Hget|]. split; [|exact Hpol].
  unfold Auth.count_email. rewrite Hacc. apply filter_map_preserved.
  intros x. destruct (Auth.has_uid (Auth.uid u) x); reflexivity.
Qed.

(** [ensureUser] on an email that has an account. *)
Lemma ensureUser_existing (role : string) (now : Z) (e pw : string) (st : state)
    (u : Auth.user) :
  Auth.accepts (auth st) e pw = true -> Auth.getUserByEmail (auth st) e = Ok u ->
  exists st1, ensureUser role now e pw st = Ok (mkEnsured false (Auth.uid u) (Some true), st1) /\
    (exists u1, Auth.getUserByEmail (auth st1) e = Ok u1 /\ Auth.uid u1 = Auth.uid u) /\
    Auth.count_email (auth st1) e = Auth.count_email (auth st) e /\
    Auth.accepts (auth st1) = Auth.accepts (auth st).
Proof.
  intros Hacc Hu.
  destruct (recover_existing _ _ pw _ (proj1 (proj2 (accepts_inv _ _ _ Hacc))) Hu)
    as (a' & Hup & Hget & Hcount & Hpol).
  unfold ensureUser. rewrite (createUser_existing _ _ _ _ Hacc Hu). simpl.
  rewrite Hu. simpl. rewrite Hup. simpl.
  eexists. split; [reflexivity|]. simpl. eauto.
Qed.

(** [ensureUser] on an email without account. *)
Lemma ensureUser_fresh (role : string) (now : Z) (e pw : string) (st : state) :
  Auth.accepts (auth st) e pw = true -> Auth.count_email (auth st) e = 0%nat ->
  exists u st1, ensureUser role now e pw st = Ok (mkEnsured true (Auth.uid u) None, st1) /\
    Auth.getUserByEmail (auth st1) e = Ok u /\
    Auth.count_email (auth st1) e = 1%nat /\
    Auth.accepts (auth st1) = Auth.accepts (auth st).
Proof.
  intros Hacc Hzero.
  destruct (createUser_fresh _ _ _ Hacc Hzero) as (u & a' & Hc & Hget & Hcount & Hpol).
  unfold ensureUser. rewrite Hc. eexists u, _. split; [reflexivity|]. simpl. auto.
Qed.

Lemma toLowerCase_truthy (s : string) : JS.truthy (JS.toLowerCase s) = JS.truthy s.
Proof. destruct s; reflexivity. Qed.

(** The handler of [/admin/ensure-auth-user] on an email that has an
    account, and on one without. *)
Lemma ensure_auth_user_existing (env : password_env) (email : string)
    (password birthday : option string) (st : state) (u : Auth.user) :
  JS.truthy email = true ->
  Auth.accepts (auth st) (JS.toLowerCase email) (passwordRaw env password birthday) = true ->
  Auth.getUserByEmail (auth st) (JS.toLowerCase email) = Ok u ->
  exists st1, ensure_auth_user env (Some email) password birthday st =
                (mkResponse 200 (SuccessUid (Auth.uid u)), st1) /\
    (exists u1, Auth.getUserByEmail (auth st1) (JS.toLowerCase email) = Ok u1 /\
                Auth.uid u1 = Auth.uid u) /\
    Auth.count_email (auth st1) (JS.toLowerCase email) =
      Auth.count_email (auth st) (JS.toLowerCase email) /\
    Auth.accepts (auth st1) = Auth.accepts (auth st).
Proof.
  intros He Hacc Hu.
  destruct (recover_existing _ _ (passwordRaw env password birthday) _
              (proj1 (proj2 (accepts_inv _ _ _ Hacc))) Hu)
    as (a' & Hup & Hget & Hcount & Hpol).
  destruct (getUser_of_email _ _ _ Hget) as [v Hv].
  unfold ensure_auth_user. rewrite He. simpl.
  rewrite (createUser_existing _ _ _ _ Hacc Hu). simpl. rewrite Hu, Hup.
  change (Auth.uid (Auth.apply_props (Auth.reset_props (passwordRaw env password birthday)) u))
    with (Auth.uid u) in Hv. rewrite Hv.
  eexists. split; [reflexivity|]. simpl. eauto.
Qed.

Lemma ensure_auth_user_fresh (env : password_env) (email : string)
    (password birthday : option string) (st : state) :
  JS.truthy email = true ->
  Auth.accepts (auth st) (JS.toLowerCase email) (passwordRaw env password birthday) = true ->
  Auth.count_email (auth st) (JS.toLowerCase email) = 0%nat ->
  exists u st1, ensure_auth_user env (Some email) password birthday st =
                  (mkResponse 200 (SuccessUid (Auth.uid u)), st1) /\
    Auth.getUserByEmail (auth st1) (JS.toLowerCase email) = Ok u /\
    Auth.count_email (auth st1) (JS.toLowerCase email) = 1%nat /\
    Auth.accepts (auth st1) = Auth.accepts (auth st).
Proof.
  intros He Hacc Hzero.
  destruct (createUser_fresh _ _ _ Hacc Hzero) as (u & a' & Hc & Hget & Hcount & Hpol).
  destruct (getUser_of_email _ _ _ Hget) as [v Hv].
  unfold ensure_auth_user. rewrite He. simpl. rewrite Hc, Hv.
  eexists u, _. split; [reflexivity|]. simpl. auto.
Qed.

Lemma getUserByEmail_cases (a : Auth.state) (e : string) :
  Auth.valid_email e = true ->
  (exists u, Auth.getUserByEmail a e = Ok u /\ Auth.count_email a e <> 0%nat) \/
  Auth.count_email a e = 0%nat.
Proof.
  intros He. unfold Auth.getUserByEmail. rewrite He. cbn [negb].
  destruct (List.find (Auth.has_email e) (Auth.accounts a)) as [u|] eqn:Hf.
  - left. exists u. split; [reflexivity|].
    rewrite count_zero_existsb, (find_existsb _ _ _ Hf). discriminate.
  - right. apply count_zero_existsb.
    destruct (List.existsb _ _) eqn:Hex; [|reflexivity].
    apply existsb_find in Hex as [x Hx]. congruence.
Qed.

(** C8, as amended. Whenever the provider accepts the credentials,
    [ensureUser] called twice for an email returns twice with the same uid
    and adds no account the second time; [created] is false on the second
    call, and on the first call it is true exactly when the email had no
    account before: then one account exists afterwards, otherwise as many as
    before. The route [/admin/ensure-auth-user], which reports the uid only,
    likewise answers the same uid twice and adds no account the second
    time. *)
Theorem C8_ensure_twice_same_identity :
  (forall (st : state) (role : string) (now1 now2 : Z) (email password : string),
     JS.truthy email = true ->
     Auth.accepts (auth st) email password = true ->
     exists r1 st1 r2 st2,
       ensureUser role now1 email password st = Ok (r1, st1) /\
       ensureUser role now2 email password st1 = Ok (r2, st2) /\
       uid r2 = uid r1 /\ created r2 = false /\
       Auth.count_email (auth st2) email = Auth.count_email (auth st1) email /\
       (Auth.count_email (auth st) email = 0%nat ->
        created r1 = true /\ Auth.count_email (auth st2) email = 1%nat) /\
       (Auth.count_email (auth st) email <> 0%nat ->
        created r1 = false /\
        Auth.count_email (auth st2) email = Auth.count_email (auth st) email)) /\
  (forall (st : state) (env1 env2 : password_env) (email : string)
          (password birthday : option string),
     JS.truthy email = true ->
     Auth.accepts (auth st) (JS.toLowerCase email) (passwordRaw env1 password birthday) = true ->
     Auth.accepts (auth st) (JS.toLowerCase email) (passwordRaw env2 password birthday) = true ->
     exists id st1 st2,
       ensure_auth_user env1 (Some email) password birthday st =
         (mkResponse 200 (SuccessUid id), st1) /\
       ensure_auth_user env2 (Some email) password birthday st1 =
         (mkResponse 200 (SuccessUid id), st2) /\
       Auth.count_email (auth st2) (JS.toLowerCase email) =
         Auth.count_email (auth st1) (JS.toLowerCase email) /\
       (Auth.count_email (auth st) (JS.toLowerCase email) = 0%nat ->
        Auth.count_email (auth st2) (JS.toLowerCase email) = 1%nat)).
Proof.
  split.
  - intros st role now1 now2 email password He Hacc.
    destruct (getUserByEmail_cases (auth st) email (proj1 (accepts_inv _ _ _ Hacc)))
      as [(u & Hu & Hnz)|Hzero].
    + destruct (ensureUser_existing role now1 _ _ _ _ Hacc Hu)
        as (st1 & H1 & (u1 & Hu1 & Hid) & Hc1 & Hp1).
      rewrite <- Hp1 in Hacc.
      destruct (ensureUser_existing role now2 _ _ _ _ Hacc Hu1) as (st2 & H2 & _ & Hc2 & _).
      eexists _, st1, _, st2. split; [exact H1|]. split; [exact H2|].
      split; [exact Hid|]. split; [reflexivity|]. split; [exact Hc2|].
      split; [intros Hz; contradiction|].
      intros _. split; [reflexivity | congruence].
    + destruct (ensureUser_fresh role now1 _ _ _ Hacc Hzero)
        as (u & st1 & H1 & Hu1 & Hc1 & Hp1).
      rewrite <- Hp1 in Hacc.
      destruct (ensureUser_existing role now2 _ _ _ _ Hacc Hu1) as (st2 & H2 & _ & Hc2 & _).
      eexists _, st1, _, st2. split; [exact H1|]. split; [exact H2|].
      split; [reflexivity|]. split; [reflexivity|]. split; [exact Hc2|].
      split; [intros _; split; [reflexivity | congruence]|].
      intros Hnz. contradiction.
  - intros st env1 env2 email password birthday He Hacc1 Hacc2.
    destruct (getUserByEmail_cases (auth st) (JS.toLowerCase email)
                (proj1 (accepts_inv _ _ _ Hacc1)))
      as [(u & Hu & Hnz)|Hzero].
    + destruct (ensure_auth_user_existing env1 _ password birthday _ _ He Hacc1 Hu)
        as (st1 & H1 & (u1 & Hu1 & Hid) & Hc1 & Hp1).
      rewrite <- Hp1 in Hacc2.
      destruct (ensure_auth_user_existing env2 _ password birthday _ _ He Hacc2 Hu1)
        as (st2 & H2 & _ & Hc2 & _).
      exists (Auth.uid u), st1, st2. split; [exact H1|]. rewrite <- Hid.
      split; [exact H2|]. split; [exact Hc2|].
      intros Hz. contradiction.
    + destruct (ensure_auth_user_fresh env1 _ password birthday _ He Hacc1 Hzero)
        as (u & st1 & H1 & Hu1 & Hc1 & Hp1).
      rewrite <- Hp1 in Hacc2.
      destruct (ensure_auth_user_existing env2 _ password birthday _ _ He Hacc2 Hu1)
        as (st2 & H2 & _ & Hc2 & _).
      exists (Auth.uid u), st1, st2. split; [exact H1|]. split; [exact H2|].
      split; [exact Hc2|]. intros _. congruence.
Qed.

Lemma C8_witness :
  let first := ensureUser "admin" 10 "new@x.com" "P4ssword!" empty_state in
  let second := ensureUser "admin" 20 "new@x.com" "P4ssword!" (state_after first empty_state) in
  JS.truthy "new@x.com" = true /\
  Auth.accepts (auth empty_state) "new@x.com" "P4ssword!" = true /\
  reported first = Some (true, "uid0") /\
  reported second = Some (false, "uid0") /\
  exists r1 st1 r2 st2,
    ensureUser "admin" 10 "new@x.com" "P4ssword!" empty_state = Ok (r1, st1) /\
    ensureUser "admin" 20 "new@x.com" "P4ssword!" st1 = Ok (r2, st2) /\
    uid r2 = uid r1 /\ created r2 = false /\
    Auth.count_email (auth st2) "new@x.com" = Auth.count_email (auth st1) "new@x.com" /\
    (Auth.count_email (auth empty_state) "new@x.com" = 0%nat ->
     created r1 = true /\ Auth.count_email (auth st2) "new@x.com" = 1%nat) /\
    (Auth.count_email (auth empty_state) "new@x.com" <> 0%nat ->
     created r1 = false /\
     Auth.count_email (auth st2) "new@x.com" = Auth.count_email (auth empty_state) "new@x.com").
Proof.
  assert (He : JS.truthy "new@x.com" = true) by reflexivity.
  assert (H : Auth.accepts (auth empty_state) "new@x.com" "P4ssword!" = true) by reflexivity.
  split; [exact He|]. split; [exact H|]. split; [reflexivity|]. split; [reflexivity|].
  exact (proj1 C8_ensure_twice_same_identity empty_state "admin" 10 20
           "new@x.com" "P4ssword!" He H).
Defined.

(** C8 as stated fails for an email that already has an account: the first
    call has [created = false] too. *)
Lemma C8_counterexample :
  let first := ensureUser "admin" 10 "a@x.com" "P4ssword!" one_account_state in
  let second := ensureUser "admin" 20 "a@x.com" "P4ssword!"
                  (state_after first one_account_state) in
  Auth.count_email (auth one_account_state) "a@x.com" = 1%nat /\
  reported first = Some (false, "uid0") /\
  reported second = Some (false, "uid0") /\
  Auth.count_email (auth (state_after second one_account_state)) "a@x.com" = 1%nat.
Proof. vm_compute. repeat split; reflexivity. Qed.

(** ** Bytes and [base64url] *)

Lemma forall_below (P : Z -> bool) (n : nat) :
  List.forallb (fun k => P (Z.of_nat k)) (List.seq 0 n) = true ->
  forall v, 0 <= v < Z.of_nat n -> P v = true.
Proof.
  intros H v Hv. rewrite List.forallb_forall in H.
  specialize (H (Z.to_nat v)). rewrite Z2Nat.id in H by lia.
  apply H. apply List.in_seq. lia.
Qed.

Lemma list_ind3 {A : Type} (P : list A -> Prop) :
  P [] -> (forall a, P [a]) -> (forall a b, P [a; b]) ->
  (forall a b c l, P l -> P (a :: b :: c :: l)) ->
  forall l, P l.
Proof.
  intros H0 H1 H2 H3.
  refine (fix F (l : list A) : P l :=
            match l with
            | [] => H0
            | [a] => H1 a
            | [a; b] => H2 a b
            | a :: b :: c :: r => H3 a b c r (F r)
            end).
Qed.

Lemma append_cons (c : ascii) (s t : string) : String c s ++ t = String c (s ++ t).
Proof. reflexivity. Qed.

Lemma append_nil_r (s : string) : s ++ EmptyString = s.
Proof. induction s as [|c s IH]; [reflexivity|]. rewrite append_cons, IH. reflexivity. Qed.

Lemma append_assoc (s t u : string) : (s ++ t) ++ u = s ++ (t ++ u).
Proof. induction s as [|c s IH]; [reflexivity|]. rewrite !append_cons, IH. reflexivity. Qed.

Lemma of_ascii_range (c : ascii) : byte_range (Bytes.of_ascii c).
Proof.
  unfold byte_range, Bytes.of_ascii. pose proof (N_ascii_bounded c). lia.
Qed.

Lemma to_ascii_of_ascii (c : ascii) : Bytes.to_ascii (Bytes.of_ascii c) = c.
Proof. unfold Bytes.to_ascii, Bytes.of_ascii. rewrite N2Z.id. apply ascii_N_embedding. Qed.

Lemma of_string_range (s : string) : Forall byte_range (Bytes.of_string s).
Proof.
  unfold Bytes.of_string. induction s as [|c s IH]; simpl; constructor;
    [apply of_ascii_range | exact IH].
Qed.

Lemma to_string_of_string (s : string) : Bytes.to_string (Bytes.of_string s) = s.
Proof.
  unfold Bytes.to_string, Bytes.of_string. rewrite List.map_map.
  rewrite (List.map_ext _ (fun c => c)) by apply to_ascii_of_ascii.
  rewrite List.map_id. apply string_of_list_ascii_of_string.
Qed.

Lemma char_of_facts (v : Z) :
  0 <= v < 64 ->
  Base64url.value_of (Base64url.char_of v) = Some v /\
  Ascii.eqb (Base64url.char_of v) "="%char = false /\
  Ascii.eqb "."%char (Base64url.char_of v) = false.
Proof.
  intros Hv.
  pose (check := fun v =>
    match Base64url.value_of (Base64url.char_of v) with
    | Some w => (w =? v)%Z
    | None => false
    end && negb (Ascii.eqb (Base64url.char_of v) "="%char)
        && negb (Ascii.eqb "."%char (Base64url.char_of v))).
  assert (H : check v = true) by (apply (forall_below check 64); [vm_compute; reflexivity | lia]).
  unfold check in H. apply andb_prop in H as [H H3]. apply andb_prop in H as [H1 H2].
  destruct (Base64url.value_of (Base64url.char_of v)) as [w|]; [|discriminate].
  apply Z.eqb_eq in H1. subst w.
  apply negb_true_iff in H2, H3. auto.
Qed.

Lemma sextets_of_bytes_range (l : list Z) :
  Forall byte_range l -> Forall sextet_range (Base64url.sextets_of_bytes l).
Proof.
  unfold byte_range, sextet_range.
  induction l as [| a | a b | a b c l IH] using list_ind3; intros H;
    cbn [Base64url.sextets_of_bytes].
  - constructor.
  - apply Forall_cons_1 in H as [Ha _].
    repeat constructor; Z.div_mod_to_equations; lia.
  - apply Forall_cons_1 in H as [Ha H]. apply Forall_cons_1 in H as [Hb _].
    repeat constructor; Z.div_mod_to_equations; lia.
  - apply Forall_cons_1 in H as [Ha H]. apply Forall_cons_1 in H as [Hb H].
    apply Forall_cons_1 in H as [Hc H].
    repeat (constructor; [Z.div_mod_to_equations; lia|]). apply IH. exact H.
Qed.

Lemma bytes_of_sextets_of_bytes (l : list Z) :
  Forall byte_range l -> Base64url.bytes_of_sextets (Base64url.sextets_of_bytes l) = l.
Proof.
  unfold byte_range.
  induction l as [| a | a b | a b c l IH] using list_ind3; intros H;
    cbn [Base64url.sextets_of_bytes Base64url.bytes_of_sextets].
  - reflexivity.
  - apply Forall_cons_1 in H as [Ha _]. f_equal. Z.div_mod_to_equations; lia.
  - apply Forall_cons_1 in H as [Ha H]. apply Forall_cons_1 in H as [Hb _].
    f_equal; [|f_equal]; Z.div_mod_to_equations; lia.
  - apply Forall_cons_1 in H as [Ha H]. apply Forall_cons_1 in H as [Hb H].
    apply Forall_cons_1 in H as [Hc H].
    rewrite (IH H). f_equal; [|f_equal; [|f_equal]]; Z.div_mod_to_equations; lia.
Qed.

Lemma sextets_of_string_chars (l : list Z) :
  Forall sextet_range l ->
  Base64url.sextets_of_string (string_of_list_ascii (List.map Base64url.char_of l)) = l.
Proof.
  induction 1 as [|v l Hv _ IH]; cbn [List.map string_of_list_ascii Base64url.sextets_of_string];
    [reflexivity|].
  destruct (char_of_facts v Hv) as (H1 & H2 & _). rewrite H2, H1, IH. reflexivity.
Qed.

(** Decoding inverts encoding. *)
Lemma base64url_decode_encode (s : string) : Base64url.decode (Base64url.encode s) = s.
Proof.
  unfold Base64url.decode, Base64url.encode.
  rewrite sextets_of_string_chars by (apply sextets_of_bytes_range, of_string_range).
  rewrite bytes_of_sextets_of_bytes by apply of_string_range.
  apply to_string_of_string.
Qed.

Lemma base64url_no_dot (s : string) : JS.includes "." (Base64url.encode s) = false.
Proof.
  unfold Base64url.encode.
  pose proof (sextets_of_bytes_range _ (of_string_range s)) as H.
  induction H as [|v l Hv _ IH]; cbn [List.map string_of_list_ascii JS.includes];
    [reflexivity|].
  destruct (char_of_facts v Hv) as (_ & _ & H3). rewrite H3. exact IH.
Qed.

Lemma hex_lower_no_dot (n : Z) : 0 <= n < 16 -> Ascii.eqb "."%char (Bytes.hex_lower n) = false.
Proof.
  intros Hn.
  apply (forall_below (fun n => negb (Ascii.eqb "."%char (Bytes.hex_lower n))) 16) in Hn;
    [apply negb_true_iff; exact Hn | vm_compute; reflexivity].
Qed.

Lemma hex_no_dot (l : list Z) : Forall byte_range l -> JS.includes "." (Bytes.hex l) = false.
Proof.
  unfold byte_range.
  induction 1 as [|b l Hb _ IH]; cbn [Bytes.hex JS.includes]; [reflexivity|].
  rewrite !hex_lower_no_dot by (Z.div_mod_to_equations; lia). exact IH.
Qed.

Lemma be_bytes_range (n : nat) (x : Z) : Forall byte_range (SHA256.be_bytes n x).
Proof.
  revert x. induction n as [|n IH]; intros x; cbn [SHA256.be_bytes]; [constructor|].
  apply Forall_app. split; [apply IH|]. constructor; [|constructor].
  unfold byte_range. apply Z.mod_pos_bound. lia.
Qed.

Lemma digest_range (msg : list Z) : Forall byte_range (SHA256.digest msg).
Proof.
  unfold SHA256.digest. generalize (SHA256.blocks (length (SHA256.pad msg)) SHA256.H0
                                      (SHA256.pad msg)).
  intros l. induction l as [|x l IH]; cbn [List.map List.concat]; [constructor|].
  apply Forall_app. split; [apply be_bytes_range | exact IH].
Qed.

Lemma hmac_hex_no_dot (secret body : string) :
  JS.includes "." (HMAC.hmac_sha256_hex secret body) = false.
Proof. apply hex_no_dot. unfold HMAC.hmac. apply digest_range. Qed.

(** ** Splitting a token *)

Lemma split_on_no_sep (c : ascii) (s cur : string) :
  JS.includes c s = false -> JS.split_on c s cur = [cur ++ s].
Proof.
  revert cur. induction s as [|d s IH]; intros cur H; cbn [JS.split_on JS.includes] in *.
  - rewrite append_nil_r. reflexivity.
  - destruct (Ascii.eqb c d); [discriminate|].
    rewrite IH by exact H. rewrite append_assoc. reflexivity.
Qed.

Lemma split_on_app (c : ascii) (a b cur : string) :
  JS.includes c a = false ->
  JS.split_on c (a ++ String c b) cur = (cur ++ a) :: JS.split_on c b EmptyString.
Proof.
  revert cur. induction a as [|d a IH]; intros cur H; cbn [JS.includes] in H.
  - change (EmptyString ++ String c b) with (String c b). cbn [JS.split_on].
    rewrite Ascii.eqb_refl, append_nil_r. reflexivity.
  - rewrite append_cons. cbn [JS.split_on].
    destruct (Ascii.eqb c d); [discriminate|].
    rewrite IH by exact H. rewrite append_assoc. reflexivity.
Qed.

Lemma includes_app (c : ascii) (a b : string) :
  JS.includes c (a ++ String c b) = true.
Proof.
  induction a as [|d a IH].
  { change (EmptyString ++ String c b) with (String c b). cbn [JS.includes].
    rewrite Ascii.eqb_refl. reflexivity. }
  rewrite append_cons. cbn [JS.includes]. rewrite IH. destruct (Ascii.eqb c d); reflexivity.
Qed.

(** A token made of a body and a signature without dots splits into these
    two pieces. *)
Lemma split_token (body signature : string) :
  JS.includes "." body = false -> JS.includes "." signature = false ->
  JS.split "." (body ++ "." ++ signature) = [body; signature].
Proof.
  intros Hb Hs. unfold JS.split.
  change (body ++ "." ++ signature) with (body ++ String "."%char signature).
  rewrite split_on_app by exact Hb. rewrite split_on_no_sep by exact Hs. reflexivity.
Qed.

(** ** [JSON.parse] inverts [JSON.stringify] *)

Lemma skip_ws_head (c : ascii) (r : string) :
  JSON.is_ws c = false -> JSON.skip_ws (String c r) = String c r.
Proof. intros H. cbn [JSON.skip_ws]. rewrite H. reflexivity. Qed.

Lemma follows_not_ws (rest : string) : follows rest -> JSON.skip_ws rest = rest.
Proof.
  destruct rest as [|c r]; [reflexivity|]. intros [-> | [-> | ->]]; reflexivity.
Qed.

Lemma digit_value_digit_char (d : Z) :
  0 <= d < 10 -> JSON.digit_value (JS.digit_char d) = Some d.
Proof.
  intros Hd.
  pose (check := fun d => match JSON.digit_value (JS.digit_char d) with
                          | Some w => (w =? d)%Z | None => false end).
  assert (H : check d = true) by (apply (forall_below check 10); [vm_compute; reflexivity | lia]).
  unfold check in H. destruct (JSON.digit_value (JS.digit_char d)); [|discriminate].
  apply Z.eqb_eq in H. congruence.
Qed.

(** Reading the digits that [digits] wrote appends the number to what was
    read before. *)
Lemma read_digits_digits (f : nat) (n : Z) :
  0 <= n < 2 ^ Z.of_nat f ->
  exists k, 0 <= k /\ forall acc rest a,
    JSON.read_digits (JS.digits f n acc ++ rest) a =
    JSON.read_digits (acc ++ rest) (a * 10 ^ k + n).
Proof.
  revert n. induction f as [|f IH]; intros n Hn.
  - exists 0. split; [lia|]. intros acc rest a. cbn [JS.digits].
    change (2 ^ Z.of_nat 0) with 1 in Hn. f_equal; lia.
  - rewrite Nat2Z.inj_succ, Z.pow_succ_r in Hn by lia.
    destruct (Z.ltb_spec n 10) as [Hlt|Hge].
    + exists 1. split; [lia|]. intros acc rest a.
      rewrite digits_last by exact Hlt. rewrite append_cons. cbn [JSON.read_digits].
      rewrite digit_value_digit_char by lia. f_equal; lia.
    + destruct (IH (n / 10)) as (k & Hk & Hread).
      { split; [apply Z.div_pos; lia|]. apply Z.div_lt_upper_bound; lia. }
      exists (k + 1). split; [lia|]. intros acc rest a.
      rewrite digits_step by exact Hge. rewrite Hread, append_cons. cbn [JSON.read_digits].
      rewrite digit_value_digit_char by (apply Z.mod_pos_bound; lia).
      f_equal. rewrite Z.pow_add_r by lia.
      pose proof (Z.div_mod n 10 ltac:(lia)). lia.
Qed.

(** A positive number starts with a digit other than 0. *)
Lemma digits_leading (f : nat) (n : Z) (acc : string) :
  0 < n < 2 ^ Z.of_nat f ->
  exists d r, 1 <= d < 10 /\ JS.digits f n acc = String (JS.digit_char d) r.
Proof.
  revert n acc. induction f as [|f IH]; intros n acc Hn.
  - change (2 ^ Z.of_nat 0) with 1 in Hn. lia.
  - rewrite Nat2Z.inj_succ, Z.pow_succ_r in Hn by lia.
    destruct (Z.ltb_spec n 10) as [Hlt|Hge].
    + exists n, acc. split; [lia|]. apply digits_last. exact Hlt.
    + rewrite digits_step by exact Hge. apply IH.
      split; [apply Z.div_str_pos; lia | apply Z.div_lt_upper_bound; lia].
Qed.

Lemma toString_fuel (n : Z) : 0 <= n -> n < 2 ^ Z.of_nat (S (Z.to_nat (Z.log2 n))).
Proof.
  intros Hn. rewrite Nat2Z.inj_succ, Z2Nat.id by apply Z.log2_nonneg.
  destruct (Z.eq_dec n 0) as [->|Hne]; [reflexivity|].
  apply Z.log2_spec. lia.
Qed.

Lemma read_digits_stop (rest : string) (a : Z) :
  follows rest -> JSON.read_digits rest a = (a, rest).
Proof.
  destruct rest as [|c r]; [reflexivity|]. intros [-> | [-> | ->]]; reflexivity.
Qed.

Lemma toString_nonneg (n : Z) :
  0 <= n -> JS.toString n = JS.digits (S (Z.to_nat (Z.log2 n))) n EmptyString.
Proof. intros Hn. unfold JS.toString. destruct (Z.ltb_spec n 0); [lia | reflexivity]. Qed.

(** The parser reads back a number that [toString] wrote. *)
Lemma read_natural_toString (n : Z) (rest : string) :
  0 <= n -> follows rest -> JSON.read_natural (JS.toString n ++ rest) = Some (n, rest).
Proof.
  intros Hn Hrest.
  destruct (Z.eq_dec n 0) as [->|Hne].
  - reflexivity.
  - rewrite toString_nonneg by exact Hn.
    assert (Hpos : 0 < n) by lia.
    destruct (digits_leading _ n EmptyString (conj Hpos (toString_fuel n Hn)))
      as (d & r & Hd & Hdigits).
    destruct (read_digits_digits _ n (conj Hn (toString_fuel n Hn))) as (k & Hk & Hread).
    specialize (Hread EmptyString rest 0).
    change (EmptyString ++ rest) with rest in Hread.
    replace (0 * 10 ^ k + n) with n in Hread by lia.
    rewrite (read_digits_stop rest n Hrest) in Hread.
    rewrite Hdigits in *. rewrite append_cons in *.
    cbn [JSON.read_digits] in Hread. rewrite digit_value_digit_char in Hread by lia.
    replace (0 * 10 + d) with d in Hread by lia.
    unfold JSON.read_natural. rewrite digit_value_digit_char by lia.
    destruct (Z.eqb_spec d 0) as [?|_]; [lia|]. rewrite Hread. reflexivity.
Qed.

Lemma follows_no_fraction (rest : string) :
  follows rest -> JSON.starts_fraction_or_exponent rest = false.
Proof.
  destruct rest as [|c r]; [reflexivity|]. intros [-> | [-> | ->]]; reflexivity.
Qed.

(** An integer that [toString] wrote is read back as it is. *)
Lemma read_number_toString (n : Z) (rest : string) :
  0 <= n -> follows rest ->
  JSON.read_number (JS.toString n ++ rest) = Some (JS.Finite (inject_Z n), rest).
Proof.
  intros Hn Hrest. unfold JSON.read_number.
  rewrite (read_natural_toString n rest Hn Hrest), (follows_no_fraction rest Hrest).
  reflexivity.
Qed.

(** Reading one character as [stringify] escapes it. *)
Lemma read_string_escape_char (c : ascii) (tail acc : string) :
  JSON.read_string (JSON.escape_char c ++ tail) acc =
  JSON.read_string tail (acc ++ String c EmptyString).
Proof. destruct c as [[] [] [] [] [] [] [] []]; reflexivity. Qed.

Lemma read_string_escape (s rest acc : string) :
  JSON.read_string (JSON.escape s ++ String JSON.dquote rest) acc = Some (acc ++ s, rest).
Proof.
  revert acc. induction s as [|c s IH]; intros acc.
  - change (JSON.escape EmptyString ++ String JSON.dquote rest)
      with (String JSON.dquote rest).
    cbn [JSON.read_string]. rewrite Ascii.eqb_refl, append_nil_r. reflexivity.
  - cbn [JSON.escape]. rewrite append_assoc, read_string_escape_char, IH, append_assoc.
    reflexivity.
Qed.

(** The parser reads back a string literal that [quote] wrote. *)
Lemma read_string_quote (s rest : string) :
  exists r, JSON.quote s ++ rest = String JSON.dquote r /\
            JSON.read_string r EmptyString = Some (s, rest).
Proof.
  exists (JSON.escape s ++ String JSON.dquote rest). split.
  - unfold JSON.quote. rewrite append_cons, append_assoc. reflexivity.
  - apply read_string_escape.
Qed.

Lemma value_ind' (P : JSON.value -> Prop) :
  P JSON.JNull -> (forall b, P (JSON.JBool b)) -> (forall n, P (JSON.JNumber n)) ->
  (forall s, P (JSON.JString s)) ->
  (forall l, Forall P l -> P (JSON.JArray l)) ->
  (forall fields, Forall (fun kv => P kv.2) fields -> P (JSON.JObject fields)) ->
  forall v, P v.
Proof.
  intros Hnull Hbool Hnum Hstr Harr Hobj.
  refine (fix F (v : JSON.value) : P v :=
            match v with
            | JSON.JNull => Hnull
            | JSON.JBool b => Hbool b
            | JSON.JNumber n => Hnum n
            | JSON.JString s => Hstr s
            | JSON.JArray l =>
                Harr l ((fix G (l : list JSON.value) : Forall P l :=
                           match l with
                           | [] => @List.Forall_nil _ P
                           | x :: r => @List.Forall_cons _ P x r (F x) (G r)
                           end) l)
            | JSON.JObject fields =>
                Hobj fields
                  ((fix G (l : list (string * JSON.value)) : Forall (fun kv => P kv.2) l :=
                      match l with
                      | [] => @List.Forall_nil _ (fun kv => P kv.2)
                      | kv :: r => @List.Forall_cons _ (fun kv => P kv.2) kv r (F kv.2) (G r)
                      end) fields)
            end).
Qed.

Lemma distinct_keys_array (l : list JSON.value) :
  distinct_keys (JSON.JArray l) <-> Forall distinct_keys l.
Proof.
  cbn [distinct_keys]. induction l as [|x l IH]; split; intros H.
  - constructor.
  - exact I.
  - destruct H as [Hx Hl]. constructor; [exact Hx | apply IH; exact Hl].
  - apply Forall_cons_1 in H as [Hx Hl]. split; [exact Hx | apply IH; exact Hl].
Qed.

Lemma distinct_keys_object (fields : list (string * JSON.value)) :
  distinct_keys (JSON.JObject fields) <->
  NoDup (List.map fst fields) /\ Forall (fun kv => distinct_keys kv.2) fields.
Proof.
  cbn [distinct_keys].
  enough (H : (fix all (l : list (string * JSON.value)) : Prop :=
                 match l with
                 | [] => True
                 | (_, x) :: r => distinct_keys x /\ all r
                 end) fields <-> Forall (fun kv => distinct_keys kv.2) fields) by tauto.
  induction fields as [|[k x] l IH]; split; intros H.
  - constructor.
  - exact I.
  - destruct H as [Hx Hl]. constructor; [exact Hx | apply IH; exact Hl].
  - apply Forall_cons_1 in H as [Hx Hl]. split; [exact Hx | apply IH; exact Hl].
Qed.

Lemma of_value_array (l : list JSON.value) :
  JSON.of_value (JSON.JArray l) = JSON.DArray (List.map JSON.of_value l).
Proof.
  cbn [JSON.of_value]. apply f_equal. induction l as [|x l IH]; [reflexivity|].
  cbn [List.map]. rewrite <- IH. reflexivity.
Qed.

Lemma of_value_object (fields : list (string * JSON.value)) :
  JSON.of_value (JSON.JObject fields) =
    JSON.DObject (List.map (fun kv => (kv.1, JSON.of_value kv.2)) fields).
Proof.
  cbn [JSON.of_value]. apply f_equal. induction fields as [|[k x] l IH]; [reflexivity|].
  cbn [List.map fst snd]. rewrite <- IH. reflexivity.
Qed.

Lemma stringify_array (l : list JSON.value) :
  JSON.stringify (JSON.JArray l) = "[" ++ elements_text l ++ "]".
Proof. reflexivity. Qed.

Lemma stringify_object (fields : list (string * JSON.value)) :
  JSON.stringify (JSON.JObject fields) = "{" ++ members_text fields ++ "}".
Proof. reflexivity. Qed.

Lemma length_append (s t : string) :
  String.length (s ++ t) = (String.length s + String.length t)%nat.
Proof.
  induction s as [|c s IH]; [reflexivity|].
  rewrite append_cons. cbn [String.length]. rewrite IH. reflexivity.
Qed.

Lemma prefix_append (w rest : string) : String.prefix w (w ++ rest) = true.
Proof.
  induction w as [|c w IH]; [destruct rest; reflexivity|].
  rewrite append_cons. cbn [String.prefix].
  destruct (ascii_dec c c) as [_|Hne]; [exact IH | congruence].
Qed.

Lemma substring_all (s : string) : String.substring 0 (String.length s) s = s.
Proof. induction s as [|c s IH]; [reflexivity|]. cbn. rewrite IH. reflexivity. Qed.

Lemma substring_append (w rest : string) :
  String.substring (String.length w) (String.length (w ++ rest) - String.length w)
    (w ++ rest) = rest.
Proof.
  rewrite length_append. replace (_ + _ - _)%nat with (String.length rest) by lia.
  induction w as [|c w IH]; [apply substring_all|].
  rewrite append_cons. exact IH.
Qed.

Lemma expect_append (w : string) (v : JSON.data) (rest : string) :
  JSON.expect w v (w ++ rest) = Some (v, rest).
Proof. unfold JSON.expect. rewrite prefix_append, substring_append. reflexivity. Qed.

Lemma digits_head (f : nat) (n : Z) (acc : string) :
  0 <= n -> exists d r, 0 <= d < 10 /\ JS.digits (S f) n acc = String (JS.digit_char d) r.
Proof.
  revert n acc. induction f as [|f IH]; intros n acc Hn.
  - destruct (Z.ltb_spec n 10) as [Hlt|Hge].
    + exists n, acc. split; [lia | apply digits_last; exact Hlt].
    + exists (n mod 10), acc. split; [apply Z.mod_pos_bound; lia|].
      rewrite digits_step by exact Hge. reflexivity.
  - destruct (Z.ltb_spec n 10) as [Hlt|Hge].
    + exists n, acc. split; [lia | apply digits_last; exact Hlt].
    + rewrite digits_step by exact Hge. apply IH. apply Z.div_pos; lia.
Qed.

Lemma digit_char_opens (d : Z) : 0 <= d < 10 -> opens_value (JS.digit_char d).
Proof.
  intros Hd.
  pose (check := fun d => negb (JSON.is_ws (JS.digit_char d))
                          && negb (Bytes.of_ascii (JS.digit_char d) =? 93)%Z
                          && negb (Bytes.of_ascii (JS.digit_char d) =? 125)%Z).
  assert (H : check d = true) by (apply (forall_below check 10); [vm_compute; reflexivity | lia]).
  unfold check in H. apply andb_prop in H as [H H3]. apply andb_prop in H as [H1 H2].
  apply negb_true_iff in H1, H2, H3. repeat split; assumption.
Qed.

Lemma stringify_head (v : JSON.value) :
  exists c r, JSON.stringify v = String c r /\ opens_value c.
Proof.
  destruct v as [|[]|n|s|l|fields].
  - exists "n"%char, "ull". repeat split; reflexivity.
  - exists "t"%char, "rue". repeat split; reflexivity.
  - exists "f"%char, "alse". repeat split; reflexivity.
  - cbn [JSON.stringify]. unfold JS.toString. destruct (Z.ltb_spec n 0).
    + eexists _, _. split; [reflexivity|]. repeat split; reflexivity.
    + destruct (digits_head (Z.to_nat (Z.log2 n)) n EmptyString) as (d & r & Hd & E); [lia|].
      exists (JS.digit_char d), r. split; [exact E | apply digit_char_opens; exact Hd].
  - eexists _, _. split; [reflexivity|]. repeat split; reflexivity.
  - rewrite stringify_array. eexists _, _. split; [reflexivity|]. repeat split; reflexivity.
  - rewrite stringify_object. eexists _, _. split; [reflexivity|]. repeat split; reflexivity.
Qed.

Lemma stringify_length_pos (v : JSON.value) : (1 <= String.length (JSON.stringify v))%nat.
Proof.
  destruct (stringify_head v) as (c & r & E & _). rewrite E. cbn [String.length]. lia.
Qed.

Lemma append_nil_l (s : string) : EmptyString ++ s = s.
Proof. reflexivity. Qed.

Lemma parse_value_brace (f : nat) (r : string) :
  JSON.parse_value (S f) (String "{" r) =
  match JSON.skip_ws r with
  | String c' r' =>
      if (Bytes.of_ascii c' =? 125)%Z then Some (JSON.DObject [], r')
      else JSON.parse_members f r []
  | EmptyString => None
  end.
Proof. reflexivity. Qed.

Lemma parse_value_bracket (f : nat) (r : string) :
  JSON.parse_value (S f) (String "[" r) =
  match JSON.skip_ws r with
  | String c' r' =>
      if (Bytes.of_ascii c' =? 93)%Z then Some (JSON.DArray [], r')
      else JSON.parse_elements f r []
  | EmptyString => None
  end.
Proof. reflexivity. Qed.

Lemma parse_value_quote (f : nat) (r : string) :
  JSON.parse_value (S f) (String JSON.dquote r) =
  match JSON.read_string r EmptyString with
  | Some (str, r') => Some (JSON.DString str, r')
  | None => None
  end.
Proof. reflexivity. Qed.

Lemma parse_value_minus (f : nat) (r : string) :
  JSON.parse_value (S f) (String "-" r) =
  match JSON.read_number r with
  | Some (m, r') => Some (JSON.DNumber (JS.negate m), r')
  | None => None
  end.
Proof. reflexivity. Qed.

Lemma parse_value_digit (f : nat) (d : Z) (r : string) :
  0 <= d < 10 ->
  JSON.parse_value (S f) (String (JS.digit_char d) r) =
  match JSON.read_number (String (JS.digit_char d) r) with
  | Some (m, r') => Some (JSON.DNumber m, r')
  | None => None
  end.
Proof.
  intros Hd.
  assert (E : d = 0 \/ d = 1 \/ d = 2 \/ d = 3 \/ d = 4 \/ d = 5 \/ d = 6 \/ d = 7 \/ d = 8 \/ d = 9)
    by lia.
  repeat (destruct E as [-> | E]; [reflexivity|]). subst d. reflexivity.
Qed.

Lemma parse_elements_unfold (f : nat) (s : string) (acc : list JSON.data) :
  JSON.parse_elements (S f) s acc =
  match JSON.parse_value f s with
  | Some (v, r) =>
      match JSON.skip_ws r with
      | String c r' =>
          if (Bytes.of_ascii c =? 44)%Z then JSON.parse_elements f r' (acc ++ [v])%list
          else if (Bytes.of_ascii c =? 93)%Z then Some (JSON.DArray (acc ++ [v])%list, r')
          else None
      | EmptyString => None
      end
  | None => None
  end.
Proof. reflexivity. Qed.

Lemma parse_members_unfold (f : nat) (r : string) (acc : list (string * JSON.data)) :
  JSON.parse_members (S f) (String JSON.dquote r) acc =
  match JSON.read_string r EmptyString with
  | Some (k, r1) =>
      match JSON.skip_ws r1 with
      | String colon r2 =>
          if (Bytes.of_ascii colon =? 58)%Z then
            match JSON.parse_value f r2 with
            | Some (v, r3) =>
                match JSON.skip_ws r3 with
                | String c r4 =>
                    if (Bytes.of_ascii c =? 44)%Z
                    then JSON.parse_members f r4 (JSON.set k v acc)
                    else if (Bytes.of_ascii c =? 125)%Z
                    then Some (JSON.DObject (JSON.set k v acc), r4)
                    else None
                | EmptyString => None
                end
            | None => None
            end
          else None
      | EmptyString => None
      end
  | None => None
  end.
Proof. reflexivity. Qed.

Lemma set_fresh {A : Type} (k : string) (v : A) (acc : list (string * A)) :
  ~ In k (List.map fst acc) -> JSON.set k v acc = (acc ++ [(k, v)])%list.
Proof.
  induction acc as [|[k' v'] acc IH]; intros H; cbn [JSON.set List.app]; [reflexivity|].
  cbn [List.map fst In] in H.
  destruct (String.eqb_spec k' k) as [E|_]; [tauto|]. rewrite IH by tauto. reflexivity.
Qed.

Lemma parse_elements_text (l : list JSON.value) :
  Forall reads_back l -> l <> [] ->
  forall (fuel : nat) (rest : string) (acc : list JSON.data),
    (String.length (elements_text l) + 1 <= fuel)%nat ->
    JSON.parse_elements fuel (elements_text l ++ "]" ++ rest) acc =
    Some (JSON.DArray (acc ++ List.map JSON.of_value l)%list, rest).
Proof.
  induction l as [|x l IH]; intros HP Hne fuel rest acc Hfuel; [congruence|].
  apply Forall_cons_1 in HP as [Hx HP].
  destruct fuel as [|f]; [lia|]. rewrite parse_elements_unfold.
  destruct l as [|y l'].
  - cbn [elements_text] in *.
    rewrite (Hx f ("]" ++ rest)) by (first [lia | right; left; reflexivity]).
    reflexivity.
  - change (elements_text (x :: y :: l'))
      with (JSON.stringify x ++ "," ++ elements_text (y :: l')) in *.
    rewrite !length_append in Hfuel. pose proof (stringify_length_pos x).
    rewrite !append_assoc.
    rewrite (Hx f _) by (first [lia | left; reflexivity]).
    rewrite append_cons, append_nil_l, skip_ws_head by reflexivity.
    change (Bytes.of_ascii "," =? 44)%Z with true. cbv iota.
    rewrite IH by (first [exact HP | discriminate | lia]).
    rewrite <- List.app_assoc. reflexivity.
Qed.

Lemma parse_members_text (fields : list (string * JSON.value)) :
  Forall (fun kv => reads_back kv.2) fields -> fields <> [] ->
  forall (fuel : nat) (rest : string) (acc : list (string * JSON.data)),
    NoDup (List.map fst acc ++ List.map fst fields)%list ->
    (String.length (members_text fields) + 1 <= fuel)%nat ->
    JSON.parse_members fuel (members_text fields ++ "}" ++ rest) acc =
    Some (JSON.DObject
            (acc ++ List.map (fun kv => (kv.1, JSON.of_value kv.2)) fields)%list, rest).
Proof.
  induction fields as [|[k x] l IH]; intros HP Hne fuel rest acc Hdup Hfuel; [congruence|].
  apply Forall_cons_1 in HP as [Hx HP]. cbn [snd] in Hx.
  destruct fuel as [|f]; [lia|].
  assert (Hk : ~ In k (List.map fst acc)).
  { apply NoDup_app in Hdup as (_ & Hdis & _).
    intros Hin. apply (Hdis k); [apply list_elem_of_In; exact Hin | left]. }
  assert (Hnext : NoDup (List.map fst (acc ++ [(k, JSON.of_value x)]) ++ List.map fst l)%list).
  { rewrite List.map_app, <- List.app_assoc. exact Hdup. }
  destruct l as [|[k' y] l'].
  - change (members_text [(k, x)]) with (JSON.quote k ++ ":" ++ JSON.stringify x) in *.
    rewrite !length_append in Hfuel.
    rewrite !append_assoc.
    destruct (read_string_quote k (":" ++ JSON.stringify x ++ "}" ++ rest)) as (r & -> & Hr).
    rewrite parse_members_unfold, Hr.
    rewrite append_cons, append_nil_l, skip_ws_head by reflexivity.
    change (Bytes.of_ascii ":" =? 58)%Z with true. cbv iota.
    rewrite (Hx f _) by (first [lia | right; right; reflexivity]).
    rewrite set_fresh by exact Hk. reflexivity.
  - change (members_text ((k, x) :: (k', y) :: l'))
      with (JSON.quote k ++ ":" ++ JSON.stringify x ++ "," ++ members_text ((k', y) :: l')) in *.
    rewrite !length_append in Hfuel. pose proof (stringify_length_pos x).
    rewrite !append_assoc.
    destruct (read_string_quote k
                (":" ++ JSON.stringify x ++ "," ++ members_text ((k', y) :: l') ++ "}" ++ rest))
      as (r & -> & Hr).
    rewrite parse_members_unfold, Hr.
    rewrite append_cons, append_nil_l, skip_ws_head by reflexivity.
    change (Bytes.of_ascii ":" =? 58)%Z with true. cbv iota.
    rewrite (Hx f _) by (first [lia | left; reflexivity]).
    rewrite append_cons, append_nil_l, skip_ws_head by reflexivity.
    change (Bytes.of_ascii "," =? 44)%Z with true. cbv iota.
    rewrite set_fresh by exact Hk.
    rewrite IH.
    + rewrite <- List.app_assoc. reflexivity.
    + exact HP.
    + discriminate.
    + exact Hnext.
    + cbn [String.length] in Hfuel. lia.
Qed.

(** Every value whose objects list each key once is read back. *)
Lemma stringify_reads_back (v : JSON.value) : distinct_keys v -> reads_back v.
Proof.
  induction v as [|b|n|s|l IH|fields IH] using value_ind'; intros Hd fuel rest Hfuel Hrest;
    (destruct fuel as [|f];
     [match type of Hfuel with
      | (String.length (JSON.stringify ?w) <= _)%nat => pose proof (stringify_length_pos w)
      end; lia|]).
  - exact (expect_append "null" JSON.DNull rest).
  - destruct b.
    + exact (expect_append "true" (JSON.DBool true) rest).
    + exact (expect_append "false" (JSON.DBool false) rest).
  - cbn [JSON.stringify JSON.of_value]. destruct (Z.ltb_spec n 0) as [Hneg|Hpos].
    + assert (E : JS.toString n = String "-" (JS.toString (- n))).
      { unfold JS.toString. destruct (Z.ltb_spec n 0); [|lia].
        destruct (Z.ltb_spec (- n) 0); [lia | reflexivity]. }
      rewrite E, append_cons, parse_value_minus.
      rewrite read_number_toString by (first [lia | exact Hrest]).
      cbn [JS.negate]. unfold Qopp, inject_Z. cbn [Qnum Qden].
      rewrite Z.opp_involutive. reflexivity.
    + pose proof (read_number_toString n rest Hpos Hrest) as Hread.
      rewrite toString_nonneg in * by exact Hpos.
      destruct (digits_head (Z.to_nat (Z.log2 n)) n EmptyString Hpos) as (d & r & Hdr & E).
      rewrite E in *. rewrite append_cons in *.
      rewrite parse_value_digit by exact Hdr. rewrite Hread. reflexivity.
  - cbn [JSON.stringify].
    destruct (read_string_quote s rest) as (r & -> & Hr).
    rewrite parse_value_quote, Hr. reflexivity.
  - rewrite of_value_array. rewrite stringify_array in *.
    change ("[" ++ elements_text l ++ "]") with (String "["%char (elements_text l ++ "]")) in *.
    rewrite append_cons, parse_value_bracket.
    destruct l as [|x l].
    + reflexivity.
    + apply distinct_keys_array in Hd.
      assert (HP : Forall reads_back (x :: l)).
      { clear -IH Hd. induction IH as [|y l' Hy _ IHl]; [constructor|].
        apply Forall_cons_1 in Hd as [Hdy Hdl]. constructor; auto. }
      destruct (stringify_head x) as (c & r & Ex & Hws & H93 & _).
      assert (Ehead : exists r', (elements_text (x :: l) ++ "]") ++ rest = String c r').
      { destruct l; cbn [elements_text]; rewrite Ex, ?append_cons; eauto. }
      destruct Ehead as (r' & Ehead). rewrite Ehead, skip_ws_head, H93 by exact Hws.
      rewrite <- Ehead, append_assoc.
      cbn [String.length] in Hfuel. rewrite length_append in Hfuel.
      change (String.length "]") with 1%nat in Hfuel.
      apply (parse_elements_text (x :: l) HP ltac:(discriminate) f rest []). lia.
  - rewrite of_value_object. rewrite stringify_object in *.
    change ("{" ++ members_text fields ++ "}")
      with (String "{"%char (members_text fields ++ "}")) in *.
    rewrite append_cons, parse_value_brace.
    destruct fields as [|[k x] l].
    + reflexivity.
    + apply distinct_keys_object in Hd as [Hdup Hd].
      assert (HP : Forall (fun kv => reads_back kv.2) ((k, x) :: l)).
      { clear -IH Hd. induction IH as [|y l' Hy _ IHl]; [constructor|].
        apply Forall_cons_1 in Hd as [Hdy Hdl]. constructor; auto. }
      assert (Ehead : exists r',
                (members_text ((k, x) :: l) ++ "}") ++ rest = String JSON.dquote r').
      { destruct l as [|[k' y] l']; cbn [members_text]; unfold JSON.quote;
          rewrite ?append_cons; eauto. }
      destruct Ehead as (r' & Ehead). rewrite Ehead, skip_ws_head by reflexivity.
      change (Bytes.of_ascii JSON.dquote =? 125)%Z with false. cbv iota.
      rewrite <- Ehead, append_assoc.
      cbn [String.length] in Hfuel. rewrite length_append in Hfuel.
      change (String.length "}") with 1%nat in Hfuel.
      apply (parse_members_text ((k, x) :: l) HP ltac:(discriminate) f rest []);
        [exact Hdup | lia].
Qed.

(** [JSON.parse(JSON.stringify(v))] is [v]. *)
Lemma parse_stringify (v : JSON.value) :
  distinct_keys v -> JSON.parse (JSON.stringify v) = Ok v.
Proof.
  intros Hd. unfold JSON.parse.
  pose proof (stringify_reads_back v Hd (S (String.length (JSON.stringify v))) EmptyString) as H.
  rewrite append_nil_r in H. rewrite H by (first [lia | exact I]). reflexivity.
Qed.

(** ** Signed tokens *)

Lemma get_set {A : Type} (k k' : string) (v : A) (fields : list (string * A)) :
  JSON.get k (JSON.set k' v fields) = if String.eqb k' k then Some v else JSON.get k fields.
Proof.
  induction fields as [|[k0 v0] l IH]; cbn [JSON.set JSON.get].
  - destruct (String.eqb k' k); reflexivity.
  - destruct (String.eqb_spec k0 k') as [->|Hne]; cbn [JSON.get].
    + destruct (String.eqb k' k); reflexivity.
    + rewrite IH. destruct (String.eqb_spec k0 k) as [->|_]; [|reflexivity].
      destruct (String.eqb_spec k' k) as [->|_]; [congruence | reflexivity].
Qed.

Lemma set_keys {A : Type} (k : string) (v : A) (fields : list (string * A)) :
  List.map fst (JSON.set k v fields) =
  if List.existsb (String.eqb k) (List.map fst fields) then List.map fst fields
  else (List.map fst fields ++ [k])%list.
Proof.
  induction fields as [|[k0 v0] l IH]; cbn [JSON.set List.map fst List.existsb List.app];
    [reflexivity|].
  rewrite (String.eqb_sym k k0).
  destruct (String.eqb k0 k); cbn [List.map fst orb]; [reflexivity|].
  rewrite IH. destruct (List.existsb _ _); reflexivity.
Qed.

Lemma distinct_keys_set (k : string) (v : JSON.value) (fields : list (string * JSON.value)) :
  distinct_keys (JSON.JObject fields) -> distinct_keys v ->
  distinct_keys (JSON.JObject (JSON.set k v fields)).
Proof.
  rewrite !distinct_keys_object. intros [Hdup Hall] Hv. split.
  - rewrite set_keys. destruct (List.existsb _ _) eqn:Hex; [exact Hdup|].
    apply NoDup_app. split; [exact Hdup|]. split; [|apply NoDup_singleton].
    intros x Hx Hin. apply list_elem_of_singleton in Hin as ->.
    assert (Hex' : List.existsb (String.eqb k) (List.map fst fields) = true).
    { apply List.existsb_exists. exists k. split; [apply list_elem_of_In; exact Hx|].
      apply String.eqb_refl. }
    congruence.
  - clear Hdup. induction Hall as [|[k0 v0] l H0 Hl IH]; cbn [JSON.set].
    + constructor; [exact Hv | constructor].
    + destruct (String.eqb k0 k); constructor; auto.
Qed.

Lemma distinct_keys_stamped (now : Z) (payload : list (string * JSON.value))
    (ttlMs : option Z) :
  distinct_keys (JSON.JObject payload) -> distinct_keys (JSON.JObject (stamped now payload ttlMs)).
Proof. intros H. unfold stamped. repeat apply distinct_keys_set; try exact I. exact H. Qed.

Lemma includes_truthy (c : ascii) (s : string) : JS.includes c s = true -> JS.truthy s = true.
Proof. destruct s; [discriminate | reflexivity]. Qed.

(** Validating an issued token comes down to the checks on its body. *)
Lemma verify_issued (now now' : Z) (payload : list (string * JSON.value))
    (secret secret' : string) (ttlMs : option Z) :
  let body := JSON.stringify (JSON.JObject (stamped now payload ttlMs)) in
  verifyEmailChangeToken now' (Some (createEmailChangeToken now payload secret ttlMs)) secret' =
    try_catch
      (verify_signed_body now' (Base64url.encode body)
         (Some (HMAC.hmac_sha256_hex secret body)) secret')
      (fun _ => Ok None).
Proof.
  intros body. unfold createEmailChangeToken. fold (stamped now payload ttlMs). fold body.
  set (sig := HMAC.hmac_sha256_hex secret body).
  assert (Hinc : JS.includes "." (Base64url.encode body ++ "." ++ sig) = true)
    by apply (includes_app "."%char (Base64url.encode body) sig).
  unfold verifyEmailChangeToken.
  rewrite Hinc, (includes_truthy _ _ Hinc).
  rewrite split_token by (first [apply base64url_no_dot | apply hmac_hex_no_dot]).
  reflexivity.
Qed.

(** A property of an object that was made of a value. *)
Lemma get_of_value (k : string) (fields : list (string * JSON.value)) :
  JSON.get k (List.map (fun kv => (kv.1, JSON.of_value kv.2)) fields) =
  option_map JSON.of_value (JSON.get k fields).
Proof.
  induction fields as [|[k0 x] l IH]; [reflexivity|].
  cbn [List.map JSON.get fst snd]. destruct (String.eqb k0 k); [reflexivity | exact IH].
Qed.

Lemma property_of_object (k : string) (fields : list (string * JSON.value)) :
  JSON.property (JSON.of_value (JSON.JObject fields)) k =
  Ok (option_map JSON.of_value (JSON.get k fields)).
Proof. rewrite of_value_object. cbn [JSON.property]. rewrite get_of_value. reflexivity. Qed.

Lemma exceeds_integer (now e : Z) :
  JS.exceeds now (JS.Finite (inject_Z e)) = (now >? e)%Z.
Proof.
  unfold JS.exceeds, Qle_bool, inject_Z. cbn [Qnum Qden]. rewrite !Z.mul_1_r.
  destruct (Z.leb_spec now e), (Z.gtb_spec now e); first [reflexivity | lia].
Qed.

Lemma now_after_exp (now' e : Z) :
  now_after now' (exp_or_zero (Some (JSON.DNumber (JS.Finite (inject_Z e))))) =
  Ok (now' >? e)%Z.
Proof.
  unfold exp_or_zero, now_after. cbn [JSON.truthy JS.number_truthy].
  rewrite <- exceeds_integer.
  unfold Qeq_bool, inject_Z. cbn [Qnum Qden]. rewrite Z.mul_1_r.
  change (0 * 1) with 0.
  destruct (Z.eqb_spec e 0) as [->|_]; reflexivity.
Qed.

(** The body of an issued token passes the checks under the issuing secret
    until it expires. *)
Lemma verify_signed_body_issued (now now' : Z) (payload : list (string * JSON.value))
    (secret : string) (ttlMs : option Z) :
  distinct_keys (JSON.JObject payload) ->
  let obj := stamped now payload ttlMs in
  let body := JSON.stringify (JSON.JObject obj) in
  verify_signed_body now' (Base64url.encode body)
    (Some (HMAC.hmac_sha256_hex secret body)) secret =
  if (now' >? now + default (24 * 60 * 60 * 1000) ttlMs)%Z then Ok None
  else Ok (Some (JSON.JObject obj)).
Proof.
  intros Hd obj body. unfold verify_signed_body.
  rewrite base64url_decode_encode, String.eqb_refl. cbn [negb].
  unfold body. rewrite parse_stringify by (apply distinct_keys_stamped; exact Hd).
  cbn [bind]. rewrite property_of_object. cbn [bind].
  unfold obj at 1, stamped. rewrite get_set, String.eqb_refl.
  cbn [option_map JSON.of_value]. rewrite now_after_exp. cbn [bind].
  destruct (now' >? _)%Z; reflexivity.
Qed.

(** C6, as amended. Validating a freshly issued token with the issuing
    secret, no later than its expiry, returns the payload with the two
    stamps [iat] (the time of issue) and [exp] (that time plus the validity)
    set on it; every other field of the payload is returned as it was. *)
Theorem C6_round_trip_returns_stamped_payload (now now' : Z)
    (payload : list (string * JSON.value)) (secret : string) (ttlMs : option Z) :
  distinct_keys (JSON.JObject payload) ->
  now' <= now + default (24 * 60 * 60 * 1000) ttlMs ->
  verifyEmailChangeToken now' (Some (createEmailChangeToken now payload secret ttlMs)) secret =
    Ok (Some (JSON.JObject (stamped now payload ttlMs))) /\
  JSON.get "iat" (stamped now payload ttlMs) = Some (JSON.JNumber now) /\
  JSON.get "exp" (stamped now payload ttlMs) =
    Some (JSON.JNumber (now + default (24 * 60 * 60 * 1000) ttlMs)) /\
  forall k, k <> "iat" -> k <> "exp" ->
    JSON.get k (stamped now payload ttlMs) = JSON.get k payload.
Proof.
  intros Hd Hnow. split; [|split; [|split]].
  - rewrite verify_issued. cbv zeta.
    rewrite (verify_signed_body_issued now now' payload secret ttlMs Hd).
    destruct (Z.gtb_spec now' (now + default (24 * 60 * 60 * 1000) ttlMs)); [lia|].
    reflexivity.
  - unfold stamped. rewrite !get_set. reflexivity.
  - unfold stamped. rewrite !get_set. reflexivity.
  - intros k Hiat Hexp. unfold stamped. rewrite !get_set.
    destruct (String.eqb_spec "exp" k) as [E|_]; [congruence|].
    destruct (String.eqb_spec "iat" k) as [E|_]; [congruence|]. reflexivity.
Qed.

(** After its expiry an issued token is refused. *)
Lemma verify_issued_expired (now now' : Z) (payload : list (string * JSON.value))
    (secret : string) (ttlMs : option Z) :
  distinct_keys (JSON.JObject payload) ->
  now' > now + default (24 * 60 * 60 * 1000) ttlMs ->
  verifyEmailChangeToken now' (Some (createEmailChangeToken now payload secret ttlMs)) secret =
    Ok None.
Proof.
  intros Hd Hnow. rewrite verify_issued. cbv zeta.
  rewrite (verify_signed_body_issued now now' payload secret ttlMs Hd).
  destruct (Z.gtb_spec now' (now + default (24 * 60 * 60 * 1000) ttlMs)); [reflexivity | lia].
Qed.

Lemma example_payload_distinct : distinct_keys (JSON.JObject example_payload).
Proof.
  apply distinct_keys_object. split.
  - apply NoDup_cons. split; [|apply NoDup_singleton].
    intros H. apply list_elem_of_singleton in H. discriminate.
  - repeat constructor.
Qed.

Lemma C6_witness :
  distinct_keys (JSON.JObject example_payload) /\
  1730000000001 <= 1730000000000 + default (24 * 60 * 60 * 1000) (Some 172800000) /\
  verifyEmailChangeToken 1730000000001
    (Some (createEmailChangeToken 1730000000000 example_payload EMAIL_CHANGE_SECRET
             (Some 172800000)))
    EMAIL_CHANGE_SECRET =
    Ok (Some (JSON.JObject
                [("uid", JSON.JString "u1"); ("newEmail", JSON.JString "a@x.com");
                 ("iat", JSON.JNumber 1730000000000); ("exp", JSON.JNumber 1730172800000)])).
Proof.
  assert (H : 1730000000001 <= 1730000000000 + default (24 * 60 * 60 * 1000) (Some 172800000))
    by (vm_compute; discriminate).
  split; [exact example_payload_distinct|]. split; [exact H|].
  exact (proj1 (C6_round_trip_returns_stamped_payload 1730000000000 1730000000001
                  example_payload EMAIL_CHANGE_SECRET (Some 172800000)
                  example_payload_distinct H)).
Defined.

(** C6 as stated fails: what validation returns is not the payload, it
    carries [iat] and [exp] besides. *)
Lemma C6_counterexample :
  verifyEmailChangeToken 1730000000001
    (Some (createEmailChangeToken 1730000000000 example_payload EMAIL_CHANGE_SECRET
             (Some 172800000)))
    EMAIL_CHANGE_SECRET =
    Ok (Some (JSON.JObject
                [("uid", JSON.JString "u1"); ("newEmail", JSON.JString "a@x.com");
                 ("iat", JSON.JNumber 1730000000000); ("exp", JSON.JNumber 1730172800000)])) /\
  verifyEmailChangeToken 1730000000001
    (Some (createEmailChangeToken 1730000000000 example_payload EMAIL_CHANGE_SECRET
             (Some 172800000)))
    EMAIL_CHANGE_SECRET <> Ok (Some (JSON.JObject example_payload)).
Proof. split; [vm_compute; reflexivity | vm_compute; discriminate]. Qed.








(** A result other than null passed every check. *)
Lemma verify_accepts_only_checked (now : Z) (token : option string) (secret : string)
    (data : JSON.data) :
  verifyEmailChangeToken now token secret = Ok (Some data) ->
  exists tok bodyB64 signature rest e,
    token = Some tok /\ JS.includes "." tok = true /\
    JS.split "." tok = bodyB64 :: signature :: rest /\
    HMAC.hmac_sha256_hex secret (Base64url.decode bodyB64) = signature /\
    JSON.parse (Base64url.decode bodyB64) = Ok data /\
    JSON.property data "exp" = Ok e /\ now_after now (exp_or_zero e) = Ok false.
Proof.
  unfold verifyEmailChangeToken. destruct token as [tok|]; [|discriminate].
  destruct (JS.truthy tok); [|discriminate].
  destruct (JS.includes "." tok) eqn:Hinc; [|discriminate]. cbn [negb orb].
  destruct (JS.split "." tok) as [|bodyB64 rest] eqn:Hs; [discriminate|].
  unfold verify_signed_body.
  destruct rest as [|signature rest]; [discriminate|]. cbn [List.head].
  destruct (String.eqb_spec (HMAC.hmac_sha256_hex secret (Base64url.decode bodyB64)) signature)
    as [Hsig|_]; [|discriminate]. cbn [negb].
  destruct (JSON.parse (Base64url.decode bodyB64)) as [d|err] eqn:Hp; [|discriminate].
  cbn [bind]. destruct (JSON.property d "exp") as [e|err] eqn:He; [|discriminate].
  cbn [bind]. destruct (now_after now (exp_or_zero e)) as [[|]|err] eqn:Hn;
    cbn [bind try_catch]; [discriminate| |discriminate].
  intros H. injection H as <-.
  exists tok, bodyB64, signature, rest, e. auto 10.
Qed.

(** HMAC fills a short key with zero bytes: a secret shorter than a block
    and the same secret followed by a NUL character sign alike. *)
Lemma block_key_nul (key : list Z) :
  (List.length key < 64)%nat -> HMAC.block_key (key ++ [0])%list = HMAC.block_key key.
Proof.
  intros Hlen. unfold HMAC.block_key, HMAC.block_size. rewrite List.length_app.
  cbn [List.length].
  destruct (Nat.ltb_spec 64 (List.length key + 1)); [lia|].
  destruct (Nat.ltb_spec 64 (List.length key)); [lia|].
  rewrite List.length_app. cbn [List.length]. rewrite <- List.app_assoc. f_equal.
  replace (64 - List.length key)%nat with (S (64 - (List.length key + 1))) by lia.
  reflexivity.
Qed.

Lemma of_string_length (s : string) : List.length (Bytes.of_string s) = String.length s.
Proof.
  unfold Bytes.of_string. rewrite List.length_map.
  induction s as [|c s IH]; [reflexivity|]. cbn. rewrite IH. reflexivity.
Qed.

Lemma of_string_nul_padded (s : string) :
  Bytes.of_string (nul_padded s) = (Bytes.of_string s ++ [0])%list.
Proof.
  unfold nul_padded, Bytes.of_string. induction s as [|c s IH]; [reflexivity|].
  rewrite append_cons. cbn [list_ascii_of_string List.map List.app]. rewrite IH. reflexivity.
Qed.

Lemma hmac_nul_padded (secret body : string) :
  (String.length secret < 64)%nat ->
  HMAC.hmac_sha256_hex (nul_padded secret) body = HMAC.hmac_sha256_hex secret body.
Proof.
  intros Hlen. unfold HMAC.hmac_sha256_hex, HMAC.hmac.
  rewrite of_string_nul_padded, block_key_nul by (rewrite of_string_length; exact Hlen).
  reflexivity.
Qed.

(** Validation cannot tell a short secret from its NUL-padded form. *)
Lemma verify_nul_padded_secret (now : Z) (token : option string) (secret : string) :
  (String.length secret < 64)%nat ->
  verifyEmailChangeToken now token (nul_padded secret) =
  verifyEmailChangeToken now token secret.
Proof.
  intros Hlen. unfold verifyEmailChangeToken, verify_signed_body.
  destruct token as [tok|]; [|reflexivity].
  destruct (negb (JS.truthy tok) || negb (JS.includes "." tok)); [reflexivity|].
  destruct (JS.split "." tok) as [|bodyB64 rest]; [reflexivity|].
  rewrite hmac_nul_padded by exact Hlen. reflexivity.
Qed.




(** ** Known answers of the hash functions *)

(** FIPS 180-4: the first and the last round constant, the initial hash
    value, and the digest of ["abc"]. *)
Example sha256_known_answers :
  List.nth 0 SHA256.K 0 = 0x428a2f98 /\ List.nth 63 SHA256.K 0 = 0xc67178f2 /\
  List.nth 0 SHA256.H0 0 = 0x6a09e667 /\ List.nth 7 SHA256.H0 0 = 0x5be0cd19 /\
  Bytes.hex (SHA256.digest (Bytes.of_string "abc")) =
    "ba7816bf8f01cfea414140de5dae2223b00361a396177a9cb410ff61f20015ad".
Proof. vm_compute. repeat split; reflexivity. Qed.

(** RFC 4231, test case 2. *)
Example hmac_sha256_known_answer :
  HMAC.hmac_sha256_hex "Jefe" "what do ya want for nothing?" =
    "5bdcc146bf60754e6a042426089575c75a003f089d2739839dec58b964ec3843".
Proof. vm_compute. reflexivity. Qed.

(** The token of the example request, as Node prints it. *)
Example token_known_answer :
  createEmailChangeToken 1730000000000 example_payload EMAIL_CHANGE_SECRET (Some 172800000) =
    "eyJ1aWQiOiJ1MSIsIm5ld0VtYWlsIjoiYUB4LmNvbSIsImlhdCI6MTczMDAwMDAwMDAwMCwiZXhwIjoxNzMwMTcyODAwMDAwfQ"
    ++ "." ++ "0b102ef6158c5745fcbb3066420dc414d16b36fdaae09e3b1b5550271a375334".
Proof. vm_compute. reflexivity. Qed.

(* ===================================================================== *)
(** * Properties of the other routes and of the tools *)
(* ===================================================================== *)

(** ** Passcodes: guesses, expiry and the password reset *)

Lemma send_otp_lookup (now : Z) (r : Q) (mail : mail_env) (e : string) (st : state) :
  JS.truthy e = true ->
  otps (snd (send_otp now r mail (Some e) st)) !! JS.encodeURIComponent e =
    Some (OtpDoc.mk (generate_otp r) now (now + OTP_TTL)).
Proof. intros He. rewrite send_otp_otps by exact He. apply lookup_insert_eq. Qed.

Lemma verify_otp_wrong_guess (now t : Z) (r : Q) (e c : string) (st1 : state) :
  JS.truthy e = true ->
  otps st1 !! JS.encodeURIComponent e = Some (OtpDoc.mk (generate_otp r) now (now + OTP_TTL)) ->
  t <= now + OTP_TTL -> c <> generate_otp r ->
  snd (verify_otp t (Some e) (Some c) st1) = st1 /\
  (JS.truthy c = true -> verify_otp t (Some e) (Some c) st1 = (MISMATCH, st1)).
Proof.
  intros He Hk Ht Hc.
  assert (Hfresh : (t >? now + OTP_TTL)%Z = false) by lia.
  destruct (JS.truthy c) eqn:Htc.
  - rewrite (verify_otp_found _ _ _ _ _ He Htc Hk). cbn [OtpDoc.expiresAt OtpDoc.otp].
    rewrite Hfresh, andb_false_r.
    destruct (String.eqb_spec (generate_otp r) c) as [E|_]; [congruence|]. split; reflexivity.
  - unfold verify_otp. rewrite He, Htc. split; [reflexivity | discriminate].
Qed.

(** X1. A wrong guess does not consume a passcode: after an issuance, any
    run of verify calls for the email with codes other than the issued one,
    made before the expiry, leaves the server as it was (each such call with
    a non-empty code is answered MISMATCH), and the issued code still
    verifies afterwards. *)
Theorem X1_wrong_guesses_keep_the_passcode (st : state) (now now' : Z) (r : Q)
    (mail : mail_env) (e : string) (guesses : list (Z * string)) :
  JS.truthy e = true ->
  Forall (fun g => fst g <= now + OTP_TTL /\ snd g <> generate_otp r) guesses ->
  now' <= now + OTP_TTL ->
  let st1 := snd (send_otp now r mail (Some e) st) in
  Forall (fun g => JS.truthy (snd g) = true ->
                   verify_otp (fst g) (Some e) (Some (snd g)) st1 = (MISMATCH, st1)) guesses /\
  run (guess_requests e guesses) st1 = st1 /\
  verify_otp now' (Some e) (Some (generate_otp r)) (run (guess_requests e guesses) st1) =
    (OK, with_otps st1 (delete (JS.encodeURIComponent e) (otps st1))).
Proof.
  intros He Hg Hnow st1.
  pose proof (send_otp_lookup now r mail e st He) as Hk. fold st1 in Hk.
  assert (Hrun : run (guess_requests e guesses) st1 = st1).
  { unfold run, guess_requests. induction Hg as [|g l [Ht Hc] _ IH]; [reflexivity|].
    cbn [List.map List.fold_left handle].
    rewrite (proj1 (verify_otp_wrong_guess now (fst g) r e (snd g) st1 He Hk Ht Hc)).
    exact IH. }
  split; [|split; [exact Hrun|]].
  - clear Hrun. induction Hg as [|g l [Ht Hc] _ IH]; constructor; [|exact IH].
    exact (proj2 (verify_otp_wrong_guess now (fst g) r e (snd g) st1 He Hk Ht Hc)).
  - rewrite Hrun, (verify_otp_found _ _ _ _ _ He (generate_otp_truthy r) Hk).
    cbn [OtpDoc.expiresAt OtpDoc.otp].
    assert (Hfresh : (now' >? now + OTP_TTL)%Z = false) by lia.
    rewrite Hfresh, andb_false_r, String.eqb_refl. reflexivity.
Qed.

Lemma X1_witness :
  let st1 := snd (send_otp 0 0 MailOk (Some "a@x.com") empty_state) in
  let guesses := [(1000, "000000"); (2000, "123456"); (3000, "999999")] in
  run (guess_requests "a@x.com" guesses) st1 = st1 /\
  fst (verify_otp 4000 (Some "a@x.com") (Some (generate_otp 0))
         (run (guess_requests "a@x.com" guesses) st1)) = OK.
Proof.
  assert (He : JS.truthy "a@x.com" = true) by reflexivity.
  assert (Hg : Forall (fun g : Z * string => fst g <= 0 + OTP_TTL /\ snd g <> generate_otp 0)
                 [(1000, "000000"); (2000, "123456"); (3000, "999999")]).
  { repeat constructor; vm_compute; discriminate. }
  assert (Hn : 4000 <= 0 + OTP_TTL) by (vm_compute; discriminate).
  pose proof (X1_wrong_guesses_keep_the_passcode empty_state 0 4000 0 MailOk "a@x.com"
                [(1000, "000000"); (2000, "123456"); (3000, "999999")] He Hg Hn) as H.
  cbv zeta in H. destruct H as (_ & H2 & H3).
  split; [exact H2 | rewrite H3; reflexivity].
Defined.

(** X2. Once the five minutes are over, a verify call with any non-empty
    code, the issued one included, is answered EXPIRED and removes the
    record; the next verify call is answered NOT_FOUND. *)
Theorem X2_expired_passcode_is_removed (st : state) (now now' now'' : Z) (r : Q)
    (mail : mail_env) (e code code' : string) :
  JS.truthy e = true -> JS.truthy code = true -> JS.truthy code' = true ->
  now + OTP_TTL <> 0 -> now' > now + OTP_TTL ->
  let st1 := snd (send_otp now r mail (Some e) st) in
  let st2 := with_otps st1 (delete (JS.encodeURIComponent e) (otps st1)) in
  verify_otp now' (Some e) (Some code) st1 = (EXPIRED, st2) /\
  verify_otp now'' (Some e) (Some code') st2 = (NOT_FOUND, st2).
Proof.
  intros He Hc Hc' Hnz Hnow st1 st2.
  pose proof (send_otp_lookup now r mail e st He) as Hk. fold st1 in Hk.
  split.
  - rewrite (verify_otp_found _ _ _ _ _ He Hc Hk). cbn [OtpDoc.expiresAt].
    destruct (Z.eqb_spec (now + OTP_TTL) 0) as [E|_]; [contradiction|].
    destruct (Z.gtb_spec now' (now + OTP_TTL)); [reflexivity | lia].
  - apply verify_otp_absent; [exact He | exact Hc' |]. apply lookup_delete_eq.
Qed.

Lemma X2_witness :
  let st1 := snd (send_otp 1000 0 MailOk (Some "a@x.com") empty_state) in
  generate_otp 0 = "100000" /\
  fst (verify_otp 301001 (Some "a@x.com") (Some "100000") st1) = EXPIRED /\
  fst (verify_otp 301002 (Some "a@x.com") (Some "100000")
         (snd (verify_otp 301001 (Some "a@x.com") (Some "100000") st1))) = NOT_FOUND.
Proof.
  assert (He : JS.truthy "a@x.com" = true) by reflexivity.
  assert (Hc : JS.truthy "100000" = true) by reflexivity.
  assert (Hnz : 1000 + OTP_TTL <> 0) by (vm_compute; discriminate).
  assert (Hn : 301001 > 1000 + OTP_TTL) by (vm_compute; reflexivity).
  pose proof (X2_expired_passcode_is_removed empty_state 1000 301001 301002 0 MailOk
                "a@x.com" "100000" "100000" He Hc Hc Hnz Hn) as H.
  cbv zeta in H. destruct H as [H1 H2].
  split; [reflexivity|]. rewrite H1. split; [reflexivity|].
  cbn [snd]. rewrite H2. reflexivity.
Defined.

(** X3. For the email of an account, [/send-otp] sets the account's
    password to the passcode and stores the passcode whatever becomes of the
    mail: the state it leaves is the same when the transport is missing or
    fails, although it then answers 500. Its answer does not depend on the
    state of the server, so it does not tell whether the email has an
    account. *)
Theorem X3_send_otp_resets_the_password (st : state) (now : Z) (r : Q) (mail : mail_env)
    (e : string) (u : Auth.user) :
  Auth.getUserByEmail (auth st) e = Ok u ->
  let out := send_otp now r mail (Some e) st in
  Auth.getUserByEmail (auth (snd out)) e =
    Ok (Auth.apply_props (Auth.password_only (generate_otp r)) u) /\
  otps (snd out) !! JS.encodeURIComponent e =
    Some (OtpDoc.mk (generate_otp r) now (now + OTP_TTL)) /\
  snd out = snd (send_otp now r MailOk (Some e) st) /\
  status (fst (send_otp now r MailNotConfigured (Some e) st)) = 500 /\
  forall st' : state, fst (send_otp now r mail (Some e) st') = fst out.
Proof.
  intros Hu out.
  assert (He : JS.truthy e = true) by exact (getUserByEmail_truthy _ _ _ Hu).
  destruct (updateUser_of_found _ _ _ (Auth.password_only (generate_otp r))
              (generate_otp_valid_password r) Hu)
    as (a & Ha & Hg & _).
  assert (Hsync : sync_password (auth st) e (generate_otp r) = a).
  { unfold sync_password. rewrite Hu. cbn [bind]. rewrite Ha. reflexivity. }
  split; [|split; [|split; [|split]]].
  - unfold out, send_otp. rewrite He. cbn [negb]. rewrite Hsync. destruct mail; exact Hg.
  - apply send_otp_lookup. exact He.
  - unfold out, send_otp. rewrite He. destruct mail; reflexivity.
  - unfold send_otp. rewrite He. reflexivity.
  - intros st'. unfold out, send_otp. rewrite He. destruct mail; reflexivity.
Qed.

Lemma X3_witness :
  let out := send_otp 1000 0 MailNotConfigured (Some "a@x.com") one_account_state in
  status (fst out) = 500 /\
  Auth.getUserByEmail (auth (snd out)) "a@x.com" =
    Ok (Auth.mkUser "uid0" "a@x.com" "100000" true false).
Proof.
  assert (Hu : Auth.getUserByEmail (auth one_account_state) "a@x.com" =
               Ok (Auth.mkUser "uid0" "a@x.com" "old-password" true false)) by reflexivity.
  pose proof (X3_send_otp_resets_the_password one_account_state 1000 0 MailNotConfigured
                "a@x.com" _ Hu) as H.
  cbv zeta in H. destruct H as (H1 & _).
  split; [reflexivity | exact H1].
Defined.

(** ** The middleware of the administrator routes *)

Lemma prefix_inv (w h : string) :
  String.prefix w h = true -> exists rest, h = w ++ rest.
Proof.
  revert h. induction w as [|c w IH]; intros h H.
  - exists h. reflexivity.
  - destruct h as [|d h]; [discriminate|]. cbn [String.prefix] in H.
    destruct (ascii_dec c d) as [->|_]; [|discriminate].
    destruct (IH h H) as [rest ->]. exists rest. reflexivity.
Qed.

(** The bearer token of a header is what follows the scheme ["Bearer "]. *)
Lemma bearer_token_Some (authorization : option string) (t : string) :
  bearer_token authorization = Some t <-> authorization = Some ("Bearer " ++ t).
Proof.
  unfold bearer_token. split.
  - destruct authorization as [h|]; [|discriminate].
    destruct (String.prefix "Bearer " h) eqn:Hp; [|discriminate].
    destruct (prefix_inv _ _ Hp) as [rest ->]. intros H.
    pose proof (substring_append "Bearer " rest) as E.
    change (String.length "Bearer ") with 7%nat in E. rewrite E in H.
    injection H as <-. reflexivity.
  - intros ->. rewrite prefix_append.
    pose proof (substring_append "Bearer " t) as E.
    change (String.length "Bearer ") with 7%nat in E. rewrite E. reflexivity.
Qed.

Lemma bearer_same (t t' : string) :
  Some ("Bearer " ++ t) = Some ("Bearer " ++ t') -> t' = t.
Proof.
  intros E.
  pose proof (proj2 (bearer_token_Some (Some ("Bearer " ++ t)) t) eq_refl) as H1.
  pose proof (proj2 (bearer_token_Some (Some ("Bearer " ++ t)) t') E) as H2.
  congruence.
Qed.

(** X4. A route behind [requireAuth] and [requireRole('admin')] runs its
    handler exactly when the header carries a bearer token that the provider
    verifies and the profile of the token's uid has the role ["admin"]; a
    verified token with any other role, or without profile, is answered 403,
    every other request 401, and in both cases nothing is changed. *)
Theorem X4_admin_routes_are_gated (authorization : option string)
    (handler : state -> response * state) (st : state) :
  (exists tok d,
     authorization = Some ("Bearer " ++ tok) /\ JS.truthy tok = true /\
     Auth.tokens (auth st) !! tok = Some d /\
     getUserRole st (Auth.d_uid d) = Some "admin" /\
     admin_route authorization handler st = handler st) \/
  (exists tok d,
     authorization = Some ("Bearer " ++ tok) /\ JS.truthy tok = true /\
     Auth.tokens (auth st) !! tok = Some d /\
     getUserRole st (Auth.d_uid d) <> Some "admin" /\
     admin_route authorization handler st =
       (mkResponse 403 (SuccessMessage false "Forbidden"), st)) \/
  ((forall tok, authorization = Some ("Bearer " ++ tok) -> JS.truthy tok = true ->
                Auth.tokens (auth st) !! tok = None) /\
   status (fst (admin_route authorization handler st)) = 401 /\
   snd (admin_route authorization handler st) = st).
Proof.
  unfold admin_route, requireAuth.
  destruct (bearer_token authorization) as [token|] eqn:Hb.
  - apply bearer_token_Some in Hb as ->.
    destruct (JS.truthy token) eqn:Ht; cbn [negb].
    + unfold Auth.verifyIdToken.
      destruct (Auth.tokens (auth st) !! token) as [d|] eqn:Hd.
      * unfold requireRole. cbn [auth_role].
        destruct (getUserRole st (Auth.d_uid d)) as [role|] eqn:Hr.
        -- destruct (String.eqb_spec role "admin") as [->|Hne].
           ++ left. exists token, d. auto.
           ++ right. left. exists token, d.
              split; [reflexivity|]. split; [exact Ht|]. split; [exact Hd|].
              split; [congruence | reflexivity].
        -- right. left. exists token, d.
           split; [reflexivity|]. split; [exact Ht|]. split; [exact Hd|].
           split; [congruence | reflexivity].
      * right. right. split; [|split; reflexivity].
        intros tok E _. rewrite (bearer_same _ _ E). exact Hd.
    + right. right. split; [|split; reflexivity].
      intros tok E Htok. rewrite (bearer_same _ _ E) in Htok. congruence.
  - right. right. split; [|split; reflexivity].
    intros tok E _. apply bearer_token_Some in E. congruence.
Qed.

(** ** Tokens in links *)

Lemma encodeURIComponent_unreserved (s : string) :
  all_unreserved s = true -> JS.encodeURIComponent s = s.
Proof.
  induction s as [|c s IH]; cbn [all_unreserved JS.encodeURIComponent]; [reflexivity|].
  intros H. apply andb_prop in H as [Hc Hs]. rewrite Hc, (IH Hs). reflexivity.
Qed.

Lemma all_unreserved_app (s t : string) :
  all_unreserved (s ++ t) = all_unreserved s && all_unreserved t.
Proof.
  induction s as [|c s IH]; [reflexivity|].
  rewrite append_cons. cbn [all_unreserved]. rewrite IH, andb_assoc. reflexivity.
Qed.

Lemma char_of_unreserved (v : Z) : 0 <= v < 64 -> JS.uri_unreserved (Base64url.char_of v) = true.
Proof.
  intros Hv.
  apply (forall_below (fun v => JS.uri_unreserved (Base64url.char_of v)) 64);
    [vm_compute; reflexivity | lia].
Qed.

Lemma hex_lower_unreserved (n : Z) : 0 <= n < 16 -> JS.uri_unreserved (Bytes.hex_lower n) = true.
Proof.
  intros Hn.
  apply (forall_below (fun n => JS.uri_unreserved (Bytes.hex_lower n)) 16);
    [vm_compute; reflexivity | lia].
Qed.

Lemma base64url_unreserved (s : string) : all_unreserved (Base64url.encode s) = true.
Proof.
  unfold Base64url.encode.
  pose proof (sextets_of_bytes_range _ (of_string_range s)) as H.
  induction H as [|v l Hv _ IH]; cbn [List.map string_of_list_ascii all_unreserved];
    [reflexivity|].
  rewrite (char_of_unreserved v Hv). exact IH.
Qed.

Lemma hex_unreserved (l : list Z) : Forall byte_range l -> all_unreserved (Bytes.hex l) = true.
Proof.
  unfold byte_range.
  induction 1 as [|b l Hb _ IH]; cbn [Bytes.hex all_unreserved]; [reflexivity|].
  rewrite !hex_lower_unreserved by (Z.div_mod_to_equations; lia). exact IH.
Qed.

Lemma token_unreserved (now : Z) (payload : list (string * JSON.value))
    (secret : string) (ttlMs : option Z) :
  all_unreserved (createEmailChangeToken now payload secret ttlMs) = true.
Proof.
  unfold createEmailChangeToken.
  rewrite !all_unreserved_app, base64url_unreserved.
  unfold HMAC.hmac_sha256_hex. rewrite hex_unreserved by (unfold HMAC.hmac; apply digest_range).
  reflexivity.
Qed.

Lemma token_url_safe (now : Z) (payload : list (string * JSON.value))
    (secret : string) (ttlMs : option Z) :
  JS.encodeURIComponent (createEmailChangeToken now payload secret ttlMs) =
    createEmailChangeToken now payload secret ttlMs.
Proof. apply encodeURIComponent_unreserved, token_unreserved. Qed.

(** X5. A token is made of the characters that [encodeURIComponent] leaves
    alone, whatever the payload and the secret: the link of the verification
    mail carries the token as it is, and a token never holds a character that
    a query string would have to escape. *)
Theorem X5_token_is_url_safe (now : Z) (payload : list (string * JSON.value))
    (secret : string) (ttlMs : option Z) :
  all_unreserved (createEmailChangeToken now payload secret ttlMs) = true /\
  JS.encodeURIComponent (createEmailChangeToken now payload secret ttlMs) =
    createEmailChangeToken now payload secret ttlMs.
Proof. split; [apply token_unreserved | apply token_url_safe]. Qed.

(** ** What [verifyEmailChangeToken] reads of a token *)

Lemma split_on_append (c : ascii) (a b cur : string) :
  JS.split_on c (a ++ String c b) cur =
    (JS.split_on c a cur ++ JS.split_on c b EmptyString)%list.
Proof.
  revert cur. induction a as [|d a IH]; intros cur.
  - rewrite append_nil_l. cbn [JS.split_on]. rewrite Ascii.eqb_refl. reflexivity.
  - rewrite append_cons. cbn [JS.split_on].
    destruct (Ascii.eqb c d); [rewrite IH; reflexivity | apply IH].
Qed.

Lemma split_on_two (c : ascii) (s cur : string) :
  JS.includes c s = true -> exists p q rest, JS.split_on c s cur = p :: q :: rest.
Proof.
  revert cur. induction s as [|d s IH]; intros cur H; cbn [JS.includes] in H; [discriminate|].
  cbn [JS.split_on]. destruct (Ascii.eqb c d).
  - destruct s as [|d' s']; cbn [JS.split_on]; [eauto|].
    destruct (Ascii.eqb c d'); eauto.
    destruct (JS.split_on c s' (EmptyString ++ String d' EmptyString)) as [|x l] eqn:E; eauto.
    exfalso. clear -E. revert E. generalize (EmptyString ++ String d' EmptyString).
    induction s' as [|e s' IHs]; intros w; cbn [JS.split_on]; [discriminate|].
    destruct (Ascii.eqb c e); [discriminate | apply IHs].
  - apply IH. exact H.
Qed.

Lemma includes_append (c : ascii) (a b : string) :
  JS.includes c a = true -> JS.includes c (a ++ b) = true.
Proof.
  induction a as [|d a IH]; [discriminate|].
  rewrite append_cons. cbn [JS.includes]. destruct (Ascii.eqb c d); [reflexivity | exact IH].
Qed.

(** X6. Validation reads the first two pieces of a token only: what
    follows a second dot is never looked at, so a token with [.] and any text
    appended validates exactly as the token itself. *)
Theorem X6_text_after_the_signature_is_ignored (now : Z) (tok extra secret : string) :
  JS.includes "." tok = true ->
  verifyEmailChangeToken now (Some (tok ++ "." ++ extra)) secret =
  verifyEmailChangeToken now (Some tok) secret.
Proof.
  intros Hinc. unfold verifyEmailChangeToken.
  rewrite Hinc, (includes_truthy _ _ Hinc).
  rewrite (includes_append "."%char tok ("." ++ extra) Hinc).
  rewrite (includes_truthy _ _ (includes_append "."%char tok ("." ++ extra) Hinc)).
  cbn [negb orb]. unfold JS.split.
  change (tok ++ "." ++ extra) with (tok ++ String "."%char extra).
  rewrite split_on_append.
  destruct (split_on_two "."%char tok EmptyString Hinc) as (p & q & rest & ->).
  reflexivity.
Qed.

Lemma X6_witness :
  let tok := createEmailChangeToken 1730000000000 example_payload EMAIL_CHANGE_SECRET
               (Some 172800000) in
  JS.includes "." tok = true /\
  verifyEmailChangeToken 1730000000001 (Some (tok ++ "." ++ "anything")) EMAIL_CHANGE_SECRET =
    Ok (Some (JSON.JObject
                [("uid", JSON.JString "u1"); ("newEmail", JSON.JString "a@x.com");
                 ("iat", JSON.JNumber 1730000000000); ("exp", JSON.JNumber 1730172800000)])).
Proof.
  assert (H : JS.includes "."
                (createEmailChangeToken 1730000000000 example_payload EMAIL_CHANGE_SECRET
                   (Some 172800000)) = true) by (vm_compute; reflexivity).
  split; [exact H|].
  rewrite (X6_text_after_the_signature_is_ignored 1730000000001 _ "anything"
             EMAIL_CHANGE_SECRET H).
  vm_compute. reflexivity.
Defined.

(** ** Email change *)

Lemma change_payload_distinct (uid newEmail : string) :
  distinct_keys (JSON.JObject (change_payload uid newEmail)).
Proof.
  apply distinct_keys_object. split.
  - apply NoDup_cons. split; [|apply NoDup_singleton].
    intros H. apply list_elem_of_singleton in H. discriminate.
  - repeat constructor.
Qed.

(** The token of an email change request validates, until it expires, to
    the payload with its two stamps. *)
Lemma verify_change_token (now now' : Z) (secret uid newEmail : string) :
  verifyEmailChangeToken now'
    (Some (createEmailChangeToken now (change_payload uid newEmail) secret
             (Some EMAIL_CHANGE_TTL))) secret =
  if (now' >? now + EMAIL_CHANGE_TTL)%Z then Ok None
  else Ok (Some (JSON.JObject
                   (stamped now (change_payload uid newEmail) (Some EMAIL_CHANGE_TTL)))).
Proof.
  rewrite verify_issued. cbv zeta.
  rewrite (verify_signed_body_issued now now' _ secret (Some EMAIL_CHANGE_TTL)
             (change_payload_distinct uid newEmail)).
  change (default (24 * 60 * 60 * 1000) (Some EMAIL_CHANGE_TTL)) with EMAIL_CHANGE_TTL.
  destruct (now' >? now + EMAIL_CHANGE_TTL)%Z; reflexivity.
Qed.

Lemma change_payload_fields (now : Z) (uid newEmail : string) :
  let data :=
    JSON.of_value
      (JSON.JObject (stamped now (change_payload uid newEmail) (Some EMAIL_CHANGE_TTL))) in
  JSON.truthy data = true /\
  JSON.property data "uid" = Ok (Some (JSON.DString uid)) /\
  JSON.property data "newEmail" = Ok (Some (JSON.DString newEmail)).
Proof.
  cbv zeta. split; [reflexivity|].
  rewrite !property_of_object. unfold stamped. rewrite !get_set. split; reflexivity.
Qed.

(** An address that an account is found under is well formed. *)
Lemma email_taken_valid (a : Auth.state) (uid e : string) :
  email_taken a uid e = true -> Auth.valid_email e = true.
Proof.
  unfold email_taken. intros H. apply List.existsb_exists in H as (u & _ & H).
  apply andb_prop in H as [H _]. unfold Auth.has_email in H.
  apply andb_prop in H as [H _]. exact H.
Qed.

(** Changing the email of an account to a free address succeeds and updates
    that account. *)
Lemma updateUser_email_free (a : Auth.state) (uid e : string) (u : Auth.user) :
  Auth.valid_email e = true ->
  Auth.getUser a uid = Ok u -> email_taken a uid e = false ->
  updateUser_email a uid e =
    Ok (Auth.with_accounts a
          (List.map (fun v => if Auth.has_uid uid v then set_email e v else v)
             (Auth.accounts a))) /\
  Auth.getUser
    (Auth.with_accounts a
       (List.map (fun v => if Auth.has_uid uid v then set_email e v else v) (Auth.accounts a)))
    uid = Ok (set_email e u).
Proof.
  unfold Auth.getUser. intros He Hu Hfree.
  destruct (List.find (Auth.has_uid uid) (Auth.accounts a)) as [v|] eqn:Hf; [|discriminate].
  injection Hu as ->.
  unfold updateUser_email. rewrite (find_existsb _ _ _ Hf), Hfree, He. cbn [negb].
  split; [reflexivity|].
  cbn [Auth.with_accounts Auth.accounts]. rewrite find_map_preserved.
  - rewrite Hf. cbn [option_map].
    rewrite (proj2 (List.find_some _ _ Hf)). reflexivity.
  - intros x. destruct (Auth.has_uid uid x) eqn:Hx; [exact Hx | exact Hx].
Qed.

(** X7. The round trip of an email change. A request with a verified bearer
    token and a new address is answered 200 and mails to the new address a
    link that carries the token of the bearer's uid and that address. When
    the link is opened within 48 hours, the account still exists, the
    address is well formed, of ASCII characters, and no other account has
    it in whatever case,
    the answer is 200 and the server is left as follows: the account of the
    uid has the new address, in lower case, and is verified, the other
    accounts are as they were; the profile of the uid has the address as it
    was given, [isEmailVerified] and [updatedAt] merged into it; nothing
    else is changed. *)
Theorem X7_email_change_round_trip (now now' : Z) (secret protocol host tok newEmail : string)
    (d : Auth.decoded) (u : Auth.user) (st st2 : state) :
  JS.truthy tok = true -> Auth.tokens (auth st) !! tok = Some d ->
  Auth.valid_email newEmail = true -> JS.ascii_only newEmail = true ->
  JS.truthy (Auth.d_uid d) = true ->
  Auth.getUser (auth st2) (Auth.d_uid d) = Ok u ->
  email_taken (auth st2) (Auth.d_uid d) newEmail = false ->
  now' <= now + EMAIL_CHANGE_TTL ->
  let token := createEmailChangeToken now (change_payload (Auth.d_uid d) newEmail) secret
                 (Some EMAIL_CHANGE_TTL) in
  let out := verify_email_change now' secret (Some token) st2 in
  request_email_change now secret MailOk protocol host (Some ("Bearer " ++ tok))
    (Some newEmail) st =
    (mkResponse 200 (SuccessMessage true "Verification email sent"),
     Some (mkChangeMail newEmail
             (protocol ++ "://" ++ host ++ "/employee/verify-email-change?token=" ++ token))) /\
  fst out = mkHtml 200 (EmailChangeVerified newEmail) /\
  Auth.accounts (auth (snd out)) =
    List.map (fun v => if Auth.has_uid (Auth.d_uid d) v
                       then Auth.mkUser (Auth.uid v) (JS.toLowerCase newEmail)
                              (Auth.password v) true (Auth.disabled v)
                       else v)
      (Auth.accounts (auth st2)) /\
  Auth.getUser (auth (snd out)) (Auth.d_uid d) =
    Ok (Auth.mkUser (Auth.uid u) (JS.toLowerCase newEmail) (Auth.password u) true
          (Auth.disabled u)) /\
  Auth.tokens (auth (snd out)) = Auth.tokens (auth st2) /\
  users (snd out) !! Auth.d_uid d =
    (let profile := default UserDoc.empty (users st2 !! Auth.d_uid d) in
     Some (UserDoc.mk (Some newEmail) (UserDoc.role profile) (Some true)
             (UserDoc.isActive profile) (UserDoc.createdAt profile) (Some now'))) /\
  (forall k, k <> Auth.d_uid d -> users (snd out) !! k = users st2 !! k) /\
  otps (snd out) = otps st2 /\ vaccineStock (snd out) = vaccineStock st2.
Proof.
  intros Htok Hd Hv _ Huid Hu Hfree Hnow token out.
  assert (He : JS.truthy newEmail = true) by exact (valid_email_truthy _ Hv).
  split.
  { unfold request_email_change.
    rewrite (proj2 (bearer_token_Some (Some ("Bearer " ++ tok)) tok) eq_refl), Htok.
    cbn [negb]. unfold Auth.verifyIdToken. rewrite Hd. cbn [JS.truthy_opt]. rewrite He.
    cbn [negb default]. rewrite token_url_safe. reflexivity. }
  destruct (updateUser_email_free _ _ newEmail _ Hv Hu Hfree) as (Ha & Hget).
  assert (E : out =
    (mkHtml 200 (EmailChangeVerified newEmail),
     with_users
       (with_auth st2
          (Auth.with_accounts (auth st2)
             (List.map (fun v => if Auth.has_uid (Auth.d_uid d) v then set_email newEmail v else v)
                (Auth.accounts (auth st2)))))
       (set_merge (Auth.d_uid d)
          (UserDoc.mk (Some newEmail) None (Some true) None None (Some now')) (users st2)))).
  { unfold out, verify_email_change, token. rewrite verify_change_token.
    destruct (Z.gtb_spec now' (now + EMAIL_CHANGE_TTL)); [lia|].
    destruct (change_payload_fields now (Auth.d_uid d) newEmail) as (Ht & H1 & H2).
    rewrite Ht, H1, H2. cbn [negb]. unfold change_email_in_auth. rewrite Huid, He.
    cbn [negb]. rewrite Ha. reflexivity. }
  rewrite E. cbn [fst snd auth users otps vaccineStock with_users with_auth].
  split; [reflexivity|]. split; [reflexivity|]. split; [exact Hget|].
  split; [reflexivity|].
  split; [unfold set_merge; rewrite lookup_insert_eq; reflexivity|].
  split; [intros k Hk; unfold set_merge; apply lookup_insert_ne; congruence|].
  split; reflexivity.
Qed.

Lemma X7_witness :
  let out := verify_email_change 1730000000001 EMAIL_CHANGE_SECRET
      (Some (createEmailChangeToken 1730000000000 (change_payload "admin1" "New@x.com")
               EMAIL_CHANGE_SECRET (Some EMAIL_CHANGE_TTL)))
      archive_example_state in
  fst out = mkHtml 200 (EmailChangeVerified "New@x.com") /\
  Auth.getUser (auth (snd out)) "admin1" =
    Ok (Auth.mkUser "admin1" "new@x.com" "secret" true false) /\
  Auth.getUser (auth (snd out)) "u1" = Auth.getUser (auth archive_example_state) "u1" /\
  UserDoc.email <$> users (snd out) !! "admin1" = Some (Some "New@x.com").
Proof.
  assert (Hnow : 1730000000001 <= 1730000000000 + EMAIL_CHANGE_TTL) by (vm_compute; discriminate).
  pose proof (X7_email_change_round_trip 1730000000000 1730000000001 EMAIL_CHANGE_SECRET
                "https" "openvax.example" "tok-admin" "New@x.com"
                (Auth.mkDecoded "admin1" (Some "root@x.com"))
                (Auth.mkUser "admin1" "root@x.com" "secret" true false)
                archive_example_state archive_example_state
                eq_refl eq_refl eq_refl eq_refl eq_refl eq_refl eq_refl Hnow) as H.
  cbv zeta in H. cbn [Auth.d_uid] in H. destruct H as (_ & H1 & H2 & H3 & _ & H5 & _).
  cbv zeta. split; [exact H1|]. split; [exact H3|].
  split; [unfold Auth.getUser; rewrite H2; reflexivity|].
  rewrite H5. reflexivity.
Defined.

(** X8. A link opened more than 48 hours after the request is answered
    with the page of the invalid link, status 400, and changes nothing,
    whatever the state of the server. *)
Theorem X8_expired_link_changes_nothing (now now' : Z) (secret uid newEmail : string)
    (st : state) :
  now' > now + EMAIL_CHANGE_TTL ->
  verify_email_change now' secret
    (Some (createEmailChangeToken now (change_payload uid newEmail) secret
             (Some EMAIL_CHANGE_TTL))) st =
    (mkHtml 400 InvalidLink, st).
Proof.
  intros Hnow. unfold verify_email_change. rewrite verify_change_token.
  destruct (Z.gtb_spec now' (now + EMAIL_CHANGE_TTL)); [reflexivity | lia].
Qed.

Lemma X8_witness :
  verify_email_change 1730172800001 EMAIL_CHANGE_SECRET
    (Some (createEmailChangeToken 1730000000000 (change_payload "admin1" "new@x.com")
             EMAIL_CHANGE_SECRET (Some EMAIL_CHANGE_TTL)))
    archive_example_state =
    (mkHtml 400 InvalidLink, archive_example_state).
Proof.
  assert (Hnow : 1730172800001 > 1730000000000 + EMAIL_CHANGE_TTL) by (vm_compute; reflexivity).
  exact (X8_expired_link_changes_nothing 1730000000000 1730172800001 EMAIL_CHANGE_SECRET
           "admin1" "new@x.com" archive_example_state Hnow).
Defined.

(** X9. When another account has taken the address by the time the link is
    opened, the answer is the page of the email in use, status 409, and
    neither the identity provider nor the profile is changed. *)
Theorem X9_taken_address_changes_nothing (now now' : Z) (secret uid newEmail : string)
    (u : Auth.user) (st : state) :
  JS.truthy uid = true -> JS.truthy newEmail = true ->
  Auth.getUser (auth st) uid = Ok u ->
  email_taken (auth st) uid newEmail = true ->
  now' <= now + EMAIL_CHANGE_TTL ->
  verify_email_change now' secret
    (Some (createEmailChangeToken now (change_payload uid newEmail) secret
             (Some EMAIL_CHANGE_TTL))) st =
    (mkHtml 409 (EmailAlreadyInUse (Some (JSON.JString newEmail))), st).
Proof.
  intros Huid He Hu Htaken Hnow. unfold verify_email_change. rewrite verify_change_token.
  destruct (Z.gtb_spec now' (now + EMAIL_CHANGE_TTL)); [lia|].
  destruct (change_payload_fields now uid newEmail) as (Ht & H1 & H2).
  rewrite Ht, H1, H2. cbn [negb]. unfold change_email_in_auth. rewrite Huid, He.
  cbn [negb]. unfold updateUser_email.
  rewrite (email_taken_valid _ _ _ Htaken), Htaken.
  unfold Auth.getUser in Hu.
  destruct (List.find (Auth.has_uid uid) (Auth.accounts (auth st))) as [v|] eqn:Hf;
    [|discriminate].
  rewrite (find_existsb _ _ _ Hf). reflexivity.
Qed.

Lemma X9_witness :
  verify_email_change 1730000000001 EMAIL_CHANGE_SECRET
    (Some (createEmailChangeToken 1730000000000 (change_payload "admin1" "a@x.com")
             EMAIL_CHANGE_SECRET (Some EMAIL_CHANGE_TTL)))
    archive_example_state =
    (mkHtml 409 (EmailAlreadyInUse (Some (JSON.JString "a@x.com"))), archive_example_state).
Proof.
  assert (Hnow : 1730000000001 <= 1730000000000 + EMAIL_CHANGE_TTL) by (vm_compute; discriminate).
  exact (X9_taken_address_changes_nothing 1730000000000 1730000000001 EMAIL_CHANGE_SECRET
           "admin1" "a@x.com" (Auth.mkUser "admin1" "root@x.com" "secret" true false)
           archive_example_state eq_refl eq_refl eq_refl eq_refl Hnow).
Defined.

(** X10. [/employee/verify-email-change] changes something only for a token
    whose second piece is the HMAC, under the server's secret, of the text
    its first piece decodes to, and whose body parses and has not expired:
    without a token, and for every other token whose first piece decodes to
    UTF-8 text, the server is left as it was. *)
Theorem X10_only_signed_links_change_anything (now : Z) (secret : string) (st : state) :
  snd (verify_email_change now secret None st) = st /\
  forall tok bodyB64 rest,
    JS.split "." tok = bodyB64 :: rest ->
    JS.well_formed (Base64url.decode bodyB64) = true ->
    snd (verify_email_change now secret (Some tok) st) = st \/
    exists signature rest' data e,
      rest = signature :: rest' /\
      HMAC.hmac_sha256_hex secret (Base64url.decode bodyB64) = signature /\
      JSON.parse (Base64url.decode bodyB64) = Ok data /\
      JSON.property data "exp" = Ok e /\ now_after now (exp_or_zero e) = Ok false.
Proof.
  split; [reflexivity|]. intros tok bodyB64 rest Hs _.
  unfold verify_email_change.
  destruct (verifyEmailChangeToken now (Some tok) secret) as [[data|]|err] eqn:Hv;
    [|left; reflexivity ..].
  right. apply verify_accepts_only_checked in Hv
    as (tok' & bodyB64' & signature & rest' & e & H1 & _ & H3 & H4 & H5 & H6 & H7).
  injection H1 as <-. rewrite Hs in H3. injection H3 as -> ->.
  exists signature, rest', data, e. auto 10.
Qed.

(** A link whose body writes its expiry with an exponent is read like any
    other: before that time it changes the account, after it nothing. *)
Example exponent_expiry_is_read :
  let body :=
    "{" ++ JSON.quote "uid" ++ ":" ++ JSON.quote "admin1" ++ ","
        ++ JSON.quote "newEmail" ++ ":" ++ JSON.quote "new@x.com" ++ ","
        ++ JSON.quote "exp" ++ ":1e15}" in
  let tok := Base64url.encode body ++ "." ++ HMAC.hmac_sha256_hex EMAIL_CHANGE_SECRET body in
  JS.well_formed body = true /\
  verifyEmailChangeToken 1730000000000 (Some tok) EMAIL_CHANGE_SECRET =
    Ok (Some (JSON.DObject
                [("uid", JSON.DString "admin1"); ("newEmail", JSON.DString "new@x.com");
                 ("exp", JSON.DNumber (JS.Finite 1000000000000000))])) /\
  fst (verify_email_change 1730000000000 EMAIL_CHANGE_SECRET (Some tok) archive_example_state) =
    mkHtml 200 (EmailChangeVerified "new@x.com") /\
  Auth.getUser
    (auth (snd (verify_email_change 1730000000000 EMAIL_CHANGE_SECRET (Some tok)
                  archive_example_state))) "admin1" =
    Ok (Auth.mkUser "admin1" "new@x.com" "secret" true false) /\
  verify_email_change 1000000000000001 EMAIL_CHANGE_SECRET (Some tok) archive_example_state =
    (mkHtml 400 InvalidLink, archive_example_state).
Proof. vm_compute. repeat split; reflexivity. Qed.

(** X11. [/employee/request-email-change] sends a mail only when the mail
    transport works, the header carries a bearer token that the provider
    verifies and a new address is given: the mail then goes to that address,
    its link carries a token for the uid of the bearer and no other, and the
    answer is 200. *)
Theorem X11_verification_mail_needs_a_verified_bearer (now : Z) (secret : string)
    (mail : mail_env) (protocol host : string) (authorization newEmail : option string)
    (st : state) (m : change_mail) :
  snd (request_email_change now secret mail protocol host authorization newEmail st) = Some m ->
  exists tok d e,
    authorization = Some ("Bearer " ++ tok) /\ Auth.tokens (auth st) !! tok = Some d /\
    newEmail = Some e /\ JS.truthy e = true /\ mail = MailOk /\
    mail_to m = e /\
    mail_verifyUrl m =
      protocol ++ "://" ++ host ++ "/employee/verify-email-change?token="
      ++ createEmailChangeToken now (change_payload (Auth.d_uid d) e) secret
           (Some EMAIL_CHANGE_TTL) /\
    fst (request_email_change now secret mail protocol host authorization newEmail st) =
      mkResponse 200 (SuccessMessage true "Verification email sent").
Proof.
  unfold request_email_change.
  destruct (bearer_token authorization) as [tok|] eqn:Hb; [|discriminate].
  apply bearer_token_Some in Hb.
  destruct (JS.truthy tok); [|discriminate]. cbn [negb].
  unfold Auth.verifyIdToken.
  destruct (Auth.tokens (auth st) !! tok) as [d|] eqn:Hd; [|discriminate].
  destruct newEmail as [e|]; [|discriminate]. cbn [JS.truthy_opt].
  destruct (JS.truthy e) eqn:He; [|discriminate]. cbn [negb default].
  destruct mail; try discriminate. rewrite token_url_safe.
  match goal with
  | |- snd (_, Some (mkChangeMail _ ?u)) = _ -> _ => set (url := u)
  end.
  cbn [snd fst]. intros H. injection H as <-.
  exists tok, d, e. cbn [mail_to mail_verifyUrl]. subst url. auto 10.
Qed.

Lemma X11_witness :
  snd (request_email_change 1730000000000 EMAIL_CHANGE_SECRET MailOk "https"
         "openvax.example" (Some "Bearer tok-admin") (Some "new@x.com")
         archive_example_state) <> None /\
  exists tok d,
    Some "Bearer tok-admin" = Some ("Bearer " ++ tok) /\
    Auth.tokens (auth archive_example_state) !! tok = Some d.
Proof.
  split; [vm_compute; discriminate|].
  destruct (X11_verification_mail_needs_a_verified_bearer 1730000000000 EMAIL_CHANGE_SECRET
              MailOk "https" "openvax.example" (Some "Bearer tok-admin") (Some "new@x.com")
              archive_example_state _ eq_refl) as (tok & d & e & H1 & H2 & _).
  exists tok, d. split; [exact H1 | exact H2].
Defined.

(** ** Deleting and archiving accounts *)

Lemma find_filter_none {A : Type} (p q : A -> bool) (l : list A) :
  List.existsb p l = false -> List.find p (List.filter q l) = None.
Proof.
  induction l as [|x l IH]; cbn [List.existsb List.filter]; [reflexivity|].
  intros H. apply orb_false_iff in H as [Hx Hl].
  destruct (q x); cbn [List.find]; [rewrite Hx|]; apply IH; exact Hl.
Qed.

Lemma find_filter_negb {A : Type} (p : A -> bool) (l : list A) :
  List.find p (List.filter (fun x => negb (p x)) l) = None.
Proof.
  induction l as [|x l IH]; cbn [List.filter]; [reflexivity|].
  destruct (p x) eqn:Hx; cbn [negb List.find]; [exact IH|]. rewrite Hx. exact IH.
Qed.

(** Whatever branch the first block of [/admin/delete-admin] takes, no
    account with the given uid is left. *)
Lemma delete_in_auth_uid (uid : string) (st : state) :
  List.find (Auth.has_uid uid) (Auth.accounts (delete_in_auth uid st)) = None.
Proof.
  unfold delete_in_auth, deleteUser.
  destruct (List.existsb (Auth.has_uid uid) (Auth.accounts (auth st))) eqn:Hex.
  - apply find_filter_negb.
  - assert (Hnone : List.find (Auth.has_uid uid) (Auth.accounts (auth st)) = None).
    { destruct (List.find _ _) as [x|] eqn:Hf; [|reflexivity].
      rewrite (find_existsb _ _ _ Hf) in Hex. discriminate. }
    destruct (users st !! uid) as [d|]; [|exact Hnone].
    destruct (UserDoc.email d) as [e|]; [|exact Hnone].
    destruct (JS.truthy e); [|exact Hnone].
    destruct (Auth.getUserByEmail (auth st) e) as [u|err]; cbn [bind]; [|exact Hnone].
    destruct (List.existsb (Auth.has_uid (Auth.uid u)) (Auth.accounts (auth st)));
      [|exact Hnone].
    cbn [Auth.with_accounts Auth.accounts]. apply find_filter_none. exact Hex.
Qed.

(** X12. For a non-empty uid, [/admin/delete-admin] always answers success:
    afterwards the profile [users/{uid}] is gone and no account of the
    identity provider has that uid, whether or not either existed before;
    the other profiles, the passcodes and the inventory records are left as
    they were. *)
Theorem X12_delete_always_succeeds (uid : string) (st : state) :
  JS.truthy uid = true ->
  let out := delete_admin (Some uid) st in
  fst out = mkResponse 200 (SuccessMessage true "Admin account deleted") /\
  users (snd out) !! uid = None /\
  (forall k, k <> uid -> users (snd out) !! k = users st !! k) /\
  Auth.getUser (auth (snd out)) uid = Throw (AuthError "auth/user-not-found") /\
  otps (snd out) = otps st /\ vaccineStock (snd out) = vaccineStock st.
Proof.
  intros Hu out. unfold out, delete_admin. rewrite Hu. cbn [negb fst snd].
  split; [reflexivity|]. split; [apply lookup_delete_eq|].
  split; [intros k Hk; apply lookup_delete_ne; congruence|].
  split; [|split; reflexivity].
  unfold Auth.getUser. cbn [auth with_users with_auth]. rewrite delete_in_auth_uid. reflexivity.
Qed.

Lemma X12_witness :
  let out := delete_admin (Some "ghost") archive_example_state in
  Auth.getUser (auth archive_example_state) "ghost" = Throw (AuthError "auth/user-not-found") /\
  users archive_example_state !! "ghost" = None /\
  fst out = mkResponse 200 (SuccessMessage true "Admin account deleted") /\
  users (snd out) !! "u1" = users archive_example_state !! "u1".
Proof.
  pose proof (X12_delete_always_succeeds "ghost" archive_example_state eq_refl) as H.
  cbv zeta in H. destruct H as (H1 & _ & H3 & _).
  split; [reflexivity|]. split; [reflexivity|]. split; [exact H1|].
  apply H3. discriminate.
Defined.

(** X13. When no account has the uid but the profile [users/{uid}] stores
    an email that resolves to an account, [/admin/delete-admin] deletes that
    account instead. *)
Theorem X13_delete_falls_back_on_the_stored_email (uid e : string) (d : UserDoc.t)
    (u : Auth.user) (st : state) :
  JS.truthy uid = true ->
  List.existsb (Auth.has_uid uid) (Auth.accounts (auth st)) = false ->
  users st !! uid = Some d -> UserDoc.email d = Some e ->
  Auth.getUserByEmail (auth st) e = Ok u ->
  let out := delete_admin (Some uid) st in
  Auth.accounts (auth (snd out)) =
    List.filter (fun v => negb (Auth.has_uid (Auth.uid u) v)) (Auth.accounts (auth st)) /\
  Auth.getUser (auth (snd out)) (Auth.uid u) = Throw (AuthError "auth/user-not-found") /\
  users (snd out) !! uid = None.
Proof.
  intros Hu Hex Hd He Hget out.
  assert (Ht : JS.truthy e = true) by exact (getUserByEmail_truthy _ _ _ Hget).
  assert (Hfound : List.existsb (Auth.has_uid (Auth.uid u)) (Auth.accounts (auth st)) = true).
  { apply getUserByEmail_Ok in Hget as [_ Hf].
    exact (existsb_of_find _ _ _ _ Hf (has_uid_refl u)). }
  assert (Hacc : Auth.accounts (auth (snd out)) =
            List.filter (fun v => negb (Auth.has_uid (Auth.uid u) v)) (Auth.accounts (auth st))).
  { unfold out, delete_admin. rewrite Hu. cbn [negb snd auth with_users with_auth].
    unfold delete_in_auth. unfold deleteUser at 1. rewrite Hex, Hd, He, Ht, Hget.
    cbn [bind]. unfold deleteUser. rewrite Hfound. reflexivity. }
  split; [exact Hacc|]. split.
  - unfold Auth.getUser. rewrite Hacc, find_filter_negb. reflexivity.
  - unfold out, delete_admin. rewrite Hu. apply lookup_delete_eq.
Qed.

(** A server where the profile [users/legacy] stores the email of the
    account ["u1"]. *)
Lemma X13_witness :
  let st := with_users archive_example_state
              (<["legacy" := UserDoc.mk (Some "a@x.com") (Some "employee") None None None None]>
                 (users archive_example_state)) in
  Auth.getUser (auth st) "u1" = Ok (Auth.mkUser "u1" "a@x.com" "secret" true false) /\
  Auth.getUser (auth (snd (delete_admin (Some "legacy") st))) "u1" =
    Throw (AuthError "auth/user-not-found").
Proof.
  split; [reflexivity|].
  exact (proj1 (proj2 (X13_delete_falls_back_on_the_stored_email "legacy" "a@x.com"
                         (UserDoc.mk (Some "a@x.com") (Some "employee") None None None None)
                         (Auth.mkUser "u1" "a@x.com" "secret" true false)
                         (with_users archive_example_state
                            (<["legacy" := UserDoc.mk (Some "a@x.com") (Some "employee")
                                             None None None None]>
                               (users archive_example_state)))
                         eq_refl eq_refl eq_refl eq_refl eq_refl))).
Defined.

Lemma getUser_find (a : Auth.state) (uid : string) (u : Auth.user) :
  Auth.getUser a uid = Ok u <-> List.find (Auth.has_uid uid) (Auth.accounts a) = Some u.
Proof.
  unfold Auth.getUser. destruct (List.find _ _); split; intros H; congruence.
Qed.

(** Updating an account by its uid updates the account [getUser] finds. *)
Lemma updateUser_of_uid (a : Auth.state) (uid : string) (u : Auth.user) (p : Auth.props) :
  match Auth.set_password p with Some pw => Auth.valid_password pw | None => true end = true ->
  Auth.getUser a uid = Ok u ->
  exists a', Auth.updateUser a uid p = Ok a' /\
    Auth.getUser a' uid = Ok (Auth.apply_props p u).
Proof.
  intros Hp H. apply getUser_find in H.
  rewrite (updateUser_found a uid p Hp (find_existsb _ _ _ H)).
  eexists. split; [reflexivity|]. apply getUser_find.
  cbn [Auth.with_accounts Auth.accounts]. rewrite find_map_preserved.
  - rewrite H. cbn [option_map]. rewrite (proj2 (List.find_some _ _ H)). reflexivity.
  - intros x. destruct (Auth.has_uid uid x) eqn:Hx; exact Hx.
Qed.

Lemma archive_admin_account (now : Z) (uid : string) (disable : bool) (u : Auth.user)
    (st : state) :
  JS.truthy uid = true -> Auth.getUser (auth st) uid = Ok u ->
  let st1 := snd (archive_admin now (Some uid) (Some disable) st) in
  Auth.getUser (auth st1) uid = Ok (Auth.apply_props (Auth.disabled_only disable) u) /\
  users st1 =
    set_merge uid (UserDoc.mk None None None (Some (negb disable)) None None) (users st).
Proof.
  intros Hu Hget st1.
  destruct (updateUser_of_uid _ _ _ (Auth.disabled_only disable) eq_refl Hget)
    as (a & Ha & Hg).
  unfold st1, archive_admin. rewrite Hu. cbn [negb snd auth users with_vaccineStock with_users with_auth].
  unfold archive_in_auth. rewrite Ha. split; [exact Hg | reflexivity].
Qed.

(** X14. Archiving an account disables it in the identity provider and
    marks its profile inactive, creating the profile when there is none;
    unarchiving it afterwards enables it again and marks the profile active.
    The other fields of the account and of the profile are as they were. *)
Theorem X14_archive_then_unarchive_restores_the_account (now now' : Z) (uid : string)
    (u : Auth.user) (st : state) :
  JS.truthy uid = true -> Auth.getUser (auth st) uid = Ok u ->
  let profile := default UserDoc.empty (users st !! uid) in
  let st1 := snd (archive_admin now (Some uid) (Some true) st) in
  let st2 := snd (archive_admin now' (Some uid) (Some false) st1) in
  Auth.getUser (auth st1) uid =
    Ok (Auth.mkUser (Auth.uid u) (Auth.email u) (Auth.password u) (Auth.emailVerified u) true) /\
  users st1 !! uid =
    Some (UserDoc.mk (UserDoc.email profile) (UserDoc.role profile)
            (UserDoc.isEmailVerified profile) (Some false) (UserDoc.createdAt profile)
            (UserDoc.updatedAt profile)) /\
  Auth.getUser (auth st2) uid =
    Ok (Auth.mkUser (Auth.uid u) (Auth.email u) (Auth.password u) (Auth.emailVerified u) false) /\
  users st2 !! uid =
    Some (UserDoc.mk (UserDoc.email profile) (UserDoc.role profile)
            (UserDoc.isEmailVerified profile) (Some true) (UserDoc.createdAt profile)
            (UserDoc.updatedAt profile)) /\
  forall k, k <> uid -> users st2 !! k = users st !! k.
Proof.
  intros Hu Hget profile st1 st2.
  destruct (archive_admin_account now uid true u st Hu Hget) as [H1 H2]. fold st1 in H1, H2.
  destruct (archive_admin_account now' uid false _ st1 Hu H1) as [H3 H4]. fold st2 in H3, H4.
  split; [exact H1|]. split.
  { rewrite H2. unfold set_merge. rewrite lookup_insert_eq. reflexivity. }
  split; [exact H3|]. split.
  { rewrite H4, H2. unfold set_merge. rewrite !lookup_insert_eq. reflexivity. }
  intros k Hk. rewrite H4, H2. unfold set_merge.
  rewrite !lookup_insert_ne by congruence. reflexivity.
Qed.

Lemma X14_witness :
  let st1 := snd (archive_admin 500 (Some "u1") (Some true) archive_example_state) in
  let st2 := snd (archive_admin 900 (Some "u1") (Some false) st1) in
  Auth.getUser (auth st1) "u1" = Ok (Auth.mkUser "u1" "a@x.com" "secret" true true) /\
  Auth.getUser (auth st2) "u1" = Ok (Auth.mkUser "u1" "a@x.com" "secret" true false) /\
  users st2 !! "u1" = users archive_example_state !! "u1".
Proof.
  pose proof (X14_archive_then_unarchive_restores_the_account 500 900 "u1"
                (Auth.mkUser "u1" "a@x.com" "secret" true false) archive_example_state
                eq_refl eq_refl) as H.
  cbv zeta in H. destruct H as (H1 & _ & H3 & H4 & _).
  split; [exact H1|]. split; [exact H3|]. rewrite H4. reflexivity.
Defined.

(** X15. When no account has the uid but the profile [users/{uid}] stores
    an email that resolves to an account, [/admin/archive-admin] disables or
    enables that account instead, and answers success. *)
Theorem X15_archive_falls_back_on_the_stored_email (now : Z) (uid e : string)
    (disable : bool) (d : UserDoc.t) (u : Auth.user) (st : state) :
  JS.truthy uid = true ->
  List.existsb (Auth.has_uid uid) (Auth.accounts (auth st)) = false ->
  users st !! uid = Some d -> UserDoc.email d = Some e ->
  Auth.getUserByEmail (auth st) e = Ok u ->
  let out := archive_admin now (Some uid) (Some disable) st in
  status (fst out) = 200 /\
  Auth.getUserByEmail (auth (snd out)) e =
    Ok (Auth.mkUser (Auth.uid u) (Auth.email u) (Auth.password u) (Auth.emailVerified u)
          disable).
Proof.
  intros Hu Hex Hd He Hget out.
  assert (Ht : JS.truthy e = true) by exact (getUserByEmail_truthy _ _ _ Hget).
  destruct (updateUser_of_found _ _ _ (Auth.disabled_only disable) eq_refl Hget)
    as (a & Ha & Hg & _).
  unfold out, archive_admin. rewrite Hu. cbn [negb fst snd status auth with_vaccineStock with_users with_auth].
  split; [reflexivity|].
  unfold archive_in_auth. unfold Auth.updateUser at 1. rewrite Hex, Hd, He, Ht, Hget.
  cbn [bind]. rewrite Ha. exact Hg.
Qed.

Lemma X15_witness :
  let st := with_users archive_example_state
              (<["legacy" := UserDoc.mk (Some "a@x.com") (Some "employee") None None None None]>
                 (users archive_example_state)) in
  Auth.getUser (auth st) "legacy" = Throw (AuthError "auth/user-not-found") /\
  Auth.getUserByEmail (auth (snd (archive_admin 500 (Some "legacy") (Some true) st))) "a@x.com" =
    Ok (Auth.mkUser "u1" "a@x.com" "secret" true true).
Proof.
  split; [reflexivity|].
  exact (proj2 (X15_archive_falls_back_on_the_stored_email 500 "legacy" "a@x.com" true
                  (UserDoc.mk (Some "a@x.com") (Some "employee") None None None None)
                  (Auth.mkUser "u1" "a@x.com" "secret" true false)
                  (with_users archive_example_state
                     (<["legacy" := UserDoc.mk (Some "a@x.com") (Some "employee")
                                      None None None None]>
                        (users archive_example_state)))
                  eq_refl eq_refl eq_refl eq_refl eq_refl)).
Defined.

(** ** Derived passwords *)

Lemma truthy_append_l (a b : string) : JS.truthy a = true -> JS.truthy (a ++ b) = true.
Proof. destruct a; [discriminate | reflexivity]. Qed.

Lemma truthy_append_r (a b : string) : JS.truthy b = true -> JS.truthy (a ++ b) = true.
Proof. destruct a; [rewrite append_nil_l; auto | reflexivity]. Qed.

Lemma pad2_truthy (n : Z) : JS.truthy (pad2 n) = true.
Proof.
  unfold pad2. destruct (String.length (JS.toString n) <? 2)%nat;
    [reflexivity | apply toString_truthy].
Qed.

(** X16. The password [passwordRaw] derives is never empty, whatever the
    body, the clock library and the random source give; a non-empty password
    of the body is taken as it is. *)
Theorem X16_derived_password_is_never_empty :
  (forall env password birthday, JS.truthy (passwordRaw env password birthday) = true) /\
  (forall env p birthday, JS.truthy p = true -> passwordRaw env (Some p) birthday = p).
Proof.
  split.
  - intros env password birthday. unfold passwordRaw.
    destruct (JS.truthy (match password with Some x => x | None => "" end)) eqn:Hp;
      [exact Hp|].
    assert (Hf : JS.truthy (random_tail env ++ "Aa1!") = true)
      by (apply truthy_append_r; reflexivity).
    destruct (JS.truthy (match birthday with Some x => x | None => "" end)); [|exact Hf].
    destruct (parse_date env _) as [[[month day] year]|]; [|exact Hf].
    apply truthy_append_l, pad2_truthy.
  - intros env p birthday Hp. unfold passwordRaw. rewrite Hp. reflexivity.
Qed.

Lemma all_digits_app (s t : string) : all_digits (s ++ t) = all_digits s && all_digits t.
Proof.
  induction s as [|c s IH]; [reflexivity|].
  rewrite append_cons. cbn [all_digits]. rewrite IH, andb_assoc. reflexivity.
Qed.

(** Two digits for a month or a day. *)
Lemma pad2_two_digits (n : Z) :
  0 <= n < 100 -> String.length (pad2 n) = 2%nat /\ all_digits (pad2 n) = true.
Proof.
  intros Hn.
  pose (check := fun n => (String.length (pad2 n) =? 2)%nat && all_digits (pad2 n)).
  assert (H : check n = true) by (apply (forall_below check 100); [vm_compute; reflexivity | lia]).
  unfold check in H. apply andb_prop in H as [H1 H2]. apply Nat.eqb_eq in H1. auto.
Qed.

(** The four characters of a year between 1000 and 9999. *)
Lemma toString_four (n : Z) :
  1000 <= n <= 9999 ->
  JS.toString n =
    String (JS.digit_char (n / 1000))
      (String (JS.digit_char (n / 100 mod 10))
        (String (JS.digit_char (n / 10 mod 10))
          (String (JS.digit_char (n mod 10)) EmptyString))).
Proof.
  intros Hn. unfold JS.toString.
  destruct (Z.ltb_spec n 0); [lia|].
  assert (Hlog : 9 <= Z.log2 n).
  { change 9 with (Z.log2 512). apply Z.log2_le_mono. lia. }
  destruct (Z.to_nat (Z.log2 n)) as [|[|[|f]]] eqn:Ef; try lia.
  do 3 (rewrite digits_step by div_bound).
  rewrite digits_last by div_bound.
  repeat (rewrite Z.div_div by lia). reflexivity.
Qed.

Lemma year_four_digits (n : Z) :
  1000 <= n <= 9999 ->
  String.length (JS.toString n) = 4%nat /\ all_digits (JS.toString n) = true.
Proof.
  intros Hn. rewrite (toString_four n Hn). split; [reflexivity|].
  cbn [all_digits].
  rewrite !digit_char_is_digit; try (apply Z.mod_pos_bound; lia); [reflexivity|].
  split; [apply Z.div_pos; lia | apply Z.div_lt_upper_bound; lia].
Qed.

(** X17. Without a password in the body, a birthday that the clock library
    reads as a date with a four-digit year gives the password MMDDYYYY: the
    month and the day on two digits each, then the year, eight decimal digits
    in all. *)
Theorem X17_birthday_password_is_MMDDYYYY (env : password_env) (password : option string)
    (b : string) (month day year : Z) :
  JS.truthy_opt password = false -> JS.truthy b = true ->
  parse_date env b = Some (month, day, year) ->
  0 <= month <= 11 -> 1 <= day <= 31 -> 1000 <= year <= 9999 ->
  passwordRaw env password (Some b) = pad2 (month + 1) ++ pad2 day ++ JS.toString year /\
  String.length (passwordRaw env password (Some b)) = 8%nat /\
  all_digits (passwordRaw env password (Some b)) = true.
Proof.
  intros Hp Hb Hd Hm Hday Hy.
  assert (E : passwordRaw env password (Some b) =
              pad2 (month + 1) ++ pad2 day ++ JS.toString year).
  { unfold passwordRaw.
    replace (JS.truthy (match password with Some x => x | None => "" end)) with false
      by (destruct password; [symmetry; exact Hp | reflexivity]).
    rewrite Hb, Hd. reflexivity. }
  destruct (pad2_two_digits (month + 1)) as [L1 D1]; [lia|].
  destruct (pad2_two_digits day) as [L2 D2]; [lia|].
  destruct (year_four_digits year Hy) as [L3 D3].
  rewrite E. split; [reflexivity|]. split.
  - rewrite !length_append, L1, L2, L3. reflexivity.
  - rewrite !all_digits_app, D1, D2, D3. reflexivity.
Qed.

Lemma X17_witness :
  passwordRaw (mkPasswordEnv (fun _ => Some (0, 5, 1990)) "k3j9x0q2zz") None
    (Some "1990-01-05") = "01051990".
Proof.
  assert (Hm : 0 <= 0 <= 11) by lia.
  assert (Hd : 1 <= 5 <= 31) by lia.
  assert (Hy : 1000 <= 1990 <= 9999) by lia.
  exact (proj1 (X17_birthday_password_is_MMDDYYYY
                  (mkPasswordEnv (fun _ => Some (0, 5, 1990)) "k3j9x0q2zz") None "1990-01-05"
                  0 5 1990 eq_refl eq_refl eq_refl Hm Hd Hy)).
Defined.

(** ** Reconciliation of an existing account *)

(** X18. For the email of an existing account, [/admin/ensure-auth-user]
    answers the account's uid and leaves the account with the derived
    password, verified and enabled, whatever it was before: a disabled
    account is enabled again. It writes to the identity provider only; the
    profiles, the passcodes and the inventory records are left as they
    were. *)
Theorem X18_ensure_auth_user_resets_the_account (env : password_env) (email : string)
    (password birthday : option string) (st : state) (u : Auth.user) :
  JS.truthy email = true ->
  Auth.accepts (auth st) (JS.toLowerCase email) (passwordRaw env password birthday) = true ->
  Auth.getUserByEmail (auth st) (JS.toLowerCase email) = Ok u ->
  let out := ensure_auth_user env (Some email) password birthday st in
  fst out = mkResponse 200 (SuccessUid (Auth.uid u)) /\
  Auth.getUserByEmail (auth (snd out)) (JS.toLowerCase email) =
    Ok (Auth.mkUser (Auth.uid u) (Auth.email u) (passwordRaw env password birthday) true false) /\
  users (snd out) = users st /\ otps (snd out) = otps st /\
  vaccineStock (snd out) = vaccineStock st.
Proof.
  intros He Hacc Hu out.
  destruct (recover_existing _ _ (passwordRaw env password birthday) _
              (proj1 (proj2 (accepts_inv _ _ _ Hacc))) Hu)
    as (a' & Hup & Hget & _).
  destruct (getUser_of_email _ _ _ Hget) as [v Hv].
  assert (E : out = (mkResponse 200 (SuccessUid (Auth.uid u)), with_auth st a')).
  { unfold out, ensure_auth_user. rewrite He. cbn [negb].
    rewrite (createUser_existing _ _ _ _ Hacc Hu). cbn [is_email_already_exists error_code].
    rewrite String.eqb_refl, Hu, Hup.
    change (Auth.uid (Auth.apply_props (Auth.reset_props (passwordRaw env password birthday)) u))
      with (Auth.uid u) in Hv. rewrite Hv. reflexivity. }
  rewrite E. cbn [fst snd auth users otps vaccineStock with_auth].
  split; [reflexivity|]. split; [exact Hget|]. auto.
Qed.

(** A server whose only account is disabled. *)
Lemma X18_witness :
  let st := mkState
              (Auth.mkState [Auth.mkUser "uid0" "a@x.com" "old-password" false true] 1 ∅
                 (fun _ _ => true)) ∅ ∅ ∅ in
  Auth.getUserByEmail
    (auth (snd (ensure_auth_user (mkPasswordEnv (fun _ => None) "k3j9x0q2zz")
                  (Some "A@X.com") (Some "P4ssword!") None st))) "a@x.com" =
    Ok (Auth.mkUser "uid0" "a@x.com" "P4ssword!" true false).
Proof.
  exact (proj1 (proj2 (X18_ensure_auth_user_resets_the_account
                         (mkPasswordEnv (fun _ => None) "k3j9x0q2zz") "A@X.com"
                         (Some "P4ssword!") None
                         (mkState
                            (Auth.mkState [Auth.mkUser "uid0" "a@x.com" "old-password" false true]
                               1 ∅ (fun _ _ => true)) ∅ ∅ ∅)
                         (Auth.mkUser "uid0" "a@x.com" "old-password" false true)
                         eq_refl eq_refl eq_refl))).
Defined.

(** X19. Run for the email of an existing account, the tool [createUser.js]
    reports [created: false] with the account's uid, resets the account's
    password and enables it, and merges the role into the profile: the
    profile's [isActive] and [createdAt] stay as they were, so the profile
    of an archived account stays inactive while its account is enabled. The
    role is the third argument, trimmed, or ["admin"] without one. *)
Theorem X19_createUser_tool_on_an_existing_account (now : Z) (email password : string)
    (role : option string) (st : state) (u : Auth.user) :
  JS.truthy email = true -> JS.truthy password = true ->
  Auth.accepts (auth st) (JS.toLowerCase email) password = true ->
  Auth.getUserByEmail (auth st) (JS.toLowerCase email) = Ok u ->
  let profile := default UserDoc.empty (users st !! Auth.uid u) in
  exists st',
    createUser_js now (Some email) (Some password) role st =
      Some (Ok (mkEnsured false (Auth.uid u) (Some true), st')) /\
    Auth.getUserByEmail (auth st') (JS.toLowerCase email) =
      Ok (Auth.mkUser (Auth.uid u) (Auth.email u) password true false) /\
    users st' !! Auth.uid u =
      Some (UserDoc.mk (Some (JS.toLowerCase email))
              (Some (JS.trim (JS.or_else (default "" role) "admin")))
              (Some true) (UserDoc.isActive profile) (UserDoc.createdAt profile) (Some now)) /\
    (role = None -> getUserRole st' (Auth.uid u) = Some "admin").
Proof.
  intros He Hp Hacc Hu profile.
  destruct (recover_existing _ _ password _ (proj1 (proj2 (accepts_inv _ _ _ Hacc))) Hu)
    as (a' & Hup & Hget & _).
  eexists. split.
  { unfold createUser_js. cbn [JS.truthy_opt]. rewrite He, Hp. cbn [negb orb].
    change (default "" (Some email)) with email.
    change (default "" (Some password)) with password.
    unfold ensureUser. rewrite (createUser_existing _ _ _ _ Hacc Hu).
    cbn [is_email_already_exists error_code]. rewrite String.eqb_refl, Hu.
    cbn [bind]. rewrite Hup. cbn [bind]. reflexivity. }
  cbn [auth users with_users with_auth]. split; [exact Hget|].
  assert (Hdoc : set_merge (Auth.uid u)
                   (UserDoc.mk (Some (JS.toLowerCase email))
                      (Some (JS.trim (JS.or_else (default "" role) "admin")))
                      (Some true) None None (Some now)) (users st) !! Auth.uid u =
                 Some (UserDoc.mk (Some (JS.toLowerCase email))
                         (Some (JS.trim (JS.or_else (default "" role) "admin")))
                         (Some true) (UserDoc.isActive profile) (UserDoc.createdAt profile)
                         (Some now))).
  { unfold set_merge. rewrite lookup_insert_eq. reflexivity. }
  split; [exact Hdoc|].
  intros ->. unfold getUserRole. cbn [users with_users with_auth]. rewrite Hdoc. reflexivity.
Qed.

(** The archived account ["u1"] of the example server: disabled, its
    profile inactive. *)
Lemma X19_witness :
  let st := snd (archive_admin 500 (Some "u1") (Some true) archive_example_state) in
  Auth.getUserByEmail (auth st) "a@x.com" = Ok (Auth.mkUser "u1" "a@x.com" "secret" true true) /\
  exists st',
    createUser_js 900 (Some "A@x.com") (Some "P4ssword!") (Some "employee") st =
      Some (Ok (mkEnsured false "u1" (Some true), st')) /\
    Auth.getUserByEmail (auth st') "a@x.com" =
      Ok (Auth.mkUser "u1" "a@x.com" "P4ssword!" true false) /\
    users st' !! "u1" =
      Some (UserDoc.mk (Some "a@x.com") (Some "employee") (Some true) (Some false) None
              (Some 900)).
Proof.
  split; [reflexivity|].
  destruct (X19_createUser_tool_on_an_existing_account 900 "A@x.com" "P4ssword!"
              (Some "employee")
              (snd (archive_admin 500 (Some "u1") (Some true) archive_example_state))
              (Auth.mkUser "u1" "a@x.com" "secret" true true)
              eq_refl eq_refl eq_refl eq_refl) as (st' & H1 & H2 & H3 & _).
  exists st'. split; [exact H1|]. split; [exact H2 | exact H3].
Defined.

(** ** The tools [setUserRole.js] and [resetPassword.js] *)

(** X20. When [setUserRole.js] succeeds, the role it was given (trimmed,
    ["superadmin"] without one) is the role [getUserRole] reads for the uid it
    prints; an identifier without [@] is that uid, whether or not such an
    account or profile exists, and one with [@] is the email of the account
    whose uid it prints. The identity provider, the other fields of the
    profile and the other profiles are left as they were. *)
Theorem X20_setUserRole_sets_the_role_getUserRole_reads (identifier : string)
    (role : option string) (st st' : state) (uid : string) :
  setUserRole_js (Some identifier) role st = Some (Ok (uid, st')) ->
  let profile := default UserDoc.empty (users st !! uid) in
  getUserRole st' uid = Some (JS.trim (JS.or_else (default "" role) "superadmin")) /\
  (if JS.includes "@" identifier
   then exists u, Auth.getUserByEmail (auth st) identifier = Ok u /\ uid = Auth.uid u
   else uid = identifier) /\
  auth st' = auth st /\
  users st' !! uid =
    Some (UserDoc.mk (UserDoc.email profile)
            (Some (JS.trim (JS.or_else (default "" role) "superadmin")))
            (UserDoc.isEmailVerified profile) (UserDoc.isActive profile)
            (UserDoc.createdAt profile) (UserDoc.updatedAt profile)) /\
  forall k, k <> uid -> users st' !! k = users st !! k.
Proof.
  intros H profile. unfold setUserRole_js in H. cbn [JS.truthy_opt] in H.
  change (default "" (Some identifier)) with identifier in H.
  set (r := JS.trim (JS.or_else (default "" role) "superadmin")) in *.
  destruct (JS.truthy identifier); [|discriminate]. cbn [negb orb] in H.
  destruct (JS.truthy r) eqn:Hr; [|discriminate]. cbn [negb] in H.
  destruct (resolveUid (auth st) identifier) as [uid0|err] eqn:Hres; [|discriminate].
  cbn [bind] in H. injection H as <- <-.
  assert (Hdoc : users (with_users st
                          (set_merge uid0 (UserDoc.mk None (Some r) None None None None)
                             (users st))) !! uid0 =
                 Some (UserDoc.mk (UserDoc.email profile) (Some r)
                         (UserDoc.isEmailVerified profile) (UserDoc.isActive profile)
                         (UserDoc.createdAt profile) (UserDoc.updatedAt profile))).
  { cbn [users with_users]. unfold set_merge. rewrite lookup_insert_eq. reflexivity. }
  split; [unfold getUserRole; rewrite Hdoc; cbn [UserDoc.role]; rewrite Hr; reflexivity|].
  split.
  { unfold resolveUid in Hres. destruct (JS.includes "@" identifier).
    - destruct (Auth.getUserByEmail (auth st) identifier) as [u|err]; [|discriminate].
      cbn [bind] in Hres. injection Hres as <-. eauto.
    - injection Hres as <-. reflexivity. }
  split; [reflexivity|]. split; [exact Hdoc|].
  intros k Hk. cbn [users with_users]. unfold set_merge.
  apply lookup_insert_ne. congruence.
Qed.

Lemma X20_witness :
  exists st',
    setUserRole_js (Some "a@x.com") (Some "admin") archive_example_state =
      Some (Ok ("u1", st')) /\
    getUserRole archive_example_state "u1" = Some "employee" /\
    getUserRole st' "u1" = Some "admin".
Proof.
  eexists. split; [reflexivity|]. split; [reflexivity|].
  exact (proj1 (X20_setUserRole_sets_the_role_getUserRole_reads "a@x.com" (Some "admin")
                  archive_example_state _ "u1" eq_refl)).
Defined.

(** X21. For an email of ASCII characters the tool [resetPassword.js] and
    the route [/api/force-password-change] do the same to the server. Where the tool
    prints its usage the route answers 400. Where the tool succeeds the
    route answers success and both leave the same state: the password has
    six characters or more, the email resolves to an account, in whatever
    case it is written, and that account now has the given password, the
    other accounts and the collections being as they were. Where the tool
    fails the route answers 500 with the message of the failure and nothing
    is changed. The tool succeeds for every email that resolves with a
    password of six characters or more, and fails with
    [auth/invalid-password] when the email resolves and the password is
    shorter. *)
Theorem X21_resetPassword_tool_is_the_forced_change (email newPassword : option string)
    (st : state) :
  JS.ascii_only (default "" email) = true ->
  match resetPassword_js email newPassword st with
  | None =>
      force_password_change email newPassword st =
        (mkResponse 400 (ErrorOnly "Email and OTP are required."), st)
  | Some (Ok (uid, st')) =>
      force_password_change email newPassword st = (mkResponse 200 SuccessOnly, st') /\
      exists e p u,
        email = Some e /\ newPassword = Some p /\ Auth.valid_password p = true /\
        Auth.getUserByEmail (auth st) e = Ok u /\ uid = Auth.uid u /\
        Auth.getUserByEmail (auth st') e =
          Ok (Auth.mkUser (Auth.uid u) (Auth.email u) p (Auth.emailVerified u)
                (Auth.disabled u)) /\
        Auth.accounts (auth st') =
          List.map (fun v => if Auth.has_uid (Auth.uid u) v
                             then Auth.mkUser (Auth.uid v) (Auth.email v) p
                                    (Auth.emailVerified v) (Auth.disabled v)
                             else v)
            (Auth.accounts (auth st)) /\
        users st' = users st /\ otps st' = otps st /\ vaccineStock st' = vaccineStock st
  | Some (Throw err) =>
      force_password_change email newPassword st =
        (mkResponse 500 (ErrorOnly (error_message err)), st)
  end /\
  (forall e p u,
     Auth.getUserByEmail (auth st) e = Ok u ->
     if Auth.valid_password p
     then exists st', resetPassword_js (Some e) (Some p) st = Some (Ok (Auth.uid u, st'))
     else JS.truthy p = true ->
          resetPassword_js (Some e) (Some p) st =
            Some (Throw (AuthError "auth/invalid-password"))).
Proof.
  intros _. split.
  - unfold resetPassword_js, force_password_change.
    destruct email as [e|], newPassword as [p|]; cbn [JS.truthy_opt negb orb];
      try reflexivity.
    + change (default "" (Some e)) with e. change (default "" (Some p)) with p.
      destruct (JS.truthy e); cbn [negb orb]; [|reflexivity].
      destruct (JS.truthy p); cbn [negb]; [|reflexivity].
      destruct (Auth.getUserByEmail (auth st) e) as [u|err] eqn:Hu; cbn [bind]; [|reflexivity].
      destruct (Auth.valid_password p) eqn:Hp.
      * destruct (updateUser_of_found _ _ _ (Auth.password_only p) Hp Hu)
          as (a & Ha & Hg & Hacc & _).
        rewrite Ha. cbn [bind]. split; [reflexivity|].
        exists e, p, u. cbn [auth users otps vaccineStock with_auth]. auto 12.
      * unfold Auth.updateUser. cbn [Auth.set_password Auth.password_only]. rewrite Hp.
        reflexivity.
    + destruct (JS.truthy e); reflexivity.
  - intros e p u Hu.
    assert (He : JS.truthy e = true) by exact (getUserByEmail_truthy _ _ _ Hu).
    unfold resetPassword_js. cbn [JS.truthy_opt]. rewrite He.
    change (default "" (Some e)) with e. change (default "" (Some p)) with p.
    destruct (Auth.valid_password p) eqn:Hp.
    + assert (Ht : JS.truthy p = true) by (destruct p; [discriminate | reflexivity]).
      rewrite Ht. cbn [negb orb]. rewrite Hu. cbn [bind].
      destruct (updateUser_of_found _ _ _ (Auth.password_only p) Hp Hu) as (a & Ha & _).
      rewrite Ha. eexists. reflexivity.
    + intros Ht. rewrite Ht. cbn [negb orb]. rewrite Hu. cbn [bind].
      unfold Auth.updateUser. cbn [Auth.set_password Auth.password_only]. rewrite Hp.
      reflexivity.
Qed.

Lemma X21_witness :
  (exists st',
     resetPassword_js (Some "A@X.COM") (Some "abc123") one_account_state =
       Some (Ok ("uid0", st'))) /\
  resetPassword_js (Some "a@x.com") (Some "1") one_account_state =
    Some (Throw (AuthError "auth/invalid-password")) /\
  force_password_change (Some "A@X.COM") (Some "abc123") one_account_state =
    (mkResponse 200 SuccessOnly,
     mkState
       (Auth.mkState [Auth.mkUser "uid0" "a@x.com" "abc123" true false] 1 ∅ (fun _ _ => true))
       ∅ {[ "a%40x.com" := OtpDoc.mk "654321" 0 300000 ]} ∅) /\
  force_password_change (Some "a@x.com") (Some "1") one_account_state =
    (mkResponse 500 (ErrorOnly "auth/invalid-password"), one_account_state).
Proof.
  pose proof (proj2 (X21_resetPassword_tool_is_the_forced_change None None one_account_state
                       eq_refl))
    as H.
  split; [exact (H "A@X.COM" "abc123" _ eq_refl)|].
  split; [exact (H "a@x.com" "1" _ eq_refl eq_refl)|].
  split.
  - exact (proj1 (proj1 (X21_resetPassword_tool_is_the_forced_change (Some "A@X.COM")
                           (Some "abc123") one_account_state eq_refl))).
  - exact (proj1 (X21_resetPassword_tool_is_the_forced_change (Some "a@x.com") (Some "1")
                    one_account_state eq_refl)).
Defined.

(** ** Creating an account *)

Lemma fold_delete_lookup (l : list string) (m : gmap string JSON.value) (k : string) :
  List.fold_left (fun acc key => delete key acc) l m !! k =
    if decide (k ∈ l) then None else m !! k.
Proof.
  revert m. induction l as [|x l IH]; intros m; cbn [List.fold_left].
  - rewrite decide_False by apply not_elem_of_nil. reflexivity.
  - rewrite IH. destruct (decide (k ∈ l)) as [Hin|Hout].
    + rewrite decide_True by (apply elem_of_cons; auto). reflexivity.
    + destruct (decide (k = x)) as [->|Hne].
      * rewrite decide_True by apply list_elem_of_here. apply lookup_delete_eq.
      * rewrite decide_False by (intros H; apply elem_of_cons in H as [?|?]; auto).
        apply lookup_delete_ne. congruence.
Qed.

Lemma additionalFieldsRaw_lookup (body : gmap string JSON.value) (k : string) :
  additionalFieldsRaw body !! k = if decide (k ∈ reservedKeys) then None else body !! k.
Proof. apply fold_delete_lookup. Qed.

(** The fields the handler computes, in the stored document. *)
Lemma create_admin_profile_computed (body : gmap string JSON.value)
    (parsed : name_parts) (fullName emailLower role : string) (now : Z) :
  let doc := create_admin_profile body parsed fullName emailLower role now in
  doc !! "email" = Some (JSON.JString emailLower) /\
  doc !! "role" = Some (JSON.JString role) /\
  doc !! "isEmailVerified" = Some (JSON.JBool true) /\
  doc !! "isActive" = Some (JSON.JBool true) /\
  doc !! "createdAt" = Some (JSON.JNumber now).
Proof.
  intros doc. unfold doc, create_admin_profile.
  split; [rewrite !lookup_insert_ne by discriminate; apply lookup_insert_eq|].
  split; [rewrite !lookup_insert_ne by discriminate; apply lookup_insert_eq|].
  split; [rewrite !lookup_insert_ne by discriminate; apply lookup_insert_eq|].
  split; [rewrite !lookup_insert_ne by discriminate; apply lookup_insert_eq|].
  apply lookup_insert_eq.
Qed.

(** X22. The document [/admin/create-admin] stores never carries the
    password or a [uid] field of the body; its email, role, verification and
    activity flags and creation time are the ones the handler computes,
    whatever the body says about them ([isActive] is true even when the body
    says false); every other property of the body that is not reserved is
    stored as it came. *)
Theorem X22_stored_profile_has_no_password (body : gmap string JSON.value)
    (parsed : name_parts) (fullName emailLower role : string) (now : Z) :
  let doc := create_admin_profile body parsed fullName emailLower role now in
  doc !! "password" = None /\ doc !! "uid" = None /\
  doc !! "email" = Some (JSON.JString emailLower) /\
  doc !! "role" = Some (JSON.JString role) /\
  doc !! "fullName" = Some (JSON.JString fullName) /\
  doc !! "isEmailVerified" = Some (JSON.JBool true) /\
  doc !! "isActive" = Some (JSON.JBool true) /\
  doc !! "createdAt" = Some (JSON.JNumber now) /\
  forall k, k ∉ reservedKeys -> k <> "isActive" -> doc !! k = body !! k.
Proof.
  intros doc.
  destruct (create_admin_profile_computed body parsed fullName emailLower role now)
    as (H1 & H2 & H3 & H4 & H5).
  unfold doc, create_admin_profile.
  split; [|split].
  1, 2: rewrite !lookup_insert_ne by discriminate; rewrite additionalFieldsRaw_lookup;
    reflexivity.
  split; [exact H1|]. split; [exact H2|].
  split; [rewrite !lookup_insert_ne by discriminate; apply lookup_insert_eq|].
  split; [exact H3|]. split; [exact H4|]. split; [exact H5|].
  clear H1 H2 H3 H4 H5. intros k Hres Hact.
  assert (Hk : forall x, x ∈ reservedKeys -> x <> k) by (intros x Hx ->; contradiction).
  rewrite !lookup_insert_ne;
    try (first [ exact (not_eq_sym Hact)
               | apply Hk; unfold reservedKeys; set_solver ]).
  rewrite additionalFieldsRaw_lookup. rewrite decide_False by exact Hres. reflexivity.
Qed.

(** ** Trimming and splitting *)

Lemma string_length_ind (P : string -> Prop) :
  (forall s, (forall t, (String.length t < String.length s)%nat -> P t) -> P s) ->
  forall s, P s.
Proof.
  intros H s. remember (String.length s) as n eqn:E. revert s E.
  induction n as [n IH] using lt_wf_ind. intros s ->. apply H.
  intros t Ht. exact (IH _ Ht t eq_refl).
Qed.

(** A white space character is one, two or three bytes at the head of the
    string. *)
Lemma after_ws_inv (s r : string) :
  JS.after_ws s = Some r ->
  (exists c, s = String c r /\ JS.is_ws c = true) \/
  (exists c d, s = String c (String d r) /\ JS.is_ws c = false /\ JS.is_ws2 c d = true) \/
  (exists c d e, s = String c (String d (String e r)) /\
     JS.is_ws c = false /\ JS.is_ws2 c d = false /\ JS.is_ws3 c d e = true).
Proof.
  unfold JS.after_ws. destruct s as [|c s]; [discriminate|].
  destruct (JS.is_ws c) eqn:H1; [intros H; injection H as <-; left; eauto|].
  destruct s as [|d s]; [discriminate|].
  destruct (JS.is_ws2 c d) eqn:H2; [intros H; injection H as <-; right; left; eauto|].
  destruct s as [|e s]; [discriminate|].
  destruct (JS.is_ws3 c d e) eqn:H3; [|discriminate].
  intros H; injection H as <-. right; right. exists c, d, e. auto.
Qed.

Lemma after_ws_shorter (s r : string) :
  JS.after_ws s = Some r -> (String.length r < String.length s)%nat.
Proof.
  intros H.
  destruct (after_ws_inv _ _ H) as [(c & -> & _)|[(c & d & -> & _)|(c & d & e & -> & _)]];
    cbn [String.length]; lia.
Qed.

(** The white space at the head of a string is still there when the string
    goes on. *)
Lemma after_ws_app (s r x : string) :
  JS.after_ws s = Some r -> JS.after_ws (s ++ x) = Some (r ++ x).
Proof.
  intros H.
  destruct (after_ws_inv _ _ H)
    as [(c & -> & H1)|[(c & d & -> & H1 & H2)|(c & d & e & -> & H1 & H2 & H3)]];
    rewrite ?append_cons; cbn [JS.after_ws]; rewrite ?H1, ?H2, ?H3; reflexivity.
Qed.

Lemma trimStart_eq (s : string) :
  JS.trimStart s = match JS.after_ws s with Some r => JS.trimStart r | None => s end.
Proof.
  destruct s as [|c s]; [reflexivity|]. cbn [JS.trimStart JS.after_ws].
  destruct (JS.is_ws c); [reflexivity|].
  destruct s as [|d s]; [reflexivity|].
  destruct (JS.is_ws2 c d); [reflexivity|].
  destruct s as [|e s]; [reflexivity|].
  destruct (JS.is_ws3 c d e); reflexivity.
Qed.

Lemma trimStart_ws (s r : string) : JS.after_ws s = Some r -> JS.trimStart s = JS.trimStart r.
Proof. intros H. rewrite trimStart_eq, H. reflexivity. Qed.

Lemma trimStart_no_ws (s : string) : JS.after_ws s = None -> JS.trimStart s = s.
Proof. intros H. rewrite trimStart_eq, H. reflexivity. Qed.

(** What [trimStart] leaves does not start with white space. *)
Lemma trimStart_head (s : string) : JS.after_ws (JS.trimStart s) = None.
Proof.
  induction s as [s IH] using string_length_ind.
  destruct (JS.after_ws s) as [r|] eqn:E.
  - rewrite (trimStart_ws _ _ E). apply IH. exact (after_ws_shorter _ _ E).
  - rewrite (trimStart_no_ws _ E). exact E.
Qed.

Lemma trimStart_idem (s : string) : JS.trimStart (JS.trimStart s) = JS.trimStart s.
Proof. apply trimStart_no_ws, trimStart_head. Qed.

(** What [trimStart] leaves is the end of the string. *)
Lemma trimStart_suffix (s : string) : exists a, s = a ++ JS.trimStart s.
Proof.
  induction s as [s IH] using string_length_ind.
  destruct (JS.after_ws s) as [r|] eqn:E.
  - rewrite (trimStart_ws _ _ E).
    destruct (IH r (after_ws_shorter _ _ E)) as [a Ha].
    destruct (after_ws_inv _ _ E) as [(c & -> & _)|[(c & d & -> & _)|(c & d & e & -> & _)]].
    + exists (String c a). rewrite append_cons, <- Ha. reflexivity.
    + exists (String c (String d a)). rewrite !append_cons, <- Ha. reflexivity.
    + exists (String c (String d (String e a))). rewrite !append_cons, <- Ha. reflexivity.
  - rewrite (trimStart_no_ws _ E). exists EmptyString. reflexivity.
Qed.

(** White space only, then [b]: trimming the start goes on into [b]. *)
Lemma trimStart_blank_then (a b : string) :
  JS.trimStart a = EmptyString -> JS.trimStart (a ++ b) = JS.trimStart b.
Proof.
  induction a as [a IH] using string_length_ind. intros H.
  destruct (JS.after_ws a) as [r|] eqn:E.
  - rewrite (trimStart_ws _ _ (after_ws_app _ _ b E)).
    apply IH; [exact (after_ws_shorter _ _ E)|]. rewrite <- (trimStart_ws _ _ E). exact H.
  - rewrite (trimStart_no_ws _ E) in H. subst a. reflexivity.
Qed.

Lemma trimEnd_eq (c : ascii) (r : string) :
  JS.trimEnd (String c r) =
    if JS.truthy (JS.trimStart (String c r)) then String c (JS.trimEnd r) else EmptyString.
Proof. reflexivity. Qed.

(** What [trimEnd] removes is white space only. *)
Lemma trimEnd_prefix (s : string) :
  exists b, s = JS.trimEnd s ++ b /\ JS.trimStart b = EmptyString.
Proof.
  induction s as [|c s IH]; [exists EmptyString; split; reflexivity|].
  rewrite trimEnd_eq. destruct (JS.truthy (JS.trimStart (String c s))) eqn:E.
  - destruct IH as (b & Hb & Hblank). exists b. split; [|exact Hblank].
    rewrite append_cons, <- Hb. reflexivity.
  - exists (String c s). split; [reflexivity|].
    destruct (JS.trimStart (String c s)); [reflexivity | discriminate].
Qed.

Lemma trimEnd_blank (s : string) : JS.trimStart s = EmptyString -> JS.trimEnd s = EmptyString.
Proof. destruct s as [|c s]; [reflexivity|]. intros H. rewrite trimEnd_eq, H. reflexivity. Qed.

(** A string that is not blank stays so when the white space at its end is
    removed. *)
Lemma trimEnd_keeps_text (s : string) :
  JS.truthy (JS.trimStart s) = true -> JS.truthy (JS.trimStart (JS.trimEnd s)) = true.
Proof.
  intros H. destruct (trimEnd_prefix s) as (b & Hb & Hblank).
  destruct (JS.trimStart (JS.trimEnd s)) as [|x t] eqn:E; [|reflexivity].
  rewrite Hb, (trimStart_blank_then _ b E), Hblank in H. discriminate.
Qed.

Lemma trimEnd_idem (s : string) : JS.trimEnd (JS.trimEnd s) = JS.trimEnd s.
Proof.
  induction s as [|c s IH]; [reflexivity|]. rewrite trimEnd_eq.
  destruct (JS.truthy (JS.trimStart (String c s))) eqn:E; [|reflexivity].
  rewrite trimEnd_eq.
  pose proof (trimEnd_keeps_text _ E) as K. rewrite trimEnd_eq, E in K.
  rewrite K, IH. reflexivity.
Qed.

(** The bytes that continue a character start no white space. *)
Lemma N_of_ascii_inj (c : ascii) (n : N) : JS.byte c = n -> c = ascii_of_N n.
Proof. unfold JS.byte. intros <-. symmetry. apply ascii_N_embedding. Qed.

Lemma is_ws2_inv (c d : ascii) :
  JS.is_ws2 c d = true -> c = "194"%char /\ d = "160"%char.
Proof.
  unfold JS.is_ws2. intros H. apply andb_prop in H as [H1 H2].
  apply N.eqb_eq in H1, H2. apply N_of_ascii_inj in H1, H2. auto.
Qed.

Lemma is_ws3_inv (c d e : ascii) :
  JS.is_ws3 c d e = true ->
  (128 <= JS.byte d <= 191)%N /\ (128 <= JS.byte e <= 191)%N.
Proof.
  unfold JS.is_ws3. intros H.
  repeat match type of H with
  | (_ || _) = true => apply orb_prop in H as [H|H]
  end;
  repeat match goal with
  | H : (_ && _) = true |- _ => apply andb_prop in H as [? ?]
  | H : (_ || _) = true |- _ => apply orb_prop in H as [H|H]
  | H : (_ =? _)%N = true |- _ => apply N.eqb_eq in H
  | H : (_ <=? _)%N = true |- _ => apply N.leb_le in H
  end;
  split; lia.
Qed.

Lemma continuation_no_ws (d : ascii) (x : string) :
  (128 <= JS.byte d <= 191)%N -> JS.after_ws (String d x) = None.
Proof.
  intros H.
  assert (H1 : JS.is_ws d = false).
  { unfold JS.is_ws. unfold JS.byte, N_of_ascii in H. unfold nat_of_ascii.
    destruct (Nat.leb_spec 9 (N.to_nat (N_of_ascii d)));
      destruct (Nat.leb_spec (N.to_nat (N_of_ascii d)) 13);
      destruct (Nat.eqb_spec (N.to_nat (N_of_ascii d)) 32); cbn [andb orb];
      try reflexivity; unfold N_of_ascii in *; lia. }
  assert (H2 : forall y, JS.is_ws2 d y = false).
  { intros y. unfold JS.is_ws2. destruct (N.eqb_spec (JS.byte d) 194); [lia | reflexivity]. }
  assert (H3 : forall y z, JS.is_ws3 d y z = false).
  { intros y z. unfold JS.is_ws3.
    destruct (N.eqb_spec (JS.byte d) 225); [lia|].
    destruct (N.eqb_spec (JS.byte d) 226); [lia|].
    destruct (N.eqb_spec (JS.byte d) 227); [lia|].
    destruct (N.eqb_spec (JS.byte d) 239); [lia|]. reflexivity. }
  cbn [JS.after_ws]. rewrite H1.
  destruct x as [|y x]; [reflexivity|]. rewrite H2.
  destruct x as [|z x]; [reflexivity|]. rewrite H3. reflexivity.
Qed.

Lemma continuation_keeps (d : ascii) (x : string) :
  (128 <= JS.byte d <= 191)%N -> JS.trimEnd (String d x) = String d (JS.trimEnd x).
Proof.
  intros H. rewrite trimEnd_eq, (trimStart_no_ws _ (continuation_no_ws d x H)). reflexivity.
Qed.

(** When a string that is not blank starts with white space, [trimEnd]
    keeps that white space. *)
Lemma trimEnd_ws (s r : string) :
  JS.after_ws s = Some r -> JS.truthy (JS.trimStart s) = true ->
  exists w, s = w ++ r /\ JS.trimEnd s = w ++ JS.trimEnd r /\
            forall x, JS.after_ws (w ++ x) = Some x.
Proof.
  intros E Ht.
  destruct (after_ws_inv _ _ E)
    as [(c & -> & Hc)|[(c & d & -> & H1 & Hc)|(c & d & e & -> & H1 & H2 & Hc)]].
  - exists (String c EmptyString). split; [reflexivity|]. split.
    + rewrite trimEnd_eq, Ht. reflexivity.
    + intros x. rewrite append_cons, append_nil_l. cbn [JS.after_ws]. rewrite Hc. reflexivity.
  - exists (String c (String d EmptyString)). split; [reflexivity|].
    destruct (is_ws2_inv _ _ Hc) as [-> ->]. split.
    + rewrite trimEnd_eq, Ht. rewrite continuation_keeps by (vm_compute; split; discriminate).
      reflexivity.
    + intros x. reflexivity.
  - exists (String c (String d (String e EmptyString))). split; [reflexivity|].
    destruct (is_ws3_inv _ _ _ Hc) as (Hd & He). split.
    + rewrite trimEnd_eq, Ht. rewrite !continuation_keeps by assumption. reflexivity.
    + intros x. rewrite !append_cons, append_nil_l. cbn [JS.after_ws].
      rewrite H1, H2, Hc. reflexivity.
Qed.

Lemma after_ws_prefix_none (a b : string) : JS.after_ws (a ++ b) = None -> JS.after_ws a = None.
Proof.
  intros H. destruct (JS.after_ws a) as [r|] eqn:E; [|reflexivity].
  rewrite (after_ws_app _ _ b E) in H. discriminate.
Qed.

Lemma trimStart_trimEnd (s : string) :
  JS.trimStart (JS.trimEnd s) = JS.trimEnd (JS.trimStart s).
Proof.
  induction s as [s IH] using string_length_ind.
  destruct (JS.after_ws s) as [r|] eqn:E.
  - rewrite (trimStart_ws _ _ E), <- (IH r (after_ws_shorter _ _ E)).
    destruct (JS.truthy (JS.trimStart s)) eqn:Ht.
    + destruct (trimEnd_ws _ _ E Ht) as (w & _ & -> & Hw).
      apply trimStart_ws. apply Hw.
    + assert (Hs : JS.trimStart s = EmptyString)
        by (destruct (JS.trimStart s); [reflexivity | discriminate]).
      rewrite (trimEnd_blank _ Hs).
      rewrite (trimStart_ws _ _ E) in Hs. rewrite (trimEnd_blank _ Hs). reflexivity.
  - rewrite (trimStart_no_ws _ E). apply trimStart_no_ws.
    destruct (trimEnd_prefix s) as (b & Hb & _). rewrite Hb in E.
    exact (after_ws_prefix_none _ _ E).
Qed.

(** Trimming a trimmed string changes nothing. *)
Lemma trim_idem (s : string) : JS.trim (JS.trim s) = JS.trim s.
Proof.
  unfold JS.trim.
  rewrite (trimStart_trimEnd (JS.trimStart s)), trimStart_idem, trimEnd_idem. reflexivity.
Qed.

Lemma trim_trimStart (s : string) : JS.trim (JS.trimStart s) = JS.trim s.
Proof. unfold JS.trim. rewrite trimStart_idem. reflexivity. Qed.

Lemma trim_trimEnd (s : string) : JS.trim (JS.trimEnd s) = JS.trim s.
Proof. unfold JS.trim. rewrite trimStart_trimEnd, trimEnd_idem. reflexivity. Qed.

(** A trimmed string neither starts nor ends with white space. *)
Lemma trim_head (s : string) : JS.after_ws (JS.trim s) = None.
Proof.
  unfold JS.trim. destruct (trimEnd_prefix (JS.trimStart s)) as (b & Hb & _).
  apply (after_ws_prefix_none _ b). rewrite <- Hb. apply trimStart_head.
Qed.

Lemma includes_append_false (c : ascii) (a b : string) :
  JS.includes c (a ++ b) = false -> JS.includes c a = false /\ JS.includes c b = false.
Proof.
  induction a as [|d a IH]; [rewrite append_nil_l; auto|].
  rewrite append_cons. cbn [JS.includes]. destruct (Ascii.eqb c d); [discriminate | exact IH].
Qed.

Lemma includes_trimStart (c : ascii) (s : string) :
  JS.includes c s = false -> JS.includes c (JS.trimStart s) = false.
Proof.
  intros H. destruct (trimStart_suffix s) as [a Ha]. rewrite Ha in H.
  exact (proj2 (includes_append_false _ _ _ H)).
Qed.

Lemma includes_trimEnd (c : ascii) (s : string) :
  JS.includes c s = false -> JS.includes c (JS.trimEnd s) = false.
Proof.
  intros H. destruct (trimEnd_prefix s) as (b & Hb & _). rewrite Hb in H.
  exact (proj1 (includes_append_false _ _ _ H)).
Qed.

Lemma includes_trim (c : ascii) (s : string) :
  JS.includes c s = false -> JS.includes c (JS.trim s) = false.
Proof. intros H. apply includes_trimEnd, includes_trimStart. exact H. Qed.

(** A one-byte character that is not white space stops the trimming on
    either side. *)
Lemma after_ws_stop (a r : string) (c : ascii) :
  (JS.byte c < 128)%N -> JS.is_ws c = false ->
  JS.after_ws a = None -> JS.after_ws (a ++ String c r) = None.
Proof.
  intros Hb Hc.
  assert (H2 : forall x, JS.is_ws2 x c = false).
  { intros x. unfold JS.is_ws2. destruct (N.eqb_spec (JS.byte c) 160); [lia|].
    apply andb_false_r. }
  assert (H3 : forall x y, JS.is_ws3 x c y = false).
  { intros x y. unfold JS.is_ws3.
    destruct (N.eqb_spec (JS.byte c) 154); [lia|]. destruct (N.eqb_spec (JS.byte c) 128); [lia|].
    destruct (N.eqb_spec (JS.byte c) 129); [lia|]. destruct (N.eqb_spec (JS.byte c) 187); [lia|].
    rewrite !andb_false_r. reflexivity. }
  assert (H4 : forall x y, JS.is_ws3 x y c = false).
  { intros x y. unfold JS.is_ws3.
    destruct (N.eqb_spec (JS.byte c) 128); [lia|]. destruct (N.eqb_spec (JS.byte c) 168); [lia|].
    destruct (N.eqb_spec (JS.byte c) 169); [lia|]. destruct (N.eqb_spec (JS.byte c) 175); [lia|].
    destruct (N.eqb_spec (JS.byte c) 159); [lia|]. destruct (N.eqb_spec (JS.byte c) 191); [lia|].
    destruct (N.leb_spec 128 (JS.byte c)); [lia|].
    cbn [andb orb]. rewrite !andb_false_r. reflexivity. }
  destruct a as [|x [|y [|z a]]]; rewrite ?append_cons, ?append_nil_l; cbn [JS.after_ws].
  - intros _. rewrite Hc. destruct r as [|y r]; [reflexivity|].
    assert (E2 : JS.is_ws2 c y = false).
    { unfold JS.is_ws2. destruct (N.eqb_spec (JS.byte c) 194); [lia | reflexivity]. }
    rewrite E2. destruct r as [|z r]; [reflexivity|].
    unfold JS.is_ws3.
    destruct (N.eqb_spec (JS.byte c) 225); [lia|]. destruct (N.eqb_spec (JS.byte c) 226); [lia|].
    destruct (N.eqb_spec (JS.byte c) 227); [lia|]. destruct (N.eqb_spec (JS.byte c) 239); [lia|].
    reflexivity.
  - destruct (JS.is_ws x); [discriminate|]. intros _. rewrite H2.
    destruct r as [|y r]; [reflexivity|]. rewrite H3. reflexivity.
  - destruct (JS.is_ws x); [discriminate|]. destruct (JS.is_ws2 x y); [discriminate|].
    intros _. rewrite H4. reflexivity.
  - destruct (JS.is_ws x); [discriminate|]. destruct (JS.is_ws2 x y); [discriminate|].
    destruct (JS.is_ws3 x y z); [discriminate | reflexivity].
Qed.

Lemma trimStart_stop (a r : string) (c : ascii) :
  (JS.byte c < 128)%N -> JS.is_ws c = false ->
  JS.trimStart (a ++ String c r) = JS.trimStart a ++ String c r.
Proof.
  intros Hb Hc. induction a as [a IH] using string_length_ind.
  destruct (JS.after_ws a) as [t|] eqn:E.
  - rewrite (trimStart_ws _ _ (after_ws_app _ _ _ E)), (trimStart_ws _ _ E).
    apply IH. exact (after_ws_shorter _ _ E).
  - rewrite (trimStart_no_ws _ E). apply trimStart_no_ws, after_ws_stop; assumption.
Qed.

Lemma trimEnd_stop (a r : string) (c : ascii) :
  (JS.byte c < 128)%N -> JS.is_ws c = false ->
  JS.trimEnd (a ++ String c r) = a ++ String c (JS.trimEnd r).
Proof.
  intros Hb Hc.
  assert (Ht : forall t, JS.truthy (JS.trimStart (t ++ String c r)) = true).
  { intros t. rewrite trimStart_stop by assumption. apply truthy_append_r. reflexivity. }
  induction a as [|d a IH].
  - rewrite !append_nil_l. rewrite trimEnd_eq.
    pose proof (Ht EmptyString) as H0. rewrite append_nil_l in H0. rewrite H0. reflexivity.
  - rewrite !append_cons. rewrite trimEnd_eq.
    pose proof (Ht (String d a)) as H0. rewrite append_cons in H0. rewrite H0, IH.
    reflexivity.
Qed.

Lemma trim_stop (a r : string) (c : ascii) :
  (JS.byte c < 128)%N -> JS.is_ws c = false ->
  JS.trim (a ++ String c r) = JS.trimStart a ++ String c (JS.trimEnd r).
Proof.
  intros Hb Hc. unfold JS.trim. rewrite trimStart_stop by assumption.
  apply trimEnd_stop; assumption.
Qed.

Lemma or_else_empty (s : string) : JS.or_else s "" = s.
Proof. destruct s; reflexivity. Qed.

Lemma or_else_of_empty (s : string) : JS.or_else "" s = s.
Proof. reflexivity. Qed.

(** ** Name decomposition in general *)

(** The decomposition never throws: a full name with a comma always splits
    into two pieces at least. *)
Lemma parse_name_total (fullName lastName firstName middleName : option string) :
  exists p, parse_name fullName lastName firstName middleName = Ok p.
Proof.
  unfold parse_name.
  destruct (_ && _ && _); [|eauto].
  destruct (JS.includes "," (trim_field fullName)) eqn:Hinc; [|eauto].
  unfold JS.split.
  destruct (split_on_two ","%char (trim_field fullName) EmptyString Hinc) as (p & q & rest & ->).
  cbn [List.map]. eauto.
Qed.

Lemma parse_name_comma (f a b : string) (tail : list string) :
  JS.truthy f = true -> JS.includes "," (JS.trim f) = true ->
  List.map JS.trim (JS.split "," (JS.trim f)) = JS.trim a :: JS.trim b :: tail ->
  parse_name (Some f) None None None =
    Ok (mkName (JS.trim a)
          (List.hd "" (JS.filter_Boolean (JS.split_ws (JS.trim b))))
          (JS.join " " (JS.slice1 (JS.filter_Boolean (JS.split_ws (JS.trim b)))))).
Proof.
  intros Hf Hinc Hsplit. unfold parse_name.
  change (trim_field None) with EmptyString. cbn [lastName firstName middleName JS.truthy negb orb andb JS.truthy_opt].
  unfold trim_field. rewrite Hf, (includes_truthy _ _ Hinc), Hinc. cbn [andb].
  rewrite Hsplit. rewrite !or_else_of_empty, !or_else_empty. reflexivity.
Qed.

Lemma text_for_plain (method : string) (v : option JSON.value) :
  plain_field v = true -> exists t, text_for method v = Ok t.
Proof.
  unfold plain_field, text_for. destruct v as [[]|]; intros H; eauto;
    apply negb_true_iff in H; rewrite H; eauto.
Qed.

Lemma text_for_not_plain (method : string) (v : option JSON.value) :
  plain_field v = false -> text_for method v = Throw (JSON.not_a_function method).
Proof.
  unfold plain_field, text_for. destruct v as [[]|]; intros H; try discriminate;
    apply negb_false_iff in H; rewrite H; reflexivity.
Qed.

(** The names of a body are computed when its four name fields are texts,
    and only then. *)
Lemma body_names_cases (body : gmap string JSON.value) :
  if plain_field (body !! "lastName") && plain_field (body !! "firstName")
     && plain_field (body !! "middleName") && plain_field (body !! "fullName")
  then exists names, body_names body = Ok names
  else body_names body = Throw (JSON.not_a_function (or_empty "s" ++ ".trim")).
Proof.
  unfold body_names.
  destruct (plain_field (body !! "lastName")) eqn:H1; cbn [andb];
    [destruct (text_for_plain (or_empty "s" ++ ".trim") _ H1) as [ln ->]
    |rewrite (text_for_not_plain _ _ H1); reflexivity].
  cbn [bind].
  destruct (plain_field (body !! "firstName")) eqn:H2; cbn [andb];
    [destruct (text_for_plain (or_empty "s" ++ ".trim") _ H2) as [fn ->]
    |rewrite (text_for_not_plain _ _ H2); reflexivity].
  cbn [bind].
  destruct (plain_field (body !! "middleName")) eqn:H3; cbn [andb];
    [destruct (text_for_plain (or_empty "s" ++ ".trim") _ H3) as [mn ->]
    |rewrite (text_for_not_plain _ _ H3); reflexivity].
  cbn [bind].
  destruct (plain_field (body !! "fullName")) eqn:H4; cbn [andb];
    [destruct (text_for_plain (or_empty "s" ++ ".trim") _ H4) as [full ->]
    |rewrite (text_for_not_plain _ _ H4); reflexivity].
  cbn [bind].
  destruct (parse_name_total (Some full) (Some ln) (Some fn) (Some mn)) as [parsed ->].
  cbn [bind]. eauto.
Qed.

(** X23. Name decomposition fails only for a name field that is not a text.
    When each of [lastName], [firstName], [middleName] and [fullName] is a
    string, absent or falsy, the names are computed; when one of them is a
    truthy value that is no string, [trim] throws a TypeError. On texts the
    decomposition never fails, and with a comma the last name is the trimmed
    text before the first comma, the first name the first word of the text
    between the first and the second comma and the middle name the other
    words of that text; whatever follows a second comma is dropped. *)
Theorem X23_name_parsing_fails_only_on_non_text :
  (forall body : gmap string JSON.value,
     if plain_field (body !! "lastName") && plain_field (body !! "firstName")
        && plain_field (body !! "middleName") && plain_field (body !! "fullName")
     then exists names, body_names body = Ok names
     else exists msg, body_names body = Throw (TypeError msg)) /\
  (forall fullName lastName firstName middleName,
     exists p, parse_name fullName lastName firstName middleName = Ok p) /\
  (forall a b c,
     JS.includes "," a = false -> JS.includes "," b = false ->
     let words := JS.filter_Boolean (JS.split_ws (JS.trim b)) in
     parse_name (Some (a ++ "," ++ b)) None None None =
       Ok (mkName (JS.trim a) (List.hd "" words) (JS.join " " (JS.slice1 words))) /\
     parse_name (Some (a ++ "," ++ b ++ "," ++ c)) None None None =
       parse_name (Some (a ++ "," ++ b)) None None None).
Proof.
  split.
  { intros body. pose proof (body_names_cases body) as H.
    destruct (_ && _ && _ && _); [exact H | eexists; exact H]. }
  split; [exact parse_name_total|].
  intros a b c Ha Hb words.
  assert (Hcomma : JS.is_ws ","%char = false) by reflexivity.
  assert (Hbyte : (JS.byte ","%char < 128)%N) by reflexivity.
  assert (H1 : parse_name (Some (a ++ "," ++ b)) None None None =
               Ok (mkName (JS.trim a) (List.hd "" words) (JS.join " " (JS.slice1 words)))).
  { apply (parse_name_comma _ a b []).
    - apply truthy_append_r. reflexivity.
    - change (a ++ "," ++ b) with (a ++ String ","%char b).
      rewrite trim_stop by first [exact Hbyte | exact Hcomma]. apply includes_app.
    - change (a ++ "," ++ b) with (a ++ String ","%char b).
      rewrite trim_stop by first [exact Hbyte | exact Hcomma]. unfold JS.split.
      rewrite split_on_app by (apply includes_trimStart; exact Ha).
      rewrite split_on_no_sep by (apply includes_trimEnd; exact Hb).
      rewrite !append_nil_l. cbn [List.map]. rewrite trim_trimStart, trim_trimEnd.
      reflexivity. }
  split; [exact H1|]. rewrite H1.
  apply (parse_name_comma _ a b
           (List.map JS.trim (JS.split_on ","%char (JS.trimEnd c) EmptyString))).
  - apply truthy_append_r. reflexivity.
  - change (a ++ "," ++ b ++ "," ++ c) with (a ++ String ","%char (b ++ String ","%char c)).
    rewrite trim_stop by first [exact Hbyte | exact Hcomma]. apply includes_app.
  - change (a ++ "," ++ b ++ "," ++ c) with (a ++ String ","%char (b ++ String ","%char c)).
    rewrite trim_stop, trimEnd_stop by first [exact Hbyte | exact Hcomma]. unfold JS.split.
    rewrite split_on_app by (apply includes_trimStart; exact Ha).
    rewrite split_on_app by exact Hb.
    rewrite !append_nil_l. cbn [List.map]. rewrite trim_trimStart. reflexivity.
Qed.

Lemma X23_witness :
  parse_name (Some ("Dela Cruz" ++ "," ++ " Juan Miguel" ++ "," ++ " Jr.")) None None None =
    Ok (mkName "Dela Cruz" "Juan" "Miguel") /\
  body_names {[ "fullName" := JSON.JString "Dela Cruz, Juan Miguel" ]} =
    Ok (mkName "Dela Cruz" "Juan" "Miguel", "Dela Cruz, Juan Miguel") /\
  body_names {[ "fullName" := JSON.JString "Dela Cruz, Juan"; "lastName" := JSON.JNumber 7 ]} =
    Throw (JSON.not_a_function (or_empty "s" ++ ".trim")).
Proof.
  split; [|split; vm_compute; reflexivity].
  rewrite (proj2 (proj2 (proj2 X23_name_parsing_fails_only_on_non_text) "Dela Cruz"
                    " Juan Miguel" " Jr." eq_refl eq_refl)).
  reflexivity.
Defined.

(** ** Names without a comma *)

Lemma no_ws_before_weaken (cur s : string) : no_ws_before cur s = true -> no_ws cur = true.
Proof.
  induction cur as [|c cur IH]; [reflexivity|]. cbn [no_ws_before no_ws].
  intros H. apply andb_prop in H as [H1 H2]. rewrite (IH H2), andb_true_r.
  destruct (JS.after_ws (String c cur ++ s)) eqn:E; [discriminate|].
  rewrite (after_ws_prefix_none _ _ E). reflexivity.
Qed.

Lemma no_ws_before_snoc (cur r : string) (c : ascii) :
  no_ws_before cur (String c r) = true -> JS.after_ws (String c r) = None ->
  no_ws_before (cur ++ String c EmptyString) r = true.
Proof.
  intros H Hc. induction cur as [|x cur IH].
  - rewrite append_nil_l. cbn [no_ws_before]. rewrite append_cons, append_nil_l, Hc. reflexivity.
  - cbn [no_ws_before] in H. apply andb_prop in H as [H1 H2].
    rewrite append_cons. cbn [no_ws_before]. rewrite (IH H2), andb_true_r.
    assert (E : String x (cur ++ String c EmptyString) ++ r = String x cur ++ String c r).
    { rewrite !append_cons, append_assoc. reflexivity. }
    rewrite E.
    destruct (JS.after_ws (String x cur ++ String c r)); [discriminate | reflexivity].
Qed.

Lemma split_ws_from_eq (s cur : string) (insep : bool) :
  JS.split_ws_from s cur insep =
    match JS.after_ws s with
    | Some rest =>
        if insep then JS.split_ws_from rest cur true
        else cur :: JS.split_ws_from rest EmptyString true
    | None =>
        match s with
        | EmptyString => [cur]
        | String c r => JS.split_ws_from r (cur ++ String c EmptyString) false
        end
    end.
Proof.
  destruct s as [|c s]; [reflexivity|]. cbn [JS.split_ws_from JS.after_ws].
  destruct (JS.is_ws c); [reflexivity|].
  destruct s as [|d s]; [reflexivity|].
  destruct (JS.is_ws2 c d); [reflexivity|].
  destruct s as [|e s]; [reflexivity|].
  destruct (JS.is_ws3 c d e); reflexivity.
Qed.

(** The pieces of a split on white space hold no white space. *)
Lemma split_ws_from_no_ws (s cur : string) (insep : bool) :
  no_ws_before cur s = true -> (insep = true -> cur = EmptyString) ->
  Forall (fun p => no_ws p = true) (JS.split_ws_from s cur insep).
Proof.
  revert cur insep. induction s as [s IH] using string_length_ind.
  intros cur insep Hcur Hsep. rewrite split_ws_from_eq.
  destruct (JS.after_ws s) as [rest|] eqn:E.
  - pose proof (after_ws_shorter _ _ E) as Hlt. destruct insep.
    + rewrite (Hsep eq_refl). apply IH; [exact Hlt | reflexivity | reflexivity].
    + constructor; [exact (no_ws_before_weaken _ _ Hcur)|].
      apply IH; [exact Hlt | reflexivity | reflexivity].
  - destruct s as [|c r].
    + constructor; [exact (no_ws_before_weaken _ _ Hcur) | constructor].
    + apply IH; [cbn [String.length]; lia | | discriminate].
      apply no_ws_before_snoc; assumption.
Qed.

(** A piece being read is never lost: the words of a split are not empty
    when a word has been started. *)
Lemma split_ws_from_started (s cur : string) (insep : bool) :
  JS.truthy cur = true -> JS.filter_Boolean (JS.split_ws_from s cur insep) <> [].
Proof.
  revert cur insep. induction s as [s IH] using string_length_ind.
  intros cur insep Hcur. rewrite split_ws_from_eq.
  destruct (JS.after_ws s) as [rest|] eqn:E.
  - destruct insep.
    + apply IH; [exact (after_ws_shorter _ _ E) | exact Hcur].
    + unfold JS.filter_Boolean. cbn [List.filter]. rewrite Hcur. discriminate.
  - destruct s as [|c r].
    + unfold JS.filter_Boolean. cbn [List.filter]. rewrite Hcur. discriminate.
    + apply IH; [cbn [String.length]; lia|]. apply truthy_append_r. reflexivity.
Qed.

Lemma filter_Boolean_truthy (l : list string) :
  Forall (fun p => JS.truthy p = true) (JS.filter_Boolean l).
Proof.
  unfold JS.filter_Boolean. induction l as [|x l IH]; cbn [List.filter]; [constructor|].
  destruct (JS.truthy x) eqn:Hx; [constructor; assumption | exact IH].
Qed.

Lemma filter_Boolean_no_ws (l : list string) :
  Forall (fun p => no_ws p = true) l -> Forall (fun p => no_ws p = true) (JS.filter_Boolean l).
Proof.
  unfold JS.filter_Boolean. induction 1 as [|x l Hx _ IH]; cbn [List.filter]; [constructor|].
  destruct (JS.truthy x); [constructor; assumption | exact IH].
Qed.

(** The words of a non-blank trimmed name: at least one, none empty, none
    with white space. *)
Lemma words_of_name (f : string) :
  JS.truthy (JS.trim f) = true ->
  let parts := JS.filter_Boolean (JS.split_ws (JS.trim f)) in
  parts <> [] /\ Forall (fun p => JS.truthy p = true /\ no_ws p = true) parts.
Proof.
  intros Hf parts. split.
  - unfold parts, JS.split_ws. rewrite split_ws_from_eq, trim_head.
    destruct (JS.trim f) as [|c r]; [discriminate|].
    apply split_ws_from_started. reflexivity.
  - apply Forall_and. split; [apply filter_Boolean_truthy|].
    apply filter_Boolean_no_ws, split_ws_from_no_ws; [reflexivity | discriminate].
Qed.

Lemma join_truthy (sep x : string) (l : list string) :
  JS.truthy x = true -> JS.truthy (JS.join sep (x :: l)) = true.
Proof.
  intros Hx. destruct l as [|y l]; cbn [JS.join]; [exact Hx | apply truthy_append_l; exact Hx].
Qed.

Lemma join_snoc (sep y : string) (l : list string) :
  l <> [] -> JS.join sep (l ++ [y]) = JS.join sep l ++ sep ++ y.
Proof.
  induction l as [|x l IH]; [congruence|]. intros _.
  destruct l as [|x' l].
  - reflexivity.
  - change ((x :: x' :: l) ++ [y])%list with (x :: (x' :: l) ++ [y])%list.
    change (JS.join sep (x :: (x' :: l) ++ [y])%list)
      with (x ++ sep ++ JS.join sep ((x' :: l) ++ [y])%list).
    rewrite IH by discriminate.
    change (JS.join sep (x :: x' :: l)) with (x ++ sep ++ JS.join sep (x' :: l)).
    rewrite !append_assoc. reflexivity.
Qed.

(** A list of two words or more: its first word, the words between, its
    last word. *)
Lemma first_middle_last (l : list string) :
  (2 <= List.length l)%nat ->
  exists x mid y, l = (x :: mid ++ [y])%list.
Proof.
  intros H. destruct l as [|x l]; [cbn in H; lia|].
  destruct (@List.exists_last _ l) as (mid & y & ->); [destruct l; [cbn in H; lia | discriminate]|].
  eauto.
Qed.

(** X24. A full name without a comma and not blank always gives a first and
    a last name that are not empty: the first and the last of its words (the
    same word when there is one only, the middle name then being empty). With
    two words or more, the three parts put together with single spaces are
    the name with every run of white space made one space; and the composed
    full name is the trimmed name as given. *)
Theorem X24_names_without_a_comma (f : string) :
  JS.truthy (JS.trim f) = true -> JS.includes "," (JS.trim f) = false ->
  let parts := JS.filter_Boolean (JS.split_ws (JS.trim f)) in
  exists p,
    parse_name (Some f) None None None = Ok p /\
    firstName p = List.hd "" parts /\ lastName p = JS.last_elt parts /\
    JS.truthy (firstName p) = true /\ JS.truthy (lastName p) = true /\
    no_ws (firstName p) = true /\ no_ws (lastName p) = true /\
    (List.length parts = 1%nat -> middleName p = "" /\ firstName p = lastName p) /\
    ((2 <= List.length parts)%nat ->
     JS.join " " (JS.filter_Boolean [firstName p; middleName p; lastName p]) =
       JS.join " " parts) /\
    composedFullName (Some f) p = JS.trim f.
Proof.
  intros Hf Hinc parts.
  destruct (words_of_name f Hf) as [Hne Hall]. fold parts in Hne, Hall.
  assert (Htf : JS.truthy f = true).
  { destruct f; [discriminate | reflexivity]. }
  assert (Hlen : (0 <? List.length parts)%nat = true).
  { destruct parts; [congruence | reflexivity]. }
  eexists. split.
  { unfold parse_name. change (trim_field None) with EmptyString.
    cbn [lastName firstName middleName JS.truthy negb orb andb JS.truthy_opt].
    unfold trim_field. rewrite Htf, Hf, Hinc. cbn [andb]. fold parts.
    rewrite Hlen, !or_else_of_empty. reflexivity. }
  cbn [firstName lastName middleName].
  split; [reflexivity|]. split; [reflexivity|].
  assert (Hhd : JS.truthy (List.hd "" parts) = true /\ no_ws (List.hd "" parts) = true).
  { destruct parts as [|x l]; [congruence|]. apply Forall_cons_1 in Hall as [Hx _]. exact Hx. }
  assert (Hlast : JS.truthy (JS.last_elt parts) = true /\ no_ws (JS.last_elt parts) = true).
  { unfold JS.last_elt. destruct (@List.exists_last _ parts Hne) as (l & y & E).
    rewrite E in Hall |- *. rewrite List.last_last.
    apply Forall_app in Hall as [_ Hy]. apply Forall_cons_1 in Hy as [Hy _]. exact Hy. }
  split; [apply Hhd|]. split; [apply Hlast|]. split; [apply Hhd|]. split; [apply Hlast|].
  split; [|split].
  - intros H1. destruct parts as [|x [|y l]]; cbn in H1; try lia. split; reflexivity.
  - intros H2. destruct (first_middle_last parts H2) as (x & mid & y & E).
    revert Hall. rewrite E. intros Hall.
    apply Forall_cons_1 in Hall as [[Hx _] Hall].
    apply Forall_app in Hall as [Hmid Hy]. apply Forall_cons_1 in Hy as [[Hy _] _].
    unfold JS.last_elt, JS.slice1_m1. cbn [List.hd List.tl].
    change (List.last (x :: mid ++ [y])%list "") with (List.last ((x :: mid) ++ [y])%list "").
    rewrite List.last_last, List.removelast_last.
    cbn [List.length]. rewrite List.length_app. cbn [List.length].
    destruct mid as [|m mid].
    + cbn. rewrite Hx, Hy. reflexivity.
    + replace (2 <? S (List.length (m :: mid) + 1))%nat with true
        by (symmetry; apply Nat.ltb_lt; cbn [List.length]; lia).
      apply Forall_cons_1 in Hmid as [[Hm _] _].
      unfold JS.filter_Boolean. cbn [List.filter].
      rewrite Hx, Hy, (join_truthy " " m mid Hm).
      change (x :: (m :: mid) ++ [y])%list with (x :: m :: (mid ++ [y]))%list.
      change (JS.join " " (x :: m :: (mid ++ [y]))%list)
        with (x ++ " " ++ JS.join " " ((m :: mid) ++ [y])%list).
      rewrite join_snoc by discriminate. reflexivity.
  - unfold composedFullName, trim_field. unfold JS.or_else. rewrite Hf. reflexivity.
Qed.

Lemma X24_witness :
  (exists p,
     parse_name (Some "  Maria   Clara  de los  Santos ") None None None = Ok p /\
     firstName p = "Maria" /\ lastName p = "Santos" /\
     JS.join " " (JS.filter_Boolean [firstName p; middleName p; lastName p]) =
       "Maria Clara de los Santos") /\
  (exists p,
     parse_name (Some ("Juan" ++ JS.NBSP ++ "Dela Cruz" ++ JS.NBSP)) None None None = Ok p /\
     firstName p = "Juan" /\ middleName p = "Dela" /\ lastName p = "Cruz").
Proof.
  split.
  - destruct (X24_names_without_a_comma "  Maria   Clara  de los  Santos " eq_refl eq_refl)
      as (p & H1 & H2 & H3 & _ & _ & _ & _ & _ & H4 & _).
    exists p. split; [exact H1|]. split; [exact H2|]. split; [exact H3|].
    apply H4. vm_compute. lia.
  - destruct (X24_names_without_a_comma ("Juan" ++ JS.NBSP ++ "Dela Cruz" ++ JS.NBSP)
                eq_refl eq_refl)
      as (p & H1 & H2 & H3 & _).
    exists p. split; [exact H1|]. split; [exact H2|]. split; [|exact H3].
    vm_compute in H1. injection H1 as <-. reflexivity.
Defined.







(** ** The cross-origin policy *)

Lemma includes_snoc (c d : ascii) (s : string) :
  JS.includes c (s ++ String d EmptyString) = JS.includes c s || Ascii.eqb c d.
Proof.
  induction s as [|e s IH].
  - rewrite append_nil_l. cbn [JS.includes orb]. destruct (Ascii.eqb c d); reflexivity.
  - rewrite append_cons. cbn [JS.includes]. destruct (Ascii.eqb c e); [reflexivity | exact IH].
Qed.

(** No piece of a split holds the separator. *)
Lemma split_on_pieces (c : ascii) (s cur : string) :
  JS.includes c cur = false ->
  Forall (fun p => JS.includes c p = false) (JS.split_on c s cur).
Proof.
  revert cur. induction s as [|d s IH]; intros cur Hcur; cbn [JS.split_on].
  - constructor; [exact Hcur | constructor].
  - destruct (Ascii.eqb c d) eqn:E.
    + constructor; [exact Hcur | apply IH; reflexivity].
    + apply IH. rewrite includes_snoc, Hcur, E. reflexivity.
Qed.

Lemma allowedOrigins_entries (raw : option string) :
  Forall (fun o => JS.truthy o = true /\ JS.trim o = o /\ JS.includes "," o = false)
    (allowedOrigins raw).
Proof.
  unfold allowedOrigins, JS.filter_Boolean, JS.split.
  pose proof (split_on_pieces ","%char (env_text raw) EmptyString eq_refl) as H.
  induction H as [|p l Hp _ IH]; cbn [List.map List.filter]; [constructor|].
  destruct (JS.truthy (JS.trim p)) eqn:Ht; [|exact IH].
  constructor; [|exact IH].
  split; [exact Ht|]. split; [apply trim_idem | apply includes_trim; exact Hp].
Qed.

(** X26. Every origin of the allow list is a non-empty text without a comma
    and without white space at either end, whatever [CORS_ORIGINS] holds; an
    origin of the list is let through, and so is a request without origin. *)
Theorem X26_allowed_origins_are_clean (CORS_ALLOW_ALL CORS_ORIGINS : option string) :
  Forall (fun o => JS.truthy o = true /\ JS.trim o = o /\ JS.includes "," o = false /\
                   cors_origin CORS_ALLOW_ALL CORS_ORIGINS (Some o) = true)
    (allowedOrigins CORS_ORIGINS) /\
  cors_origin CORS_ALLOW_ALL CORS_ORIGINS None = true.
Proof.
  split; [|reflexivity].
  apply Forall_forall. intros o Hin.
  pose proof (allowedOrigins_entries CORS_ORIGINS) as H.
  rewrite Forall_forall in H. destruct (H o Hin) as (H1 & H2 & H3).
  split; [exact H1|]. split; [exact H2|]. split; [exact H3|].
  unfold cors_origin. cbn [JS.truthy_opt]. rewrite H1. cbn [negb].
  destruct (match CORS_ALLOW_ALL with Some v => String.eqb v "true" | None => false end);
    [reflexivity|].
  destruct (List.length (allowedOrigins CORS_ORIGINS) =? 0)%nat; [reflexivity|].
  apply List.existsb_exists. exists o. split; [apply list_elem_of_In; exact Hin|].
  apply String.eqb_refl.
Qed.

Lemma X26_witness :
  let raw := "https://a.example" ++ JS.NBSP ++ ", https://b.example" in
  allowedOrigins (Some raw) = ["https://a.example"; "https://b.example"] /\
  cors_origin None (Some raw) (Some "https://a.example") = true /\
  cors_origin None (Some raw) (Some ("https://a.example" ++ JS.NBSP)) = false.
Proof.
  intros raw.
  pose proof (proj1 (X26_allowed_origins_are_clean None (Some raw))) as H.
  change (allowedOrigins (Some raw)) with ["https://a.example"; "https://b.example"] in H.
  apply Forall_cons_1 in H as [(_ & _ & _ & H) _].
  split; [reflexivity|]. split; [exact H | reflexivity].
Defined.

(** A text of commas and white space splits into blank pieces. *)
Lemma split_on_blank (s cur : string) :
  only_separators s = true -> JS.trimStart cur = EmptyString ->
  Forall (fun p => JS.trim p = EmptyString) (JS.split_on ","%char s cur).
Proof.
  revert cur. induction s as [|d s IH]; intros cur Hs Hcur;
    cbn [JS.split_on only_separators] in *.
  - constructor; [|constructor]. unfold JS.trim. rewrite Hcur. reflexivity.
  - apply andb_prop in Hs as [Hd Hs].
    rewrite (Ascii.eqb_sym d) in Hd.
    destruct (Ascii.eqb ","%char d).
    + constructor; [|apply IH; [exact Hs | reflexivity]].
      unfold JS.trim. rewrite Hcur. reflexivity.
    + cbn [orb] in Hd. apply IH; [exact Hs|].
      rewrite trimStart_blank_then by exact Hcur.
      rewrite trimStart_eq. cbn [JS.after_ws]. rewrite Hd. reflexivity.
Qed.

(** X27. When [CORS_ORIGINS] is unset, empty or made of commas and white
    space only, the allow list is empty and every origin is let through. *)
Theorem X27_no_configured_origin_allows_every_origin
    (CORS_ALLOW_ALL CORS_ORIGINS origin : option string) :
  only_separators (default "" CORS_ORIGINS) = true ->
  allowedOrigins CORS_ORIGINS = [] /\
  cors_origin CORS_ALLOW_ALL CORS_ORIGINS origin = true.
Proof.
  intros Hs.
  assert (Hnil : allowedOrigins CORS_ORIGINS = []).
  { unfold allowedOrigins, JS.filter_Boolean, JS.split, env_text. rewrite or_else_empty.
    pose proof (split_on_blank (default "" CORS_ORIGINS) EmptyString Hs eq_refl) as H.
    induction H as [|p l Hp _ IH]; cbn [List.map List.filter]; [reflexivity|].
    rewrite Hp. exact IH. }
  split; [exact Hnil|]. unfold cors_origin. rewrite Hnil.
  destruct (negb (JS.truthy_opt origin)); [reflexivity|].
  destruct (match CORS_ALLOW_ALL with Some v => String.eqb v "true" | None => false end);
    reflexivity.
Qed.

Lemma X27_witness :
  allowedOrigins (Some " , ,") = [] /\
  cors_origin None (Some " , ,") (Some "https://evil.example") = true /\
  cors_origin None (Some "https://app.example") (Some "https://evil.example") = false.
Proof.
  pose proof (X27_no_configured_origin_allows_every_origin None (Some " , ,")
                (Some "https://evil.example") eq_refl) as [H1 H2].
  split; [exact H1|]. split; [exact H2 | reflexivity].
Defined.

(** ** The mail transport *)

(** X28. A mail transport is configured exactly when [EMAIL_USER] and
    [EMAIL_PASS] are both set to something other than white space: a host or
    a service alone configures nothing. With the credentials and neither host
    nor service the transport is Gmail's, on port 465 with TLS. Once a
    transport exists [ensureTransporter] returns it and does not read the
    environment again. *)
Theorem X28_mail_is_configured_by_the_credentials (env : mail_settings) :
  let user := JS.trim (default "" (EMAIL_USER env)) in
  let pass := JS.trim (default "" (EMAIL_PASS env)) in
  (ensureTransporter env None = None <-> JS.truthy user && JS.truthy pass = false) /\
  (JS.truthy user && JS.truthy pass = true ->
   JS.truthy_opt (EMAIL_HOST env) = false -> JS.truthy_opt (EMAIL_SERVICE env) = false ->
   ensureTransporter env None =
     Some (HostTransport "smtp.gmail.com" (JS.Finite 465) true user pass)) /\
  (forall (env' : mail_settings) (t : transport),
     ensureTransporter env' (ensureTransporter env (Some t)) = Some t).
Proof.
  intros user pass. unfold ensureTransporter, configure_transport, env_text.
  rewrite !or_else_empty. fold user. fold pass.
  split; [|split].
  - destruct (JS.truthy user), (JS.truthy pass); cbn [andb];
      rewrite ?andb_true_r, ?andb_false_r;
      destruct (JS.truthy_opt (EMAIL_HOST env)), (JS.truthy_opt (EMAIL_SERVICE env));
      cbn [andb]; split; intros H; try reflexivity; try discriminate.
  - intros Hc Hh Hsv. apply andb_prop in Hc as [Hu Hp].
    rewrite Hu, Hp, Hh, Hsv. reflexivity.
  - reflexivity.
Qed.

Lemma X28_witness :
  ensureTransporter
    (mkMailSettings (Some "smtp.x.com") (Some JS.NBSP) (Some (" " ++ JS.NBSP)) None None None)
    None = None /\
  ensureTransporter
    (mkMailSettings None (Some (" ovx@x.com" ++ JS.NBSP)) (Some "secret") None None None)
    None = Some (HostTransport "smtp.gmail.com" (JS.Finite 465) true "ovx@x.com" "secret").
Proof.
  split.
  - apply (proj1 (X28_mail_is_configured_by_the_credentials
                    (mkMailSettings (Some "smtp.x.com") (Some JS.NBSP) (Some (" " ++ JS.NBSP))
                       None None None))).
    reflexivity.
  - apply (proj1 (proj2 (X28_mail_is_configured_by_the_credentials
                           (mkMailSettings None (Some (" ovx@x.com" ++ JS.NBSP)) (Some "secret")
                              None None None)))); reflexivity.
Defined.

(** ** The cascade of unarchiving, and the validity of a token *)

(** X29. Unarchiving an account reaches the inventory records by the email
    its profile stores: every record created by that email has its archive
    flag cleared and its two stamps removed, whoever archived it, and every
    other record is left as it was; no record is created or deleted. Without
    a profile, or with a profile without email, no record is touched. *)
Theorem X29_unarchiving_clears_the_records_of_the_email (now : Z) (uid : string) (st : state) :
  JS.truthy uid = true ->
  let out := archive_admin now (Some uid) (Some false) st in
  (forall e d id,
     users st !! uid = Some d -> UserDoc.email d = Some e -> JS.truthy e = true ->
     vaccineStock (snd out) !! id =
       (fun r => if decide (StockDoc.createdBy_email r = Some e)
                 then StockDoc.mk (StockDoc.createdBy_email r) false None None else r)
         <$> vaccineStock st !! id) /\
  ((users st !! uid = None \/ exists d, users st !! uid = Some d /\ UserDoc.email d = None) ->
   vaccineStock (snd out) = vaccineStock st).
Proof.
  intros Hu out. split.
  - intros e d id Hd He Ht. apply (unarchive_cascades now uid e d st id Hu Hd He Ht).
  - intros H. unfold out, archive_admin. rewrite Hu.
    cbn [negb snd vaccineStock users with_vaccineStock with_users with_auth].
    destruct H as [H | (d & H & He)]; rewrite H; [|rewrite He]; reflexivity.
Qed.

Lemma X29_witness :
  let out := archive_admin 900 (Some "u1") (Some false) archived_example_state in
  vaccineStock archived_example_state !! "s1" =
    Some (StockDoc.mk (Some "a@x.com") true (Some 500) (Some "root@x.com")) /\
  vaccineStock (snd out) !! "s1" = Some (StockDoc.mk (Some "a@x.com") false None None) /\
  vaccineStock (snd out) !! "s2" = vaccineStock archived_example_state !! "s2".
Proof.
  pose proof (proj1 (X29_unarchiving_clears_the_records_of_the_email 900 "u1"
                       archived_example_state eq_refl)) as H.
  cbv zeta in H. split; [reflexivity|]. split.
  - rewrite (H "a@x.com" _ "s1" eq_refl eq_refl eq_refl). reflexivity.
  - rewrite (H "a@x.com" _ "s2" eq_refl eq_refl eq_refl). reflexivity.
Defined.

(** X30. A token is valid from its issuance to its expiry and not after:
    validated with the issuing secret it gives the stamped payload as long as
    now is not past the time of issue plus the validity (24 hours when none
    is given), and null from then on. *)
Theorem X30_token_validity_window (now now' : Z) (payload : list (string * JSON.value))
    (secret : string) (ttlMs : option Z) :
  distinct_keys (JSON.JObject payload) ->
  verifyEmailChangeToken now' (Some (createEmailChangeToken now payload secret ttlMs)) secret =
    if (now' >? now + default (24 * 60 * 60 * 1000) ttlMs)%Z then Ok None
    else Ok (Some (JSON.JObject (stamped now payload ttlMs))).
Proof.
  intros Hd. rewrite verify_issued. cbv zeta.
  rewrite (verify_signed_body_issued now now' payload secret ttlMs Hd).
  destruct (now' >? now + default (24 * 60 * 60 * 1000) ttlMs)%Z; reflexivity.
Qed.

Lemma X30_witness :
  verifyEmailChangeToken (1730000000000 + 86400000)
    (Some (createEmailChangeToken 1730000000000 example_payload EMAIL_CHANGE_SECRET None))
    EMAIL_CHANGE_SECRET =
    Ok (Some (JSON.JObject (stamped 1730000000000 example_payload None))) /\
  verifyEmailChangeToken (1730000000000 + 86400001)
    (Some (createEmailChangeToken 1730000000000 example_payload EMAIL_CHANGE_SECRET None))
    EMAIL_CHANGE_SECRET = Ok None.
Proof.
  split.
  - rewrite (X30_token_validity_window 1730000000000 (1730000000000 + 86400000)
               example_payload EMAIL_CHANGE_SECRET None example_payload_distinct).
    reflexivity.
  - rewrite (X30_token_validity_window 1730000000000 (1730000000000 + 86400001)
               example_payload EMAIL_CHANGE_SECRET None example_payload_distinct).
    reflexivity.
Defined.
